(** * Seat reconciliation engine of the [bilety] seat checker

    A shallow embedding of the reconciliation core of the repository:
    the stats route ([POST], [matchSectorByStructure],
    [combineBiletynaSectors], [processEbiletAllSectors],
    [normalizeRowName], [normalizeSeatKey]) and the page component
    ([calculateSectorVisualizationWithBase], [mergeColors] and its own
    [normalizeRowName] / [normalizeSeatKey]); then the vendors' parsers,
    the files kept per event ([history.ts], the overrides route), the URL
    cache, [eventJoin.ts] and the events route.

    Modelling conventions.
    - A JavaScript string is a [string]: the sequence of its code units,
      written here as the bytes of its UTF-8 form.  The tests the code
      performs on characters (ASCII digits, the letters I V X L C, the
      separators '-' and ':') only ever concern ASCII, and no byte of a
      multi-byte UTF-8 sequence is an ASCII byte, so these tests read the
      same on both forms.  [toUpperCase], [toLowerCase] and [trim] are
      those of JavaScript on strings of ASCII characters; beyond ASCII they
      know the sharp s only ("ß" upper-cases to "SS", "ẞ" lower-cases to
      "ß") and leave every other character alone.  What is stated of every
      label is therefore stated of the labels made of ASCII characters,
      or holds whatever the normaliser does.
    - A JavaScript [Map], [Set] or object used as a dictionary is a stdpp
      [gmap] / [gset]; arrays are lists.  Where the code reads a plain
      object under a key it does not control ([history[eventId]]), the
      members the object inherits are modelled too; where it only meets
      them on names no vendor uses ([sfs[sid]], a row "__proto__" written
      by assignment), the statement is made of the other names.
    - Counts are integers ([Z]).  The similarity score is a JavaScript
      number: an IEEE 754 double, [spec_float] with the operations of the
      Standard Library's specification of binary64. *)

From Stdlib Require Import String Ascii ZArith QArith Bool List Lia.
From Stdlib Require Import DecimalString.
From Stdlib Require Import Floats.SpecFloat.
From stdpp Require Import gmap strings list fin_maps.

Local Open Scope string_scope.
Local Open Scope list_scope.

(** ** JavaScript string primitives *)

Module JsString.

(** The white space of ASCII: tab, line feed, vertical tab, form feed,
    carriage return and space. *)
Definition isWhiteSpace (c : ascii) : bool :=
  let n := nat_of_ascii c in
  ((9 <=? n)%nat && (n <=? 13)%nat) || (n =? 32)%nat.

Definition upperChar (c : ascii) : ascii :=
  let n := nat_of_ascii c in
  if ((97 <=? n)%nat && (n <=? 122)%nat)%bool then ascii_of_nat (n - 32) else c.

Definition lowerChar (c : ascii) : ascii :=
  let n := nat_of_ascii c in
  if ((65 <=? n)%nat && (n <=? 90)%nat)%bool then ascii_of_nat (n + 32) else c.

Fixpoint mapChars (f : ascii -> ascii) (s : string) : string :=
  match s with
  | EmptyString => EmptyString
  | String c s' => String (f c) (mapChars f s')
  end.

(** The two bytes of "ß" (U+00DF) and the three bytes of "ẞ" (U+1E9E). *)
Definition isSharpS (c d : ascii) : bool :=
  Ascii.eqb c "195" && Ascii.eqb d "159".

Definition isCapitalSharpS (c d e : ascii) : bool :=
  Ascii.eqb c "225" && Ascii.eqb d "186" && Ascii.eqb e "158".

(** [s.toUpperCase()] for a string whose cased letters are ASCII letters
    or the sharp s; other characters are left as they are. *)
Fixpoint toUpperCase (s : string) : string :=
  match s with
  | EmptyString => EmptyString
  | String c s' =>
      match s' with
      | String d rest =>
          if isSharpS c d then String "S" (String "S" (toUpperCase rest))
          else String (upperChar c) (toUpperCase s')
      | EmptyString => String (upperChar c) EmptyString
      end
  end.

(** [s.toLowerCase()] for a string whose cased letters are ASCII letters
    or the capital sharp s; other characters are left as they are. *)
Fixpoint toLowerCase (s : string) : string :=
  match s with
  | EmptyString => EmptyString
  | String c s' =>
      match s' with
      | String d (String e rest) =>
          if isCapitalSharpS c d e
          then String "195" (String "159" (toLowerCase rest))
          else String (lowerChar c) (toLowerCase s')
      | _ => String (lowerChar c) (toLowerCase s')
      end
  end.

(** Does the string start with "ß", with "ẞ"? *)
Definition startsSharpS (s : string) : bool :=
  match s with
  | String c (String d _) => isSharpS c d
  | _ => false
  end.


Definition isAscii (c : ascii) : bool := (nat_of_ascii c <? 128)%nat.

Fixpoint trimStart (s : string) : string :=
  match s with
  | EmptyString => EmptyString
  | String c s' => if isWhiteSpace c then trimStart s' else s
  end.

Fixpoint trimEnd (s : string) : string :=
  match s with
  | EmptyString => EmptyString
  | String c s' =>
      match trimEnd s' with
      | EmptyString => if isWhiteSpace c then EmptyString else String c EmptyString
      | t => String c t
      end
  end.

(** [s.trim()] for a string whose white space is that of ASCII. *)
Definition trim (s : string) : string := trimEnd (trimStart s).

(** A string that is empty or starts with a character [trim] keeps. *)
Definition headKept (s : string) : bool :=
  match s with
  | EmptyString => true
  | String c _ => negb (isWhiteSpace c)
  end.

(** [s.split(sep)] for a one-character separator: never empty. *)
Fixpoint split (sep : ascii) (s : string) : list string :=
  match s with
  | EmptyString => [EmptyString]
  | String c s' =>
      if Ascii.eqb c sep then EmptyString :: split sep s'
      else match split sep s' with
           | p :: ps => String c p :: ps
           | [] => [String c EmptyString]
           end
  end.

(** [parts.join(sep)]. *)
Fixpoint join (sep : string) (parts : list string) : string :=
  match parts with
  | [] => EmptyString
  | [p] => p
  | p :: ps => p +:+ sep +:+ join sep ps
  end.

Fixpoint allChars (p : ascii -> bool) (s : string) : bool :=
  match s with
  | EmptyString => true
  | String c s' => p c && allChars p s'
  end.

(** [String(n)] for an integer [n]. *)
Definition String_of_number (n : Z) : string :=
  NilZero.string_of_int (Z.to_int n).

End JsString.

Import JsString.

(** ** Row and seat-key normalisation *)

(** The table [ROMAN_MAP]; both files carry the same thirty entries. *)
Definition ROMAN_MAP : list (string * Z) :=
  [ ("I", 1); ("II", 2); ("III", 3); ("IV", 4); ("V", 5);
    ("VI", 6); ("VII", 7); ("VIII", 8); ("IX", 9); ("X", 10);
    ("XI", 11); ("XII", 12); ("XIII", 13); ("XIV", 14); ("XV", 15);
    ("XVI", 16); ("XVII", 17); ("XVIII", 18); ("XIX", 19); ("XX", 20);
    ("XXI", 21); ("XXII", 22); ("XXIII", 23); ("XXIV", 24); ("XXV", 25);
    ("XXVI", 26); ("XXVII", 27); ("XXVIII", 28); ("XXIX", 29); ("XXX", 30) ]%Z.

(** [ROMAN_MAP[key]], with [None] for [undefined]. *)
Fixpoint tableLookup (tbl : list (string * Z)) (key : string) : option Z :=
  match tbl with
  | [] => None
  | (k, v) :: tbl' => if String.eqb k key then Some v else tableLookup tbl' key
  end.

Definition romanValue (key : string) : option Z := tableLookup ROMAN_MAP key.

(** ** Data model ([types.ts]) *)

Inductive SourceType : Type := biletyna | ebilet | kupbilecik.

#[global] Instance SourceType_eq_dec : EqDecision SourceType.
Proof. solve_decision. Defined.

(** [{ total, free, taken }]: a [RowStats], and the shape of every
    [totals] field. *)
Record RowStats : Type := mkRowStats { total : Z; free : Z; taken : Z }.

Record SectorStats : Type := mkSectorStats {
  sectorName : string;
  rows : gmap string RowStats;
  freeSeats : list string;
  takenSeats : list string;
  totals : RowStats
}.

Record SourceStats : Type := mkSourceStats {
  source : SourceType;
  source_totals : RowStats;
  source_rows : gmap string RowStats;
  source_freeSeats : list string;
  source_takenSeats : list string;
  sectors : option (list SectorStats);
  finalUrl : option string
}.

(** ** JavaScript numbers

    A number is an IEEE 754 double: a [spec_float], with the operations
    the Standard Library specifies for binary64 (precision 53, maximal
    exponent 1024, rounding to nearest, ties to even). *)

Module Double.

Definition prec : Z := 53.
Definition emax : Z := 1024.

(** The number written as the integer [n]: [n] itself when it is a
    double, as every integer below 2^53 is, and the nearest double
    otherwise. *)
Definition ofZ (n : Z) : spec_float := binary_normalize prec emax n 0 false.

Definition zero : spec_float := S754_zero false.

Definition add : spec_float -> spec_float -> spec_float := SFadd prec emax.
Definition sub : spec_float -> spec_float -> spec_float := SFsub prec emax.
Definition mul : spec_float -> spec_float -> spec_float := SFmul prec emax.
Definition div : spec_float -> spec_float -> spec_float := SFdiv prec emax.

Definition isNaN (x : spec_float) : bool :=
  match x with
  | S754_nan => true
  | _ => false
  end.

(** [a > b], [a >= b] and [a === b]: false when either side is NaN. *)
Definition gtb (a b : spec_float) : bool := SFltb b a.
Definition geb (a b : spec_float) : bool := SFleb b a.
Definition eqb (a b : spec_float) : bool := SFeqb a b.

(** [Math.abs(a)]. *)
Definition abs (a : spec_float) : spec_float := SFabs a.

(** [Math.max(a, b)]: NaN when either is, and +0 for the two zeros. *)
Definition max (a b : spec_float) : spec_float :=
  if isNaN a || isNaN b then S754_nan
  else if SFltb a b then b
  else if SFltb b a then a
  else match a with
       | S754_zero true => b
       | _ => a
       end.

End Double.

(** The comparison of the row-count filter, read on the rationals. *)
Definition Qltb (a b : Q) : bool := negb (Qle_bool b a).

Module Backend.

Definition isDigit (c : ascii) : bool :=
  let n := nat_of_ascii c in (48 <=? n)%nat && (n <=? 57)%nat.

Definition isRomanChar (c : ascii) : bool :=
  Ascii.eqb c "I" || Ascii.eqb c "V" || Ascii.eqb c "X"
  || Ascii.eqb c "L" || Ascii.eqb c "C".

(** Does the whole of [s] match [\d+|[IVXLC]+]? *)
Definition wholeNumeral (s : string) : bool :=
  match s with
  | EmptyString => false
  | _ => allChars isDigit s || allChars isRomanChar s
  end.

(** [s.match(/(\d+|[IVXLC]+)$/)]: the regular expression is tried at every
    start position from the left; at a given position the group followed
    by [$] succeeds exactly when the rest of the string is a non-empty run
    of digits or a non-empty run of the letters I V X L C.  The result is
    the captured group [match[1]]. *)
Fixpoint matchTrailingNumeral (s : string) : option string :=
  if wholeNumeral s then Some s
  else match s with
       | EmptyString => None
       | String _ s' => matchTrailingNumeral s'
       end.

Definition normalizeRowName (row : string) : string :=
  let trimmed := toUpperCase (trim row) in
  match romanValue trimmed with
  | Some n => String_of_number n
  | None =>
      match matchTrailingNumeral trimmed with
      | Some numPart =>
          match romanValue numPart with
          | Some n => String_of_number n
          | None => numPart
          end
      | None => toLowerCase trimmed
      end
  end.

Definition normalizeSeatKey (seatKey : string) : string :=
  match split "-" seatKey with
  | p0 :: ((_ :: _) as rest) =>
      let row := normalizeRowName p0 in
      let seat := join "-" rest in
      row +:+ "-" +:+ seat
  | _ => seatKey
  end.

(** *** [matchSectorByStructure]

    The score is computed in doubles, operation by operation as the code
    does: its last bits decide between two candidates of nearly equal
    scores, and between a score of 50 and one just below it.

    The filter [rowCountDiff > 0.3] is read on the rationals.  The row
    counts are array lengths, integers below 2^32: a quotient p/q of such
    integers other than 3/10 is at least 1/(10q) away from 3/10, far more
    than the rounding error of the division and than the distance from
    3/10 to the literal [0.3], and 3/10 itself rounds to that literal; so
    the test on doubles and the test on rationals agree. *)

(** [Object.keys(rows)] / [Array.from(rows.keys())]. *)
Definition keysOf (m : gmap string RowStats) : list string := (map_to_list m).*1.

(** [Array.from(rows.values()).reduce((sum, r) => sum + r.total, 0)]. *)
Definition totalSeatsOf (m : gmap string RowStats) : Z :=
  fold_left (fun sum r => (sum + total r)%Z) ((map_to_list m).*2) 0%Z.

(** [new Set(names.map(normalizeRowName))]. *)
Definition normalizedRowSet (names : list string) : gset string :=
  list_to_set (normalizeRowName <$> names).

(** [Math.abs(a - b) / Math.max(a, b, 1)] on counts: the quotient, for
    the filter. *)
Definition relDiff (a b : Z) : Q :=
  (inject_Z (Z.abs (a - b)) / inject_Z (Z.max (Z.max a b) 1))%Q.

(** [Math.abs(a - b) / Math.max(a, b, 1)] on counts: the number. *)
Definition relDiffNumber (a b : Z) : spec_float :=
  Double.div (Double.abs (Double.sub (Double.ofZ a) (Double.ofZ b)))
             (Double.max (Double.max (Double.ofZ a) (Double.ofZ b)) (Double.ofZ 1)).

(** The score the loop body computes for a candidate that passed the
    row-count filter. *)
Definition sectorScore (ebiletRows : gmap string RowStats) (sector : SectorStats)
    : spec_float :=
  let ebiletRowNames := keysOf ebiletRows in
  let ebiletRowCount := Z.of_nat (length ebiletRowNames) in
  let ebiletTotalSeats := totalSeatsOf ebiletRows in
  let normalizedEbiletRows := normalizedRowSet ebiletRowNames in
  let kbRowNames := keysOf (rows sector) in
  let kbRowCount := Z.of_nat (length kbRowNames) in
  let kbTotalSeats := total (totals sector) in
  let rowCountDiff := relDiffNumber ebiletRowCount kbRowCount in
  let score := Double.zero in
  let score :=
    if Double.eqb (Double.ofZ ebiletRowCount) (Double.ofZ kbRowCount)
    then Double.add score (Double.ofZ 30)
    else Double.add score
           (Double.max Double.zero
              (Double.sub (Double.ofZ 30) (Double.mul rowCountDiff (Double.ofZ 100)))) in
  let seatDiffPercent := relDiffNumber ebiletTotalSeats kbTotalSeats in
  let score :=
    if Double.eqb (Double.ofZ ebiletTotalSeats) (Double.ofZ kbTotalSeats)
    then Double.add score (Double.ofZ 30)
    else Double.add score
           (Double.max Double.zero
              (Double.sub (Double.ofZ 30) (Double.mul seatDiffPercent (Double.ofZ 150)))) in
  let normalizedKbRows := normalizedRowSet kbRowNames in
  let matchingRowNames :=
    Z.of_nat (length (filter (fun normalizedRow => normalizedRow ∈ normalizedKbRows)
                             (elements normalizedEbiletRows))) in
  let rowNameMatchRatio :=
    Double.div (Double.ofZ matchingRowNames)
               (Double.max (Double.ofZ ebiletRowCount) (Double.ofZ 1)) in
  Double.add score (Double.mul rowNameMatchRatio (Double.ofZ 40)).

(** [matchedSectors?.has(name)]. *)
Definition alreadyMatched (matchedSectors : option (gset string)) (name : string) : bool :=
  match matchedSectors with
  | Some m => bool_decide (name ∈ m)
  | None => false
  end.

(** The hard filter: [rowCountDiff > 0.3]. *)
Definition rowCountTooFar (ebiletRows : gmap string RowStats) (sector : SectorStats) : bool :=
  Qltb (3 # 10)
       (relDiff (Z.of_nat (length (keysOf ebiletRows)))
                (Z.of_nat (length (keysOf (rows sector))))).

Record MatchState : Type := mkMatchState {
  bestMatch : option SectorStats;
  bestScore : spec_float
}.

(** One turn of [for (const sector of kupbilecikSectors)]. *)
Definition matchStep (ebiletRows : gmap string RowStats)
    (matchedSectors : option (gset string))
    (st : MatchState) (sector : SectorStats) : MatchState :=
  if alreadyMatched matchedSectors (sectorName sector) then st
  else if rowCountTooFar ebiletRows sector then st
  else
    let score := sectorScore ebiletRows sector in
    if Double.gtb score (bestScore st)
    then {| bestMatch := Some sector; bestScore := score |}
    else st.

Definition matchLoop (ebiletRows : gmap string RowStats)
    (kupbilecikSectors : list SectorStats)
    (matchedSectors : option (gset string)) : MatchState :=
  fold_left (matchStep ebiletRows matchedSectors) kupbilecikSectors
            {| bestMatch := None; bestScore := Double.zero |}.

(** The result and the set [matchedSectors] as the call leaves it. *)
Definition matchSectorByStructure (ebiletRows : gmap string RowStats)
    (kupbilecikSectors : list SectorStats)
    (matchedSectors : option (gset string))
    : option SectorStats * option (gset string) :=
  let st := matchLoop ebiletRows kupbilecikSectors matchedSectors in
  match bestMatch st with
  | Some best =>
      if Double.geb (bestScore st) (Double.ofZ 50)
      then (Some best,
            match matchedSectors with
            | Some m => Some ({[ sectorName best ]} ∪ m)
            | None => None
            end)
      else (None, matchedSectors)
  | None => (None, matchedSectors)
  end.

(** *** [combineBiletynaSectors] *)

Record BiletynaSectorResult : Type := mkBiletynaSectorResult {
  biletyna_rows : gmap string RowStats;
  biletyna_freeSeats : list string;
  biletyna_takenSeats : list string
}.

Definition lengthZ {A : Type} (l : list A) : Z := Z.of_nat (length l).

(** [{ total: free.length + taken.length, free: free.length, taken: taken.length }]. *)
Definition totalsOf (freeL takenL : list string) : RowStats :=
  {| total := lengthZ freeL + lengthZ takenL;
     free := lengthZ freeL;
     taken := lengthZ takenL |}.

(** [`Sektor ${n}`]. *)
Definition fallbackName (n : nat) : string :=
  "Sektor " +:+ String_of_number (Z.of_nat n).

(** The per-row accumulation into [globalRowsData]:
    create the entry with zeros when absent, then add. *)
Definition addRowStats (globalRowsData : gmap string RowStats)
    (row : string) (stats : RowStats) : gmap string RowStats :=
  let globalStats := default (mkRowStats 0 0 0) (globalRowsData !! row) in
  <[ row := {| total := total globalStats + total stats;
               free := free globalStats + free stats;
               taken := taken globalStats + taken stats |} ]> globalRowsData.

Record CombineState : Type := mkCombineState {
  cs_sectors : list SectorStats;
  cs_globalRowsData : gmap string RowStats;
  cs_globalFreeSeats : list string;
  cs_globalTakenSeats : list string;
  cs_matchedKbSectors : gset string
}.

(** The match attempted for a sector once its rows are known
    ([if (kupbilecikSectors) ... matchSectorByStructure(...)]). *)
Definition tryMatch (rowsMap : gmap string RowStats)
    (kupbilecikSectors : option (list SectorStats))
    (matchedKbSectors : gset string) : option SectorStats * gset string :=
  match kupbilecikSectors with
  | Some kbs =>
      let '(matchedSector, m) :=
        matchSectorByStructure rowsMap kbs (Some matchedKbSectors) in
      (matchedSector, default matchedKbSectors m)
  | None => (None, matchedKbSectors)
  end.

(** The body of [for (let i = 0; i < sectorResults.length; i++)]. *)
Definition combineStep (kupbilecikSectors : option (list SectorStats))
    (i : nat) (st : CombineState) (r : string * BiletynaSectorResult)
    : CombineState :=
  let data := r.2 in
  let '(matchedSector, matched') :=
    tryMatch (biletyna_rows data) kupbilecikSectors (cs_matchedKbSectors st) in
  let name :=
    match matchedSector with
    | Some m => sectorName m
    | None => fallbackName (i + 1)
    end in
  {| cs_sectors :=
       cs_sectors st ++
       [ {| sectorName := name;
            rows := biletyna_rows data;
            freeSeats := biletyna_freeSeats data;
            takenSeats := biletyna_takenSeats data;
            totals := totalsOf (biletyna_freeSeats data) (biletyna_takenSeats data) |} ];
     cs_globalRowsData :=
       fold_left (fun g kv => addRowStats g kv.1 kv.2)
                 (map_to_list (biletyna_rows data)) (cs_globalRowsData st);
     cs_globalFreeSeats := cs_globalFreeSeats st ++ biletyna_freeSeats data;
     cs_globalTakenSeats := cs_globalTakenSeats st ++ biletyna_takenSeats data;
     cs_matchedKbSectors := matched' |}.

Fixpoint combineLoop (kupbilecikSectors : option (list SectorStats))
    (i : nat) (sectorResults : list (string * BiletynaSectorResult))
    (st : CombineState) : CombineState :=
  match sectorResults with
  | [] => st
  | r :: rest =>
      combineLoop kupbilecikSectors (S i) rest (combineStep kupbilecikSectors i st r)
  end.

Definition combineInit : CombineState :=
  {| cs_sectors := []; cs_globalRowsData := ∅; cs_globalFreeSeats := [];
     cs_globalTakenSeats := []; cs_matchedKbSectors := ∅ |}.

Definition combineBiletynaSectors
    (sectorResults : list (string * BiletynaSectorResult))
    (kupbilecikSectors : option (list SectorStats)) : option SourceStats :=
  match sectorResults with
  | [] => None
  | [r] =>
      let data := r.2 in
      Some {| source := biletyna;
              source_totals := totalsOf (biletyna_freeSeats data) (biletyna_takenSeats data);
              source_rows := biletyna_rows data;
              source_freeSeats := biletyna_freeSeats data;
              source_takenSeats := biletyna_takenSeats data;
              sectors := None;
              finalUrl := None |}
  | _ =>
      let st := combineLoop kupbilecikSectors 0 sectorResults combineInit in
      Some {| source := biletyna;
              source_totals := totalsOf (cs_globalFreeSeats st) (cs_globalTakenSeats st);
              source_rows := cs_globalRowsData st;
              source_freeSeats := cs_globalFreeSeats st;
              source_takenSeats := cs_globalTakenSeats st;
              sectors := if (1 <? length (cs_sectors st))%nat
                         then Some (cs_sectors st) else None;
              finalUrl := None |}
  end.

(** *** [processEbiletAllSectors] *)

(** The fields [id], [rn] and [n] of a seat, and [sid], [s] of a response. *)
Record EbiletSeat : Type := mkEbiletSeat {
  seat_id : string;
  seat_rn : string;
  seat_n : string
}.

Record EbiletSeatsResponse : Type := mkEbiletSeatsResponse {
  seats_sid : string;
  seats_s : list EbiletSeat
}.

(** [sfs] maps a sector id to its groups, each group carrying the seat
    ids of its own field [s]. *)
Record EbiletFreeSeatsResponse : Type := mkEbiletFreeSeatsResponse {
  sfs : gmap string (list (list string));
  err : option string
}.

Record EbiletSectorAcc : Type := mkEbiletSectorAcc {
  sectorRowsData : gmap string RowStats;
  sectorFreeSeats : list string;
  sectorTakenSeats : list string
}.

Record EbiletState : Type := mkEbiletState {
  es_sectors : list SectorStats;
  es_globalRowsData : gmap string RowStats;
  es_globalFreeSeats : list string;
  es_globalTakenSeats : list string;
  es_matchedKbSectors : gset string;
  es_sectorIndex : nat
}.

(** [rowStats.total++] then [free++] or [taken++], creating the entry
    with zeros when absent. *)
Definition countSeat (rowsData : gmap string RowStats) (row : string)
    (isFree : bool) : gmap string RowStats :=
  addRowStats rowsData row
    (if isFree then mkRowStats 1 1 0 else mkRowStats 1 0 1).

(** The body of [for (const seat of seatsData.s)]. *)
Definition ebiletSeatStep (freeSeatIds : gset string)
    (acc : EbiletSectorAcc * EbiletState) (seat : EbiletSeat)
    : EbiletSectorAcc * EbiletState :=
  let '(sec, st) := acc in
  let seatKey := seat_rn seat +:+ "-" +:+ seat_n seat in
  let row := seat_rn seat in
  let isFree := bool_decide (seat_id seat ∈ freeSeatIds) in
  ({| sectorRowsData := countSeat (sectorRowsData sec) row isFree;
      sectorFreeSeats :=
        if isFree then sectorFreeSeats sec ++ [seatKey] else sectorFreeSeats sec;
      sectorTakenSeats :=
        if isFree then sectorTakenSeats sec else sectorTakenSeats sec ++ [seatKey] |},
   {| es_sectors := es_sectors st;
      es_globalRowsData := countSeat (es_globalRowsData st) row isFree;
      es_globalFreeSeats :=
        if isFree then es_globalFreeSeats st ++ [seatKey] else es_globalFreeSeats st;
      es_globalTakenSeats :=
        if isFree then es_globalTakenSeats st else es_globalTakenSeats st ++ [seatKey];
      es_matchedKbSectors := es_matchedKbSectors st;
      es_sectorIndex := es_sectorIndex st |}).

(** The seats of one sector, scanned: the sector's own accumulators and
    the state with the global accumulators advanced and [sectorIndex]
    incremented.  The free ids are those of [sfs[sid] || []]. *)
Definition ebiletScanSector (freeSeatsData : EbiletFreeSeatsResponse)
    (st : EbiletState) (entry : string * EbiletSeatsResponse)
    : EbiletSectorAcc * EbiletState :=
  let '(sid0, seatsData) := entry in
  let sectorGroups := default [] (sfs freeSeatsData !! sid0) in
  let freeSeatIds : gset string := list_to_set (concat sectorGroups) in
  fold_left (ebiletSeatStep freeSeatIds) (seats_s seatsData)
    ({| sectorRowsData := ∅; sectorFreeSeats := []; sectorTakenSeats := [] |},
     {| es_sectors := es_sectors st;
        es_globalRowsData := es_globalRowsData st;
        es_globalFreeSeats := es_globalFreeSeats st;
        es_globalTakenSeats := es_globalTakenSeats st;
        es_matchedKbSectors := es_matchedKbSectors st;
        es_sectorIndex := S (es_sectorIndex st) |}).

(** The body of [for (const [sid, seatsData] of seatsBySid)]. *)
Definition ebiletStep (freeSeatsData : EbiletFreeSeatsResponse)
    (kupbilecikSectors : option (list SectorStats))
    (st : EbiletState) (entry : string * EbiletSeatsResponse) : EbiletState :=
  let '(sec, st1) := ebiletScanSector freeSeatsData st entry in
  if (0 <? size (sectorRowsData sec))%nat then
    let '(matchedSector, matched') :=
      tryMatch (sectorRowsData sec) kupbilecikSectors (es_matchedKbSectors st1) in
    let name :=
      match matchedSector with
      | Some m => sectorName m
      | None => fallbackName (es_sectorIndex st1)
      end in
    {| es_sectors :=
         es_sectors st1 ++
         [ {| sectorName := name;
              rows := sectorRowsData sec;
              freeSeats := sectorFreeSeats sec;
              takenSeats := sectorTakenSeats sec;
              totals := totalsOf (sectorFreeSeats sec) (sectorTakenSeats sec) |} ];
       es_globalRowsData := es_globalRowsData st1;
       es_globalFreeSeats := es_globalFreeSeats st1;
       es_globalTakenSeats := es_globalTakenSeats st1;
       es_matchedKbSectors := matched';
       es_sectorIndex := es_sectorIndex st1 |}
  else st1.

Definition ebiletInit : EbiletState :=
  {| es_sectors := []; es_globalRowsData := ∅; es_globalFreeSeats := [];
     es_globalTakenSeats := []; es_matchedKbSectors := ∅; es_sectorIndex := 0 |}.

(** [list.sort()]: ascending in the order of the code units. *)
Fixpoint insertSorted (x : string) (l : list string) : list string :=
  match l with
  | [] => [x]
  | y :: l' => if String.leb x y then x :: l else y :: insertSorted x l'
  end.

Definition sortStrings (l : list string) : list string :=
  fold_right insertSorted [] l.

Definition processEbiletAllSectors
    (seatsBySid : list (string * EbiletSeatsResponse))
    (freeSeatsData : EbiletFreeSeatsResponse)
    (kupbilecikSectors : option (list SectorStats)) : option SourceStats :=
  match err freeSeatsData with
  | Some _ => None
  | None =>
      match seatsBySid with
      | [] => None
      | _ =>
          let st := fold_left (ebiletStep freeSeatsData kupbilecikSectors)
                              seatsBySid ebiletInit in
          if (size (es_globalRowsData st) =? 0)%nat then None
          else
            let globalFreeSeats := sortStrings (es_globalFreeSeats st) in
            let globalTakenSeats := sortStrings (es_globalTakenSeats st) in
            Some {| source := ebilet;
                    source_totals := totalsOf globalFreeSeats globalTakenSeats;
                    source_rows := es_globalRowsData st;
                    source_freeSeats := globalFreeSeats;
                    source_takenSeats := globalTakenSeats;
                    sectors := if (1 <? length (es_sectors st))%nat
                               then Some (es_sectors st) else None;
                    finalUrl := None |}
      end
  end.

(** *** [POST]: matching the vendors' sectors once every source is in *)

(** [results]: at most one entry per source, in insertion order (the
    order [Object.entries] follows). *)
Definition Results : Type := list (SourceType * SourceStats).

Fixpoint getResult (results : Results) (k : SourceType) : option SourceStats :=
  match results with
  | [] => None
  | (k', v) :: rest => if decide (k' = k) then Some v else getResult rest k
  end.






(** *** [POST]: seat history and inferred sales *)

Record HistoryState : Type := mkHistoryState {
  history : gmap string SourceType;
  currentFreeKeys : gset string;
  knownSectors : gset string
}.

(** [`${sector.sectorName}:${normalizedSeatKey}`]. *)
Definition uniqueKeyOf (sector : SectorStats) (seatKey : string) : string :=
  sectorName sector +:+ ":" +:+ normalizeSeatKey seatKey.

(** The body of [for (const seatKey of sector.freeSeats)]. *)
Definition historySeatStep (src : SourceType) (sector : SectorStats)
    (st : HistoryState) (seatKey : string) : HistoryState :=
  let uniqueKey := uniqueKeyOf sector seatKey in
  {| history := <[ uniqueKey := src ]> (history st);
     currentFreeKeys := {[ uniqueKey ]} ∪ currentFreeKeys st;
     knownSectors := knownSectors st |}.

(** The body of [for (const sector of sourceData.sectors)]. *)
Definition historySectorStep (src : SourceType) (st : HistoryState)
    (sector : SectorStats) : HistoryState :=
  fold_left (historySeatStep src sector) (freeSeats sector)
    {| history := history st;
       currentFreeKeys := currentFreeKeys st;
       knownSectors := {[ sectorName sector ]} ∪ knownSectors st |}.

(** The body of [for (const [sourceName, sourceData] of Object.entries(results))]. *)
Definition historySourceStep (st : HistoryState)
    (entry : SourceType * SourceStats) : HistoryState :=
  match sectors entry.2 with
  | None => st
  | Some secs => fold_left (historySectorStep entry.1) secs st
  end.

(** Step 1, "Update history with currently FREE seats", from the
    history as loaded. *)
Definition POST_updateHistory (loaded : gmap string SourceType)
    (results : Results) : HistoryState :=
  fold_left historySourceStep results
    {| history := loaded; currentFreeKeys := ∅; knownSectors := ∅ |}.

(** [const [sectorName] = uniqueKey.split(':')]. *)
Definition sectorOfKey (uniqueKey : string) : string :=
  match split ":" uniqueKey with
  | p0 :: _ => p0
  | [] => ""
  end.

(** Step 2, "Infer SOLD seats": the loop over [Object.entries(history)]. *)
Definition POST_inferSold (st : HistoryState) : gmap string SourceType :=
  map_fold
    (fun uniqueKey lastSource inferredSold =>
       if bool_decide (sectorOfKey uniqueKey ∈ knownSectors st) then
         if bool_decide (uniqueKey ∈ currentFreeKeys st) then inferredSold
         else <[ uniqueKey := lastSource ]> inferredSold
       else inferredSold)
    ∅ (history st).

(** Steps 1 to 3: the history saved and the inferred sales returned. *)
Definition POST_history (loaded : gmap string SourceType) (results : Results)
    : gmap string SourceType * gmap string SourceType :=
  let st := POST_updateHistory loaded results in
  (history st, POST_inferSold st).

(** *** [POST]: the difference with the previous run ([statsHistory.ts]) *)

Record StatsHistoryEntry : Type := mkStatsHistoryEntry {
  biletynaTaken : Z;
  ebiletTaken : Z;
  kupbilecikTaken : Z;
  timestamp : string
}.

(** The file [stats_history.json]: absent, or an object with a record per
    event id; the map holds the object's own properties. *)
Definition StatsFile : Type := option (gmap string StatsHistoryEntry).

(** The names of the members an object inherits from
    [Object.prototype]. *)
Definition ObjectPrototype : list string :=
  [ "constructor"; "__defineGetter__"; "__defineSetter__"; "hasOwnProperty";
    "__lookupGetter__"; "__lookupSetter__"; "isPrototypeOf";
    "propertyIsEnumerable"; "toString"; "valueOf"; "__proto__";
    "toLocaleString" ].

(** What [history[eventId]] finds when it finds something: a record of
    the file, or the inherited member of that name, a function or, for
    "__proto__", the prototype itself; each of them is truthy. *)
Inductive PrevStats : Type :=
  | storedEntry (entry : StatsHistoryEntry)
  | inheritedMember (name : string).

(** [history[eventId] || null]; [null] also when the file is absent. *)
Definition loadStatsHistory (file : StatsFile) (eventId : string)
    : option PrevStats :=
  match file with
  | Some history0 =>
      match history0 !! eventId with
      | Some entry => Some (storedEntry entry)
      | None =>
          if bool_decide (eventId ∈ ObjectPrototype)
          then Some (inheritedMember eventId)
          else None
      end
  | None => None
  end.

(** [history[eventId] = entry] and the file written from the object's own
    properties.  The assignment to "__proto__" sets the prototype of the
    object, and no property, unless the file held such a property. *)
Definition saveStatsHistory (file : StatsFile) (eventId : string)
    (entry : StatsHistoryEntry) : StatsFile :=
  let history0 := default ∅ file in
  if String.eqb eventId "__proto__" && bool_decide (history0 !! eventId = None)
  then Some history0
  else Some (<[ eventId := entry ]> history0).

(** [results.X?.totals.taken || 0]. *)
Definition takenOf (results : Results) (k : SourceType) : Z :=
  match getResult results k with
  | Some stats => taken (source_totals stats)
  | None => 0
  end.

Definition currentStatsEntryOf (results : Results) (now : string) : StatsHistoryEntry :=
  {| biletynaTaken := takenOf results biletyna;
     ebiletTaken := takenOf results ebilet;
     kupbilecikTaken := takenOf results kupbilecik;
     timestamp := now |}.

(** A field of the diff: a count, or NaN. *)
Inductive Delta : Type :=
  | count (n : Z)
  | NaN.

(** [diffObj]; [lastUpdated] is [None] for [undefined]. *)
Record DiffObj : Type := mkDiffObj {
  diff_biletynaTaken : Delta;
  diff_ebiletTaken : Delta;
  diff_kupbilecikTaken : Delta;
  lastUpdated : option string
}.

(** [Math.max(0, current - prevStats.X)]: the field [X] of a record of the
    file is its count; an inherited member has no such field, and a count
    less [undefined] is NaN, which [Math.max] returns. *)
Definition deltaOf (current : Z) (prevStats : PrevStats)
    (field : StatsHistoryEntry -> Z) : Delta :=
  match prevStats with
  | storedEntry prev => count (Z.max 0 (current - field prev))
  | inheritedMember _ => NaN
  end.

(** [prevStats.timestamp]. *)
Definition timestampOf (prevStats : PrevStats) : option string :=
  match prevStats with
  | storedEntry prev => Some (timestamp prev)
  | inheritedMember _ => None
  end.

(** Step 4: [diffObj], [None] for [undefined]. *)
Definition POST_diff (currentStatsEntry : StatsHistoryEntry)
    (prevStats : option PrevStats) : option DiffObj :=
  match prevStats with
  | Some prev =>
      Some {| diff_biletynaTaken :=
                deltaOf (biletynaTaken currentStatsEntry) prev biletynaTaken;
              diff_ebiletTaken :=
                deltaOf (ebiletTaken currentStatsEntry) prev ebiletTaken;
              diff_kupbilecikTaken :=
                deltaOf (kupbilecikTaken currentStatsEntry) prev kupbilecikTaken;
              lastUpdated := timestampOf prev |}
  | None => None
  end.

(** Step 4 on the file: the diff reported and the file as saved. *)
Definition POST_stats (file : StatsFile) (eventId : string)
    (results : Results) (now : string) : option DiffObj * StatsFile :=
  let currentStatsEntry := currentStatsEntryOf results now in
  let prevStats := loadStatsHistory file eventId in
  (POST_diff currentStatsEntry prevStats,
   saveStatsHistory file eventId currentStatsEntry).

End Backend.

Module Frontend.

Definition normalizeRowName (row : string) : string :=
  let upperRow := trim (toUpperCase row) in
  match romanValue upperRow with
  | Some n => String_of_number n
  | None => trim row
  end.

Definition normalizeSeatKey (seatKey : string) : string :=
  match split "-" seatKey with
  | p0 :: ((_ :: _) as rest) =>
      let row := normalizeRowName p0 in
      let seat := join "-" rest in
      row +:+ "-" +:+ seat
  | _ => seatKey
  end.

(** *** [SEAT_COLORS] *)

Definition SEAT_COLORS_free (p : SourceType) : string :=
  match p with
  | biletyna => "#DDA0DD"
  | ebilet => "#FFFF99"
  | kupbilecik => "#FF9999"
  end.

Definition SEAT_COLORS_taken (p : SourceType) : string :=
  match p with
  | biletyna => "#800080"
  | ebilet => "#DAA520"
  | kupbilecik => "#8B0000"
  end.

Definition SEAT_COLORS_noData : string := "#808080".
Definition SEAT_COLORS_notForSale : string := "#000000".
Definition SEAT_COLORS_otherSource : string := "#5DADE2".
Definition SEAT_COLORS_boxOffice : string := "#1ABC9C".

(** *** [calculateSectorVisualizationWithBase] *)

(** [CombinedEventStats['perSource']]. *)
Record PerSource : Type := mkPerSource {
  ps_biletyna : option SourceStats;
  ps_ebilet : option SourceStats;
  ps_kupbilecik : option SourceStats
}.

Definition perSourceGet (perSource : PerSource) (portal : SourceType)
    : option SourceStats :=
  match portal with
  | biletyna => ps_biletyna perSource
  | ebilet => ps_ebilet perSource
  | kupbilecik => ps_kupbilecik perSource
  end.

(** ['free' | 'taken']; [null] is [None]. *)
Inductive SeatStatus : Type := st_free | st_taken.

#[global] Instance SeatStatus_eq_dec : EqDecision SeatStatus.
Proof. solve_decision. Defined.

(** [Record<SourceType, 'free' | 'taken' | null>]. *)
Record Statuses : Type := mkStatuses {
  on_biletyna : option SeatStatus;
  on_ebilet : option SeatStatus;
  on_kupbilecik : option SeatStatus
}.

Definition statusOn (statuses : Statuses) (portal : SourceType) : option SeatStatus :=
  match portal with
  | biletyna => on_biletyna statuses
  | ebilet => on_ebilet statuses
  | kupbilecik => on_kupbilecik statuses
  end.

(** [statuses[portal] = v]. *)
Definition setStatusOn (statuses : Statuses) (portal : SourceType)
    (v : option SeatStatus) : Statuses :=
  match portal with
  | biletyna => {| on_biletyna := v; on_ebilet := on_ebilet statuses;
                   on_kupbilecik := on_kupbilecik statuses |}
  | ebilet => {| on_biletyna := on_biletyna statuses; on_ebilet := v;
                 on_kupbilecik := on_kupbilecik statuses |}
  | kupbilecik => {| on_biletyna := on_biletyna statuses;
                     on_ebilet := on_ebilet statuses; on_kupbilecik := v |}
  end.

Definition noStatuses : Statuses :=
  {| on_biletyna := None; on_ebilet := None; on_kupbilecik := None |}.

(** The two maps the first half of the function fills. *)
Record Layout : Type := mkLayout {
  seatsPerRow : gmap string (list string);
  seatStatuses : gmap string Statuses
}.

(** [parts[0]] and [parts.slice(1).join('-')] of [key.split('-')]. *)
Definition rowOfKey (key : string) : string :=
  match split "-" key with
  | p0 :: _ => p0
  | [] => ""
  end.

Definition seatNameOfKey (key : string) : string :=
  join "-" (tl (split "-" key)).

(** The body of [for (const seat of kbSector.freeSeats)]. *)
Definition baseFreeStep (lay : Layout) (seat : string) : Layout :=
  let normalizedSeat := normalizeSeatKey seat in
  let row := rowOfKey normalizedSeat in
  let seatName := seatNameOfKey normalizedSeat in
  {| seatStatuses :=
       <[ normalizedSeat := {| on_biletyna := None; on_ebilet := None;
                               on_kupbilecik := Some st_free |} ]> (seatStatuses lay);
     seatsPerRow :=
       <[ row := (default [] (seatsPerRow lay !! row) ++ [seatName])%list ]> (seatsPerRow lay) |}.

(** The body of [for (const seat of kbSector.takenSeats)]. *)
Definition baseTakenStep (lay : Layout) (seat : string) : Layout :=
  let normalizedSeat := normalizeSeatKey seat in
  let row := rowOfKey normalizedSeat in
  let seatName := seatNameOfKey normalizedSeat in
  let inRow := default [] (seatsPerRow lay !! row) in
  {| seatStatuses :=
       <[ normalizedSeat := {| on_biletyna := None; on_ebilet := None;
                               on_kupbilecik := Some st_taken |} ]> (seatStatuses lay);
     seatsPerRow :=
       <[ row := if bool_decide (seatName ∈ inRow) then inRow
                 else (inRow ++ [seatName])%list ]> (seatsPerRow lay) |}.

(** [seatStatuses.get(normalizedSeat)![portal] = v], guarded by
    [seatStatuses.has(normalizedSeat)]. *)
Definition overlayStep (portal : SourceType) (v : SeatStatus)
    (statuses : gmap string Statuses) (seat : string) : gmap string Statuses :=
  let normalizedSeat := normalizeSeatKey seat in
  match statuses !! normalizedSeat with
  | Some st => <[ normalizedSeat := setStatusOn st portal (Some v) ]> statuses
  | None => statuses
  end.

(** [sourceStats.sectors.find(s => s.sectorName === name)]. *)
Definition findSector (secs : list SectorStats) (name : string) : option SectorStats :=
  List.find (fun sec => String.eqb (sectorName sec) name) secs.

(** The body of [for (const portal of ['biletyna', 'ebilet'])]. *)
Definition overlayPortal (kbSector : SectorStats) (perSource : PerSource)
    (statuses : gmap string Statuses) (portal : SourceType) : gmap string Statuses :=
  match perSourceGet perSource portal ≫= sectors with
  | None => statuses
  | Some secs =>
      match findSector secs (sectorName kbSector) with
      | None => statuses
      | Some matchingSector =>
          let statuses :=
            fold_left (overlayStep portal st_free) (freeSeats matchingSector) statuses in
          fold_left (overlayStep portal st_taken) (takenSeats matchingSector) statuses
      end
  end.

(** The seat layout and the per-portal statuses, as they stand when the
    colours are computed. *)
Definition buildLayout (kbSector : SectorStats) (perSource : PerSource) : Layout :=
  let lay := fold_left baseFreeStep (freeSeats kbSector)
                       {| seatsPerRow := ∅; seatStatuses := ∅ |} in
  let lay := fold_left baseTakenStep (takenSeats kbSector) lay in
  {| seatsPerRow := seatsPerRow lay;
     seatStatuses :=
       fold_left (overlayPortal kbSector perSource) [biletyna; ebilet] (seatStatuses lay) |}.

Record ColorStats : Type := mkColorStats {
  biletynaFree : Z; biletynaTaken : Z;
  ebiletFree : Z; ebiletTaken : Z;
  kupbilecikFree : Z; kupbilecikTaken : Z;
  noData : Z
}.

Definition countFree (portal : SourceType) (c : ColorStats) : ColorStats :=
  match portal with
  | biletyna => mkColorStats (biletynaFree c + 1) (biletynaTaken c) (ebiletFree c)
                  (ebiletTaken c) (kupbilecikFree c) (kupbilecikTaken c) (noData c)
  | ebilet => mkColorStats (biletynaFree c) (biletynaTaken c) (ebiletFree c + 1)
                  (ebiletTaken c) (kupbilecikFree c) (kupbilecikTaken c) (noData c)
  | kupbilecik => mkColorStats (biletynaFree c) (biletynaTaken c) (ebiletFree c)
                  (ebiletTaken c) (kupbilecikFree c + 1) (kupbilecikTaken c) (noData c)
  end.

Definition countTaken (portal : SourceType) (c : ColorStats) : ColorStats :=
  match portal with
  | biletyna => mkColorStats (biletynaFree c) (biletynaTaken c + 1) (ebiletFree c)
                  (ebiletTaken c) (kupbilecikFree c) (kupbilecikTaken c) (noData c)
  | ebilet => mkColorStats (biletynaFree c) (biletynaTaken c) (ebiletFree c)
                  (ebiletTaken c + 1) (kupbilecikFree c) (kupbilecikTaken c) (noData c)
  | kupbilecik => mkColorStats (biletynaFree c) (biletynaTaken c) (ebiletFree c)
                  (ebiletTaken c) (kupbilecikFree c) (kupbilecikTaken c + 1) (noData c)
  end.

Definition countNoData (c : ColorStats) : ColorStats :=
  mkColorStats (biletynaFree c) (biletynaTaken c) (ebiletFree c)
    (ebiletTaken c) (kupbilecikFree c) (kupbilecikTaken c) (noData c + 1).

(** [for (const portal of portals) if (statuses[portal] === 'free') ... break]. *)
Fixpoint firstFreePortal (portals : list SourceType) (statuses : Statuses)
    : option SourceType :=
  match portals with
  | [] => None
  | portal :: rest =>
      if decide (statusOn statuses portal = Some st_free) then Some portal
      else firstFreePortal rest statuses
  end.

Definition portals : list SourceType := [biletyna; ebilet; kupbilecik].

Record Painting : Type := mkPainting {
  seatColors : gmap string string;
  totalSeatsCount : Z;
  colorStats : ColorStats
}.

(** [inferredSold && inferredSold[uniqueKey]]. *)
Definition inferredSoldAt (inferredSold : option (gmap string SourceType))
    (uniqueKey : string) : option SourceType :=
  inferredSold ≫= (fun m => m !! uniqueKey).

(** The body of [for (const seatName of seatNames)]. *)
Definition colorSeat (kbSector : SectorStats)
    (statusesMap : gmap string Statuses)
    (inferredSold : option (gmap string SourceType))
    (row : string) (p : Painting) (seatName : string) : Painting :=
  let seatKey := row +:+ "-" +:+ seatName in
  let statuses := default noStatuses (statusesMap !! seatKey) in
  match firstFreePortal portals statuses with
  | Some freeOnPortal =>
      {| seatColors := <[ seatKey := SEAT_COLORS_free freeOnPortal ]> (seatColors p);
         totalSeatsCount := totalSeatsCount p + 1;
         colorStats := countFree freeOnPortal (colorStats p) |}
  | None =>
      let uniqueKey := sectorName kbSector +:+ ":" +:+ seatKey in
      match inferredSoldAt inferredSold uniqueKey with
      | Some soldSource =>
          {| seatColors := <[ seatKey := SEAT_COLORS_taken soldSource ]> (seatColors p);
             totalSeatsCount := totalSeatsCount p + 1;
             colorStats := countTaken soldSource (colorStats p) |}
      | None =>
          {| seatColors := <[ seatKey := SEAT_COLORS_noData ]> (seatColors p);
             totalSeatsCount := totalSeatsCount p + 1;
             colorStats := countNoData (colorStats p) |}
      end
  end.

(** The body of [for (const [row, seatNames] of seatsPerRow)]. *)
Definition colorRow (kbSector : SectorStats)
    (statusesMap : gmap string Statuses)
    (inferredSold : option (gmap string SourceType))
    (p : Painting) (entry : string * list string) : Painting :=
  fold_left (colorSeat kbSector statusesMap inferredSold entry.1) entry.2 p.

Record SectorVisualization : Type := mkSectorVisualization {
  viz_sectorName : string;
  viz_seatColors : gmap string string;
  viz_seatsPerRow : gmap string (list string);
  viz_totalSeats : Z;
  viz_colorStats : ColorStats
}.

Section Visualization.

(** [parseInt(a)], the number the host reads at the head of the string
    [a], NaN when there is none: taken as given. *)
Variable parseInt : string -> spec_float.

(** [parseInt(a) || 0]: 0 for NaN and for the zeros. *)
Definition seatNumber (a : string) : spec_float :=
  match parseInt a with
  | S754_nan | S754_zero _ => Double.zero
  | n => n
  end.

(** The comparator [(a, b) => numA - numB]. *)
Definition compareSeats (a b : string) : spec_float :=
  Double.sub (seatNumber a) (seatNumber b).

(** [seats.sort(...)]: the sort is stable, and [a] goes after [b] when the
    comparator is positive. *)
Fixpoint insertSeat (a : string) (sorted : list string) : list string :=
  match sorted with
  | [] => [a]
  | b :: rest =>
      if Double.gtb (compareSeats a b) Double.zero then b :: insertSeat a rest
      else a :: sorted
  end.

Definition sortSeats (seats : list string) : list string :=
  fold_right insertSeat [] seats.

(** The function, up to the field [sortedRows], the order in which the
    grid shows the rows.  The seat names of each row are sorted where the
    code sorts them, before the colours are computed. *)
Definition calculateSectorVisualizationWithBase (kbSector : SectorStats)
    (perSource : PerSource) (inferredSold : option (gmap string SourceType))
    : SectorVisualization :=
  let lay := buildLayout kbSector perSource in
  let seatsPerRow0 := sortSeats <$> seatsPerRow lay in
  let p := fold_left (colorRow kbSector (seatStatuses lay) inferredSold)
                     (map_to_list seatsPerRow0)
                     {| seatColors := ∅; totalSeatsCount := 0;
                        colorStats := mkColorStats 0 0 0 0 0 0 0 |} in
  {| viz_sectorName := sectorName kbSector;
     viz_seatColors := seatColors p;
     viz_seatsPerRow := seatsPerRow0;
     viz_totalSeats := totalSeatsCount p;
     viz_colorStats := colorStats p |}.

End Visualization.

(** *** [mergeColors] *)

Definition isDarkColor (color : string) : bool :=
  String.eqb color (SEAT_COLORS_taken biletyna)
  || String.eqb color (SEAT_COLORS_taken ebilet)
  || String.eqb color (SEAT_COLORS_taken kupbilecik).

Definition isLightColor (color : string) : bool :=
  String.eqb color (SEAT_COLORS_free biletyna)
  || String.eqb color (SEAT_COLORS_free ebilet)
  || String.eqb color (SEAT_COLORS_free kupbilecik).

Definition isNoDataColor (color : string) : bool :=
  String.eqb color SEAT_COLORS_noData.

Definition isSpecialColor (color : string) : bool :=
  String.eqb color SEAT_COLORS_notForSale
  || String.eqb color SEAT_COLORS_otherSource
  || String.eqb color SEAT_COLORS_boxOffice.

(** [!userOverride]: [undefined] or the empty string. *)
Definition noOverride (userOverride : option string) : bool :=
  match userOverride with
  | None => true
  | Some o => String.eqb o ""
  end.

Definition mergeColors (liveColor : string) (userOverride : option string) : string :=
  if noOverride userOverride then liveColor
  else
    let override := default "" userOverride in
    if isSpecialColor override then override
    else if isDarkColor liveColor then liveColor
    else if isDarkColor override then override
    else if isLightColor override then override
    else liveColor.

End Frontend.


(** ** Notions used in the statements *)

(** Does the entry of [results] write the history key [key] in step 1,
    i.e. does a sector of its per-sector breakdown list a free seat whose
    unique key is [key]? *)
Definition reportsFreeb (entry : SourceType * SourceStats) (key : string) : bool :=
  match sectors entry.2 with
  | None => false
  | Some secs =>
      existsb (fun sector =>
                 existsb (fun seat => String.eqb (Backend.uniqueKeyOf sector seat) key)
                         (freeSeats sector))
              secs
  end.

(** Does the entry of [results] carry a sector of that name? *)
Definition hasSectorb (entry : SourceType * SourceStats) (name : string) : bool :=
  match sectors entry.2 with
  | None => false
  | Some secs => existsb (fun sector => String.eqb (sectorName sector) name) secs
  end.

(** The rank of a source in the priority order biletyna, ebilet,
    kupbilecik. *)
Definition priority (p : SourceType) : nat :=
  match p with
  | biletyna => 0
  | ebilet => 1
  | kupbilecik => 2
  end.

(** The colour the page gives the seat [seatKey] of [kbSector], from the
    statuses collected and the inferred sales. *)
Definition resolveColor (kbSector : SectorStats)
    (statusesMap : gmap string Frontend.Statuses)
    (inferredSold : option (gmap string SourceType)) (seatKey : string) : string :=
  let statuses := default Frontend.noStatuses (statusesMap !! seatKey) in
  match Frontend.firstFreePortal Frontend.portals statuses with
  | Some freeOnPortal => Frontend.SEAT_COLORS_free freeOnPortal
  | None =>
      match Frontend.inferredSoldAt inferredSold
              (sectorName kbSector +:+ ":" +:+ seatKey) with
      | Some soldSource => Frontend.SEAT_COLORS_taken soldSource
      | None => Frontend.SEAT_COLORS_noData
      end
  end.

(** Does the list name the seat the page files under [key]? *)
Definition listsSeat (seats : list string) (key : string) : bool :=
  existsb (fun seat => String.eqb (Frontend.normalizeSeatKey seat) key) seats.

(** What a sector says of that seat: taken when it lists it taken, free
    when it lists it free and not taken. *)
Definition statusIn (sector : SectorStats) (key : string)
    : option Frontend.SeatStatus :=
  if listsSeat (takenSeats sector) key then Some Frontend.st_taken
  else if listsSeat (freeSeats sector) key then Some Frontend.st_free
  else None.

(** The sector of a source that carries the name [name]: the first one. *)
Definition sectorNamed (stats : option SourceStats) (name : string)
    : option SectorStats :=
  match stats with
  | Some st =>
      match sectors st with
      | Some secs => List.find (fun sec => String.eqb (sectorName sec) name) secs
      | None => None
      end
  | None => None
  end.

(** What a source reports of a seat of the canonical sector [kbSector]:
    Kupbilecik in that sector itself, Biletyna and eBilet in their sector
    of the same name. *)
Definition reportedStatus (kbSector : SectorStats) (perSource : Frontend.PerSource)
    (portal : SourceType) (key : string) : option Frontend.SeatStatus :=
  match portal with
  | kupbilecik => statusIn kbSector key
  | _ =>
      match sectorNamed (Frontend.perSourceGet perSource portal)
                        (sectorName kbSector) with
      | Some sector => statusIn sector key
      | None => None
      end
  end.

(** The colour of the claim, for the seat the page files under [key]:
    free for the first source, in the order biletyna, ebilet, kupbilecik,
    that reports the seat free; else sold for the source the inferred
    sales give under "sectorName:key"; else no data. *)
Definition reportedColour (kbSector : SectorStats) (perSource : Frontend.PerSource)
    (inferredSold : option (gmap string SourceType)) (key : string) : string :=
  match List.find (fun p => bool_decide (reportedStatus kbSector perSource p key
                                         = Some Frontend.st_free))
                  [biletyna; ebilet; kupbilecik] with
  | Some p => Frontend.SEAT_COLORS_free p
  | None =>
      match inferredSold ≫= (fun m => m !! (sectorName kbSector +:+ ":" +:+ key)) with
      | Some soldSource => Frontend.SEAT_COLORS_taken soldSource
      | None => Frontend.SEAT_COLORS_noData
      end
  end.

(** A candidate the loop of [matchSectorByStructure] scores: not yet
    claimed and within the row-count filter. *)
Definition eligible (ebiletRows : gmap string RowStats)
    (matchedSectors : option (gset string)) (sector : SectorStats) : bool :=
  negb (Backend.alreadyMatched matchedSectors (sectorName sector))
  && negb (Backend.rowCountTooFar ebiletRows sector).

(** [best] is the first of the candidates the loop scores that no other
    one outscores: those before it score strictly less ([>=] fails for
    them), those after it score no more ([>] fails for them). *)
Definition preferred (ebiletRows : gmap string RowStats)
    (matchedSectors : option (gset string))
    (kupbilecikSectors : list SectorStats) (best : SectorStats) : Prop :=
  exists before after,
    kupbilecikSectors = (before ++ best :: after)%list
    /\ eligible ebiletRows matchedSectors best = true
    /\ Forall (fun s => eligible ebiletRows matchedSectors s = true ->
                 Double.geb (Backend.sectorScore ebiletRows s)
                            (Backend.sectorScore ebiletRows best) = false) before
    /\ Forall (fun s => eligible ebiletRows matchedSectors s = true ->
                 Double.gtb (Backend.sectorScore ebiletRows s)
                            (Backend.sectorScore ebiletRows best) = false) after.

(** The place of a number other than NaN in the order of the numbers:
    its class (the infinities, the negative and the positive numbers,
    zero), then its exponent and its mantissa. *)
Definition orderKey (x : spec_float) : Z * Z * Z :=
  match x with
  | S754_nan => (0, 0, 0)
  | S754_zero _ => (0, 0, 0)
  | S754_infinity true => (-2, 0, 0)
  | S754_infinity false => (2, 0, 0)
  | S754_finite true m e => (-1, - e, - Zpos m)
  | S754_finite false m e => (1, e, Zpos m)
  end%Z.

Definition keyLt (k1 k2 : Z * Z * Z) : Prop :=
  (fst (fst k1) < fst (fst k2)
   \/ (fst (fst k1) = fst (fst k2)
       /\ (snd (fst k1) < snd (fst k2)
           \/ (snd (fst k1) = snd (fst k2) /\ snd k1 < snd k2))))%Z.



(** ** Sample runs *)

Module Samples.

(** The row part of a seat key "row-seat". *)
Definition rowPart (seatKey : string) : string :=
  match split "-" seatKey with
  | p0 :: _ => p0
  | [] => ""
  end.

(** The row table of a sector with the given free and taken seats. *)
Definition rowsOfSeats (freeL takenL : list string) : gmap string RowStats :=
  fold_left (fun m k => Backend.countSeat m (rowPart k) false) takenL
    (fold_left (fun m k => Backend.countSeat m (rowPart k) true) freeL ∅).

(** A sector with the given free and taken seats. *)
Definition sectorOf (name : string) (freeL takenL : list string) : SectorStats :=
  {| sectorName := name;
     rows := rowsOfSeats freeL takenL;
     freeSeats := freeL;
     takenSeats := takenL;
     totals := Backend.totalsOf freeL takenL |}.

(** A source reporting that one sector in its per-sector breakdown. *)
Definition statsOf (src : SourceType) (name : string) (freeL takenL : list string)
    : SourceStats :=
  {| source := src;
     source_totals := Backend.totalsOf freeL takenL;
     source_rows := rowsOfSeats freeL takenL;
     source_freeSeats := freeL;
     source_takenSeats := takenL;
     sectors := Some [sectorOf name freeL takenL];
     finalUrl := None |}.

Definition kupbilecikStats (name : string) (freeL takenL : list string) : SourceStats :=
  statsOf kupbilecik name freeL takenL.

Definition kupbilecikRun (name : string) (freeL takenL : list string) : Backend.Results :=
  [ (kupbilecik, kupbilecikStats name freeL takenL) ].

(** Two consecutive runs on one sector: seats 1-1 and 1-2 free in the
    first, only 1-2 free in the second.  The result is the pair of the
    second run: the history saved and the inferred sales. *)
Definition twoRuns (name : string) : gmap string SourceType * gmap string SourceType :=
  let run1 := Backend.POST_history ∅ (kupbilecikRun name ["1-1"; "1-2"] []) in
  Backend.POST_history run1.1 (kupbilecikRun name ["1-2"] ["1-1"]).

(** The state of that second run after step 1. *)
Definition secondRunState (name : string) : Backend.HistoryState :=
  let run1 := Backend.POST_history ∅ (kupbilecikRun name ["1-1"; "1-2"] []) in
  Backend.POST_updateHistory run1.1 (kupbilecikRun name ["1-2"] ["1-1"]).

(** A run that scrapes sector "Parter" only, on a history that holds a
    seat of the sector "Parter: boczny". *)
Definition staleState : Backend.HistoryState :=
  Backend.POST_updateHistory {[ "Parter: boczny:1-1" := ebilet ]}
    (kupbilecikRun "Parter" ["1-2"] ["1-1"]).

(** Biletyna scraped as a single sector: no per-sector breakdown. *)
Definition biletynaSingle : option SourceStats :=
  Backend.combineBiletynaSectors
    [ ("https://biletyna.pl/s/1",
       {| Backend.biletyna_rows := rowsOfSeats ["5-12"] [];
          Backend.biletyna_freeSeats := ["5-12"];
          Backend.biletyna_takenSeats := [] |}) ]
    None.

(** The seats 1 to [perRow] of each of the rows [names]. *)
Definition seatKeys (names : list string) (perRow : nat) : list string :=
  flat_map (fun r => (fun k => r +:+ "-" +:+ String_of_number (Z.of_nat k))
                       <$> seq 1 perRow) names.

(** The row table of a sector with those seats, all free. *)
Definition rowsNamed (names : list string) (perRow : nat) : gmap string RowStats :=
  rowsOfSeats (seatKeys names perRow) [].

(** A canonical sector with those seats, all free. *)
Definition canonical (name : string) (names : list string) (perRow : nat)
    : SectorStats :=
  sectorOf name (seatKeys names perRow) [].

(** Three rows of ten seats. *)
Definition threeRows : gmap string RowStats := rowsNamed ["1"; "2"; "3"] 10.

Definition tenRows : list string :=
  ["1"; "2"; "3"; "4"; "5"; "6"; "7"; "8"; "9"; "10"].

(** Two labels of one sector that normalise to the same key. *)
Definition clashingRows : gmap string RowStats := rowsNamed ["5"; "V"] 10.

(** Two boxes of the same shape, and the rows of a vendor's sector of
    that shape. *)
Definition boxLeft : SectorStats := canonical "Loza Lewa" ["1"; "2"] 4.
Definition boxRight : SectorStats := canonical "Loza Prawa" ["1"; "2"] 4.
Definition boxRows : gmap string RowStats := rowsNamed ["1"; "2"] 4.

(** A vendor's sector of 14 rows and 32 seats, and a canonical sector of
    14 rows and 35 seats that shares the row "1" with it. *)
Definition fourteenRows : gmap string RowStats :=
  rowsOfSeats
    (seatKeys ["1"] 19
     ++ seatKeys ["a"; "b"; "d"; "e"; "f"; "g"; "h"; "j"; "k"; "m"; "n"; "o"; "p"] 1)
    [].

Definition fourteenOthers : SectorStats :=
  sectorOf "B"
    (seatKeys ["1"] 22
     ++ seatKeys ["q"; "r"; "s"; "t"; "u"; "w"; "y"; "z";
                  "aa"; "bb"; "dd"; "ee"; "ff"] 1)
    [].







(** A canonical sector "A" and Biletyna's sector aligned to it: seat 5-3
    is taken on Kupbilecik and free on Biletyna, seat 6-1 is taken on
    Kupbilecik and was inferred sold by eBilet. *)
Definition canonicalA : SectorStats :=
  sectorOf "A" ["V-1"; "V-2"] ["V-3"; "VI-1"].

Definition perSourceA : Frontend.PerSource :=
  {| Frontend.ps_biletyna := Some (statsOf biletyna "A" ["5-3"; "5-9"] ["5-1"]);
     Frontend.ps_ebilet := None;
     Frontend.ps_kupbilecik :=
       Some (kupbilecikStats "A" ["V-1"; "V-2"] ["V-3"; "VI-1"]) |}.

Definition inferredSoldA : option (gmap string SourceType) :=
  Some {[ "A:6-1" := ebilet ]}.

(** A canonical sector "A" whose rows carry letters: the seats B-3 and
    B-4 are free in a first run, and B-3 is taken in the second.  The
    inferred sales are those the route returns for the second run. *)
Definition lettersSector : SectorStats := sectorOf "A" ["B-4"] ["B-3"].

Definition lettersInferred : gmap string SourceType :=
  let run1 := Backend.POST_history ∅ (kupbilecikRun "A" ["B-3"; "B-4"] []) in
  (Backend.POST_history run1.1 (kupbilecikRun "A" ["B-4"] ["B-3"])).2.

Definition lettersPerSource : Frontend.PerSource :=
  {| Frontend.ps_biletyna := None;
     Frontend.ps_ebilet := None;
     Frontend.ps_kupbilecik := Some (kupbilecikStats "A" ["B-4"] ["B-3"]) |}.

(** The same two runs with the row numbered 2. *)
Definition digitsSector : SectorStats := sectorOf "A" ["2-4"] ["2-3"].

Definition digitsInferred : gmap string SourceType :=
  let run1 := Backend.POST_history ∅ (kupbilecikRun "A" ["2-3"; "2-4"] []) in
  (Backend.POST_history run1.1 (kupbilecikRun "A" ["2-4"] ["2-3"])).2.

Definition digitsPerSource : Frontend.PerSource :=
  {| Frontend.ps_biletyna := None;
     Frontend.ps_ebilet := None;
     Frontend.ps_kupbilecik := Some (kupbilecikStats "A" ["2-4"] ["2-3"]) |}.

(** Kupbilecik has the seats 3 and 4 of row 5 taken; Biletyna, whose
    sector is aligned to "A", labels the row "Row 5" and lists seat 3
    free. *)
Definition labelledSector : SectorStats := sectorOf "A" [] ["5-3"; "5-4"].

Definition labelledPerSource : Frontend.PerSource :=
  {| Frontend.ps_biletyna := Some (statsOf biletyna "A" ["Row 5-3"] ["Row 5-4"]);
     Frontend.ps_ebilet := None;
     Frontend.ps_kupbilecik := Some (kupbilecikStats "A" [] ["5-3"; "5-4"]) |}.

(** [parseInt] on the seat names of the samples: the number written by
    the digits at the head of the name, NaN when there is none. *)
Fixpoint leadingDigits (s : string) (acc : option Z) : option Z :=
  match s with
  | EmptyString => acc
  | String c s' =>
      if Backend.isDigit c
      then leadingDigits s' (Some (10 * default 0 acc + (Z.of_nat (nat_of_ascii c) - 48))%Z)
      else acc
  end.

Definition parseDigits (s : string) : spec_float :=
  match leadingDigits s None with
  | Some n => Double.ofZ n
  | None => S754_nan
  end.

End Samples.

(** * The rest of the routes, the libraries and the page *)

(** ** The stats route: the vendors' parsers *)

Module Parsers.

(** [a || b] on a possibly absent string: the fallback for [undefined]
    and for the empty string. *)
Definition orElse (a : option string) (b : string) : string :=
  match a with
  | Some EmptyString => b
  | Some s => s
  | None => b
  end.

(** *** [parseBiletynaSectorSeats]

    The elements selected by [$('div.place, [data-place_status]')], in
    document order, each with the three attributes the callback reads
    ([None] for an attribute that is absent). *)
Record PlaceElement : Type := mkPlaceElement {
  data_row_number : option string;
  data_place_number : option string;
  data_place_status : option string
}.

Definition STATUS_FREE : string := "10".
Definition STATUS_BLANK : string := "90".

Record PlaceState : Type := mkPlaceState {
  rowsData : gmap string RowStats;
  freeSeats_acc : list string;
  takenSeats_acc : list string
}.

(** The callback of [.each]. *)
Definition placeStep (st : PlaceState) (element : PlaceElement) : PlaceState :=
  let rowNumber := orElse (data_row_number element) "" in
  let placeNumber := orElse (data_place_number element) "" in
  let placeStatus := orElse (data_place_status element) "" in
  if String.eqb rowNumber "" || String.eqb placeNumber ""
     || String.eqb placeStatus "" then st
  else if String.eqb placeStatus STATUS_BLANK then st
  else
    let seatKey := rowNumber +:+ "-" +:+ placeNumber in
    let row := rowNumber in
    if String.eqb placeStatus STATUS_FREE then
      {| rowsData := Backend.countSeat (rowsData st) row true;
         freeSeats_acc := freeSeats_acc st ++ [seatKey];
         takenSeats_acc := takenSeats_acc st |}
    else
      {| rowsData := Backend.countSeat (rowsData st) row false;
         freeSeats_acc := freeSeats_acc st;
         takenSeats_acc := takenSeats_acc st ++ [seatKey] |}.

Definition placeInit : PlaceState :=
  {| rowsData := ∅; freeSeats_acc := []; takenSeats_acc := [] |}.

(** The object [rows] is filled from the map by [rows[row] = stats] and
    is taken to hold the rows of the map: so it does but for a row named
    "__proto__", which that assignment does not store. *)
Definition parseBiletynaSectorSeats (elements : list PlaceElement)
    : option Backend.BiletynaSectorResult :=
  let st := fold_left placeStep elements placeInit in
  if (size (rowsData st) =? 0)%nat then None
  else Some {| Backend.biletyna_rows := rowsData st;
               Backend.biletyna_freeSeats := freeSeats_acc st;
               Backend.biletyna_takenSeats := takenSeats_acc st |}.

Definition parseBiletynaSeats (elements : list PlaceElement) : option SourceStats :=
  match parseBiletynaSectorSeats elements with
  | None => None
  | Some result =>
      Some {| source := biletyna;
              source_totals :=
                Backend.totalsOf (Backend.biletyna_freeSeats result)
                                 (Backend.biletyna_takenSeats result);
              source_rows := Backend.biletyna_rows result;
              source_freeSeats := Backend.biletyna_freeSeats result;
              source_takenSeats := Backend.biletyna_takenSeats result;
              sectors := None;
              finalUrl := None |}
  end.

(** *** [processKupbilecikData]

    [KupBilecikObiektData], with the fields the interface declares; an
    optional [nazwa] is [None] when absent. *)
Record Miejsce : Type := mkMiejsce {
  miejsce_nazwa : string;
  miejsce_id : Z;
  miejsce_free : bool
}.

Record Rzad : Type := mkRzad {
  miejsca : list Miejsce;
  rzad_nazwa : option string
}.

Record Czesc : Type := mkCzesc {
  czesc_id : Z;
  czesc_nazwa : option string;
  rzedy : list Rzad
}.

Record KupBilecikObiektData : Type := mkKupBilecikObiektData {
  obiekt_id : Z;
  czesci : list Czesc
}.

Record KbSectorAcc : Type := mkKbSectorAcc {
  kb_sectorRowsData : gmap string RowStats;
  kb_sectorFreeSeats : list string;
  kb_sectorTakenSeats : list string
}.

Record KbState : Type := mkKbState {
  kb_sectors : list SectorStats;
  kb_globalRowsData : gmap string RowStats;
  kb_globalFreeSeats : list string;
  kb_globalTakenSeats : list string;
  kb_globalRowIndex : nat
}.

(** "Skip seats with empty names"; [trim] as on ASCII names. *)
Definition unnamedSeat (miejsce : Miejsce) : bool :=
  String.eqb (miejsce_nazwa miejsce) ""
  || String.eqb (trim (miejsce_nazwa miejsce)) ""
  || String.eqb (miejsce_nazwa miejsce) "null"
  || String.eqb (miejsce_nazwa miejsce) "undefined".

(** The body of [for (const miejsce of rzad.miejsca)]. *)
Definition kbSeatStep (rowName : string) (acc : KbSectorAcc * KbState)
    (miejsce : Miejsce) : KbSectorAcc * KbState :=
  if unnamedSeat miejsce then acc
  else
    let '(sec, st) := acc in
    let seatName := miejsce_nazwa miejsce in
    let seatKey := rowName +:+ "-" +:+ seatName in
    let isFree := miejsce_free miejsce in
    ({| kb_sectorRowsData := Backend.countSeat (kb_sectorRowsData sec) rowName isFree;
        kb_sectorFreeSeats :=
          if isFree then kb_sectorFreeSeats sec ++ [seatKey] else kb_sectorFreeSeats sec;
        kb_sectorTakenSeats :=
          if isFree then kb_sectorTakenSeats sec else kb_sectorTakenSeats sec ++ [seatKey] |},
     {| kb_sectors := kb_sectors st;
        kb_globalRowsData := Backend.countSeat (kb_globalRowsData st) rowName isFree;
        kb_globalFreeSeats :=
          if isFree then kb_globalFreeSeats st ++ [seatKey] else kb_globalFreeSeats st;
        kb_globalTakenSeats :=
          if isFree then kb_globalTakenSeats st else kb_globalTakenSeats st ++ [seatKey];
        kb_globalRowIndex := kb_globalRowIndex st |}).

(** The body of [for (const rzad of czesc.rzedy)]. *)
Definition kbRowStep (acc : KbSectorAcc * KbState) (rzad : Rzad)
    : KbSectorAcc * KbState :=
  let '(sec, st) := acc in
  let globalRowIndex := S (kb_globalRowIndex st) in
  let rowName :=
    orElse (rzad_nazwa rzad) (String_of_number (Z.of_nat globalRowIndex)) in
  fold_left (kbSeatStep rowName) (miejsca rzad)
    (sec,
     {| kb_sectors := kb_sectors st;
        kb_globalRowsData := kb_globalRowsData st;
        kb_globalFreeSeats := kb_globalFreeSeats st;
        kb_globalTakenSeats := kb_globalTakenSeats st;
        kb_globalRowIndex := globalRowIndex |}).

(** [czesc.rzedy.reduce((sum, r) => sum + (r.miejsca?.length || 0), 0)]. *)
Definition totalSeatsInSector (czesc : Czesc) : nat :=
  fold_left (fun sum r => (sum + length (miejsca r))%nat) (rzedy czesc) 0%nat.

(** The body of [for (const czesc of obiektData.czesci)]; [toUpperCase]
    as on ASCII names, and the object [sectorRows] taken to hold the rows
    of the map, as it does but for a row named "__proto__". *)
Definition kbSectorStep (st : KbState) (czesc : Czesc) : KbState :=
  let sectorName := orElse (czesc_nazwa czesc) "" in
  if String.eqb (toUpperCase sectorName) "SCENA"
     || (length (rzedy czesc) =? 0)%nat then st
  else if (totalSeatsInSector czesc =? 0)%nat then st
  else
    let '(sec, st1) :=
      fold_left kbRowStep (rzedy czesc)
        ({| kb_sectorRowsData := ∅; kb_sectorFreeSeats := [];
            kb_sectorTakenSeats := [] |}, st) in
    if (0 <? size (kb_sectorRowsData sec))%nat then
      {| kb_sectors :=
           kb_sectors st1 ++
           [ {| sectorName := sectorName;
                rows := kb_sectorRowsData sec;
                freeSeats := kb_sectorFreeSeats sec;
                takenSeats := kb_sectorTakenSeats sec;
                totals := Backend.totalsOf (kb_sectorFreeSeats sec)
                                           (kb_sectorTakenSeats sec) |} ];
         kb_globalRowsData := kb_globalRowsData st1;
         kb_globalFreeSeats := kb_globalFreeSeats st1;
         kb_globalTakenSeats := kb_globalTakenSeats st1;
         kb_globalRowIndex := kb_globalRowIndex st1 |}
    else st1.

Definition kbInit : KbState :=
  {| kb_sectors := []; kb_globalRowsData := ∅; kb_globalFreeSeats := [];
     kb_globalTakenSeats := []; kb_globalRowIndex := 0 |}.

Definition processKupbilecikData (obiektData : KupBilecikObiektData)
    : option SourceStats :=
  let st := fold_left kbSectorStep (czesci obiektData) kbInit in
  if (size (kb_globalRowsData st) =? 0)%nat then None
  else
    Some {| source := kupbilecik;
            source_totals :=
              Backend.totalsOf (kb_globalFreeSeats st) (kb_globalTakenSeats st);
            source_rows := kb_globalRowsData st;
            source_freeSeats := kb_globalFreeSeats st;
            source_takenSeats := kb_globalTakenSeats st;
            sectors := if (0 <? length (kb_sectors st))%nat
                       then Some (kb_sectors st) else None;
            finalUrl := None |}.

End Parsers.

(** ** Strings as code units

    Where the code works on the UTF-16 code units of a string
    ([charCodeAt], [length], [substring], a regular expression without the
    [u] flag), the string is the list of its code units. *)

Module Utf16.

Abbreviation codeUnits := (list Z).

(** The code units of a string of ASCII characters. *)
Fixpoint ofAscii (s : string) : codeUnits :=
  match s with
  | EmptyString => []
  | String c s' => Z.of_nat (nat_of_ascii c) :: ofAscii s'
  end.

Definition inRange (lo hi c : Z) : bool := ((lo <=? c) && (c <=? hi))%Z.

(** [[a-z]], [[A-Z]], [[0-9]]. *)
Definition isLower (c : Z) : bool := inRange 97 122 c.
Definition isUpper (c : Z) : bool := inRange 65 90 c.
Definition isDigit (c : Z) : bool := inRange 48 57 c.

End Utf16.

(** ** The files kept per event ([history.ts], the overrides route)

    Both modules derive the name of an event's file from the event id in
    the same way.  A file is modelled by the value its JSON text holds,
    and the file operations are taken to succeed: a missing file is the
    only failure the code distinguishes. *)

Module EventFiles.

(** The class [[a-zA-Z0-9-_]]. *)
Definition isSafe (c : Z) : bool :=
  Utf16.isLower c || Utf16.isUpper c || Utf16.isDigit c
  || (c =? 45)%Z || (c =? 95)%Z.

(** [eventId.replace(/[^a-zA-Z0-9-_]/g, '_')]. *)
Definition safeId (eventId : Utf16.codeUnits) : Utf16.codeUnits :=
  (fun c => if isSafe c then c else 95%Z) <$> eventId.

(** [path.join(getDataDir(), `${safeId}.json`)], relative to the data
    directory of the module. *)
Definition filePath (eventId : Utf16.codeUnits) : Utf16.codeUnits :=
  safeId eventId ++ Utf16.ofAscii ".json".

End EventFiles.

(** *** [history.ts] *)

Module HistoryStore.

(** The directory [data/history]: the history each file holds. *)
Abbreviation Files := (gmap Utf16.codeUnits (gmap string SourceType)).

Definition getHistoryFilePath (eventId : Utf16.codeUnits) : Utf16.codeUnits :=
  EventFiles.filePath eventId.

(** [{}] when the file does not exist. *)
Definition loadHistory (files : Files) (eventId : Utf16.codeUnits)
    : gmap string SourceType :=
  default ∅ (files !! getHistoryFilePath eventId).

Definition saveHistory (files : Files) (eventId : Utf16.codeUnits)
    (history : gmap string SourceType) : Files :=
  <[ getHistoryFilePath eventId := history ]> files.

(** [fs.unlink]; a missing file is not an error. *)
Definition clearHistory (files : Files) (eventId : Utf16.codeUnits) : Files :=
  delete (getHistoryFilePath eventId) files.

(** The steps "HISTORY MODE IMPLEMENTATION" 1 to 3 of the stats route's
    [POST] on the files: load, update and infer, save. *)
Definition POST_historyRun (files : Files) (eventId : Utf16.codeUnits)
    (results : Backend.Results) : Files * gmap string SourceType :=
  let history := loadHistory files eventId in
  let '(history', inferredSold) := Backend.POST_history history results in
  (saveHistory files eventId history', inferredSold).

End HistoryStore.

(** *** The overrides route *)

Module OverridesRoute.

Record StatsSnapshot : Type := mkStatsSnapshot {
  snapshot_biletynaTaken : Z;
  snapshot_ebiletTaken : Z;
  snapshot_kupbilecikTaken : Z
}.

Record SeatOverrides : Type := mkSeatOverrides {
  eventId : Utf16.codeUnits;
  lastUpdated : string;
  overrides : gmap string string;
  statsSnapshot : option StatsSnapshot
}.

(** The directory [data/overrides]. *)
Abbreviation Files := (gmap Utf16.codeUnits SeatOverrides).

Definition getOverridesFilePath (eventId : Utf16.codeUnits) : Utf16.codeUnits :=
  EventFiles.filePath eventId.

(** A JSON response: the payload of a success, or the status and the
    message of a failure. *)
Inductive Response (A : Type) : Type :=
  | success (data : A)
  | failure (status : Z) (error : string).
Arguments success {A} data.
Arguments failure {A} status error.

Record GetData : Type := mkGetData {
  get_eventId : Utf16.codeUnits;
  get_lastUpdated : option string;
  get_overrides : gmap string string;
  get_statsSnapshot : option StatsSnapshot
}.

Definition GET (files : Files) (id : Utf16.codeUnits) : Response GetData :=
  match files !! getOverridesFilePath id with
  | Some data =>
      success {| get_eventId := eventId data;
                 get_lastUpdated := Some (lastUpdated data);
                 get_overrides := overrides data;
                 get_statsSnapshot := statsSnapshot data |}
  | None =>
      success {| get_eventId := id; get_lastUpdated := None;
                 get_overrides := ∅; get_statsSnapshot := None |}
  end.

(** The body of a [POST]: [body_overrides] is [None] when [overrides] is
    missing, falsy or not an object. *)
Record PostBody : Type := mkPostBody {
  body_overrides : option (gmap string string);
  body_statsSnapshot : option StatsSnapshot
}.

Record PostData : Type := mkPostData {
  post_message : string;
  post_eventId : Utf16.codeUnits;
  post_lastUpdated : string;
  post_overridesCount : nat
}.

(** [now] stands for [new Date().toISOString()]. *)
Definition POST (files : Files) (id : Utf16.codeUnits) (body : PostBody)
    (now : string) : Files * Response PostData :=
  match body_overrides body with
  | None => (files, failure 400 "Invalid overrides data")
  | Some overrides0 =>
      let data := {| eventId := id; lastUpdated := now;
                     overrides := overrides0;
                     statsSnapshot := body_statsSnapshot body |} in
      (<[ getOverridesFilePath id := data ]> files,
       success {| post_message := "Overrides saved successfully";
                  post_eventId := id;
                  post_lastUpdated := lastUpdated data;
                  post_overridesCount := size overrides0 |})
  end.

Definition DELETE (files : Files) (id : Utf16.codeUnits) : Files * Response string :=
  match files !! getOverridesFilePath id with
  | Some _ => (delete (getOverridesFilePath id) files,
               success "Overrides deleted successfully")
  | None => (files, success "No overrides to delete")
  end.

End OverridesRoute.

(** *** [urlCache.ts] *)

Module UrlCache.

Record CacheEntry : Type := mkCacheEntry {
  url : string;
  entry_source : Utf16.codeUnits;
  timestamp : Z
}.

(** The file [url_cache.json]; [{}] when it does not exist. *)
Abbreviation Cache := (gmap Utf16.codeUnits CacheEntry).

(** [`${eventId}:${source}`]. *)
Definition keyOf (eventId source : Utf16.codeUnits) : Utf16.codeUnits :=
  eventId ++ Utf16.ofAscii ":" ++ source.

Definition getCachedUrl (cache : Cache) (eventId source : Utf16.codeUnits)
    : option string :=
  match cache !! keyOf eventId source with
  | Some entry => Some (url entry)
  | None => None
  end.

(** [now] stands for [Date.now()]. *)
Definition setCachedUrl (cache : Cache) (eventId source : Utf16.codeUnits)
    (url0 : string) (now : Z) : Cache :=
  <[ keyOf eventId source :=
       {| url := url0; entry_source := source; timestamp := now |} ]> cache.

Definition touchCachedUrl (cache : Cache) (eventId source : Utf16.codeUnits)
    (now : Z) : Cache :=
  match cache !! keyOf eventId source with
  | Some entry =>
      <[ keyOf eventId source :=
           {| url := url entry; entry_source := entry_source entry;
              timestamp := now |} ]> cache
  | None => cache
  end.

Definition clearCachedUrl (cache : Cache) (eventId source : Utf16.codeUnits) : Cache :=
  match cache !! keyOf eventId source with
  | Some _ => delete (keyOf eventId source) cache
  | None => cache
  end.

(** [key.startsWith(start)]. *)
Fixpoint startsWith (key start : Utf16.codeUnits) : bool :=
  match start, key with
  | [], _ => true
  | c :: start', d :: key' => (c =? d)%Z && startsWith key' start'
  | _ :: _, [] => false
  end.

(** Does the key belong to the event: [key.startsWith(`${eventId}:`)]? *)
Definition ofEvent (eventId key : Utf16.codeUnits) : bool :=
  startsWith key (eventId ++ Utf16.ofAscii ":").

Definition hasCachedData (cache : Cache) (eventId : Utf16.codeUnits) : bool :=
  existsb (ofEvent eventId) (map_to_list cache).*1.

(** The loop of [getCacheTimestamp]: the pair of [maxTimestamp] and
    [found].  Its result does not depend on the order of the keys. *)
Definition timestampStep (cache : Cache) (eventId : Utf16.codeUnits)
    (acc : Z * bool) (key : Utf16.codeUnits) : Z * bool :=
  if ofEvent eventId key then
    match cache !! key with
    | Some entry =>
        if (acc.1 <? timestamp entry)%Z then (timestamp entry, true) else acc
    | None => acc
    end
  else acc.

Definition getCacheTimestamp (cache : Cache) (eventId : Utf16.codeUnits) : option Z :=
  let '(maxTimestamp, found) :=
    fold_left (timestampStep cache eventId) (map_to_list cache).*1 (0%Z, false) in
  if found then Some maxTimestamp else None.

End UrlCache.

(** *** The stats route's [DELETE] *)

Module StatsRouteDelete.

(** [const sources = ['ebilet', 'biletyna', 'kupbilecik']]. *)
Definition sources : list Utf16.codeUnits :=
  [Utf16.ofAscii "ebilet"; Utf16.ofAscii "biletyna"; Utf16.ofAscii "kupbilecik"].

(** The cached URLs and the history files once the handler has run. *)
Definition DELETE (cache : UrlCache.Cache) (files : HistoryStore.Files)
    (id : Utf16.codeUnits) : UrlCache.Cache * HistoryStore.Files :=
  (fold_left (fun cache source => UrlCache.clearCachedUrl cache id source)
             sources cache,
   HistoryStore.clearHistory files id).

End StatsRouteDelete.

(** ** The page: statistics of the colours shown *)

Module Page.

(** The counters of [calculateStatsFromColors]. *)
Record ColorCounts : Type := mkColorCounts {
  biletynaFree : Z; biletynaTaken : Z;
  ebiletFree : Z; ebiletTaken : Z;
  kupbilecikFree : Z; kupbilecikTaken : Z;
  noData : Z;
  notForSale : Z; otherSource : Z; boxOffice : Z
}.

Definition noCounts : ColorCounts := mkColorCounts 0 0 0 0 0 0 0 0 0 0.

(** The chain [if (color === ...) stats.x++; else if ...] of the loop
    body. *)
Definition countColor (stats : ColorCounts) (color : string) : ColorCounts :=
  let '(mkColorCounts bf bt ef et kf kt nd nfs os bo) := stats in
  if String.eqb color Frontend.SEAT_COLORS_notForSale
  then mkColorCounts bf bt ef et kf kt nd (nfs + 1) os bo
  else if String.eqb color Frontend.SEAT_COLORS_otherSource
  then mkColorCounts bf bt ef et kf kt nd nfs (os + 1) bo
  else if String.eqb color Frontend.SEAT_COLORS_boxOffice
  then mkColorCounts bf bt ef et kf kt nd nfs os (bo + 1)
  else if String.eqb color (Frontend.SEAT_COLORS_free biletyna)
  then mkColorCounts (bf + 1) bt ef et kf kt nd nfs os bo
  else if String.eqb color (Frontend.SEAT_COLORS_taken biletyna)
  then mkColorCounts bf (bt + 1) ef et kf kt nd nfs os bo
  else if String.eqb color (Frontend.SEAT_COLORS_free ebilet)
  then mkColorCounts bf bt (ef + 1) et kf kt nd nfs os bo
  else if String.eqb color (Frontend.SEAT_COLORS_taken ebilet)
  then mkColorCounts bf bt ef (et + 1) kf kt nd nfs os bo
  else if String.eqb color (Frontend.SEAT_COLORS_free kupbilecik)
  then mkColorCounts bf bt ef et (kf + 1) kt nd nfs os bo
  else if String.eqb color (Frontend.SEAT_COLORS_taken kupbilecik)
  then mkColorCounts bf bt ef et kf (kt + 1) nd nfs os bo
  else mkColorCounts bf bt ef et kf kt (nd + 1) nfs os bo.

(** [calculateStatsFromColors]: one step per entry of [baseColors]; the
    steps only add to counters, so the order of the entries does not
    matter.  The parameter [totalSeats] is not used by the function. *)
Definition calculateStatsFromColors (baseColors edited : gmap string string)
    (totalSeats : Z) : ColorCounts :=
  map_fold
    (fun seatKey baseColor stats =>
       countColor stats (Frontend.mergeColors baseColor (edited !! seatKey)))
    noCounts baseColors.

End Page.

(** ** [eventJoin.ts] *)

Module EventJoin.

Import Utf16.

Record RawEvent : Type := mkRawEvent {
  source : SourceType;
  title : codeUnits;
  date : codeUnits;
  time : codeUnits;
  city : codeUnits;
  cityOriginal : option codeUnits;
  venue : codeUnits;
  eventCardUrl : codeUnits;
  buyButtonSelector : codeUnits
}.

Record SourceData : Type := mkSourceData {
  data_eventCardUrl : codeUnits;
  data_buyButtonSelector : codeUnits;
  data_venue : codeUnits
}.

(** [JoinedEvent['sources']]. *)
Record Sources : Type := mkSources {
  on_biletyna : option SourceData;
  on_ebilet : option SourceData;
  on_kupbilecik : option SourceData
}.

Record JoinedEvent : Type := mkJoinedEvent {
  globalEventId : codeUnits;
  joined_title : codeUnits;
  joined_date : codeUnits;
  joined_time : codeUnits;
  joined_city : codeUnits;
  joined_cityOriginal : option codeUnits;
  sources : Sources
}.

(** [a || b] on strings: the fallback for the empty string. *)
Definition orElse (a b : codeUnits) : codeUnits :=
  match a with
  | [] => b
  | _ => a
  end.

(** [`${date}|${time}|${city}`]. *)
Definition joinKey (date0 time0 city0 : codeUnits) : codeUnits :=
  orElse date0 (ofAscii "unknown") ++ ofAscii "|"
  ++ orElse time0 (ofAscii "00:00") ++ ofAscii "|"
  ++ orElse city0 (ofAscii "unknown").

Definition createJoinKey (event : RawEvent) : codeUnits :=
  joinKey (date event) (time event) (city event).

(** *** [hashString] *)

(** [ToInt32]: the integer modulo 2^32, read as a signed 32-bit value. *)
Definition toInt32 (x : Z) : Z := ((x + 2 ^ 31) mod 2 ^ 32 - 2 ^ 31)%Z.

(** The loop body: [hash = ((hash << 5) - hash) + char; hash = hash & hash]. *)
Definition hashStep (hash char : Z) : Z :=
  toInt32 (toInt32 (toInt32 hash * 2 ^ 5) - hash + char).

Definition hashString (str : codeUnits) : Z :=
  Z.abs (fold_left hashStep str 0%Z).

(** *** [Number.prototype.toString(36)] on a non-negative integer *)

(** The digit character: 0-9, then a-z. *)
Definition digit36 (d : Z) : Z := (if d <? 10 then 48 + d else 87 + d)%Z.

(** The digits of [n], the most significant first; [fuel] bounds their
    number. *)
Fixpoint digits36 (fuel : nat) (n : Z) (acc : codeUnits) : codeUnits :=
  match fuel with
  | O => acc
  | S fuel' =>
      if (n <? 36)%Z then digit36 n :: acc
      else digits36 fuel' (n / 36) (digit36 (n mod 36) :: acc)
  end.

Definition toString36 (n : Z) : codeUnits :=
  digits36 (S (Z.to_nat (Z.log2 n))) n [].

(** *** [generateEventId] *)

(** [\s] on a code unit. *)
Definition isSpace (c : Z) : bool :=
  inRange 9 13 c || (c =? 32)%Z || (c =? 160)%Z || (c =? 5760)%Z
  || inRange 8192 8202 c || (c =? 8232)%Z || (c =? 8233)%Z || (c =? 8239)%Z
  || (c =? 8287)%Z || (c =? 12288)%Z || (c =? 65279)%Z.

(** [s.replace(/-/g, '')], [s.replace(/\s/g, '')]. *)
Definition removeAll (p : Z -> bool) (s : codeUnits) : codeUnits :=
  List.filter (fun c => negb (p c)) s.

(** [s.replace(':', '')]: the first occurrence only. *)
Fixpoint removeFirst (c : Z) (s : codeUnits) : codeUnits :=
  match s with
  | [] => []
  | d :: s' => if (d =? c)%Z then s' else d :: removeFirst c s'
  end.

(** [s.substring(0, n)]. *)
Definition substring0 (n : nat) (s : codeUnits) : codeUnits := take n s.

Definition generateEventId (event : RawEvent) : codeUnits :=
  let datePart := removeAll (fun c => (c =? 45)%Z) (date event) in
  let timePart := removeFirst 58 (time event) in
  let cityPart := removeAll isSpace (substring0 10 (city event)) in
  let titleHash := substring0 6 (toString36 (hashString (title event))) in
  datePart ++ ofAscii "-" ++ timePart ++ ofAscii "-" ++ cityPart
  ++ ofAscii "-" ++ titleHash.

(** *** [joinEvents] *)

(** [eventGroups]: a [Map] from join key to events, in insertion order. *)
Fixpoint addToGroup (key : codeUnits) (event : RawEvent)
    (eventGroups : list (codeUnits * list RawEvent))
    : list (codeUnits * list RawEvent) :=
  match eventGroups with
  | [] => [(key, [event])]
  | (k, events) :: rest =>
      if decide (k = key) then (k, events ++ [event]) :: rest
      else (k, events) :: addToGroup key event rest
  end.

Definition groupEvents (rawEvents : list RawEvent)
    : list (codeUnits * list RawEvent) :=
  fold_left (fun eventGroups event => addToGroup (createJoinKey event) event eventGroups)
            rawEvents [].

(** [events.reduce((a, b) => a.title.length >= b.title.length ? a : b)];
    [None] stands for the [TypeError] of an empty array. *)
Definition bestEventOf (events : list RawEvent) : option RawEvent :=
  match events with
  | [] => None
  | e :: es =>
      Some (fold_left (fun a b =>
                         if (length (title b) <=? length (title a))%nat then a else b)
                      es e)
  end.

Definition noSources : Sources :=
  {| on_biletyna := None; on_ebilet := None; on_kupbilecik := None |}.

Definition sourceOn (s : Sources) (src : SourceType) : option SourceData :=
  match src with
  | biletyna => on_biletyna s
  | ebilet => on_ebilet s
  | kupbilecik => on_kupbilecik s
  end.

(** [sourceData[event.source] = { ... }]. *)
Definition setSource (s : Sources) (event : RawEvent) : Sources :=
  let data := {| data_eventCardUrl := eventCardUrl event;
                 data_buyButtonSelector := buyButtonSelector event;
                 data_venue := venue event |} in
  match source event with
  | biletyna => {| on_biletyna := Some data; on_ebilet := on_ebilet s;
                   on_kupbilecik := on_kupbilecik s |}
  | ebilet => {| on_biletyna := on_biletyna s; on_ebilet := Some data;
                 on_kupbilecik := on_kupbilecik s |}
  | kupbilecik => {| on_biletyna := on_biletyna s; on_ebilet := on_ebilet s;
                     on_kupbilecik := Some data |}
  end.

(** [x || y] on a possibly absent string. *)
Definition firstGiven (a b : option codeUnits) : option codeUnits :=
  match a with
  | Some (_ :: _) => a
  | _ => b
  end.

(** The body of [for (const [key, events] of eventGroups)]. *)
Definition joinGroup (events : list RawEvent) : option JoinedEvent :=
  match bestEventOf events with
  | None => None
  | Some bestEvent =>
      let sourceData := fold_left setSource events noSources in
      let globalId := generateEventId bestEvent in
      let ebiletEvent :=
        List.find (fun e => bool_decide (source e = ebilet)) events in
      let cityOriginal0 :=
        firstGiven (ebiletEvent ≫= cityOriginal) (cityOriginal bestEvent) in
      Some {| globalEventId := globalId;
              joined_title := title bestEvent;
              joined_date := date bestEvent;
              joined_time := time bestEvent;
              joined_city := city bestEvent;
              joined_cityOriginal := cityOriginal0;
              sources := sourceData |}
  end.

(** The groups joined, [None] as soon as one of them throws. *)
Fixpoint joinGroups (eventGroups : list (codeUnits * list RawEvent))
    : option (list JoinedEvent) :=
  match eventGroups with
  | [] => Some []
  | (_, events) :: rest =>
      match joinGroup events, joinGroups rest with
      | Some j, Some js => Some (j :: js)
      | _, _ => None
      end
  end.

Section Sorting.

(** [a.localeCompare(b)], negative, zero or positive: the collation of
    the host, taken as given. *)
Variable localeCompare : codeUnits -> codeUnits -> Z.

(** [`${a.date} ${a.time}`]. *)
Definition dateTime (event : JoinedEvent) : codeUnits :=
  joined_date event ++ ofAscii " " ++ joined_time event.

(** [joinedEvents.sort(...)], stable: an event goes before the first one
    it compares smaller than. *)
Fixpoint insertByDate (event : JoinedEvent) (sorted : list JoinedEvent)
    : list JoinedEvent :=
  match sorted with
  | [] => [event]
  | other :: rest =>
      if (localeCompare (dateTime event) (dateTime other) <? 0)%Z
      then event :: sorted
      else other :: insertByDate event rest
  end.

Definition sortByDate (events : list JoinedEvent) : list JoinedEvent :=
  fold_left (fun sorted event => insertByDate event sorted) events [].

Definition joinEvents (rawEvents : list RawEvent) : option (list JoinedEvent) :=
  sortByDate <$> joinGroups (groupEvents rawEvents).

End Sorting.

(** [getSourcesList] and [getSourceCount]. *)
Definition getSourcesList (event : JoinedEvent) : list SourceType :=
  List.filter (fun src => bool_decide (is_Some (sourceOn (sources event) src)))
              [biletyna; ebilet; kupbilecik].

Definition getSourceCount (event : JoinedEvent) : nat :=
  length (getSourcesList event).

End EventJoin.

(** ** The events route *)

Module EventsRoute.

(** [ScrapeResult] of [scrapeAllEvents]. *)
Record ScrapeResult : Type := mkScrapeResult {
  result_source : SourceType;
  result_events : list EventJoin.RawEvent;
  result_error : option string
}.

(** A joined event with the fields the route adds to it. *)
Record ListedEvent : Type := mkListedEvent {
  evt : EventJoin.JoinedEvent;
  hasCache : bool;
  cacheTimestamp : option Z;
  isNew : bool
}.

(** [seen_events.json] as the set of the ids it lists, empty when the file
    is missing. *)
Abbreviation SeenEvents := (gset Utf16.codeUnits).

(** [eventsCache]. *)
Record EventsCache : Type := mkEventsCache {
  cached_events : list ListedEvent;
  lastUpdated : option Z
}.

Definition emptyCache : EventsCache :=
  {| cached_events := []; lastUpdated := None |}.

(** What the handlers read and write: the cache in memory and the file of
    the seen events. *)
Record State : Type := mkState {
  eventsCache : EventsCache;
  seenFile : SeenEvents
}.

(** [x || undefined] on a timestamp or [null]. *)
Definition orUndefined (t : option Z) : option Z :=
  match t with
  | Some 0%Z => None
  | _ => t
  end.

(** The callback of [joinedEventsRaw.map], with the set [seenEvents] it
    updates. *)
Definition enrichStep (urlCache : UrlCache.Cache)
    (acc : list ListedEvent * SeenEvents) (e : EventJoin.JoinedEvent)
    : list ListedEvent * SeenEvents :=
  let isNew0 := negb (bool_decide (EventJoin.globalEventId e ∈ acc.2)) in
  (acc.1 ++ [ {| evt := e;
                 hasCache := UrlCache.hasCachedData urlCache (EventJoin.globalEventId e);
                 cacheTimestamp :=
                   orUndefined (UrlCache.getCacheTimestamp urlCache
                                                           (EventJoin.globalEventId e));
                 isNew := isNew0 |} ],
   if isNew0 then {[ EventJoin.globalEventId e ]} ∪ acc.2 else acc.2).

Definition enrich (urlCache : UrlCache.Cache) (seenEvents : SeenEvents)
    (joinedEventsRaw : list EventJoin.JoinedEvent)
    : list ListedEvent * SeenEvents :=
  fold_left (enrichStep urlCache) joinedEventsRaw ([], seenEvents).

(** The payload of a success; [fromCache] and [sourceDetails] are not in
    every response. *)
Record Reply : Type := mkReply {
  reply_events : list ListedEvent;
  reply_lastUpdated : Z;
  reply_fromCache : option bool;
  reply_sourceDetails : option (list (SourceType * nat * option string))
}.

Inductive Response : Type :=
  | success (reply : Reply)
  | failure (status : Z).

Definition sourceDetailsOf (scrapeResults : list ScrapeResult)
    : list (SourceType * nat * option string) :=
  (fun r => (result_source r, length (result_events r), result_error r))
    <$> scrapeResults.

Section Handlers.

Variable localeCompare : Utf16.codeUnits -> Utf16.codeUnits -> Z.

(** The steps [GET] and [POST] both take from the scraped events to the
    new cache: the events joined and enriched, the seen events saved.
    [None] when [joinEvents] throws.  [scrapeResults] is what
    [scrapeAllEvents] returned, [updated] the time of [new Date()]. *)
Definition scrapeAndJoin (st : State) (urlCache : UrlCache.Cache)
    (scrapeResults : list ScrapeResult) (updated : Z)
    : option (list ListedEvent * State) :=
  let allRawEvents := concat (result_events <$> scrapeResults) in
  match EventJoin.joinEvents localeCompare allRawEvents with
  | None => None
  | Some joinedEventsRaw =>
      let enriched := enrich urlCache (seenFile st) joinedEventsRaw in
      Some (enriched.1,
            {| eventsCache := {| cached_events := enriched.1;
                                 lastUpdated := Some updated |};
               seenFile := enriched.2 |})
  end.

(** [POST]: always scrapes. *)
Definition POST (st : State) (urlCache : UrlCache.Cache)
    (scrapeResults : list ScrapeResult) (updated : Z) : Response * State :=
  match scrapeAndJoin st urlCache scrapeResults updated with
  | Some (joinedEvents, st') =>
      (success {| reply_events := joinedEvents;
                  reply_lastUpdated := updated;
                  reply_fromCache := None;
                  reply_sourceDetails := Some (sourceDetailsOf scrapeResults) |},
       st')
  | None => (failure 500, st)
  end.

(** [GET]: the cache when it is less than five minutes old at the time
    [now] of [Date.now()], a scrape otherwise. *)
Definition GET (st : State) (urlCache : UrlCache.Cache) (now : Z)
    (scrapeResults : list ScrapeResult) (updated : Z) : Response * State :=
  let fresh :=
    match scrapeAndJoin st urlCache scrapeResults updated with
    | Some (joinedEvents, st') =>
        (success {| reply_events := joinedEvents;
                    reply_lastUpdated := updated;
                    reply_fromCache := Some false;
                    reply_sourceDetails := Some (sourceDetailsOf scrapeResults) |},
         st')
    | None => (failure 500, st)
    end in
  match lastUpdated (eventsCache st) with
  | Some cachedAt =>
      let cacheAge := (now - cachedAt)%Z in
      if (cacheAge <? 5 * 60 * 1000)%Z then
        (success {| reply_events := cached_events (eventsCache st);
                    reply_lastUpdated := cachedAt;
                    reply_fromCache := Some true;
                    reply_sourceDetails := None |},
         st)
      else fresh
  | None => fresh
  end.

End Handlers.

End EventsRoute.

(** ** Notions used in the statements on counts *)

(** The sum of a field over the rows of a sector, as
    [Object.values(rows).reduce((sum, r) => sum + r.field, 0)]. *)
Definition sumBy (f : RowStats -> Z) (m : gmap string RowStats) : Z :=
  fold_left (fun sum r => (sum + f r)%Z) ((map_to_list m).*2) 0%Z.

(** Every row counts as many seats as it counts free and taken ones,
    and at least one. *)
Definition rowsBalanced (m : gmap string RowStats) : Prop :=
  map_Forall (fun _ r => total r = (free r + taken r)%Z
                         /\ (0 <= free r)%Z /\ (0 <= taken r)%Z
                         /\ (0 < total r)%Z) m.

(** The three counts of an accumulator agree with its seat lists. *)
Definition counted (m : gmap string RowStats) (freeL takenL : list string) : Prop :=
  sumBy free m = Backend.lengthZ freeL
  /\ sumBy taken m = Backend.lengthZ takenL
  /\ sumBy total m = (Backend.lengthZ freeL + Backend.lengthZ takenL)%Z
  /\ rowsBalanced m.

(** *** The names the model is exact on

    The case mappings and [trim] are modelled on ASCII; a table of rows
    is written to an object by assignment, [rows[row] = stats], which
    stores no row under "__proto__"; and [sfs[sid]] finds the members
    every object inherits. *)
Definition isOwnKey (name : string) : bool := negb (String.eqb name "__proto__").

Definition isInherited (name : string) : bool :=
  bool_decide (name ∈ Backend.ObjectPrototype).

(** A venue of Kupbilecik with such names: the names of the parts and of
    the seats, and of the rows. *)
Definition plainVenue (obiektData : Parsers.KupBilecikObiektData) : bool :=
  forallb
    (fun czesc =>
       allChars isAscii (Parsers.orElse (Parsers.czesc_nazwa czesc) "")
       && forallb
            (fun rzad =>
               isOwnKey (Parsers.orElse (Parsers.rzad_nazwa rzad) "")
               && forallb (fun miejsce => allChars isAscii (Parsers.miejsce_nazwa miejsce))
                          (Parsers.miejsca rzad))
            (Parsers.rzedy czesc))
    (Parsers.czesci obiektData).


(** The sector results of Biletyna: no table has a row "__proto__". *)
Definition plainResults (sectorResults : list (string * Backend.BiletynaSectorResult))
    : bool :=
  forallb (fun r => bool_decide (Backend.biletyna_rows r.2 !! "__proto__" = None))
          sectorResults.

(** The responses of eBilet: the sector ids, and the rows and numbers of
    the seats. *)
Definition plainResponses (seatsBySid : list (string * Backend.EbiletSeatsResponse))
    : bool :=
  forallb
    (fun entry =>
       negb (isInherited entry.1)
       && forallb (fun seat =>
                     isOwnKey (Backend.seat_rn seat)
                     && allChars isAscii (Backend.seat_rn seat)
                     && allChars isAscii (Backend.seat_n seat))
                  (Backend.seats_s entry.2))
    seatsBySid.

(** The seats of a part of the venue that carry a name, in the order of
    the rows, and the parts [processKupbilecikData] lists as sectors: not
    the stage, and with a named seat. *)
Definition namedSeatsOf (czesc : Parsers.Czesc) : list Parsers.Miejsce :=
  List.filter (fun m => negb (Parsers.unnamedSeat m))
              (concat (Parsers.miejsca <$> Parsers.rzedy czesc)).

Definition isStage (czesc : Parsers.Czesc) : bool :=
  String.eqb (toUpperCase (Parsers.orElse (Parsers.czesc_nazwa czesc) "")) "SCENA".

Definition listedPart (czesc : Parsers.Czesc) : bool :=
  negb (isStage czesc) && negb (length (namedSeatsOf czesc) =? 0)%nat.

(** A listed sector against the part it was read from. *)
Definition sectorOfPart (czesc : Parsers.Czesc) (sector : SectorStats) : Prop :=
  sectorName sector = Parsers.orElse (Parsers.czesc_nazwa czesc) ""
  /\ Backend.lengthZ (freeSeats sector)
     = Backend.lengthZ (List.filter Parsers.miejsce_free (namedSeatsOf czesc))
  /\ Backend.lengthZ (takenSeats sector)
     = Backend.lengthZ (List.filter (fun m => negb (Parsers.miejsce_free m))
                                    (namedSeatsOf czesc))
  /\ totals sector = Backend.totalsOf (freeSeats sector) (takenSeats sector)
  /\ counted (rows sector) (freeSeats sector) (takenSeats sector).




(** The counts of a row in a table of rows, zero for a row that is not
    there, and the sum of such counts. *)
Definition rowIn (m : gmap string RowStats) (row : string) : RowStats :=
  default (mkRowStats 0 0 0) (m !! row).

Definition addStats (a b : RowStats) : RowStats :=
  {| total := total a + total b; free := free a + free b;
     taken := taken a + taken b |}.

Definition sumStats (l : list RowStats) : RowStats :=
  fold_left addStats l (mkRowStats 0 0 0).

(** A sector of the combined Biletyna statistics against the sector
    result it was built from, the [position]-th one (from 1): the data are
    those of the result, and the name is that of a Kupbilecik sector or
    "Sektor [position]". *)
Definition sectorOfResult (kupbilecikSectors : option (list SectorStats))
    (position : nat) (r : string * Backend.BiletynaSectorResult)
    (sector : SectorStats) : Prop :=
  rows sector = Backend.biletyna_rows r.2
  /\ freeSeats sector = Backend.biletyna_freeSeats r.2
  /\ takenSeats sector = Backend.biletyna_takenSeats r.2
  /\ totals sector = Backend.totalsOf (freeSeats sector) (takenSeats sector)
  /\ (sectorName sector = Backend.fallbackName position
      \/ exists kbs m, kupbilecikSectors = Some kbs /\ In m kbs
                       /\ sectorName sector = sectorName m).

(** The seat ids [sfs] lists for a sector id, the key of a seat, and the
    keys of the seats of a response that are free ([isFree = true]: the
    id is listed for the sector of the response) or taken. *)
Definition ebiletFreeIds (freeSeatsData : Backend.EbiletFreeSeatsResponse)
    (sid : string) : gset string :=
  list_to_set (concat (default [] (Backend.sfs freeSeatsData !! sid))).

Definition ebiletKey (seat : Backend.EbiletSeat) : string :=
  Backend.seat_rn seat +:+ "-" +:+ Backend.seat_n seat.

Definition ebiletKeysOf (isFree : bool)
    (freeSeatsData : Backend.EbiletFreeSeatsResponse)
    (entry : string * Backend.EbiletSeatsResponse) : list string :=
  ebiletKey <$>
    List.filter (fun seat =>
                   Bool.eqb (bool_decide (Backend.seat_id seat
                                          ∈ ebiletFreeIds freeSeatsData entry.1))
                            isFree)
                (Backend.seats_s entry.2).

(** Ascending in the order [sort()] uses. *)
Fixpoint ascending (l : list string) : Prop :=
  match l with
  | [] => True
  | x :: l' =>
      match l' with
      | [] => True
      | y :: _ => String.leb x y = true
      end /\ ascending l'
  end.

(** The seats a set of counters accounts for. *)
Definition countedSeats (stats : Page.ColorCounts) : Z :=
  Page.biletynaFree stats + Page.biletynaTaken stats
  + Page.ebiletFree stats + Page.ebiletTaken stats
  + Page.kupbilecikFree stats + Page.kupbilecikTaken stats
  + Page.noData stats
  + Page.notForSale stats + Page.otherSource stats + Page.boxOffice stats.

Definition paintedSeats (stats : Frontend.ColorStats) : Z :=
  Frontend.biletynaFree stats + Frontend.biletynaTaken stats
  + Frontend.ebiletFree stats + Frontend.ebiletTaken stats
  + Frontend.kupbilecikFree stats + Frontend.kupbilecikTaken stats
  + Frontend.noData stats.

Definition takenSeatsPainted (stats : Frontend.ColorStats) : Z :=
  Frontend.biletynaTaken stats + Frontend.ebiletTaken stats
  + Frontend.kupbilecikTaken stats.

(** A source name without ':'. *)
Definition colonFree (source : Utf16.codeUnits) : Prop :=
  Forall (fun c => c <> 58%Z) source.

(** The value 31^(n-1) c_1 + ... + 31 c_(n-1) + c_n of a string of code
    units, from the value [h] of what precedes it. *)
Definition polynomial31 (str : Utf16.codeUnits) (h : Z) : Z :=
  fold_left (fun h c => (31 * h + c)%Z) str h.

(** The number a string of base-36 digits 0-9 a-z writes. *)
Definition value36 (digits : Utf16.codeUnits) : Z :=
  fold_left (fun v c => (36 * v + (if c <? 58 then c - 48 else c - 87))%Z) digits 0%Z.

(** The join key of a joined event. *)
Definition joinedKey (event : EventJoin.JoinedEvent) : Utf16.codeUnits :=
  EventJoin.joinKey (EventJoin.joined_date event) (EventJoin.joined_time event)
                    (EventJoin.joined_city event).

(** The ids of joined events. *)
Definition idsOf (events : list EventJoin.JoinedEvent) : list Utf16.codeUnits :=
  EventJoin.globalEventId <$> events.

(** ** Invariants of the parsers' loops *)

(** What a run of seat steps of [processKupbilecikData] over [seats] adds
    to the accumulators of the sector and to the global ones. *)
Definition kbAdds (seats : list Parsers.Miejsce)
    (before after : Parsers.KbSectorAcc * Parsers.KbState) : Prop :=
  exists df dt,
    Parsers.kb_sectorFreeSeats after.1 = Parsers.kb_sectorFreeSeats before.1 ++ df
    /\ Parsers.kb_sectorTakenSeats after.1 = Parsers.kb_sectorTakenSeats before.1 ++ dt
    /\ Parsers.kb_globalFreeSeats after.2 = Parsers.kb_globalFreeSeats before.2 ++ df
    /\ Parsers.kb_globalTakenSeats after.2 = Parsers.kb_globalTakenSeats before.2 ++ dt
    /\ Parsers.kb_sectors after.2 = Parsers.kb_sectors before.2
    /\ length df
       = length (List.filter (fun m => negb (Parsers.unnamedSeat m)
                                       && Parsers.miejsce_free m) seats)
    /\ length dt
       = length (List.filter (fun m => negb (Parsers.unnamedSeat m)
                                       && negb (Parsers.miejsce_free m)) seats)
    /\ (counted (Parsers.kb_sectorRowsData before.1)
                (Parsers.kb_sectorFreeSeats before.1)
                (Parsers.kb_sectorTakenSeats before.1) ->
        counted (Parsers.kb_sectorRowsData after.1)
                (Parsers.kb_sectorFreeSeats after.1)
                (Parsers.kb_sectorTakenSeats after.1))
    /\ (counted (Parsers.kb_globalRowsData before.2)
                (Parsers.kb_globalFreeSeats before.2)
                (Parsers.kb_globalTakenSeats before.2) ->
        counted (Parsers.kb_globalRowsData after.2)
                (Parsers.kb_globalFreeSeats after.2)
                (Parsers.kb_globalTakenSeats after.2)).

(** The state of [processKupbilecikData] once the parts [processed] have
    been gone through. *)
Definition kbOuter (processed : list Parsers.Czesc) (st : Parsers.KbState) : Prop :=
  counted (Parsers.kb_globalRowsData st) (Parsers.kb_globalFreeSeats st)
          (Parsers.kb_globalTakenSeats st)
  /\ Parsers.kb_globalFreeSeats st = concat (freeSeats <$> Parsers.kb_sectors st)
  /\ Parsers.kb_globalTakenSeats st = concat (takenSeats <$> Parsers.kb_sectors st)
  /\ Forall2 sectorOfPart (List.filter listedPart processed) (Parsers.kb_sectors st).

(** What the loop of [combineBiletynaSectors] adds to its state over the
    sector results [rs], the first of them at index [i]. *)
Definition combineAdds (kb : option (list SectorStats)) (i : nat)
    (rs : list (string * Backend.BiletynaSectorResult))
    (st st' : Backend.CombineState) : Prop :=
  exists secs,
    Backend.cs_sectors st' = Backend.cs_sectors st ++ secs
    /\ length secs = length rs
    /\ (forall j r sec, rs !! j = Some r -> secs !! j = Some sec ->
          sectorOfResult kb (S (i + j)) r sec)
    /\ Backend.cs_globalFreeSeats st'
       = Backend.cs_globalFreeSeats st
         ++ concat ((fun r => Backend.biletyna_freeSeats r.2) <$> rs)
    /\ Backend.cs_globalTakenSeats st'
       = Backend.cs_globalTakenSeats st
         ++ concat ((fun r => Backend.biletyna_takenSeats r.2) <$> rs)
    /\ (forall row,
          rowIn (Backend.cs_globalRowsData st') row
          = addStats (rowIn (Backend.cs_globalRowsData st) row)
              (sumStats ((fun r => rowIn (Backend.biletyna_rows r.2) row) <$> rs)))
    /\ (forall row,
          is_Some (Backend.cs_globalRowsData st' !! row)
          <-> is_Some (Backend.cs_globalRowsData st !! row)
              \/ Exists (fun r => is_Some (Backend.biletyna_rows r.2 !! row)) rs)
    /\ (Forall (fun r => counted (Backend.biletyna_rows r.2)
                                 (Backend.biletyna_freeSeats r.2)
                                 (Backend.biletyna_takenSeats r.2)) rs ->
        counted (Backend.cs_globalRowsData st) (Backend.cs_globalFreeSeats st)
                (Backend.cs_globalTakenSeats st) ->
        counted (Backend.cs_globalRowsData st') (Backend.cs_globalFreeSeats st')
                (Backend.cs_globalTakenSeats st')).

(** What the seat loop of [processEbiletAllSectors] adds to the
    accumulators over the seats [seats], [ids] being the free seat ids of
    the sector. *)
Definition ebAdds (ids : gset string) (seats : list Backend.EbiletSeat)
    (before after : Backend.EbiletSectorAcc * Backend.EbiletState) : Prop :=
  let df := ebiletKey <$> List.filter
              (fun seat => Bool.eqb (bool_decide (Backend.seat_id seat ∈ ids)) true)
              seats in
  let dt := ebiletKey <$> List.filter
              (fun seat => Bool.eqb (bool_decide (Backend.seat_id seat ∈ ids)) false)
              seats in
  Backend.sectorFreeSeats after.1 = Backend.sectorFreeSeats before.1 ++ df
  /\ Backend.sectorTakenSeats after.1 = Backend.sectorTakenSeats before.1 ++ dt
  /\ Backend.es_globalFreeSeats after.2 = Backend.es_globalFreeSeats before.2 ++ df
  /\ Backend.es_globalTakenSeats after.2 = Backend.es_globalTakenSeats before.2 ++ dt
  /\ Backend.es_sectors after.2 = Backend.es_sectors before.2
  /\ (counted (Backend.sectorRowsData before.1) (Backend.sectorFreeSeats before.1)
              (Backend.sectorTakenSeats before.1) ->
      counted (Backend.sectorRowsData after.1) (Backend.sectorFreeSeats after.1)
              (Backend.sectorTakenSeats after.1))
  /\ (counted (Backend.es_globalRowsData before.2) (Backend.es_globalFreeSeats before.2)
              (Backend.es_globalTakenSeats before.2) ->
      counted (Backend.es_globalRowsData after.2) (Backend.es_globalFreeSeats after.2)
              (Backend.es_globalTakenSeats after.2)).

(** The state of [processEbiletAllSectors] once the responses
    [processed] have been gone through. *)
Definition ebOuter (freeSeatsData : Backend.EbiletFreeSeatsResponse)
    (processed : list (string * Backend.EbiletSeatsResponse))
    (st : Backend.EbiletState) : Prop :=
  counted (Backend.es_globalRowsData st) (Backend.es_globalFreeSeats st)
          (Backend.es_globalTakenSeats st)
  /\ Backend.es_globalFreeSeats st
     = concat (ebiletKeysOf true freeSeatsData <$> processed)
  /\ Backend.es_globalTakenSeats st
     = concat (ebiletKeysOf false freeSeatsData <$> processed)
  /\ Backend.es_globalFreeSeats st = concat (freeSeats <$> Backend.es_sectors st)
  /\ Backend.es_globalTakenSeats st = concat (takenSeats <$> Backend.es_sectors st)
  /\ Forall (fun sector =>
               totals sector = Backend.totalsOf (freeSeats sector) (takenSeats sector)
               /\ Backend.totalSeatsOf (rows sector) = total (totals sector)
               /\ counted (rows sector) (freeSeats sector) (takenSeats sector))
            (Backend.es_sectors st).

(** The events of the join key [key], in their order. *)
Definition groupOf (key : Utf16.codeUnits) (rawEvents : list EventJoin.RawEvent)
    : list EventJoin.RawEvent :=
  List.filter (fun e => bool_decide (EventJoin.createJoinKey e = key)) rawEvents.

(** The events of the source [src], in their order. *)
Definition fromSource (src : SourceType) (events : list EventJoin.RawEvent)
    : list EventJoin.RawEvent :=
  List.filter (fun e => bool_decide (EventJoin.source e = src)) events.

(** What [joinEvents] records of an event under its source. *)
Definition sourceDataOf (event : EventJoin.RawEvent) : EventJoin.SourceData :=
  {| EventJoin.data_eventCardUrl := EventJoin.eventCardUrl event;
     EventJoin.data_buyButtonSelector := EventJoin.buyButtonSelector event;
     EventJoin.data_venue := EventJoin.venue event |}.

(** [eventGroups] once the events [rawEvents] have been gone through: one
    group for each join key met, holding the events of that key. *)
Definition grouped (rawEvents : list EventJoin.RawEvent)
    (eventGroups : list (Utf16.codeUnits * list EventJoin.RawEvent)) : Prop :=
  NoDup eventGroups.*1
  /\ Forall (fun g => g.2 <> [] /\ g.2 = groupOf g.1 rawEvents) eventGroups
  /\ forall e, e ∈ rawEvents -> EventJoin.createJoinKey e ∈ eventGroups.*1.

(** ** Sample inputs of the parsers *)

Module ParserSamples.

Definition seat (name : string) (isFree : bool) : Parsers.Miejsce :=
  {| Parsers.miejsce_nazwa := name; Parsers.miejsce_id := 0;
     Parsers.miejsce_free := isFree |}.

(** A venue with a stage, a part of two rows (the second one without a
    name, two seats without a usable name) and a part without seats. *)
Definition venue : Parsers.KupBilecikObiektData :=
  {| Parsers.obiekt_id := 1;
     Parsers.czesci :=
       [ {| Parsers.czesc_id := 1; Parsers.czesc_nazwa := Some "Scena";
            Parsers.rzedy :=
              [ {| Parsers.miejsca := [seat "1" true];
                   Parsers.rzad_nazwa := Some "I" |} ] |};
         {| Parsers.czesc_id := 2; Parsers.czesc_nazwa := Some "Parter";
            Parsers.rzedy :=
              [ {| Parsers.miejsca := [seat "1" true; seat "2" false; seat "" true];
                   Parsers.rzad_nazwa := Some "I" |};
                {| Parsers.miejsca := [seat "1" false; seat "null" true];
                   Parsers.rzad_nazwa := None |} ] |};
         {| Parsers.czesc_id := 3; Parsers.czesc_nazwa := Some "Balkon";
            Parsers.rzedy :=
              [ {| Parsers.miejsca := [seat " " true];
                   Parsers.rzad_nazwa := Some "I" |} ] |} ] |}.

Definition noStats : SourceStats :=
  {| source := kupbilecik; source_totals := mkRowStats 0 0 0;
     source_rows := ∅; source_freeSeats := []; source_takenSeats := [];
     sectors := None; finalUrl := None |}.

Definition venueStats : SourceStats :=
  default noStats (Parsers.processKupbilecikData venue).

Definition place (row number status : string) : Parsers.PlaceElement :=
  {| Parsers.data_row_number := Some row;
     Parsers.data_place_number := Some number;
     Parsers.data_place_status := Some status |}.

(** Seats on sale, sold and reserved, a spacer, and an element without a
    row. *)
Definition hall : list Parsers.PlaceElement :=
  [ place "1" "1" "10"; place "1" "2" "30"; place "1" "3" "90";
    place "2" "1" "80"; place "2" "2" "10";
    {| Parsers.data_row_number := None; Parsers.data_place_number := Some "9";
       Parsers.data_place_status := Some "10" |} ].

Definition noSector : Backend.BiletynaSectorResult :=
  {| Backend.biletyna_rows := ∅; Backend.biletyna_freeSeats := [];
     Backend.biletyna_takenSeats := [] |}.

Definition hallResult : Backend.BiletynaSectorResult :=
  default noSector (Parsers.parseBiletynaSectorSeats hall).

(** Two Biletyna sectors that both have a row "1". *)
Definition twoSectors : list (string * Backend.BiletynaSectorResult) :=
  [ ("https://biletyna.pl/s/1",
     {| Backend.biletyna_rows := Samples.rowsOfSeats ["1-1"; "1-2"] ["2-1"];
        Backend.biletyna_freeSeats := ["1-1"; "1-2"];
        Backend.biletyna_takenSeats := ["2-1"] |});
    ("https://biletyna.pl/s/2",
     {| Backend.biletyna_rows := Samples.rowsOfSeats ["1-1"] ["1-2"];
        Backend.biletyna_freeSeats := ["1-1"];
        Backend.biletyna_takenSeats := ["1-2"] |}) ].

Definition twoSectorsStats : SourceStats :=
  default noStats (Backend.combineBiletynaSectors twoSectors None).

(** Two eBilet sectors with the seat ids 1 and 2 each; [sfs] lists the
    id 1 for the first sector and the id 2 for the second. *)
Definition ebiletSeat (id0 row number : string) : Backend.EbiletSeat :=
  {| Backend.seat_id := id0; Backend.seat_rn := row; Backend.seat_n := number |}.

Definition ebiletTwo : list (string * Backend.EbiletSeatsResponse) :=
  [ ("s1", {| Backend.seats_sid := "s1";
              Backend.seats_s := [ebiletSeat "1" "B" "1"; ebiletSeat "2" "B" "2"] |});
    ("s2", {| Backend.seats_sid := "s2";
              Backend.seats_s := [ebiletSeat "1" "A" "1"; ebiletSeat "2" "A" "2"] |}) ].

Definition ebiletTwoFree : Backend.EbiletFreeSeatsResponse :=
  {| Backend.sfs := {[ "s1" := [["1"]]; "s2" := [["2"]] ]}; Backend.err := None |}.

Definition ebiletTwoStats : SourceStats :=
  default noStats (Backend.processEbiletAllSectors ebiletTwo ebiletTwoFree None).

End ParserSamples.

Module JoinSamples.

(** The order of the code units, for [localeCompare]. *)
Fixpoint byCodeUnit (a b : Utf16.codeUnits) : Z :=
  match a, b with
  | [], [] => 0
  | [], _ :: _ => -1
  | _ :: _, [] => 1
  | c :: a', d :: b' =>
      if (c <? d)%Z then -1 else if (d <? c)%Z then 1 else byCodeUnit a' b'
  end.

Definition show (source0 : SourceType) (title0 date0 time0 city0 : string)
    : EventJoin.RawEvent :=
  {| EventJoin.source := source0;
     EventJoin.title := Utf16.ofAscii title0;
     EventJoin.date := Utf16.ofAscii date0;
     EventJoin.time := Utf16.ofAscii time0;
     EventJoin.city := Utf16.ofAscii city0;
     EventJoin.cityOriginal := None;
     EventJoin.venue := Utf16.ofAscii "Teatr";
     EventJoin.eventCardUrl := Utf16.ofAscii "https://example.org/" ++ Utf16.ofAscii title0;
     EventJoin.buyButtonSelector := Utf16.ofAscii "a" |}.

(** One evening in Krakow sold by two sources, and one in Gdansk. *)
Definition scraped : list EventJoin.RawEvent :=
  [ show biletyna "Koncert" "2025-03-02" "19:00" "krakow";
    show kupbilecik "Kabaret" "2025-03-01" "18:00" "gdansk";
    show ebilet "Koncert noworoczny" "2025-03-02" "19:00" "krakow" ].

Definition joined : list EventJoin.JoinedEvent :=
  default [] (EventJoin.joinEvents byCodeUnit scraped).

Definition krakow : EventJoin.JoinedEvent :=
  default {| EventJoin.globalEventId := []; EventJoin.joined_title := [];
             EventJoin.joined_date := []; EventJoin.joined_time := [];
             EventJoin.joined_city := []; EventJoin.joined_cityOriginal := None;
             EventJoin.sources := EventJoin.noSources |}
          (joined !! 1%nat).

End JoinSamples.

Module RouteSamples.

Definition scrapeResults : list EventsRoute.ScrapeResult :=
  [ {| EventsRoute.result_source := biletyna;
       EventsRoute.result_events := JoinSamples.scraped;
       EventsRoute.result_error := None |} ].

Definition start : EventsRoute.State :=
  {| EventsRoute.eventsCache := EventsRoute.emptyCache;
     EventsRoute.seenFile := ∅ |}.

End RouteSamples.

(* ====================== PROOFS ====================== *)

(** * Properties *)

(** ** Strings *)


Lemma isWhiteSpace_upperChar c : isWhiteSpace (upperChar c) = isWhiteSpace c.
Proof. destruct c as [[] [] [] [] [] [] [] []]; reflexivity. Qed.


Lemma isSharpS_white c d : isWhiteSpace c = true -> isSharpS c d = false.
Proof. destruct c as [[] [] [] [] [] [] [] []]; cbv; congruence. Qed.


Lemma isSharpS_ascii c d : isAscii c = true -> isSharpS c d = false.
Proof. destruct c as [[] [] [] [] [] [] [] []]; cbv; congruence. Qed.




(** *** The two case mappings, one step at a time *)

Lemma toUpperCase_cons c s :
  startsSharpS (String c s) = false ->
  toUpperCase (String c s) = String (upperChar c) (toUpperCase s).
Proof.
  cbn [startsSharpS toUpperCase]. destruct s as [|d s]; [reflexivity|].
  now intros ->.
Qed.


Lemma startsSharpS_true s :
  startsSharpS s = true -> exists t, s = String "195" (String "159" t).
Proof.
  destruct s as [|c [|d t]]; try discriminate.
  unfold startsSharpS, isSharpS. intros [H1 H2]%andb_prop.
  apply Ascii.eqb_eq in H1, H2. subst. eauto.
Qed.


(** Induction along the steps of [toUpperCase]. *)
Lemma toUpperCase_ind (P : string -> Prop) :
  P "" ->
  (forall t, P t -> P (String "195" (String "159" t))) ->
  (forall c s, startsSharpS (String c s) = false -> P s -> P (String c s)) ->
  forall s, P s.
Proof.
  intros H0 H1 H2 s.
  assert (G : forall n s, (String.length s <= n)%nat -> P s).
  { clear s. induction n as [|n IH]; intros s Hl.
    - destruct s; [exact H0 | cbn in Hl; lia].
    - destruct (startsSharpS s) eqn:E.
      + destruct (startsSharpS_true s E) as [t ->].
        apply H1, IH. cbn in Hl. lia.
      + destruct s as [|c s]; [exact H0|].
        apply H2; [exact E|]. apply IH. cbn in Hl. lia. }
  exact (G (String.length s) s (le_n _)).
Qed.


(** On ASCII strings the mappings work character by character. *)
Lemma toUpperCase_ascii s :
  allChars isAscii s = true -> toUpperCase s = mapChars upperChar s.
Proof.
  induction s as [|c s IH]; [reflexivity|]. cbn [allChars mapChars].
  intros [Hc Hs]%andb_prop. rewrite <- (IH Hs). apply toUpperCase_cons.
  destruct s as [|d s]; [reflexivity|]. cbn. now apply isSharpS_ascii.
Qed.





(** *** [trim] *)

Lemma trimEnd_cons_kept c s :
  isWhiteSpace c = false -> trimEnd (String c s) = String c (trimEnd s).
Proof.
  intros W. cbn [trimEnd]. destruct (trimEnd s); [now rewrite W | reflexivity].
Qed.

Lemma trimEnd_head s d t : trimEnd s = String d t -> exists t', s = String d t'.
Proof.
  destruct s as [|c s]; [discriminate|]. cbn [trimEnd].
  destruct (trimEnd s); [destruct (isWhiteSpace c)|]; intros [= <- _]; eauto.
Qed.


Lemma trimStart_toUpperCase s : trimStart (toUpperCase s) = toUpperCase (trimStart s).
Proof.
  induction s as [|t IH|c s E IH] using toUpperCase_ind; [reflexivity..|].
  rewrite (toUpperCase_cons c s E). cbn [trimStart].
  rewrite isWhiteSpace_upperChar.
  destruct (isWhiteSpace c); [exact IH | now rewrite (toUpperCase_cons c s E)].
Qed.


Lemma toUpperCase_cons_head d t : exists x y, toUpperCase (String d t) = String x y.
Proof.
  cbn [toUpperCase]. destruct t as [|e t]; [eauto|].
  destruct (isSharpS d e); eauto.
Qed.


Lemma trimEnd_toUpperCase s : trimEnd (toUpperCase s) = toUpperCase (trimEnd s).
Proof.
  induction s as [|t IH|c s E IH] using toUpperCase_ind; [reflexivity| |].
  - change (toUpperCase (String "195" (String "159" t)))
      with (String "S" (String "S" (toUpperCase t))).
    rewrite !trimEnd_cons_kept by reflexivity. rewrite IH. reflexivity.
  - rewrite (toUpperCase_cons c s E).
    destruct (isWhiteSpace c) eqn:W.
    + cbn [trimEnd]. rewrite IH, isWhiteSpace_upperChar, W.
      destruct (trimEnd s) as [|d t]; [reflexivity|].
      destruct (toUpperCase_cons_head d t) as (x & y & Hxy). rewrite Hxy, <- Hxy.
      symmetry. apply toUpperCase_cons. cbn. now apply isSharpS_white.
    + rewrite !trimEnd_cons_kept by now rewrite ?isWhiteSpace_upperChar.
      rewrite IH. symmetry. apply toUpperCase_cons.
      destruct (trimEnd s) as [|d t] eqn:T; [reflexivity|].
      destruct (trimEnd_head s d t T) as [t' ->]. exact E.
Qed.


Lemma trim_toUpperCase s : trim (toUpperCase s) = toUpperCase (trim s).
Proof. unfold trim. now rewrite trimStart_toUpperCase, trimEnd_toUpperCase. Qed.


Lemma allChars_trimStart p s : allChars p s = true -> allChars p (trimStart s) = true.
Proof.
  induction s as [|c s IH]; [reflexivity|]. cbn [trimStart].
  destruct (isWhiteSpace c); [|auto]. cbn [allChars].
  intros [_ Hs]%andb_prop. auto.
Qed.

Lemma allChars_trimEnd p s : allChars p s = true -> allChars p (trimEnd s) = true.
Proof.
  induction s as [|c s IH]; [reflexivity|]. cbn [allChars trimEnd].
  intros [Hc Hs]%andb_prop. specialize (IH Hs).
  destruct (trimEnd s); [destruct (isWhiteSpace c)|]; cbn [allChars] in *;
    rewrite ?Hc, ?IH; reflexivity.
Qed.

Lemma allChars_trim p s : allChars p s = true -> allChars p (trim s) = true.
Proof. intros H. unfold trim. now apply allChars_trimEnd, allChars_trimStart. Qed.

Lemma allChars_weaken (p q : ascii -> bool) s :
  (forall c, p c = true -> q c = true) ->
  allChars p s = true -> allChars q s = true.
Proof.
  intros H. induction s as [|c s IH]; [reflexivity|]. cbn [allChars].
  intros [Hc Hs]%andb_prop. now rewrite (H c Hc), (IH Hs).
Qed.

Lemma trimEnd_idem s : trimEnd (trimEnd s) = trimEnd s.
Proof.
  induction s as [|c s IH]; cbn [trimEnd]; [reflexivity|].
  destruct (trimEnd s) as [|c' t] eqn:E.
  - destruct (isWhiteSpace c) eqn:W; cbn [trimEnd]; [reflexivity|]. now rewrite W.
  - cbn [trimEnd] in IH |- *. now rewrite IH.
Qed.

Lemma headKept_trimStart s : headKept (trimStart s) = true.
Proof.
  induction s as [|c s IH]; cbn [trimStart]; [reflexivity|].
  destruct (isWhiteSpace c) eqn:W; [exact IH|]. cbn [headKept]. now rewrite W.
Qed.

Lemma trimStart_headKept s : headKept s = true -> trimStart s = s.
Proof.
  destruct s as [|c s]; cbn [headKept trimStart]; [reflexivity|].
  now destruct (isWhiteSpace c).
Qed.

Lemma headKept_trimEnd s : headKept s = true -> headKept (trimEnd s) = true.
Proof.
  destruct s as [|c s]; cbn [headKept trimEnd]; [reflexivity|]. intros H.
  destruct (trimEnd s); [destruct (isWhiteSpace c) eqn:W|];
    cbn [headKept]; rewrite ?W; auto.
Qed.

Lemma trim_idem s : trim (trim s) = trim s.
Proof.
  unfold trim.
  rewrite (trimStart_headKept (trimEnd (trimStart s))).
  - apply trimEnd_idem.
  - apply headKept_trimEnd, headKept_trimStart.
Qed.

Lemma trimEnd_kept p s :
  (forall c, p c = true -> isWhiteSpace c = false) ->
  allChars p s = true -> trimEnd s = s.
Proof.
  intros Hp. induction s as [|c s IH]; cbn [allChars trimEnd]; [reflexivity|].
  intros [Hc Hs]%andb_prop. rewrite (IH Hs).
  destruct s; [now rewrite (Hp c Hc) | reflexivity].
Qed.

Lemma trim_kept p s :
  (forall c, p c = true -> isWhiteSpace c = false) ->
  allChars p s = true -> trim s = s.
Proof.
  intros Hp Hs. unfold trim. rewrite trimStart_headKept.
  - now apply (trimEnd_kept p).
  - destruct s as [|c s]; [reflexivity|]. cbn [allChars headKept] in *.
    apply andb_prop in Hs as [Hc _]. now rewrite (Hp c Hc).
Qed.

Lemma mapChars_fixed p g s :
  (forall c, p c = true -> g c = c) ->
  allChars p s = true -> mapChars g s = s.
Proof.
  intros Hp. induction s as [|c s IH]; cbn [allChars mapChars]; [reflexivity|].
  intros [Hc Hs]%andb_prop. now rewrite (Hp c Hc), (IH Hs).
Qed.

(** ** Row-name normalisation *)

Lemma isDigit_kept c : Backend.isDigit c = true -> isWhiteSpace c = false.
Proof. destruct c as [[] [] [] [] [] [] [] []]; cbv; congruence. Qed.


Lemma isDigit_upper c : Backend.isDigit c = true -> upperChar c = c.
Proof. destruct c as [[] [] [] [] [] [] [] []]; cbv; congruence. Qed.




Lemma isDigit_ascii c : Backend.isDigit c = true -> isAscii c = true.
Proof. destruct c as [[] [] [] [] [] [] [] []]; cbv; congruence. Qed.



Lemma matchTrailingNumeral_whole s :
  Backend.wholeNumeral s = true -> Backend.matchTrailingNumeral s = Some s.
Proof. intros H. destruct s; cbn [Backend.matchTrailingNumeral]; now rewrite H. Qed.



Lemma romanValue_range key v :
  romanValue key = Some v -> (1 <= v <= 30)%Z.
Proof.
  unfold romanValue, ROMAN_MAP. cbn [tableLookup].
  repeat (destruct (String.eqb _ key); [intros [= <-]; lia|]).
  discriminate.
Qed.







(** C10: the two normalisers differ.  On the label "Row V" the route
    extracts the trailing numeral and answers "5", the page answers the
    label itself; the seat keys built from it differ in the same way, and
    so does "Balcony", which only the route lower-cases. *)
Theorem C10_normalizers_differ :
  Backend.normalizeRowName "Row V" = "5"
  /\ Frontend.normalizeRowName "Row V" = "Row V"
  /\ Backend.normalizeSeatKey "Row V-12" = "5-12"
  /\ Frontend.normalizeSeatKey "Row V-12" = "Row V-12"
  /\ Backend.normalizeRowName "Balcony" = "balcony"
  /\ Frontend.normalizeRowName "Balcony" = "Balcony".
Proof. repeat split; vm_compute; reflexivity. Qed.

(** ** The difference with the previous run *)

(** Event ids that are not the name of a member of [Object.prototype],
    as all the ids of the form date-time-city-hash are: the diff is absent
    exactly when the file holds no snapshot of the event; otherwise each
    delta is the count of taken seats the run reports for the source, less
    the count of the snapshot, or 0 when that is negative; and the run
    leaves its own counts as the snapshot of the event. *)
Lemma POST_stats_diff (file : Backend.StatsFile) (eventId : string)
    (results : Backend.Results) (now : string) :
  eventId ∉ Backend.ObjectPrototype ->
  let reported k :=
    default 0%Z ((fun stats => taken (source_totals stats))
                   <$> Backend.getResult results k) in
  let diff := (Backend.POST_stats file eventId results now).1 in
  match default ∅ file !! eventId with
  | None => diff = None
  | Some prev =>
      diff = Some {| Backend.diff_biletynaTaken :=
                       Backend.count (Z.max 0 (reported biletyna
                                               - Backend.biletynaTaken prev));
                     Backend.diff_ebiletTaken :=
                       Backend.count (Z.max 0 (reported ebilet
                                               - Backend.ebiletTaken prev));
                     Backend.diff_kupbilecikTaken :=
                       Backend.count (Z.max 0 (reported kupbilecik
                                               - Backend.kupbilecikTaken prev));
                     Backend.lastUpdated := Some (Backend.timestamp prev) |}
  end
  /\ default ∅ (Backend.POST_stats file eventId results now).2 !! eventId
     = Some {| Backend.biletynaTaken := reported biletyna;
               Backend.ebiletTaken := reported ebilet;
               Backend.kupbilecikTaken := reported kupbilecik;
               Backend.timestamp := now |}.
Proof.
  intros Hid. cbn zeta. unfold Backend.POST_stats. cbn [fst snd].
  assert (T : forall k,
             Backend.takenOf results k
             = default 0%Z ((fun stats => taken (source_totals stats))
                              <$> Backend.getResult results k)).
  { intros k. unfold Backend.takenOf. now destruct (Backend.getResult results k). }
  assert (P : String.eqb eventId "__proto__" = false).
  { apply String.eqb_neq. intros ->. apply Hid.
    apply (bool_decide_unpack _). vm_compute. exact I. }
  split.
  - unfold Backend.loadStatsHistory. destruct file as [h|]; cbn [default from_option id].
    + destruct (h !! eventId) as [prev|] eqn:L.
      * cbn [Backend.POST_diff Backend.deltaOf Backend.timestampOf
             Backend.currentStatsEntryOf Backend.biletynaTaken Backend.ebiletTaken
             Backend.kupbilecikTaken].
        now rewrite !T.
      * rewrite bool_decide_eq_false_2 by exact Hid. reflexivity.
    + rewrite lookup_empty. reflexivity.
  - unfold Backend.saveStatsHistory. rewrite P. cbn [andb default from_option id].
    rewrite lookup_insert_eq. unfold Backend.currentStatsEntryOf. now rewrite !T.
Qed.

Lemma POST_stats_diff_witness :
  (Backend.POST_stats
     (Some {[ "20250302-1900-krakow-1a2b3c"
              := Backend.mkStatsHistoryEntry 10 0 0 "2025-03-01T10:00:00.000Z" ]})
     "20250302-1900-krakow-1a2b3c"
     [ (biletyna, Samples.statsOf biletyna "A" ["1-1"] ["1-2"; "1-3"]) ]
     "2025-03-01T11:00:00.000Z").1
  = Some {| Backend.diff_biletynaTaken := Backend.count 0;
            Backend.diff_ebiletTaken := Backend.count 0;
            Backend.diff_kupbilecikTaken := Backend.count 0;
            Backend.lastUpdated := Some "2025-03-01T10:00:00.000Z" |}.
Proof.
  exact (proj1 (POST_stats_diff
                  (Some {[ "20250302-1900-krakow-1a2b3c"
                           := Backend.mkStatsHistoryEntry 10 0 0
                                "2025-03-01T10:00:00.000Z" ]})
                  "20250302-1900-krakow-1a2b3c"
                  [ (biletyna, Samples.statsOf biletyna "A" ["1-1"] ["1-2"; "1-3"]) ]
                  "2025-03-01T11:00:00.000Z"
                  ltac:(apply (bool_decide_unpack _); vm_compute; exact I))).
Defined.


(** ** The override merge *)

(** C8: [mergeColors] is a function of the live colour and the optional
    override that follows the priority stack: a special override wins;
    otherwise a live taken colour wins; otherwise a taken override wins;
    otherwise a free override wins; otherwise, and when no override is
    present, the live colour is returned. *)
Theorem C8_mergeColors_priority (liveColor override : string) :
  override <> "" ->
  (Frontend.isSpecialColor override = true ->
     Frontend.mergeColors liveColor (Some override) = override)
  /\ (Frontend.isSpecialColor override = false ->
      Frontend.isDarkColor liveColor = true ->
      Frontend.mergeColors liveColor (Some override) = liveColor)
  /\ (Frontend.isSpecialColor override = false ->
      Frontend.isDarkColor liveColor = false ->
      Frontend.isDarkColor override = true ->
      Frontend.mergeColors liveColor (Some override) = override)
  /\ (Frontend.isSpecialColor override = false ->
      Frontend.isDarkColor liveColor = false ->
      Frontend.isLightColor override = true ->
      Frontend.mergeColors liveColor (Some override) = override)
  /\ (Frontend.isSpecialColor override = false ->
      Frontend.isDarkColor override = false ->
      Frontend.isLightColor override = false ->
      Frontend.mergeColors liveColor (Some override) = liveColor)
  /\ Frontend.mergeColors liveColor None = liveColor
  /\ Frontend.mergeColors liveColor (Some "") = liveColor
  /\ (forall x y, Frontend.mergeColors (Frontend.SEAT_COLORS_taken x)
                    (Some (Frontend.SEAT_COLORS_free y))
                  = Frontend.SEAT_COLORS_taken x)
  /\ (forall y, Frontend.mergeColors Frontend.SEAT_COLORS_noData
                  (Some (Frontend.SEAT_COLORS_taken y))
                = Frontend.SEAT_COLORS_taken y)
  /\ Frontend.mergeColors liveColor (Some Frontend.SEAT_COLORS_notForSale)
     = Frontend.SEAT_COLORS_notForSale.
Proof.
  intros Hne.
  assert (N : Frontend.noOverride (Some override) = false).
  { cbn. apply String.eqb_neq. exact Hne. }
  unfold Frontend.mergeColors. rewrite N. cbn [default from_option id].
  refine (conj _ (conj _ (conj _ (conj _ (conj _ (conj _ (conj _ (conj _ (conj _ _))))))))).
  - now intros ->.
  - now intros -> ->.
  - now intros -> -> ->.
  - intros -> -> L. rewrite L. now destruct (Frontend.isDarkColor override).
  - intros -> -> ->. now destruct (Frontend.isDarkColor liveColor).
  - reflexivity.
  - reflexivity.
  - now intros [] [].
  - now intros [].
  - reflexivity.
Qed.

Lemma C8_mergeColors_priority_witness :
  "#FFFF99" <> ""
  /\ Frontend.mergeColors "#800080" (Some "#FFFF99") = "#800080"
  /\ Frontend.mergeColors "#808080" (Some "#FFFF99") = "#FFFF99".
Proof.
  assert (H : "#FFFF99" <> "") by discriminate.
  split; [exact H|]. split.
  - exact (proj1 (proj2 (C8_mergeColors_priority "#800080" "#FFFF99" H))
             eq_refl eq_refl).
  - exact (proj1 (proj2 (proj2 (proj2 (C8_mergeColors_priority "#808080" "#FFFF99" H))))
             eq_refl eq_refl eq_refl).
Defined.

(** ** Seat history *)

Section History.

Variable src : SourceType.

Lemma historySeat_fold sector seats st k :
  let st' := fold_left (Backend.historySeatStep src sector) seats st in
  Backend.history st' !! k
  = (if existsb (fun seat => String.eqb (Backend.uniqueKeyOf sector seat) k) seats
     then Some src else Backend.history st !! k)
  /\ (k ∈ Backend.currentFreeKeys st' <->
      existsb (fun seat => String.eqb (Backend.uniqueKeyOf sector seat) k) seats = true
      \/ k ∈ Backend.currentFreeKeys st)
  /\ Backend.knownSectors st' = Backend.knownSectors st.
Proof.
  revert st. induction seats as [|seat seats IH]; intros st; cbn [fold_left existsb].
  - cbn zeta. split; [reflexivity|]. split; [|reflexivity].
    split; [tauto|]. intros [H|H]; [discriminate|exact H].
  - destruct (IH (Backend.historySeatStep src sector st seat)) as (Hh & Hc & Hk).
    cbn zeta in *. rewrite Hh, Hc, Hk. cbn [Backend.historySeatStep
      Backend.history Backend.currentFreeKeys Backend.knownSectors].
    destruct (String.eqb_spec (Backend.uniqueKeyOf sector seat) k) as [->|Hne].
    + rewrite lookup_insert_eq. cbn [orb].
      split; [now destruct (existsb _ seats)|]. split; [|reflexivity].
      split; [auto|]. intros _. right.
      apply elem_of_union; left. now apply elem_of_singleton.
    + rewrite (lookup_insert_ne _ _ _ _ Hne). cbn [orb].
      split; [reflexivity|]. split; [|reflexivity].
      rewrite elem_of_union, elem_of_singleton.
      split; [intros [H|[H|H]]; [auto|congruence|auto] | intros [H|H]; auto].
Qed.

Lemma historySector_fold secs st k :
  let st' := fold_left (Backend.historySectorStep src) secs st in
  Backend.history st' !! k
  = (if existsb (fun sector =>
                   existsb (fun seat => String.eqb (Backend.uniqueKeyOf sector seat) k)
                           (freeSeats sector)) secs
     then Some src else Backend.history st !! k)
  /\ (k ∈ Backend.currentFreeKeys st' <->
      existsb (fun sector =>
                 existsb (fun seat => String.eqb (Backend.uniqueKeyOf sector seat) k)
                         (freeSeats sector)) secs = true
      \/ k ∈ Backend.currentFreeKeys st)
  /\ (forall name, name ∈ Backend.knownSectors st' <->
        existsb (fun sector => String.eqb (sectorName sector) name) secs = true
        \/ name ∈ Backend.knownSectors st).
Proof.
  revert st. induction secs as [|sector secs IH]; intros st; cbn [fold_left existsb].
  - cbn zeta. split; [reflexivity|].
    split; (split; [tauto|]); intros [H|H]; (discriminate || exact H).
  - destruct (IH (Backend.historySectorStep src st sector)) as (Hh & Hc & Hk).
    cbn zeta in *. rewrite Hh, Hc. clear Hh Hc IH.
    unfold Backend.historySectorStep.
    match goal with |- context [fold_left _ (freeSeats sector) ?s0] =>
      destruct (historySeat_fold sector (freeSeats sector) s0 k) as (Hh & Hc & Hk0)
    end.
    cbn zeta in *. rewrite Hh, Hc.
    cbn [Backend.history Backend.currentFreeKeys Backend.knownSectors] in *.
    split; [|split].
    + destruct (existsb _ (freeSeats sector)); cbn [orb];
        [now destruct (existsb _ secs) | reflexivity].
    + rewrite orb_true_iff. tauto.
    + intros name. rewrite Hk. unfold Backend.historySectorStep. rewrite Hk0.
      cbn [Backend.knownSectors].
      rewrite orb_true_iff, String.eqb_eq, elem_of_union, elem_of_singleton.
      intuition congruence.
Qed.

End History.

Lemma historySource_step st entry k :
  let st' := Backend.historySourceStep st entry in
  Backend.history st' !! k
  = (if reportsFreeb entry k then Some entry.1 else Backend.history st !! k)
  /\ (k ∈ Backend.currentFreeKeys st' <->
      reportsFreeb entry k = true \/ k ∈ Backend.currentFreeKeys st)
  /\ (forall name, name ∈ Backend.knownSectors st' <->
        hasSectorb entry name = true \/ name ∈ Backend.knownSectors st).
Proof.
  unfold Backend.historySourceStep, reportsFreeb, hasSectorb.
  destruct (sectors entry.2) as [secs|].
  - apply historySector_fold.
  - cbn zeta. split; [reflexivity|].
    split; (split; [tauto|]); intros [H|H]; (discriminate || exact H).
Qed.

Lemma historyResults_fold results st k :
  let st' := fold_left Backend.historySourceStep results st in
  (existsb (fun e => reportsFreeb e k) results = false ->
     Backend.history st' !! k = Backend.history st !! k)
  /\ (k ∈ Backend.currentFreeKeys st' <->
      existsb (fun e => reportsFreeb e k) results = true
      \/ k ∈ Backend.currentFreeKeys st)
  /\ (forall name, name ∈ Backend.knownSectors st' <->
        existsb (fun e => hasSectorb e name) results = true
        \/ name ∈ Backend.knownSectors st).
Proof.
  revert st. induction results as [|e rs IH]; intros st; cbn [fold_left existsb].
  - cbn zeta. split; [reflexivity|].
    split; (split; [tauto|]); intros [H|H]; (discriminate || exact H).
  - destruct (IH (Backend.historySourceStep st e)) as (Hh & Hc & Hk).
    destruct (historySource_step st e k) as (Hh1 & Hc1 & Hk1).
    cbn zeta in *. split; [|split].
    + intros [E1 E2]%orb_false_elim. rewrite (Hh E2), Hh1. now rewrite E1.
    + rewrite Hc, Hc1, orb_true_iff. tauto.
    + intros name. rewrite Hk, Hk1, orb_true_iff. tauto.
Qed.

Lemma historyResults_last results st entry key :
  In entry results -> reportsFreeb entry key = true ->
  exists r1 last r2,
    results = r1 ++ last :: r2
    /\ reportsFreeb last key = true
    /\ existsb (fun e => reportsFreeb e key) r2 = false
    /\ Backend.history (fold_left Backend.historySourceStep results st) !! key
       = Some last.1.
Proof.
  revert st entry.
  induction results as [|e rs IH]; intros st entry Hin Hrep; [destruct Hin|].
  cbn [fold_left].
  destruct (existsb (fun e => reportsFreeb e key) rs) eqn:E.
  - apply existsb_exists in E as (e' & Hin' & Hrep').
    destruct (IH (Backend.historySourceStep st e) e' Hin' Hrep')
      as (r1 & last & r2 & -> & H1 & H2 & H3).
    exists (e :: r1), last, r2. repeat split; assumption.
  - assert (He : reportsFreeb e key = true).
    { destruct Hin as [->|Hin]; [exact Hrep|].
      assert (X : existsb (fun e => reportsFreeb e key) rs = true)
        by (apply existsb_exists; eauto).
      congruence. }
    exists [], e, rs. repeat split; [exact He | exact E |].
    destruct (historyResults_fold rs (Backend.historySourceStep st e) key) as (Hh & _).
    cbn zeta in Hh. rewrite (Hh E).
    destruct (historySource_step st e key) as (Hh1 & _).
    cbn zeta in Hh1. rewrite Hh1. now rewrite He.
Qed.

(** C6, as the code has it: for every free seat listed in a sector of a
    source that carries a per-sector breakdown, the saved history maps the
    seat's key "sectorName:normalizedSeatKey" to a source that listed a
    free seat with that key in this run, namely the last such source in
    the order in which [results] is walked. *)
Theorem C6_history_last_writer (loaded : gmap string SourceType)
    (results : Backend.Results) (entry : SourceType * SourceStats)
    (secs : list SectorStats) (sector : SectorStats) (seat : string) :
  In entry results ->
  sectors entry.2 = Some secs ->
  In sector secs ->
  In seat (freeSeats sector) ->
  let key := sectorName sector +:+ ":" +:+ Backend.normalizeSeatKey seat in
  exists r1 last r2,
    results = r1 ++ last :: r2
    /\ reportsFreeb last key = true
    /\ existsb (fun e => reportsFreeb e key) r2 = false
    /\ (Backend.POST_history loaded results).1 !! key = Some last.1.
Proof.
  intros Hin Hsecs Hsector Hseat key.
  apply (historyResults_last results _ entry key Hin).
  unfold reportsFreeb. rewrite Hsecs.
  apply existsb_exists. exists sector. split; [exact Hsector|].
  apply existsb_exists. exists seat. split; [exact Hseat|].
  apply String.eqb_refl.
Qed.

Lemma C6_history_last_writer_witness :
  exists r1 last r2,
    Samples.kupbilecikRun "A" ["V-12"] [] = r1 ++ last :: r2
    /\ reportsFreeb last "A:5-12" = true
    /\ existsb (fun e => reportsFreeb e "A:5-12") r2 = false
    /\ (Backend.POST_history ∅ (Samples.kupbilecikRun "A" ["V-12"] [])).1 !! "A:5-12"
       = Some last.1.
Proof.
  exact (C6_history_last_writer ∅ (Samples.kupbilecikRun "A" ["V-12"] [])
           (kupbilecik, Samples.kupbilecikStats "A" ["V-12"] [])
           [Samples.sectorOf "A" ["V-12"] []] (Samples.sectorOf "A" ["V-12"] [])
           "V-12" (or_introl eq_refl) eq_refl (or_introl eq_refl)
           (or_introl eq_refl)).
Defined.

(** C6 as stated fails: Biletyna scraped as a single sector reports seat
    5-12 free, but its statistics carry no per-sector breakdown, step 1
    skips the source and the saved history stays empty. *)
Lemma C6_single_sector_source_skipped :
  exists stats,
    Samples.biletynaSingle = Some stats
    /\ source_freeSeats stats = ["5-12"]
    /\ (Backend.POST_history ∅ [(biletyna, stats)]).1 = ∅.
Proof. eexists. split; [reflexivity|]. split; reflexivity. Qed.

Lemma POST_inferSold_lookup st k v :
  Backend.POST_inferSold st !! k = Some v <->
  Backend.history st !! k = Some v
  /\ Backend.sectorOfKey k ∈ Backend.knownSectors st
  /\ k ∉ Backend.currentFreeKeys st.
Proof.
  unfold Backend.POST_inferSold.
  apply (map_fold_weak_ind
           (fun r (m : gmap string SourceType) =>
              r !! k = Some v <->
              m !! k = Some v
              /\ Backend.sectorOfKey k ∈ Backend.knownSectors st
              /\ k ∉ Backend.currentFreeKeys st)).
  - rewrite lookup_empty. split; [discriminate|]. intros [H _]. discriminate.
  - intros i x m r Hi IH.
    destruct (decide (i = k)) as [->|Hne].
    + rewrite lookup_insert_eq.
      assert (Hr : r !! k = Some v -> False).
      { rewrite IH, Hi. intros [? _]. discriminate. }
      destruct (decide (Backend.sectorOfKey k ∈ Backend.knownSectors st)) as [Ha|Ha];
        [rewrite (bool_decide_eq_true_2 _ Ha) | rewrite (bool_decide_eq_false_2 _ Ha)];
        [|tauto].
      destruct (decide (k ∈ Backend.currentFreeKeys st)) as [Hb|Hb];
        [rewrite (bool_decide_eq_true_2 _ Hb) | rewrite (bool_decide_eq_false_2 _ Hb)];
        [tauto|].
      rewrite lookup_insert_eq. tauto.
    + rewrite (lookup_insert_ne m _ _ _ Hne).
      repeat case_bool_decide; rewrite ?(lookup_insert_ne r _ _ _ Hne); exact IH.
Qed.

(** The inferred sales of a run, in terms of its [results]: the keys of
    the saved history whose part before the first ':' names a sector of
    the run and that no sector of the run lists free. *)
Lemma POST_history_inferredSold loaded results k v :
  (Backend.POST_history loaded results).2 !! k = Some v <->
  (Backend.POST_history loaded results).1 !! k = Some v
  /\ existsb (fun e => hasSectorb e (Backend.sectorOfKey k)) results = true
  /\ existsb (fun e => reportsFreeb e k) results = false.
Proof.
  unfold Backend.POST_history. cbn [fst snd].
  rewrite POST_inferSold_lookup. unfold Backend.POST_updateHistory.
  match goal with |- context [fold_left _ results ?s0] =>
    destruct (historyResults_fold results s0 k) as (_ & Hc & _);
    destruct (historyResults_fold results s0 (Backend.sectorOfKey k)) as (_ & _ & Hk)
  end.
  cbn zeta in *. rewrite Hk, Hc. cbn [Backend.currentFreeKeys Backend.knownSectors].
  rewrite !elem_of_empty.
  destruct (existsb (fun e => reportsFreeb e k) results);
    destruct (existsb (fun e => hasSectorb e (Backend.sectorOfKey k)) results);
    intuition congruence.
Qed.

Lemma sectorOfKey_colon_free name rest :
  allChars (fun c => negb (Ascii.eqb c ":")) name = true ->
  Backend.sectorOfKey (name +:+ ":" +:+ rest) = name.
Proof.
  unfold Backend.sectorOfKey.
  induction name as [|c name IH]; cbn [allChars].
  - intros _. reflexivity.
  - intros [Hc Hn]%andb_prop. apply negb_true_iff in Hc.
    change (String c name +:+ ":" +:+ rest)
      with (String c (name +:+ ":" +:+ rest)).
    cbn [split]. rewrite Hc.
    specialize (IH Hn). destruct (split ":" (name +:+ ":" +:+ rest)); congruence.
Qed.

(** C1 holds for sector names without ':': the key of sector [name] and
    seat [seatKey] is inferred sold exactly when the saved history holds
    it, the sector was scraped this run and no source lists the key free. *)
Lemma inferredSold_colon_free loaded results name seatKey v :
  allChars (fun c => negb (Ascii.eqb c ":")) name = true ->
  let key := name +:+ ":" +:+ seatKey in
  (Backend.POST_history loaded results).2 !! key = Some v <->
  (Backend.POST_history loaded results).1 !! key = Some v
  /\ existsb (fun e => hasSectorb e name) results = true
  /\ existsb (fun e => reportsFreeb e key) results = false.
Proof.
  intros Hname key. rewrite POST_history_inferredSold.
  unfold key. now rewrite (sectorOfKey_colon_free name seatKey Hname).
Qed.

(** C1 fails on a sector whose name contains ':'.  Seat 1-1 of sector
    "Balkon: lewy" is free in a first run and taken in a second one that
    scrapes the sector again: the sector is among the known sectors, the
    key is in the saved history and not among the free keys, and yet
    nothing is inferred sold, because the sector name read back from the
    key is "Balkon".  The same two runs on a sector named "A" infer the
    sale.  Conversely a run that scrapes only "Parter" infers a sale for a
    stale key of the sector "Parter: boczny", which it did not scrape. *)
Theorem C1_colon_in_sector_name :
  let st := Samples.secondRunState "Balkon: lewy" in
  ("Balkon: lewy" ∈ Backend.knownSectors st)
  /\ Backend.history st !! "Balkon: lewy:1-1" = Some kupbilecik
  /\ ("Balkon: lewy:1-1" ∉ Backend.currentFreeKeys st)
  /\ Backend.sectorOfKey "Balkon: lewy:1-1" = "Balkon"
  /\ Backend.POST_inferSold st = ∅
  /\ (Samples.twoRuns "Balkon: lewy").2 = ∅
  /\ (Samples.twoRuns "A").2 = {[ "A:1-1" := kupbilecik ]}
  /\ ("Parter: boczny" ∉ Backend.knownSectors Samples.staleState)
  /\ Backend.POST_inferSold Samples.staleState
     = {[ "Parter: boczny:1-1" := ebilet ]}.
Proof.
  cbn zeta.
  refine (conj _ (conj _ (conj _ (conj _ (conj _ (conj _ (conj _ (conj _ _)))))))).
  - apply (bool_decide_unpack _). vm_compute. exact I.
  - vm_compute. reflexivity.
  - apply (bool_decide_unpack _). vm_compute. exact I.
  - vm_compute. reflexivity.
  - vm_compute. reflexivity.
  - vm_compute. reflexivity.
  - vm_compute. reflexivity.
  - apply (bool_decide_unpack _). vm_compute. exact I.
  - vm_compute. reflexivity.
Qed.

(** ** The colour of a seat *)

Section Colours.

Variable kbSector : SectorStats.
Variable statusesMap : gmap string Frontend.Statuses.
Variable inferredSold : option (gmap string SourceType).

Lemma colorSeat_seatColors row p seatName :
  Frontend.seatColors
    (Frontend.colorSeat kbSector statusesMap inferredSold row p seatName)
  = <[ row +:+ "-" +:+ seatName :=
         resolveColor kbSector statusesMap inferredSold (row +:+ "-" +:+ seatName) ]>
      (Frontend.seatColors p).
Proof.
  unfold Frontend.colorSeat, resolveColor.
  destruct (Frontend.firstFreePortal _ _); [reflexivity|].
  destruct (Frontend.inferredSoldAt _ _); reflexivity.
Qed.

(** The invariant of the two loops: every colour set so far is the
    resolved one. *)
Abbreviation coloured p :=
  (forall key c, Frontend.seatColors p !! key = Some c ->
                 c = resolveColor kbSector statusesMap inferredSold key).

Lemma colorSeat_fold row seatNames p :
  let p' := fold_left (Frontend.colorSeat kbSector statusesMap inferredSold row)
                      seatNames p in
  coloured p ->
  coloured p'
  /\ (forall key, is_Some (Frontend.seatColors p !! key) ->
                  is_Some (Frontend.seatColors p' !! key))
  /\ (forall seatName, In seatName seatNames ->
        is_Some (Frontend.seatColors p' !! (row +:+ "-" +:+ seatName))).
Proof.
  revert p. induction seatNames as [|x xs IH]; intros p; cbn [fold_left].
  - cbn zeta. intros Hp. split; [exact Hp|]. split; [auto|]. intros ? [].
  - cbn zeta. intros Hp.
    set (p1 := Frontend.colorSeat kbSector statusesMap inferredSold row p x).
    assert (Hp1 : coloured p1).
    { intros key c. unfold p1. rewrite colorSeat_seatColors.
      destruct (decide (row +:+ "-" +:+ x = key)) as [<-|Hne].
      - rewrite lookup_insert_eq. congruence.
      - rewrite (lookup_insert_ne _ _ _ _ Hne). apply Hp. }
    destruct (IH p1 Hp1) as (H1 & H2 & H3).
    split; [exact H1|]. split.
    + intros key Hk. apply H2. unfold p1. rewrite colorSeat_seatColors.
      destruct (decide (row +:+ "-" +:+ x = key)) as [<-|Hne].
      * rewrite lookup_insert_eq. eauto.
      * now rewrite (lookup_insert_ne _ _ _ _ Hne).
    + intros seatName [<-|Hin]; [|now apply H3].
      apply H2. unfold p1. rewrite colorSeat_seatColors, lookup_insert_eq. eauto.
Qed.

Lemma colorRow_fold entries p :
  let p' := fold_left (Frontend.colorRow kbSector statusesMap inferredSold)
                      entries p in
  coloured p ->
  coloured p'
  /\ (forall key, is_Some (Frontend.seatColors p !! key) ->
                  is_Some (Frontend.seatColors p' !! key))
  /\ (forall row seatNames seatName,
        In (row, seatNames) entries -> In seatName seatNames ->
        is_Some (Frontend.seatColors p' !! (row +:+ "-" +:+ seatName))).
Proof.
  revert p. induction entries as [|[row0 seats0] es IH]; intros p; cbn [fold_left].
  - cbn zeta. intros Hp. split; [exact Hp|]. split; [auto|]. intros ? ? ? [].
  - cbn zeta. intros Hp. unfold Frontend.colorRow at 2. cbn [fst snd].
    destruct (colorSeat_fold row0 seats0 p Hp) as (H1 & H2 & H3).
    destruct (IH _ H1) as (G1 & G2 & G3).
    split; [exact G1|]. split; [auto|].
    intros row seatNames seatName [[= <- <-]|Hin] Hs.
    + apply G2, H3, Hs.
    + exact (G3 _ _ _ Hin Hs).
Qed.

End Colours.

Ltac first_free_case p :=
  split;
  [ intros [= <-]; split; [assumption|];
    intros [] Hq; cbn in Hq; solve [lia | assumption]
  | intros [Hp Hq]; destruct p; try reflexivity; try contradiction;
    exfalso;
    first [ apply (Hq biletyna); [cbn; lia | assumption]
          | apply (Hq ebilet); [cbn; lia | assumption] ] ].

Lemma firstFreePortal_Some statuses p :
  Frontend.firstFreePortal Frontend.portals statuses = Some p <->
  Frontend.statusOn statuses p = Some Frontend.st_free
  /\ (forall q, (priority q < priority p)%nat ->
                Frontend.statusOn statuses q <> Some Frontend.st_free).
Proof.
  unfold Frontend.portals. cbn [Frontend.firstFreePortal].
  destruct (decide (Frontend.statusOn statuses biletyna = Some Frontend.st_free))
    as [B|B]; [first_free_case p|].
  destruct (decide (Frontend.statusOn statuses ebilet = Some Frontend.st_free))
    as [E|E]; [first_free_case p|].
  destruct (decide (Frontend.statusOn statuses kupbilecik = Some Frontend.st_free))
    as [K|K]; [first_free_case p|].
  split; [discriminate|]. intros [Hp _]. destruct p; contradiction.
Qed.

Lemma firstFreePortal_None statuses :
  Frontend.firstFreePortal Frontend.portals statuses = None <->
  forall p, Frontend.statusOn statuses p <> Some Frontend.st_free.
Proof.
  unfold Frontend.portals. cbn [Frontend.firstFreePortal].
  destruct (decide (Frontend.statusOn statuses biletyna = Some Frontend.st_free))
    as [B|B]; [split; [discriminate | intros H; now destruct (H biletyna)]|].
  destruct (decide (Frontend.statusOn statuses ebilet = Some Frontend.st_free))
    as [E|E]; [split; [discriminate | intros H; now destruct (H ebilet)]|].
  destruct (decide (Frontend.statusOn statuses kupbilecik = Some Frontend.st_free))
    as [K|K]; [split; [discriminate | intros H; now destruct (H kupbilecik)]|].
  split; [|reflexivity]. intros _ []; assumption.
Qed.

(** The sort rearranges the seat names of a row. *)
Lemma insertSeat_In parseInt a x l :
  In x (Frontend.insertSeat parseInt a l) <-> x = a \/ In x l.
Proof.
  induction l as [|b l IH]; cbn [Frontend.insertSeat In]; [intuition|].
  destruct (Double.gtb _ _); cbn [In]; [rewrite IH|]; intuition.
Qed.

Lemma sortSeats_In parseInt x l : In x (Frontend.sortSeats parseInt l) <-> In x l.
Proof.
  unfold Frontend.sortSeats.
  induction l as [|a l IH]; cbn [fold_right In]; [reflexivity|].
  rewrite insertSeat_In, IH. intuition.
Qed.

Lemma insertSeat_length parseInt a l :
  length (Frontend.insertSeat parseInt a l) = S (length l).
Proof.
  induction l as [|b l IH]; cbn [Frontend.insertSeat length]; [reflexivity|].
  destruct (Double.gtb _ _); cbn [length]; [now rewrite IH|reflexivity].
Qed.

Lemma sortSeats_length parseInt l : length (Frontend.sortSeats parseInt l) = length l.
Proof.
  unfold Frontend.sortSeats.
  induction l as [|a l IH]; cbn [fold_right length]; [reflexivity|].
  now rewrite insertSeat_length, IH.
Qed.

(** The colour given to every seat of the layout is the resolved one. *)
Lemma seatColors_resolved parseInt kbSector perSource inferredSold row seatNames seatName :
  Frontend.seatsPerRow (Frontend.buildLayout kbSector perSource) !! row
  = Some seatNames ->
  In seatName seatNames ->
  Frontend.viz_seatColors
    (Frontend.calculateSectorVisualizationWithBase parseInt kbSector perSource
       inferredSold)
    !! (row +:+ "-" +:+ seatName)
  = Some (resolveColor kbSector
            (Frontend.seatStatuses (Frontend.buildLayout kbSector perSource))
            inferredSold (row +:+ "-" +:+ seatName)).
Proof.
  unfold Frontend.calculateSectorVisualizationWithBase.
  cbn [Frontend.viz_seatColors].
  set (lay := Frontend.buildLayout kbSector perSource).
  intros Hrow Hin.
  destruct (colorRow_fold kbSector (Frontend.seatStatuses lay) inferredSold
              (map_to_list (Frontend.sortSeats parseInt <$> Frontend.seatsPerRow lay))
              {| Frontend.seatColors := ∅; Frontend.totalSeatsCount := 0;
                 Frontend.colorStats := Frontend.mkColorStats 0 0 0 0 0 0 0 |})
    as (H1 & _ & H3).
  { intros key c. cbn. rewrite lookup_empty. discriminate. }
  cbn zeta in *.
  destruct (H3 row (Frontend.sortSeats parseInt seatNames) seatName) as [c Hc].
  - apply list_elem_of_In, elem_of_map_to_list.
    rewrite lookup_fmap, Hrow. reflexivity.
  - apply sortSeats_In, Hin.
  - rewrite Hc. f_equal. exact (H1 _ _ Hc).
Qed.

(** The three cases of the resolved colour. *)
Lemma resolveColor_cases kbSector statusesMap inferredSold seatKey :
  let statuses := default Frontend.noStatuses (statusesMap !! seatKey) in
  let sold :=
    Frontend.inferredSoldAt inferredSold (sectorName kbSector +:+ ":" +:+ seatKey) in
  let colour := resolveColor kbSector statusesMap inferredSold seatKey in
  (forall p,
      Frontend.statusOn statuses p = Some Frontend.st_free ->
      (forall q, (priority q < priority p)%nat ->
                 Frontend.statusOn statuses q <> Some Frontend.st_free) ->
      colour = Frontend.SEAT_COLORS_free p)
  /\ (forall v,
        (forall p, Frontend.statusOn statuses p <> Some Frontend.st_free) ->
        sold = Some v ->
        colour = Frontend.SEAT_COLORS_taken v)
  /\ ((forall p, Frontend.statusOn statuses p <> Some Frontend.st_free) ->
      sold = None ->
      colour = Frontend.SEAT_COLORS_noData).
Proof.
  cbn zeta. unfold resolveColor. split; [|split].
  - intros p Hp Hq.
    now rewrite (proj2 (firstFreePortal_Some _ p) (conj Hp Hq)).
  - intros v Hnone Hv.
    now rewrite (proj2 (firstFreePortal_None _) Hnone), Hv.
  - intros Hnone Hv.
    now rewrite (proj2 (firstFreePortal_None _) Hnone), Hv.
Qed.

(** ** JavaScript numbers *)

Section Numbers.

Local Open Scope Z_scope.

(** *** The order of the numbers *)

Lemma SFcompare_key x y :
  Double.isNaN x = false -> Double.isNaN y = false ->
  SFcompare x y
  = Some (if Z.ltb (fst (fst (orderKey x))) (fst (fst (orderKey y))) then Lt
          else if Z.ltb (fst (fst (orderKey y))) (fst (fst (orderKey x))) then Gt
          else if Z.ltb (snd (fst (orderKey x))) (snd (fst (orderKey y))) then Lt
          else if Z.ltb (snd (fst (orderKey y))) (snd (fst (orderKey x))) then Gt
          else if Z.ltb (snd (orderKey x)) (snd (orderKey y)) then Lt
          else if Z.ltb (snd (orderKey y)) (snd (orderKey x)) then Gt
          else Eq).
Proof.
  destruct x as [sx|sx| |sx mx ex], y as [sy|sy| |sy my ey]; try discriminate;
    intros _ _; try (destruct sx); try (destruct sy); try reflexivity.
  - cbn [SFcompare orderKey fst snd].
    change (Pos.compare_cont Eq mx my) with (Pos.compare mx my).
    destruct (Z.compare_spec ex ey), (Pos.compare_spec mx my); cbn [CompOpp];
      repeat match goal with
             | |- context [Z.ltb ?a ?b] => destruct (Z.ltb_spec a b); try lia
             end; reflexivity.
  - cbn [SFcompare orderKey fst snd].
    change (Pos.compare_cont Eq mx my) with (Pos.compare mx my).
    destruct (Z.compare_spec ex ey), (Pos.compare_spec mx my);
      repeat match goal with
             | |- context [Z.ltb ?a ?b] => destruct (Z.ltb_spec a b); try lia
             end; reflexivity.
Qed.

Lemma SFltb_key x y :
  Double.isNaN x = false -> Double.isNaN y = false ->
  (SFltb x y = true <-> keyLt (orderKey x) (orderKey y)).
Proof.
  intros Hx Hy. unfold SFltb, keyLt. rewrite (SFcompare_key x y Hx Hy).
  repeat match goal with
         | |- context [Z.ltb ?a ?b] => destruct (Z.ltb_spec a b)
         end; split; intros ?; try discriminate; try reflexivity; try lia.
Qed.

Lemma SFleb_key x y :
  Double.isNaN x = false -> Double.isNaN y = false ->
  (SFleb x y = true <-> ~ keyLt (orderKey y) (orderKey x)).
Proof.
  intros Hx Hy. unfold SFleb, keyLt. rewrite (SFcompare_key x y Hx Hy).
  repeat match goal with
         | |- context [Z.ltb ?a ?b] => destruct (Z.ltb_spec a b)
         end; split; intros ?; try discriminate; try reflexivity; try lia.
Qed.

Lemma SFltb_number x y : SFltb x y = true -> Double.isNaN x = false /\ Double.isNaN y = false.
Proof. destruct x, y; try discriminate; split; reflexivity. Qed.

Lemma SFleb_number x y : SFleb x y = true -> Double.isNaN x = false /\ Double.isNaN y = false.
Proof. destruct x, y; try discriminate; split; reflexivity. Qed.

Lemma SFltb_NaN_r x y : Double.isNaN y = true -> SFltb x y = false.
Proof. destruct y; try discriminate. destruct x; reflexivity. Qed.

Lemma SFleb_NaN_r x y : Double.isNaN y = true -> SFleb x y = false.
Proof. destruct y; try discriminate. destruct x; reflexivity. Qed.

Ltac by_keys :=
  repeat match goal with
         | H : SFltb ?x ?y = true |- _ =>
             apply (SFltb_key x y) in H; [|assumption..]
         | H : SFltb ?x ?y = false |- _ =>
             apply not_true_iff_false in H;
             rewrite (SFltb_key x y) in H by assumption
         | H : SFleb ?x ?y = true |- _ =>
             apply (SFleb_key x y) in H; [|assumption..]
         | H : SFleb ?x ?y = false |- _ =>
             apply not_true_iff_false in H;
             rewrite (SFleb_key x y) in H by assumption
         end;
  try (apply not_true_iff_false);
  try (rewrite SFltb_key by assumption);
  try (rewrite SFleb_key by assumption);
  unfold keyLt in *; lia.

(** [a < b] and not [a < c]: then not [b < c], and not [b <= c]. *)
Lemma SFltb_false_trans a b c :
  SFltb a b = true -> SFltb a c = false -> SFltb b c = false.
Proof.
  intros H1 H2. destruct (SFltb_number a b H1) as [Na Nb].
  destruct (Double.isNaN c) eqn:Nc; [apply SFltb_NaN_r, Nc|].
  by_keys.
Qed.

Lemma SFleb_false_trans a b c :
  SFltb a b = true -> SFltb a c = false -> SFleb b c = false.
Proof.
  intros H1 H2. destruct (SFltb_number a b H1) as [Na Nb].
  destruct (Double.isNaN c) eqn:Nc; [apply SFleb_NaN_r, Nc|].
  by_keys.
Qed.

Lemma SFltb_trans a b c : SFltb a b = true -> SFltb b c = true -> SFltb a c = true.
Proof.
  intros H1 H2. destruct (SFltb_number a b H1) as [Na Nb].
  destruct (SFltb_number b c H2) as [_ Nc]. by_keys.
Qed.

Lemma SFltb_irrefl a : SFltb a a = false.
Proof.
  destruct (Double.isNaN a) eqn:Na; [apply SFltb_NaN_r, Na|]. by_keys.
Qed.

(** Not [b < x] and not [c <= b], for a number [b]: then not [c <= x]. *)
Lemma SFleb_false_below b c x :
  Double.isNaN b = false ->
  SFltb b x = false -> SFleb c b = false -> SFleb c x = false.
Proof.
  intros Nb H1 H2.
  destruct (Double.isNaN x) eqn:Nx; [apply SFleb_NaN_r, Nx|].
  destruct (Double.isNaN c) eqn:Nc.
  { destruct c; try discriminate. reflexivity. }
  by_keys.
Qed.

(** Not [b < x], for numbers: then [x <= b]. *)
Lemma SFleb_of_not_ltb b x :
  Double.isNaN b = false -> Double.isNaN x = false ->
  SFltb b x = false -> SFleb x b = true.
Proof. intros Nb Nx H. by_keys. Qed.

Lemma SFleb_trans a b c : SFleb a b = true -> SFleb b c = true -> SFleb a c = true.
Proof.
  intros H1 H2. destruct (SFleb_number a b H1) as [Na Nb].
  destruct (SFleb_number b c H2) as [_ Nc]. by_keys.
Qed.

Lemma SFleb_ltb_false a b : SFleb a b = true -> SFltb b a = false.
Proof.
  intros H. destruct (SFleb_number a b H) as [Na Nb]. by_keys.
Qed.

(** *** The number of an integer *)

Lemma iter_pos_inv {A : Type} (P : A -> Prop) (f : A -> A) :
  (forall x, P x -> P (f x)) -> forall n x, P x -> P (SpecFloat.iter_pos f n x).
Proof.
  intros Hf. induction n as [n IH|n IH|]; intros x Hx; cbn [SpecFloat.iter_pos]; auto.
Qed.

Lemma shr_1_nonneg mrs : 0 <= shr_m mrs -> 0 <= shr_m (shr_1 mrs).
Proof.
  destruct mrs as [m r s]. cbn [shr_m]. unfold shr_1.
  destruct m as [|[p|p|]|[p|p|]]; cbn [shr_m]; lia.
Qed.

Lemma shr_fexp_nonneg m e l :
  0 <= m -> 0 <= shr_m (fst (shr_fexp Double.prec Double.emax m e l)).
Proof.
  intros Hm. unfold shr_fexp, shr.
  assert (H0 : 0 <= shr_m (shr_record_of_loc m l)).
  { destruct l as [|[]]; exact Hm. }
  destruct (_ - e) as [|p|p]; cbn [fst]; try exact H0.
  apply (iter_pos_inv (fun mrs => 0 <= shr_m mrs)); [apply shr_1_nonneg|exact H0].
Qed.

Lemma round_nearest_even_nonneg mx lx : 0 <= mx -> 0 <= round_nearest_even mx lx.
Proof.
  intros H. unfold round_nearest_even.
  destruct lx as [|[]]; try destruct (Z.even mx); lia.
Qed.

(** Rounding a mantissa that is not negative never gives NaN, and keeps
    the sign. *)
Lemma binary_round_aux_number sx mx ex lx :
  0 <= mx ->
  match binary_round_aux Double.prec Double.emax sx mx ex lx with
  | S754_zero s | S754_infinity s | S754_finite s _ _ => s = sx
  | S754_nan => False
  end.
Proof.
  intros Hm. unfold binary_round_aux.
  pose proof (shr_fexp_nonneg mx ex lx Hm) as H1.
  destruct (shr_fexp Double.prec Double.emax mx ex lx) as [mrs' e'].
  cbn [fst] in H1.
  pose proof (shr_fexp_nonneg
                (round_nearest_even (shr_m mrs') (loc_of_shr_record mrs')) e' loc_Exact
                (round_nearest_even_nonneg _ _ H1)) as H2.
  destruct (shr_fexp _ _ _ e' loc_Exact) as [mrs'' e''].
  cbn [fst] in H2.
  destruct (shr_m mrs'') as [|p|p]; [reflexivity| |lia].
  destruct (e'' <=? _); reflexivity.
Qed.

Lemma binary_round_number sx mx ex :
  match binary_round Double.prec Double.emax sx mx ex with
  | S754_zero s | S754_infinity s | S754_finite s _ _ => s = sx
  | S754_nan => False
  end.
Proof.
  unfold binary_round.
  destruct (shl_align _ _ _) as [mz ez].
  apply binary_round_aux_number. lia.
Qed.

Lemma ofZ_number n : Double.isNaN (Double.ofZ n) = false.
Proof.
  unfold Double.ofZ, binary_normalize. destruct n as [|p|p]; [reflexivity| |].
  - pose proof (binary_round_number false p 0) as H.
    destruct (binary_round _ _ _ _ _); [reflexivity..|destruct H|reflexivity].
  - pose proof (binary_round_number true p 0) as H.
    destruct (binary_round _ _ _ _ _); [reflexivity..|destruct H|reflexivity].
Qed.

Lemma SFeqb_refl x : Double.isNaN x = false -> SFeqb x x = true.
Proof.
  intros N. unfold SFeqb. rewrite (SFcompare_key x x N N).
  repeat match goal with
         | |- context [Z.ltb ?a ?b] => destruct (Z.ltb_spec a b)
         end; first [reflexivity | lia].
Qed.

(** *** Integers below 2^53 are doubles *)

Lemma digits2_pos_le p : forall k,
  0 <= k -> Zpos p < 2 ^ k -> Zpos (digits2_pos p) <= k.
Proof.
  induction p as [p IH|p IH|]; intros k Hk H.
  - cbn [digits2_pos]. rewrite Pos2Z.inj_succ.
    assert (k <> 0) by (intros ->; cbn in H; lia).
    replace k with (Z.succ (k - 1)) in H by lia.
    rewrite Z.pow_succ_r in H by lia.
    specialize (IH (k - 1)). lia.
  - cbn [digits2_pos]. rewrite Pos2Z.inj_succ.
    assert (k <> 0) by (intros ->; cbn in H; lia).
    replace k with (Z.succ (k - 1)) in H by lia.
    rewrite Z.pow_succ_r in H by lia.
    specialize (IH (k - 1)). lia.
  - cbn [digits2_pos]. assert (k <> 0) by (intros ->; cbn in H; lia). lia.
Qed.

Lemma digits2_pos_shift p k :
  digits2_pos (Pos.iter xO p k) = (digits2_pos p + k)%positive.
Proof.
  induction k as [|k IH] using Pos.peano_ind.
  - cbn. lia.
  - rewrite Pos.iter_succ. cbn [digits2_pos]. rewrite IH. lia.
Qed.

Lemma digits2_pos_one p : digits2_pos p = 1%positive -> p = 1%positive.
Proof. destruct p; cbn [digits2_pos]; [lia..|reflexivity]. Qed.

(** The number of a positive integer below 2^53: its mantissa shifted to
    53 digits, with the exponent that makes up for the shift. *)
Lemma ofZ_small p :
  Zpos p < 2 ^ 53 ->
  let d := Zpos (digits2_pos p) in
  Double.ofZ (Zpos p)
  = S754_finite false
      (match (d - 53)%Z with
       | Zneg k => Pos.iter xO p k
       | _ => p
       end)
      (d - 53).
Proof.
  intros H d. pose proof (digits2_pos_le p 53 ltac:(lia) H) as Hd. fold d in Hd.
  assert (Hd1 : 1 <= d) by (unfold d; lia).
  unfold Double.ofZ, binary_normalize, binary_round.
  assert (F : fexp Double.prec Double.emax (Z.pos (digits2_pos p) + 0) = d - 53).
  { unfold fexp, emin, Double.prec, Double.emax. fold d. lia. }
  rewrite F. unfold shl_align.
  replace (d - 53 - 0) with (d - 53) by lia.
  assert (A : forall mz ez,
             Zpos (digits2_pos mz) = 53 -> ez = d - 53 ->
             binary_round_aux Double.prec Double.emax false (Z.pos mz) ez loc_Exact
             = S754_finite false mz ez).
  { intros mz ez Dz ->. unfold binary_round_aux, shr_fexp.
    cbn [Zdigits2]. rewrite Dz.
    assert (F2 : fexp Double.prec Double.emax (53 + (d - 53)) - (d - 53) = 0).
    { unfold fexp, emin, Double.prec, Double.emax. lia. }
    rewrite F2. cbn [shr shr_record_of_loc shr_m loc_of_shr_record round_nearest_even].
    cbn [Zdigits2]. rewrite Dz, F2. cbn [shr shr_record_of_loc shr_m].
    unfold Double.emax, Double.prec.
    destruct (Z.leb_spec (d - 53) (1024 - 53)); [reflexivity|lia]. }
  destruct (d - 53) as [|k|k] eqn:E.
  - apply A; [unfold d in E; lia|reflexivity].
  - lia.
  - apply A; [|reflexivity].
    rewrite digits2_pos_shift, Pos2Z.inj_add. fold d. lia.
Qed.

Lemma ofZ_one : Double.ofZ 1 = S754_finite false 4503599627370496 (-52).
Proof. vm_compute. reflexivity. Qed.

(** [Math.max(n, 1)] is [n] for a count [n] from 1 on. *)
Lemma max_count_one n :
  1 <= n < 2 ^ 53 ->
  Double.max (Double.ofZ n) (Double.ofZ 1) = Double.ofZ n
  /\ exists m e, Double.ofZ n = S754_finite false m e.
Proof.
  intros [H1 H2]. destruct n as [|p|p]; try lia.
  pose proof (ofZ_small p H2) as E. cbn zeta in E.
  pose proof (digits2_pos_le p 53 ltac:(lia) H2) as Hd.
  split; [|rewrite E; eauto].
  rewrite E, ofZ_one. unfold Double.max. cbn [Double.isNaN orb].
  set (d := Zpos (digits2_pos p)) in *.
  assert (L : SFltb (S754_finite false
                       match (d - 53)%Z with
                       | Z.neg k => Pos.iter xO p k
                       | _ => p
                       end (d - 53))
                    (S754_finite false 4503599627370496 (-52)) = false).
  { unfold SFltb. cbn [SFcompare].
    destruct (Z.compare_spec (d - 53) (-52)) as [Q|Q|Q]; [|unfold d in *; lia|reflexivity].
    assert (D1 : digits2_pos p = 1%positive) by (unfold d in Q; lia).
    apply digits2_pos_one in D1. subst p. reflexivity. }
  rewrite L.
  destruct (SFltb (S754_finite false 4503599627370496 (-52)) _); reflexivity.
Qed.

(** A number other than zero, the infinities and NaN, divided by itself,
    is one. *)
Lemma div_self s m e :
  Double.div (S754_finite s m e) (S754_finite s m e) = Double.ofZ 1.
Proof.
  unfold Double.div, SFdiv, SFdiv_core_binary.
  cbn [Zdigits2].
  replace (Z.pos (digits2_pos m) + e - (Z.pos (digits2_pos m) + e)) with 0 by lia.
  replace (e - e) with 0 by lia.
  change (Z.min (fexp Double.prec Double.emax 0) 0) with (-53).
  change (0 - -53) with 53.
  cbv beta iota zeta.
  assert (D : Z.div_eucl (Z.shiftl (Z.pos m) 53) (Z.pos m) = (2 ^ 53, 0)).
  { rewrite Z.shiftl_mul_pow2 by lia.
    pose proof (Z.div_eucl_eq (Z.pos m * 2 ^ 53) (Z.pos m) ltac:(lia)) as Q.
    pose proof (Z.mod_pos_bound (Z.pos m * 2 ^ 53) (Z.pos m) ltac:(lia)) as B.
    unfold Z.modulo in B.
    destruct (Z.div_eucl (Z.pos m * 2 ^ 53) (Z.pos m)) as [q r].
    assert (r = 0 /\ q = 2 ^ 53) as [-> ->]; [|reflexivity].
    assert (Z.pos m * (2 ^ 53 - q) = r) by lia.
    assert (q = 2 ^ 53) by nia. subst q. lia. }
  rewrite D.
  assert (N : new_location (Z.pos m) 0 = loc_Exact).
  { unfold new_location, new_location_even, new_location_odd.
    destruct (Z.even (Z.pos m)); reflexivity. }
  rewrite N. destruct s; vm_compute; reflexivity.
Qed.

Lemma SFltb_of_leb_false a b : SFleb a b = false -> SFltb a b = false.
Proof. unfold SFleb, SFltb. destruct (SFcompare a b) as [[]|]; congruence. Qed.

End Numbers.

(** ** Sector matching *)

Lemma Qltb_true a b : Qltb a b = true <-> (a < b)%Q.
Proof.
  unfold Qltb. rewrite negb_true_iff. split.
  - intros H. apply Qnot_le_lt. intros L. apply Qle_bool_iff in L. congruence.
  - intros H. destruct (Qle_bool b a) eqn:E; [|reflexivity].
    apply Qle_bool_iff in E. now apply Qlt_not_le in H.
Qed.

Lemma Qltb_false a b : Qltb a b = false <-> (b <= a)%Q.
Proof.
  unfold Qltb. rewrite negb_false_iff. apply Qle_bool_iff.
Qed.

Lemma keysOf_length (m : gmap string RowStats) :
  length (Backend.keysOf m) = size m.
Proof. unfold Backend.keysOf. now rewrite length_fmap, length_map_to_list. Qed.

Lemma keysOf_elem (m : gmap string RowStats) (k : string) :
  k ∈ Backend.keysOf m <-> k ∈ dom m.
Proof.
  unfold Backend.keysOf. rewrite elem_of_dom, list_elem_of_fmap. split.
  - intros ([k' x] & -> & H). apply elem_of_map_to_list in H. eauto.
  - intros [x H]. exists (k, x). split; [reflexivity|].
    now apply elem_of_map_to_list.
Qed.

(** The filter, read on the integers. *)
Lemma rowCountTooFar_false ebiletRows sector :
  Backend.rowCountTooFar ebiletRows sector = false <->
  (10 * Z.abs (Z.of_nat (size ebiletRows) - Z.of_nat (size (rows sector)))
   <= 3 * Z.max (Z.of_nat (size ebiletRows)) (Z.of_nat (size (rows sector))))%Z.
Proof.
  unfold Backend.rowCountTooFar. rewrite Qltb_false, !keysOf_length.
  unfold Backend.relDiff.
  set (a := Z.of_nat (size ebiletRows)). set (b := Z.of_nat (size (rows sector))).
  assert (Ha : (0 <= a)%Z) by (unfold a; lia).
  assert (Hb : (0 <= b)%Z) by (unfold b; lia).
  destruct (Z.max (Z.max a b) 1) as [|d|d] eqn:D; try lia.
  unfold Qle, Qdiv, Qmult, Qinv, inject_Z. cbn [Qnum Qden].
  rewrite Pos2Z.inj_mul. lia.
Qed.

Section MatchLoop.

Variable ebiletRows : gmap string RowStats.
Variable matchedSectors : option (gset string).

Abbreviation step := (Backend.matchStep ebiletRows matchedSectors).
Abbreviation score := (Backend.sectorScore ebiletRows).
Abbreviation scored s := (eligible ebiletRows matchedSectors s = true).

(** No candidate the loop scores outscores the preferred one. *)
Lemma preferred_none_higher candidates best :
  preferred ebiletRows matchedSectors candidates best ->
  forall s, In s candidates -> scored s -> SFltb (score best) (score s) = false.
Proof.
  intros (before & after & -> & _ & B & A) s Hs E.
  apply in_app_or in Hs as [Hs|[<-|Hs]].
  - rewrite List.Forall_forall in B. apply SFltb_of_leb_false, (B s Hs E).
  - apply SFltb_irrefl.
  - rewrite List.Forall_forall in A. exact (A s Hs E).
Qed.

Lemma preferred_In candidates best :
  preferred ebiletRows matchedSectors candidates best ->
  In best candidates /\ scored best.
Proof.
  intros (before & after & -> & E & _). split; [|exact E].
  apply in_or_app. right. now left.
Qed.

(** The invariant of the loop over the candidates seen so far. *)
Abbreviation matchInv seen st :=
  ((forall best, Backend.bestMatch st = Some best ->
       preferred ebiletRows matchedSectors seen best
       /\ Backend.bestScore st = score best
       /\ SFltb Double.zero (score best) = true)
   /\ (Backend.bestMatch st = None ->
       Backend.bestScore st = Double.zero
       /\ forall s, In s seen -> scored s -> SFltb Double.zero (score s) = false)).

(** A candidate that is skipped, or scores no more than the best so far. *)
Lemma matchInv_skip seen st sector :
  matchInv seen st ->
  eligible ebiletRows matchedSectors sector = false
  \/ SFltb (Backend.bestScore st) (score sector) = false ->
  matchInv (seen ++ [sector]) st.
Proof.
  intros (H1 & H2) Hskip. split.
  - intros best Hb. destruct (H1 best Hb) as ((before & after & -> & E & B & A) & G2 & G3).
    split; [|split; [exact G2|exact G3]].
    exists before, (after ++ [sector]). rewrite <- app_assoc. cbn [app].
    refine (conj eq_refl (conj E (conj B _))).
    apply List.Forall_app. split; [exact A|]. constructor; [|constructor].
    intros Es. destruct Hskip as [Hn|Hle]; [congruence|].
    unfold Double.gtb. now rewrite <- G2.
  - intros Hn. destruct (H2 Hn) as [G1 G2]. split; [exact G1|].
    intros s Hs Es. apply in_app_or in Hs as [Hs|[<-|[]]]; [now apply G2|].
    destruct Hskip as [Hx|Hle]; [congruence|]. now rewrite <- G1.
Qed.

Lemma matchStep_inv seen st sector :
  matchInv seen st -> matchInv (seen ++ [sector]) (step st sector).
Proof.
  intros H. unfold Backend.matchStep.
  destruct (Backend.alreadyMatched matchedSectors (sectorName sector)) eqn:A.
  { apply matchInv_skip; [exact H|]. left. unfold eligible. now rewrite A. }
  destruct (Backend.rowCountTooFar ebiletRows sector) eqn:F.
  { apply matchInv_skip; [exact H|]. left. unfold eligible. now rewrite A, F. }
  unfold Double.gtb.
  destruct (SFltb (Backend.bestScore st) (score sector)) eqn:L.
  2: { apply matchInv_skip; [exact H|]. right. exact L. }
  destruct H as (H1 & H2). cbn [Backend.bestMatch Backend.bestScore].
  assert (E : scored sector) by (unfold eligible; now rewrite A, F).
  assert (P : SFltb Double.zero (score sector) = true
              /\ forall s, In s seen -> scored s ->
                   SFltb (Backend.bestScore st) (score s) = false).
  { destruct (Backend.bestMatch st) as [b|] eqn:B.
    - destruct (H1 b eq_refl) as (Pb & G2 & G3). split.
      + apply SFltb_trans with (score b); [exact G3|now rewrite <- G2].
      + intros s Hs Es. rewrite G2. exact (preferred_none_higher seen b Pb s Hs Es).
    - destruct (H2 eq_refl) as [G1 G2]. split.
      + now rewrite <- G1.
      + intros s Hs Es. rewrite G1. now apply G2. }
  destruct P as [P1 P2]. split.
  - intros best [= <-]. split; [|split; [reflexivity|exact P1]].
    exists seen, []. refine (conj eq_refl (conj E (conj _ _))); [|constructor].
    apply List.Forall_forall. intros s Hs Es. unfold Double.geb.
    exact (SFleb_false_trans _ _ _ L (P2 s Hs Es)).
  - discriminate.
Qed.

Lemma matchLoop_fold sectors seen st :
  matchInv seen st ->
  matchInv (seen ++ sectors) (fold_left step sectors st).
Proof.
  revert seen st. induction sectors as [|x xs IH]; intros seen st H; cbn [fold_left].
  - now rewrite app_nil_r.
  - replace (seen ++ x :: xs) with ((seen ++ [x]) ++ xs)
      by now rewrite <- app_assoc.
    apply IH, matchStep_inv, H.
Qed.

Lemma matchLoop_inv kupbilecikSectors :
  matchInv kupbilecikSectors
    (Backend.matchLoop ebiletRows kupbilecikSectors matchedSectors).
Proof.
  unfold Backend.matchLoop.
  apply (matchLoop_fold kupbilecikSectors []).
  cbn. split; [discriminate|]. intros _. split; [reflexivity|]. intros ? [].
Qed.

End MatchLoop.

Lemma matchSectorByStructure_Some rows kb matched best m' :
  Backend.matchSectorByStructure rows kb matched = (Some best, m') ->
  In best kb
  /\ eligible rows matched best = true
  /\ Double.geb (Backend.sectorScore rows best) (Double.ofZ 50) = true
  /\ preferred rows matched kb best
  /\ m' = match matched with
          | Some m => Some ({[ sectorName best ]} ∪ m)
          | None => None
          end.
Proof.
  unfold Backend.matchSectorByStructure.
  destruct (matchLoop_inv rows matched kb) as (H1 & H2).
  destruct (Backend.bestMatch (Backend.matchLoop rows kb matched)) as [b|] eqn:B;
    [|discriminate].
  destruct (Double.geb (Backend.bestScore (Backend.matchLoop rows kb matched))
                       (Double.ofZ 50)) eqn:T; [|discriminate].
  intros [= <- <-]. destruct (H1 b eq_refl) as (P & G2 & G3).
  destruct (preferred_In rows matched kb b P) as [I E].
  rewrite G2 in T. auto.
Qed.

Lemma matchSectorByStructure_None rows kb matched m' :
  Backend.matchSectorByStructure rows kb matched = (None, m') ->
  m' = matched
  /\ (forall s, In s kb -> eligible rows matched s = true ->
        Double.geb (Backend.sectorScore rows s) (Double.ofZ 50) = false).
Proof.
  unfold Backend.matchSectorByStructure.
  destruct (matchLoop_inv rows matched kb) as (H1 & H2).
  destruct (Backend.bestMatch (Backend.matchLoop rows kb matched)) as [b|] eqn:B.
  - destruct (Double.geb (Backend.bestScore (Backend.matchLoop rows kb matched))
                         (Double.ofZ 50)) eqn:T; [discriminate|].
    intros [= <-]. split; [reflexivity|]. intros s Hs E.
    destruct (H1 b eq_refl) as (P & G2 & G3). rewrite G2 in T.
    unfold Double.geb in *.
    apply SFleb_false_below with (Backend.sectorScore rows b).
    + exact (proj2 (SFltb_number _ _ G3)).
    + exact (preferred_none_higher rows matched kb b P s Hs E).
    + exact T.
  - intros [= <-]. split; [reflexivity|]. intros s Hs E.
    destruct (H2 eq_refl) as [_ G]. unfold Double.geb.
    apply SFleb_false_below with Double.zero;
      [reflexivity|now apply G|vm_compute; reflexivity].
Qed.

Lemma matchSectorByStructure_found rows kb matched s :
  In s kb -> eligible rows matched s = true ->
  Double.geb (Backend.sectorScore rows s) (Double.ofZ 50) = true ->
  exists best m',
    Backend.matchSectorByStructure rows kb matched = (Some best, m')
    /\ Double.geb (Backend.sectorScore rows best) (Backend.sectorScore rows s) = true.
Proof.
  intros Hs E T.
  destruct (Backend.matchSectorByStructure rows kb matched) as [[best|] m'] eqn:M.
  - exists best, m'. split; [reflexivity|].
    destruct (matchSectorByStructure_Some _ _ _ _ _ M) as (_ & _ & T' & P & _).
    unfold Double.geb in *. apply SFleb_of_not_ltb.
    + exact (proj2 (SFleb_number _ _ T')).
    + exact (proj2 (SFleb_number _ _ T)).
    + exact (preferred_none_higher rows matched kb best P s Hs E).
  - destruct (matchSectorByStructure_None _ _ _ _ M) as (_ & H).
    rewrite (H s Hs E) in T. discriminate.
Qed.

(** C4: a canonical sector returned by [matchSectorByStructure] has a row
    count within 30% of the vendor sector's, relative to the larger of the
    two; in particular three rows are never matched to ten. *)
Theorem C4_row_count_filter (ebiletRows : gmap string RowStats)
    (kupbilecikSectors : list SectorStats) (matchedSectors : option (gset string))
    (matchedSector : SectorStats) (matched' : option (gset string)) :
  Backend.matchSectorByStructure ebiletRows kupbilecikSectors matchedSectors
  = (Some matchedSector, matched') ->
  (10 * Z.abs (Z.of_nat (size ebiletRows) - Z.of_nat (size (rows matchedSector)))
   <= 3 * Z.max (Z.of_nat (size ebiletRows)) (Z.of_nat (size (rows matchedSector))))%Z
  /\ ~ (size ebiletRows = 3%nat /\ size (rows matchedSector) = 10%nat).
Proof.
  intros M.
  destruct (matchSectorByStructure_Some _ _ _ _ _ M) as (_ & E & _).
  unfold eligible in E. apply andb_prop in E as [_ F].
  apply negb_true_iff, rowCountTooFar_false in F.
  split; [exact F|]. intros [A B]. rewrite A, B in F. lia.
Qed.

Lemma C4_row_count_filter_witness :
  (10 * Z.abs (Z.of_nat (size Samples.threeRows)
               - Z.of_nat (size (rows (Samples.canonical "A" ["1"; "2"; "3"] 10))))
   <= 3 * Z.max (Z.of_nat (size Samples.threeRows))
                (Z.of_nat (size (rows (Samples.canonical "A" ["1"; "2"; "3"] 10)))))%Z
  /\ ~ (size Samples.threeRows = 3%nat
        /\ size (rows (Samples.canonical "A" ["1"; "2"; "3"] 10)) = 10%nat).
Proof.
  apply (C4_row_count_filter Samples.threeRows
           [Samples.canonical "B" Samples.tenRows 3;
            Samples.canonical "A" ["1"; "2"; "3"] 10]
           (Some ∅) (Samples.canonical "A" ["1"; "2"; "3"] 10) (Some {[ "A" ]})).
  vm_compute. reflexivity.
Defined.

Example three_rows_against_ten :
  Backend.matchSectorByStructure Samples.threeRows
    [Samples.canonical "B" Samples.tenRows 3] (Some ∅)
  = (None, Some ∅).
Proof. vm_compute. reflexivity. Qed.

Lemma normalizedRowSet_elem names x :
  x ∈ Backend.normalizedRowSet names <->
  exists r, x = Backend.normalizeRowName r /\ r ∈ names.
Proof.
  unfold Backend.normalizedRowSet.
  now rewrite elem_of_list_to_set, list_elem_of_fmap.
Qed.

Lemma filter_all {A} (P : A -> Prop) `{forall x, Decision (P x)} (l : list A) :
  (forall x, x ∈ l -> P x) -> filter P l = l.
Proof.
  induction l as [|x l IH]; intros Hall; [reflexivity|].
  rewrite filter_cons_True by (apply Hall; left).
  f_equal. apply IH. intros y Hy. apply Hall. now right.
Qed.

Lemma relDiff_nonneg a b : Qle 0 (Backend.relDiff a b).
Proof.
  unfold Backend.relDiff.
  destruct (Z.max (Z.max a b) 1) as [|d|d] eqn:D; try lia.
  unfold Qle, Qdiv, Qmult, Qinv, inject_Z. cbn [Qnum Qden]. lia.
Qed.

(** Identical row sets, no two labels normalising to the same key:
    every normalised vendor row is found, and there are as many of them
    as there are rows; the three parts of the score are 30, 30 and
    n / n * 40. *)
Lemma identical_rows_score (ebiletRows : gmap string RowStats) (sector : SectorStats) :
  dom ebiletRows = dom (rows sector) ->
  ebiletRows <> ∅ ->
  (Z.of_nat (size ebiletRows) < 2 ^ 53)%Z ->
  (forall r1 r2, r1 ∈ dom ebiletRows -> r2 ∈ dom ebiletRows ->
     Backend.normalizeRowName r1 = Backend.normalizeRowName r2 -> r1 = r2) ->
  Backend.totalSeatsOf ebiletRows = total (totals sector) ->
  Backend.sectorScore ebiletRows sector = Double.ofZ 100
  /\ Backend.rowCountTooFar ebiletRows sector = false.
Proof.
  intros Hdom Hne Hsmall Hinj Hseats.
  assert (Hsize : size (rows sector) = size ebiletRows).
  { rewrite <- !size_dom. now rewrite Hdom. }
  assert (Hpos : (0 < size ebiletRows)%nat).
  { apply map_size_non_empty_iff in Hne. lia. }
  split.
  2: { apply rowCountTooFar_false. rewrite Hsize. lia. }
  unfold Backend.sectorScore.
  assert (Hset : Backend.normalizedRowSet (Backend.keysOf (rows sector))
                 = Backend.normalizedRowSet (Backend.keysOf ebiletRows)).
  { apply set_eq. intros x. rewrite !normalizedRowSet_elem.
    split; intros (r & -> & Hr); exists r; (split; [reflexivity|]);
      apply keysOf_elem; apply keysOf_elem in Hr; congruence. }
  cbv zeta.
  rewrite Hset, !keysOf_length, Hsize, Hseats.
  rewrite filter_all by (intros x Hx; now apply elem_of_elements in Hx).
  assert (Hcount : length (elements (Backend.normalizedRowSet (Backend.keysOf ebiletRows)))
                   = size ebiletRows).
  { change (size (Backend.normalizedRowSet (Backend.keysOf ebiletRows))
            = size ebiletRows).
    unfold Backend.normalizedRowSet. rewrite size_list_to_set.
    - now rewrite length_fmap, keysOf_length.
    - apply NoDup_fmap_2_strong; [|apply NoDup_fst_map_to_list].
      intros r1 r2 H1 H2. apply Hinj; now apply keysOf_elem. }
  rewrite Hcount. unfold Double.eqb.
  rewrite !SFeqb_refl by apply ofZ_number.
  assert (Hone : (1 <= Z.of_nat (size ebiletRows))%Z) by lia.
  destruct (max_count_one (Z.of_nat (size ebiletRows)) (conj Hone Hsmall))
    as (-> & m & e & ->).
  rewrite div_self. vm_compute. reflexivity.
Qed.

(** C5, as the code has it.  A vendor sector and a canonical sector with
    identical non-empty row sets (fewer than 2^53 rows), no two labels of
    which normalise to the same key, and with equal total seat counts score
    exactly 100; when that canonical sector is among the candidates and
    not yet claimed, a match is returned, of a score of 100 at least.  The
    match returned is the first, in the order of the candidates, of the
    unclaimed candidates within the row-count filter that none of them
    outscores: those before it score strictly less, those after it no
    more; and its score is at least 50.  No match is returned exactly
    when no such candidate scores 50 or more. *)
Theorem C5_score_and_threshold (ebiletRows : gmap string RowStats)
    (kupbilecikSectors : list SectorStats) (matchedSectors : option (gset string)) :
  (forall sector,
      dom ebiletRows = dom (rows sector) ->
      ebiletRows <> ∅ ->
      (Z.of_nat (size ebiletRows) < 2 ^ 53)%Z ->
      (forall r1 r2, r1 ∈ dom ebiletRows -> r2 ∈ dom ebiletRows ->
         Backend.normalizeRowName r1 = Backend.normalizeRowName r2 -> r1 = r2) ->
      Backend.totalSeatsOf ebiletRows = total (totals sector) ->
      Backend.sectorScore ebiletRows sector = Double.ofZ 100
      /\ (In sector kupbilecikSectors ->
          Backend.alreadyMatched matchedSectors (sectorName sector) = false ->
          exists best matched',
            Backend.matchSectorByStructure ebiletRows kupbilecikSectors matchedSectors
            = (Some best, matched')
            /\ Double.geb (Backend.sectorScore ebiletRows best) (Double.ofZ 100)
               = true))
  /\ (forall best matched',
        Backend.matchSectorByStructure ebiletRows kupbilecikSectors matchedSectors
        = (Some best, matched') ->
        preferred ebiletRows matchedSectors kupbilecikSectors best
        /\ Double.geb (Backend.sectorScore ebiletRows best) (Double.ofZ 50) = true)
  /\ ((Backend.matchSectorByStructure ebiletRows kupbilecikSectors matchedSectors).1
      = None
      <-> forall s, In s kupbilecikSectors ->
            eligible ebiletRows matchedSectors s = true ->
            Double.geb (Backend.sectorScore ebiletRows s) (Double.ofZ 50) = false).
Proof.
  split; [|split].
  - intros sector Hdom Hne Hsmall Hinj Hseats.
    destruct (identical_rows_score ebiletRows sector Hdom Hne Hsmall Hinj Hseats)
      as [S F].
    split; [exact S|]. intros Hin Hfree.
    destruct (matchSectorByStructure_found ebiletRows kupbilecikSectors
                matchedSectors sector Hin) as (best & m' & M & L).
    + unfold eligible. now rewrite Hfree, F.
    + rewrite S. vm_compute. reflexivity.
    + exists best, m'. split; [exact M|]. now rewrite <- S.
  - intros best m' M.
    destruct (matchSectorByStructure_Some _ _ _ _ _ M) as (_ & _ & H3 & H4 & _).
    auto.
  - split.
    + intros N.
      destruct (Backend.matchSectorByStructure ebiletRows kupbilecikSectors
                  matchedSectors) as [r m'] eqn:M.
      cbn [fst] in N. subst r.
      exact (proj2 (matchSectorByStructure_None _ _ _ _ M)).
    + intros Hlow.
      destruct (Backend.matchSectorByStructure ebiletRows kupbilecikSectors
                  matchedSectors) as [[best|] m'] eqn:M; [|reflexivity].
      destruct (matchSectorByStructure_Some _ _ _ _ _ M) as (H1 & H2 & H3 & _).
      rewrite (Hlow best H1 H2) in H3. discriminate.
Qed.

(** C5 as stated fails, twice.  The rows "5" and "V" of one sector
    normalise to the same key: against a canonical sector with the same
    two rows and the same seat count the score is 80.  And of two
    canonical sectors of the same shape, both scoring 100 against a
    vendor's sector with their rows and seat count, the second is not the
    one the vendor's sector is matched to. *)
Lemma C5_identical_sectors_differ :
  dom Samples.clashingRows = dom (rows (Samples.canonical "A" ["5"; "V"] 10))
  /\ Backend.totalSeatsOf Samples.clashingRows
     = total (totals (Samples.canonical "A" ["5"; "V"] 10))
  /\ Backend.sectorScore Samples.clashingRows (Samples.canonical "A" ["5"; "V"] 10)
     = Double.ofZ 80
  /\ Backend.sectorScore Samples.clashingRows (Samples.canonical "A" ["5"; "V"] 10)
     <> Double.ofZ 100
  /\ dom Samples.boxRows = dom (rows Samples.boxRight)
  /\ Backend.totalSeatsOf Samples.boxRows = total (totals Samples.boxRight)
  /\ Backend.sectorScore Samples.boxRows Samples.boxRight = Double.ofZ 100
  /\ (Backend.matchSectorByStructure Samples.boxRows
        [Samples.boxLeft; Samples.boxRight] (Some ∅)).1
     = Some Samples.boxLeft
  /\ Samples.boxLeft <> Samples.boxRight.
Proof.
  refine (conj _ (conj _ (conj _ (conj _ (conj _ (conj _ (conj _ (conj _ _)))))))).
  - vm_compute. reflexivity.
  - vm_compute. reflexivity.
  - vm_compute. reflexivity.
  - vm_compute. discriminate.
  - vm_compute. reflexivity.
  - vm_compute. reflexivity.
  - vm_compute. reflexivity.
  - vm_compute. reflexivity.
  - intros E. apply (f_equal sectorName) in E. vm_compute in E. discriminate.
Qed.

Lemma C5_score_and_threshold_witness :
  Backend.sectorScore Samples.threeRows (Samples.canonical "A" ["1"; "2"; "3"] 10)
  = Double.ofZ 100
  /\ preferred Samples.boxRows (Some ∅) [Samples.boxLeft; Samples.boxRight]
               Samples.boxLeft
  /\ (Backend.matchSectorByStructure Samples.threeRows
        [Samples.canonical "B" Samples.tenRows 3] (Some ∅)).1 = None.
Proof.
  destruct (C5_score_and_threshold Samples.threeRows
              [Samples.canonical "B" Samples.tenRows 3] (Some ∅)) as (H1 & _ & H3).
  destruct (C5_score_and_threshold Samples.boxRows
              [Samples.boxLeft; Samples.boxRight] (Some ∅)) as (_ & H2 & _).
  refine (conj _ (conj _ _)).
  - apply (H1 (Samples.canonical "A" ["1"; "2"; "3"] 10)).
    + vm_compute. reflexivity.
    + vm_compute. discriminate.
    + vm_compute. reflexivity.
    + assert (D : dom Samples.threeRows = list_to_set ["1"; "2"; "3"])
        by (vm_compute; reflexivity).
      intros r1 r2. rewrite D, !elem_of_list_to_set, !list_elem_of_In.
      cbn [In].
      intros [<-|[<-|[<-|[]]]] [<-|[<-|[<-|[]]]]; vm_compute; congruence.
    + vm_compute. reflexivity.
  - apply (H2 Samples.boxLeft (Some {[ "Loza Lewa" ]})). vm_compute. reflexivity.
  - apply H3. intros s [<-|[]]. vm_compute. discriminate.
Defined.

(** A score one bit below 50: with 14 rows each, 32 seats against 35 and
    one row in common, the three parts add up to 50 on paper and to
    49.99999999999999 in doubles; no match is returned. *)
Example score_just_below_fifty :
  Backend.sectorScore Samples.fourteenRows Samples.fourteenOthers
  = S754_finite false 7036874417766399 (-47)
  /\ Double.ofZ 50 = S754_finite false 7036874417766400 (-47)
  /\ Backend.matchSectorByStructure Samples.fourteenRows [Samples.fourteenOthers]
       (Some ∅)
     = (None, Some ∅).
Proof. repeat split; vm_compute; reflexivity. Qed.

(** ** One set of claimed sectors per vendor *)















(** *** The layout covers the canonical sector *)

Lemma split_cons sep s : exists p ps, split sep s = p :: ps.
Proof.
  induction s as [|c s (p & ps & IH)]; cbn [split]; [eauto|].
  rewrite IH. destruct (Ascii.eqb c sep); eauto.
Qed.

Lemma join_split s : join "-" (split "-" s) = s.
Proof.
  induction s as [|c s IH]; [reflexivity|]. cbn [split].
  destruct (split_cons "-" s) as (p & ps & E). rewrite E in IH |- *.
  destruct (Ascii.eqb c "-") eqn:C.
  - apply Ascii.eqb_eq in C. subst c.
    change (join "-" ("" :: p :: ps)) with (String "-" (join "-" (p :: ps))).
    now rewrite IH.
  - destruct ps as [|q qs].
    + cbn [join] in *. now rewrite IH.
    + change (join "-" (String c p :: q :: qs))
        with (String c (join "-" (p :: q :: qs))).
      now rewrite IH.
Qed.

Lemma split_with_dash a b :
  exists p0 p1 ps, split "-" (a +:+ "-" +:+ b) = p0 :: p1 :: ps.
Proof.
  induction a as [|c a (p0 & p1 & ps & IH)].
  - change ("" +:+ "-" +:+ b) with (String "-" b). cbn [split].
    rewrite Ascii.eqb_refl. destruct (split_cons "-" b) as (p & ps & ->). eauto.
  - change (String c a +:+ "-" +:+ b) with (String c (a +:+ "-" +:+ b)).
    cbn [split]. rewrite IH. destruct (Ascii.eqb c "-"); eauto.
Qed.

(** A key with a dash is given back by its row and seat name. *)
Lemma key_rebuilt a b :
  let key := a +:+ "-" +:+ b in
  Frontend.rowOfKey key +:+ "-" +:+ Frontend.seatNameOfKey key = key.
Proof.
  cbn zeta. destruct (split_with_dash a b) as (p0 & p1 & ps & E).
  unfold Frontend.rowOfKey, Frontend.seatNameOfKey.
  rewrite <- (join_split (a +:+ "-" +:+ b)) at 3. now rewrite E.
Qed.

Lemma normalizeSeatKey_with_dash a b :
  exists a' b', Frontend.normalizeSeatKey (a +:+ "-" +:+ b) = a' +:+ "-" +:+ b'.
Proof.
  unfold Frontend.normalizeSeatKey.
  destruct (split_with_dash a b) as (p0 & p1 & ps & ->). eauto.
Qed.

(** The seat name [name] is listed in the row [row]. *)
Abbreviation listed m row name :=
  (exists names : list string, m !! row = Some names /\ In name names)
  (only parsing).

Lemma baseFreeStep_listed lay seat :
  let lay' := Frontend.baseFreeStep lay seat in
  let key := Frontend.normalizeSeatKey seat in
  listed (Frontend.seatsPerRow lay') (Frontend.rowOfKey key)
         (Frontend.seatNameOfKey key)
  /\ (forall row name, listed (Frontend.seatsPerRow lay) row name ->
                      listed (Frontend.seatsPerRow lay') row name).
Proof.
  cbn zeta. unfold Frontend.baseFreeStep. cbn [Frontend.seatsPerRow]. split.
  - eexists. rewrite lookup_insert_eq. split; [reflexivity|].
    apply in_or_app. right. now left.
  - intros row name (names & Hl & Hin).
    destruct (decide (Frontend.rowOfKey (Frontend.normalizeSeatKey seat) = row))
      as [<-|Hne].
    + eexists. rewrite lookup_insert_eq. split; [reflexivity|].
      rewrite Hl. apply in_or_app. now left.
    + exists names. now rewrite (lookup_insert_ne _ _ _ _ Hne).
Qed.

Lemma baseTakenStep_listed lay seat :
  let lay' := Frontend.baseTakenStep lay seat in
  let key := Frontend.normalizeSeatKey seat in
  listed (Frontend.seatsPerRow lay') (Frontend.rowOfKey key)
         (Frontend.seatNameOfKey key)
  /\ (forall row name, listed (Frontend.seatsPerRow lay) row name ->
                      listed (Frontend.seatsPerRow lay') row name).
Proof.
  cbn zeta. unfold Frontend.baseTakenStep. cbn [Frontend.seatsPerRow]. split.
  - eexists. rewrite lookup_insert_eq. split; [reflexivity|].
    case_bool_decide as Hin.
    + now apply list_elem_of_In.
    + apply in_or_app. right. now left.
  - intros row name (names & Hl & Hin).
    destruct (decide (Frontend.rowOfKey (Frontend.normalizeSeatKey seat) = row))
      as [<-|Hne].
    + eexists. rewrite lookup_insert_eq. split; [reflexivity|].
      rewrite Hl. cbn [default from_option id].
      case_bool_decide; [exact Hin | apply in_or_app; now left].
    + exists names. now rewrite (lookup_insert_ne _ _ _ _ Hne).
Qed.

Lemma base_fold_listed (step : Frontend.Layout -> string -> Frontend.Layout) seats :
  (forall lay seat,
      listed (Frontend.seatsPerRow (step lay seat))
             (Frontend.rowOfKey (Frontend.normalizeSeatKey seat))
             (Frontend.seatNameOfKey (Frontend.normalizeSeatKey seat))
      /\ (forall row name, listed (Frontend.seatsPerRow lay) row name ->
                          listed (Frontend.seatsPerRow (step lay seat)) row name)) ->
  forall lay,
    (forall seat, In seat seats ->
       listed (Frontend.seatsPerRow (fold_left step seats lay))
              (Frontend.rowOfKey (Frontend.normalizeSeatKey seat))
              (Frontend.seatNameOfKey (Frontend.normalizeSeatKey seat)))
    /\ (forall row name, listed (Frontend.seatsPerRow lay) row name ->
          listed (Frontend.seatsPerRow (fold_left step seats lay)) row name).
Proof.
  intros Hstep. induction seats as [|x xs IH]; intros lay; cbn [fold_left].
  - split; [intros ? []|auto].
  - destruct (IH (step lay x)) as [H1 H2]. destruct (Hstep lay x) as [G1 G2].
    split.
    + intros seat [<-|Hin]; [apply H2, G1 | now apply H1].
    + intros row name Hl. apply H2, G2, Hl.
Qed.

(** Every free or taken seat of the canonical sector is in the layout,
    under the row and seat name of its normalised key. *)
Lemma layout_covers_canonical kbSector perSource seat :
  In seat (freeSeats kbSector ++ takenSeats kbSector) ->
  listed (Frontend.seatsPerRow (Frontend.buildLayout kbSector perSource))
         (Frontend.rowOfKey (Frontend.normalizeSeatKey seat))
         (Frontend.seatNameOfKey (Frontend.normalizeSeatKey seat)).
Proof.
  intros Hin. unfold Frontend.buildLayout. cbn [Frontend.seatsPerRow].
  set (lay0 := {| Frontend.seatsPerRow := ∅; Frontend.seatStatuses := ∅ |}).
  destruct (base_fold_listed Frontend.baseFreeStep (freeSeats kbSector)
              baseFreeStep_listed lay0) as [F1 _].
  destruct (base_fold_listed Frontend.baseTakenStep (takenSeats kbSector)
              baseTakenStep_listed
              (fold_left Frontend.baseFreeStep (freeSeats kbSector) lay0))
    as [T1 T2].
  apply in_app_or in Hin as [Hin|Hin]; [apply T2, F1, Hin | apply T1, Hin].
Qed.

(** Hence the colour of every seat "row-seat" of the canonical sector,
    looked up under its normalised key, is the resolved one. *)
Lemma canonical_seat_colour parseInt kbSector perSource inferredSold a b :
  In (a +:+ "-" +:+ b) (freeSeats kbSector ++ takenSeats kbSector) ->
  let seatKey := Frontend.normalizeSeatKey (a +:+ "-" +:+ b) in
  Frontend.viz_seatColors
    (Frontend.calculateSectorVisualizationWithBase parseInt kbSector perSource
       inferredSold)
    !! seatKey
  = Some (resolveColor kbSector
            (Frontend.seatStatuses (Frontend.buildLayout kbSector perSource))
            inferredSold seatKey).
Proof.
  intros Hin seatKey.
  destruct (layout_covers_canonical kbSector perSource _ Hin) as (names & Hl & Hn).
  pose proof (seatColors_resolved parseInt kbSector perSource inferredSold _ _ _ Hl Hn)
    as H.
  fold seatKey in H.
  destruct (normalizeSeatKey_with_dash a b) as (a' & b' & E).
  assert (R : Frontend.rowOfKey seatKey +:+ "-" +:+ Frontend.seatNameOfKey seatKey
              = seatKey).
  { unfold seatKey. rewrite E. apply key_rebuilt. }
  now rewrite R in H.
Qed.

(** *** The statuses are what the sources report *)

Lemma listsSeat_app l1 l2 key :
  listsSeat (l1 ++ l2) key = listsSeat l1 key || listsSeat l2 key.
Proof. unfold listsSeat. apply existsb_app. Qed.

Lemma listsSeat_In seats seat :
  In seat seats -> listsSeat seats (Frontend.normalizeSeatKey seat) = true.
Proof.
  intros H. unfold listsSeat. apply existsb_exists. exists seat.
  split; [exact H|]. apply String.eqb_refl.
Qed.

(** The statuses the two loops over the canonical sector leave. *)
Lemma baseFree_statuses seats : forall lay key,
  Frontend.seatStatuses (fold_left Frontend.baseFreeStep seats lay) !! key
  = if listsSeat seats key
    then Some {| Frontend.on_biletyna := None; Frontend.on_ebilet := None;
                 Frontend.on_kupbilecik := Some Frontend.st_free |}
    else Frontend.seatStatuses lay !! key.
Proof.
  induction seats as [|seat seats IH]; intros lay key; cbn [fold_left]; [reflexivity|].
  rewrite IH. unfold listsSeat. cbn [existsb].
  fold (listsSeat seats key).
  destruct (listsSeat seats key); [now rewrite orb_true_r|]. rewrite orb_false_r.
  unfold Frontend.baseFreeStep. cbn [Frontend.seatStatuses].
  destruct (String.eqb_spec (Frontend.normalizeSeatKey seat) key) as [->|N].
  - apply lookup_insert_eq.
  - now rewrite (lookup_insert_ne _ _ _ _ N).
Qed.

Lemma baseTaken_statuses seats : forall lay key,
  Frontend.seatStatuses (fold_left Frontend.baseTakenStep seats lay) !! key
  = if listsSeat seats key
    then Some {| Frontend.on_biletyna := None; Frontend.on_ebilet := None;
                 Frontend.on_kupbilecik := Some Frontend.st_taken |}
    else Frontend.seatStatuses lay !! key.
Proof.
  induction seats as [|seat seats IH]; intros lay key; cbn [fold_left]; [reflexivity|].
  rewrite IH. unfold listsSeat. cbn [existsb].
  fold (listsSeat seats key).
  destruct (listsSeat seats key); [now rewrite orb_true_r|]. rewrite orb_false_r.
  unfold Frontend.baseTakenStep. cbn [Frontend.seatStatuses].
  destruct (String.eqb_spec (Frontend.normalizeSeatKey seat) key) as [->|N].
  - apply lookup_insert_eq.
  - now rewrite (lookup_insert_ne _ _ _ _ N).
Qed.

Lemma setStatusOn_same st portal v :
  Frontend.statusOn (Frontend.setStatusOn st portal v) portal = v.
Proof. destruct portal; reflexivity. Qed.

Lemma setStatusOn_other st portal q v :
  q <> portal ->
  Frontend.statusOn (Frontend.setStatusOn st portal v) q = Frontend.statusOn st q.
Proof. destruct portal, q; congruence || reflexivity. Qed.

(** One overlay loop: the seats the list names get the status, on the
    portal, where the canonical sector has the seat; nothing else
    changes. *)
Lemma overlay_statuses portal v seats : forall statuses key,
  match fold_left (Frontend.overlayStep portal v) seats statuses !! key,
        statuses !! key with
  | Some st', Some st =>
      Frontend.statusOn st' portal
      = (if listsSeat seats key then Some v else Frontend.statusOn st portal)
      /\ forall q, q <> portal -> Frontend.statusOn st' q = Frontend.statusOn st q
  | None, None => True
  | _, _ => False
  end.
Proof.
  induction seats as [|seat seats IH]; intros statuses key; cbn [fold_left].
  - cbn [listsSeat existsb]. destruct (statuses !! key); auto.
  - specialize (IH (Frontend.overlayStep portal v statuses seat) key).
    unfold listsSeat. cbn [existsb]. fold (listsSeat seats key).
    destruct (fold_left _ seats _ !! key) as [st'|] eqn:F.
    + unfold Frontend.overlayStep in IH.
      destruct (statuses !! Frontend.normalizeSeatKey seat) as [st0|] eqn:L.
      * destruct (String.eqb_spec (Frontend.normalizeSeatKey seat) key) as [E|N].
        -- subst key. rewrite lookup_insert_eq in IH. rewrite L.
           destruct IH as [I1 I2]. cbn [orb]. split.
           ++ rewrite I1, setStatusOn_same. now destruct (listsSeat seats _).
           ++ intros q Hq. rewrite (I2 q Hq). now apply setStatusOn_other.
        -- rewrite (lookup_insert_ne _ _ _ _ N) in IH. cbn [orb].
           destruct (statuses !! key); exact IH.
      * destruct (String.eqb_spec (Frontend.normalizeSeatKey seat) key) as [E|N].
        -- subst key. rewrite L in IH. destruct IH.
        -- cbn [orb]. destruct (statuses !! key); exact IH.
    + unfold Frontend.overlayStep in IH.
      destruct (statuses !! Frontend.normalizeSeatKey seat) as [st0|] eqn:L.
      * destruct (String.eqb_spec (Frontend.normalizeSeatKey seat) key) as [E|N].
        -- subst key. rewrite lookup_insert_eq in IH. destruct IH.
        -- rewrite (lookup_insert_ne _ _ _ _ N) in IH.
           destruct (statuses !! key); exact IH.
      * destruct (statuses !! key); exact IH.
Qed.

(** The overlay of one portal. *)
Lemma overlayPortal_statuses kbSector perSource portal statuses key st :
  portal <> kupbilecik ->
  statuses !! key = Some st ->
  exists st',
    Frontend.overlayPortal kbSector perSource statuses portal !! key = Some st'
    /\ Frontend.statusOn st' portal
       = match reportedStatus kbSector perSource portal key with
         | Some v => Some v
         | None => Frontend.statusOn st portal
         end
    /\ forall q, q <> portal -> Frontend.statusOn st' q = Frontend.statusOn st q.
Proof.
  intros Hp L. unfold Frontend.overlayPortal, reportedStatus, sectorNamed.
  assert (R : match portal with
              | kupbilecik => statusIn kbSector key
              | _ =>
                  match
                    match Frontend.perSourceGet perSource portal with
                    | Some st0 =>
                        match sectors st0 with
                        | Some secs =>
                            List.find (fun sec => String.eqb (sectorName sec)
                                                             (sectorName kbSector)) secs
                        | None => None
                        end
                    | None => None
                    end
                  with
                  | Some sector => statusIn sector key
                  | None => None
                  end
              end
              = match Frontend.perSourceGet perSource portal ≫= sectors with
                | Some secs =>
                    match Frontend.findSector secs (sectorName kbSector) with
                    | Some sector => statusIn sector key
                    | None => None
                    end
                | None => None
                end).
  { destruct portal; [| |congruence];
      destruct (Frontend.perSourceGet perSource _) as [st0|]; cbn; try reflexivity;
      destruct (sectors st0); reflexivity. }
  rewrite R. clear R.
  destruct (Frontend.perSourceGet perSource portal ≫= sectors) as [secs|];
    [|exists st; auto].
  destruct (Frontend.findSector secs (sectorName kbSector)) as [sec|];
    [|exists st; auto].
  pose proof (overlay_statuses portal Frontend.st_free (freeSeats sec) statuses key) as F.
  rewrite L in F.
  destruct (fold_left (Frontend.overlayStep portal Frontend.st_free) (freeSeats sec)
                      statuses !! key) as [st1|] eqn:L1; [|destruct F].
  destruct F as [F1 F2].
  pose proof (overlay_statuses portal Frontend.st_taken (takenSeats sec)
                (fold_left (Frontend.overlayStep portal Frontend.st_free)
                           (freeSeats sec) statuses) key) as T.
  rewrite L1 in T.
  destruct (fold_left (Frontend.overlayStep portal Frontend.st_taken) (takenSeats sec)
                      _ !! key) as [st2|] eqn:L2; [|destruct T].
  destruct T as [T1 T2].
  exists st2. split; [reflexivity|]. split.
  - rewrite T1, F1. unfold statusIn.
    destruct (listsSeat (takenSeats sec) key); [reflexivity|].
    destruct (listsSeat (freeSeats sec) key); reflexivity.
  - intros q Hq. rewrite (T2 q Hq). now apply F2.
Qed.

(** The statuses of a seat of the canonical sector, as the page has them
    when it computes the colours, are what the three sources report of
    the seat. *)
Lemma statuses_reported kbSector perSource key :
  listsSeat (freeSeats kbSector ++ takenSeats kbSector) key = true ->
  exists st,
    Frontend.seatStatuses (Frontend.buildLayout kbSector perSource) !! key = Some st
    /\ forall portal,
         Frontend.statusOn st portal = reportedStatus kbSector perSource portal key.
Proof.
  intros Hk. unfold Frontend.buildLayout. cbn [Frontend.seatStatuses].
  set (lay0 := {| Frontend.seatsPerRow := ∅; Frontend.seatStatuses := ∅ |}).
  set (base := Frontend.seatStatuses
                 (fold_left Frontend.baseTakenStep (takenSeats kbSector)
                    (fold_left Frontend.baseFreeStep (freeSeats kbSector) lay0))).
  assert (B : exists st0,
             base !! key = Some st0
             /\ Frontend.statusOn st0 biletyna = None
             /\ Frontend.statusOn st0 ebilet = None
             /\ Frontend.statusOn st0 kupbilecik = statusIn kbSector key).
  { unfold base. rewrite baseTaken_statuses, baseFree_statuses.
    rewrite listsSeat_app in Hk. unfold statusIn.
    destruct (listsSeat (takenSeats kbSector) key); [eauto|].
    destruct (listsSeat (freeSeats kbSector) key); [eauto|discriminate]. }
  destruct B as (st0 & L0 & B1 & B2 & B3).
  cbn [fold_left].
  destruct (overlayPortal_statuses kbSector perSource biletyna base key st0
              ltac:(discriminate) L0) as (st1 & L1 & P1 & Q1).
  destruct (overlayPortal_statuses kbSector perSource ebilet
              (Frontend.overlayPortal kbSector perSource base biletyna) key st1
              ltac:(discriminate) L1) as (st2 & L2 & P2 & Q2).
  exists st2. split; [exact L2|]. intros portal. destruct portal.
  - rewrite (Q2 biletyna ltac:(discriminate)), P1, B1.
    now destruct (reportedStatus kbSector perSource biletyna key).
  - rewrite P2, (Q1 ebilet ltac:(discriminate)), B2.
    now destruct (reportedStatus kbSector perSource ebilet key).
  - rewrite (Q2 kupbilecik ltac:(discriminate)), (Q1 kupbilecik ltac:(discriminate)).
    exact B3.
Qed.

Lemma firstFreePortal_find statuses :
  Frontend.firstFreePortal Frontend.portals statuses
  = List.find (fun p => bool_decide (Frontend.statusOn statuses p
                                     = Some Frontend.st_free))
              [biletyna; ebilet; kupbilecik].
Proof.
  unfold Frontend.portals. cbn [Frontend.firstFreePortal List.find].
  repeat case_decide; repeat case_bool_decide; first [reflexivity | contradiction].
Qed.

(** The page's resolution, seat by seat: every seat "row-seat" of the
    canonical sector, free or taken, is coloured, under the key the page
    files it under, free for the first source in the order biletyna,
    ebilet, kupbilecik that reports the seat under that key as free; when
    none does, sold for the source the inferred sales give under
    "sectorName:key"; and otherwise no data.  The keys are those of the
    page's normaliser, for the reports and for the inferred sales. *)
Lemma page_seat_colour (parseInt : string -> spec_float) (kbSector : SectorStats)
    (perSource : Frontend.PerSource)
    (inferredSold : option (gmap string SourceType)) (row seat : string) :
  In (row +:+ "-" +:+ seat) (freeSeats kbSector ++ takenSeats kbSector) ->
  let seatKey := Frontend.normalizeSeatKey (row +:+ "-" +:+ seat) in
  Frontend.viz_seatColors
    (Frontend.calculateSectorVisualizationWithBase parseInt kbSector perSource
       inferredSold)
    !! seatKey
  = Some (reportedColour kbSector perSource inferredSold seatKey).
Proof.
  intros Hin seatKey.
  pose proof (canonical_seat_colour parseInt kbSector perSource inferredSold row seat
                Hin) as C.
  cbv zeta in C. fold seatKey in C. rewrite C. f_equal.
  destruct (statuses_reported kbSector perSource seatKey) as (st & L & R).
  { apply listsSeat_In, Hin. }
  unfold resolveColor, reportedColour. rewrite L. cbn [default from_option id].
  rewrite firstFreePortal_find. cbn [List.find]. rewrite !R. reflexivity.
Qed.

Lemma page_seat_colour_witness :
  Frontend.viz_seatColors
    (Frontend.calculateSectorVisualizationWithBase Samples.parseDigits
       Samples.canonicalA Samples.perSourceA Samples.inferredSoldA) !! "5-3"
  = Some (Frontend.SEAT_COLORS_free biletyna)
  /\ Frontend.viz_seatColors
       (Frontend.calculateSectorVisualizationWithBase Samples.parseDigits
          Samples.canonicalA Samples.perSourceA Samples.inferredSoldA) !! "6-1"
     = Some (Frontend.SEAT_COLORS_taken ebilet).
Proof.
  split.
  - refine (page_seat_colour Samples.parseDigits Samples.canonicalA Samples.perSourceA
              Samples.inferredSoldA "V" "3" _).
    right. right. left. reflexivity.
  - refine (page_seat_colour Samples.parseDigits Samples.canonicalA Samples.perSourceA
              Samples.inferredSoldA "VI" "1" _).
    right. right. right. left. reflexivity.
Defined.

(** C2 fails wherever the page and the route write the key of a seat
    differently.  Seat B-3 of sector "A" is free in one run and taken in
    the next: the route infers it sold, under the key "A:b-3" it gives
    the seat, and the page, which files the seat under "B-3" and looks
    for "A:B-3", colours it as a seat without data, not as sold.  With the
    row numbered 2 the same two runs colour the seat sold.  And seat 3 of
    row 5, which Biletyna lists free under the label "Row 5-3", the key
    "5-3" for the route, is coloured as a seat without data too, not as
    free on Biletyna. *)
Theorem C2_page_reads_other_keys (parseInt : string -> spec_float) :
  Samples.lettersInferred = {[ "A:b-3" := kupbilecik ]}
  /\ Backend.uniqueKeyOf Samples.lettersSector "B-3" = "A:b-3"
  /\ Frontend.normalizeSeatKey "B-3" = "B-3"
  /\ Frontend.viz_seatColors
       (Frontend.calculateSectorVisualizationWithBase parseInt Samples.lettersSector
          Samples.lettersPerSource (Some Samples.lettersInferred)) !! "B-3"
     = Some Frontend.SEAT_COLORS_noData
  /\ Samples.digitsInferred = {[ "A:2-3" := kupbilecik ]}
  /\ Frontend.viz_seatColors
       (Frontend.calculateSectorVisualizationWithBase parseInt Samples.digitsSector
          Samples.digitsPerSource (Some Samples.digitsInferred)) !! "2-3"
     = Some (Frontend.SEAT_COLORS_taken kupbilecik)
  /\ Backend.normalizeSeatKey "Row 5-3" = "5-3"
  /\ Frontend.normalizeSeatKey "Row 5-3" = "Row 5-3"
  /\ Frontend.viz_seatColors
       (Frontend.calculateSectorVisualizationWithBase parseInt Samples.labelledSector
          Samples.labelledPerSource None) !! "5-3"
     = Some Frontend.SEAT_COLORS_noData.
Proof.
  refine (conj _ (conj _ (conj _ (conj _ (conj _ (conj _ (conj _ (conj _ _)))))))).
  - vm_compute. reflexivity.
  - vm_compute. reflexivity.
  - vm_compute. reflexivity.
  - refine (eq_trans (page_seat_colour parseInt Samples.lettersSector Samples.lettersPerSource
               (Some Samples.lettersInferred) "B" "3" _) _).
    + right. left. reflexivity.
    + vm_compute. reflexivity.
  - vm_compute. reflexivity.
  - refine (eq_trans (page_seat_colour parseInt Samples.digitsSector Samples.digitsPerSource
               (Some Samples.digitsInferred) "2" "3" _) _).
    + right. left. reflexivity.
    + vm_compute. reflexivity.
  - vm_compute. reflexivity.
  - vm_compute. reflexivity.
  - refine (eq_trans (page_seat_colour parseInt Samples.labelledSector Samples.labelledPerSource
               None "5" "3" _) _).
    + left. reflexivity.
    + vm_compute. reflexivity.
Qed.

(** * The rest of the routes, the libraries and the page: properties *)

(** ** Row counts kept by the vendors' parsers *)

Lemma fold_left_sum_shift {A} (f : A -> Z) (l : list A) (a : Z) :
  fold_left (fun sum r => (sum + f r)%Z) l a
  = (a + fold_left (fun sum r => (sum + f r)%Z) l 0)%Z.
Proof.
  revert a. induction l as [|x l IH]; intros a; cbn [fold_left].
  - lia.
  - rewrite IH. rewrite (IH (0 + f x)%Z). lia.
Qed.

Lemma fold_left_sum_perm {A} (f : A -> Z) (l l' : list A) :
  l ≡ₚ l' ->
  fold_left (fun sum r => (sum + f r)%Z) l 0%Z
  = fold_left (fun sum r => (sum + f r)%Z) l' 0%Z.
Proof.
  induction 1 as [|x l l' _ IH|x y l|l l' l'' _ IH1 _ IH2]; cbn [fold_left].
  - reflexivity.
  - rewrite fold_left_sum_shift, IH, <- fold_left_sum_shift. reflexivity.
  - rewrite (fold_left_sum_shift f l). symmetry.
    rewrite (fold_left_sum_shift f l). lia.
  - congruence.
Qed.

Lemma sumBy_empty f : sumBy f ∅ = 0%Z.
Proof. unfold sumBy. rewrite map_to_list_empty. reflexivity. Qed.

Lemma sumBy_insert_None f (m : gmap string RowStats) k v :
  m !! k = None -> sumBy f (<[k := v]> m) = (f v + sumBy f m)%Z.
Proof.
  intros Hk. unfold sumBy.
  rewrite (fold_left_sum_perm f _ ((k, v) :: map_to_list m).*2).
  - cbn [fmap list_fmap snd fold_left]. rewrite fold_left_sum_shift. lia.
  - apply fmap_Permutation, map_to_list_insert, Hk.
Qed.

Lemma sumBy_delete f (m : gmap string RowStats) k old :
  m !! k = Some old -> sumBy f m = (f old + sumBy f (delete k m))%Z.
Proof.
  intros Hk. unfold sumBy.
  rewrite (fold_left_sum_perm f (map_to_list m).*2
             ((k, old) :: map_to_list (delete k m)).*2).
  - cbn [fmap list_fmap snd fold_left]. rewrite fold_left_sum_shift. lia.
  - apply fmap_Permutation. symmetry. apply map_to_list_delete, Hk.
Qed.

Lemma sumBy_insert_Some f (m : gmap string RowStats) k v old :
  m !! k = Some old -> sumBy f (<[k := v]> m) = (f v + sumBy f m - f old)%Z.
Proof.
  intros Hk. rewrite (sumBy_delete f m k old Hk).
  rewrite <- (insert_delete_eq m k v).
  rewrite sumBy_insert_None by apply lookup_delete_eq. lia.
Qed.

(** The loops' counting step adds one seat to the sums. *)
Lemma sumBy_countSeat_total m row b :
  sumBy total (Backend.countSeat m row b) = (sumBy total m + 1)%Z.
Proof.
  unfold Backend.countSeat, Backend.addRowStats.
  destruct (m !! row) as [old|] eqn:E; cbn [default from_option id].
  - rewrite (sumBy_insert_Some _ _ _ _ old E). destruct b; cbn; lia.
  - rewrite (sumBy_insert_None _ _ _ _ E). destruct b; cbn; lia.
Qed.

Lemma sumBy_countSeat_free m row b :
  sumBy free (Backend.countSeat m row b)
  = (sumBy free m + (if b then 1 else 0))%Z.
Proof.
  unfold Backend.countSeat, Backend.addRowStats.
  destruct (m !! row) as [old|] eqn:E; cbn [default from_option id].
  - rewrite (sumBy_insert_Some _ _ _ _ old E). destruct b; cbn; lia.
  - rewrite (sumBy_insert_None _ _ _ _ E). destruct b; cbn; lia.
Qed.

Lemma sumBy_countSeat_taken m row b :
  sumBy taken (Backend.countSeat m row b)
  = (sumBy taken m + (if b then 0 else 1))%Z.
Proof.
  unfold Backend.countSeat, Backend.addRowStats.
  destruct (m !! row) as [old|] eqn:E; cbn [default from_option id].
  - rewrite (sumBy_insert_Some _ _ _ _ old E). destruct b; cbn; lia.
  - rewrite (sumBy_insert_None _ _ _ _ E). destruct b; cbn; lia.
Qed.

Lemma rowsBalanced_empty : rowsBalanced ∅.
Proof. apply map_Forall_empty. Qed.

Lemma rowsBalanced_countSeat m row b :
  rowsBalanced m -> rowsBalanced (Backend.countSeat m row b).
Proof.
  intros H. unfold Backend.countSeat, Backend.addRowStats.
  apply map_Forall_insert_2; [|exact H].
  destruct (m !! row) as [old|] eqn:E; cbn [default from_option id].
  - destruct (H _ _ E) as (H1 & H2 & H3 & H4). destruct b; cbn; lia.
  - destruct b; cbn; lia.
Qed.

Lemma countSeat_nonempty m row b : Backend.countSeat m row b <> ∅.
Proof. unfold Backend.countSeat, Backend.addRowStats. apply insert_non_empty. Qed.

Lemma lengthZ_snoc {A} (l : list A) x :
  Backend.lengthZ (l ++ [x]) = (Backend.lengthZ l + 1)%Z.
Proof. unfold Backend.lengthZ. rewrite length_app. cbn. lia. Qed.

Lemma counted_empty : counted ∅ [] [].
Proof.
  unfold counted. rewrite !sumBy_empty.
  refine (conj _ (conj _ (conj _ _))); try reflexivity. apply rowsBalanced_empty.
Qed.

Lemma counted_free m freeL takenL row k :
  counted m freeL takenL ->
  counted (Backend.countSeat m row true) (freeL ++ [k]) takenL.
Proof.
  intros (Hf & Ht & Hs & Hb). unfold counted.
  rewrite sumBy_countSeat_free, sumBy_countSeat_taken, sumBy_countSeat_total.
  rewrite lengthZ_snoc.
  refine (conj _ (conj _ (conj _ _))); try lia.
  apply rowsBalanced_countSeat, Hb.
Qed.

Lemma counted_taken m freeL takenL row k :
  counted m freeL takenL ->
  counted (Backend.countSeat m row false) freeL (takenL ++ [k]).
Proof.
  intros (Hf & Ht & Hs & Hb). unfold counted.
  rewrite sumBy_countSeat_free, sumBy_countSeat_taken, sumBy_countSeat_total.
  rewrite lengthZ_snoc.
  refine (conj _ (conj _ (conj _ _))); try lia.
  apply rowsBalanced_countSeat, Hb.
Qed.

Lemma sumBy_total_nonneg m : rowsBalanced m -> (0 <= sumBy total m)%Z.
Proof.
  induction m as [|k v m Hk IH] using map_ind; intros Hb.
  - rewrite sumBy_empty. lia.
  - rewrite sumBy_insert_None by exact Hk.
    apply map_Forall_insert in Hb; [|exact Hk].
    destruct Hb as [(H1 & H2 & H3 & H4) Hm]. specialize (IH Hm). lia.
Qed.

Lemma sumBy_total_pos m : rowsBalanced m -> m <> ∅ -> (0 < sumBy total m)%Z.
Proof.
  induction m as [|k v m Hk IH] using map_ind; intros Hb Hne.
  - congruence.
  - rewrite sumBy_insert_None by exact Hk.
    apply map_Forall_insert in Hb; [|exact Hk].
    destruct Hb as [(H1 & H2 & H3 & H4) Hm].
    pose proof (sumBy_total_nonneg m Hm). lia.
Qed.

(** An accumulator has rows exactly when it has listed a seat. *)
Lemma counted_size m freeL takenL :
  counted m freeL takenL ->
  (size m = 0)%nat <-> (freeL = [] /\ takenL = []).
Proof.
  intros (Hf & Ht & Hs & Hb). split.
  - intros E. apply map_size_empty_inv in E. subst m.
    rewrite sumBy_empty in Hf, Ht. unfold Backend.lengthZ in *.
    destruct freeL, takenL; cbn in *; try lia. split; reflexivity.
  - intros [-> ->]. cbn in Hs.
    destruct (decide (m = ∅)) as [->|Hne]; [apply map_size_empty|].
    pose proof (sumBy_total_pos m Hb Hne). unfold Backend.lengthZ in Hs.
    cbn in Hs. lia.
Qed.

Lemma kbAdds_refl acc : kbAdds [] acc acc.
Proof.
  exists [], []. rewrite !app_nil_r. cbn.
  refine (conj _ (conj _ (conj _ (conj _ (conj _ (conj _ (conj _ (conj _ _))))))));
    auto.
Qed.

Lemma kbAdds_trans l1 l2 a b c :
  kbAdds l1 a b -> kbAdds l2 b c -> kbAdds (l1 ++ l2) a c.
Proof.
  intros (df1 & dt1 & A1 & A2 & A3 & A4 & A5 & A6 & A7 & A8 & A9)
         (df2 & dt2 & B1 & B2 & B3 & B4 & B5 & B6 & B7 & B8 & B9).
  exists (df1 ++ df2), (dt1 ++ dt2).
  refine (conj _ (conj _ (conj _ (conj _ (conj _ (conj _ (conj _ (conj _ _))))))));
    auto.
  - rewrite B1, A1, app_assoc. reflexivity.
  - rewrite B2, A2, app_assoc. reflexivity.
  - rewrite B3, A3, app_assoc. reflexivity.
  - rewrite B4, A4, app_assoc. reflexivity.
  - congruence.
  - rewrite List.filter_app, !length_app. congruence.
  - rewrite List.filter_app, !length_app. congruence.
Qed.

Lemma kbSeatStep_adds rowName acc miejsce :
  kbAdds [miejsce] acc (Parsers.kbSeatStep rowName acc miejsce).
Proof.
  unfold Parsers.kbSeatStep, kbAdds. cbn [List.filter].
  destruct (Parsers.unnamedSeat miejsce) eqn:U; cbn [negb andb].
  - exists [], []. rewrite !app_nil_r. cbn [length].
    refine (conj _ (conj _ (conj _ (conj _ (conj _ (conj _ (conj _ (conj _ _))))))));
      auto.
  - destruct acc as [sec st].
    destruct (Parsers.miejsce_free miejsce) eqn:F; cbn [negb].
    + exists [rowName +:+ "-" +:+ Parsers.miejsce_nazwa miejsce], [].
      cbn [fst snd Parsers.kb_sectorFreeSeats Parsers.kb_sectorTakenSeats
           Parsers.kb_globalFreeSeats Parsers.kb_globalTakenSeats
           Parsers.kb_sectors Parsers.kb_sectorRowsData
           Parsers.kb_globalRowsData length].
      rewrite !app_nil_r.
      refine (conj _ (conj _ (conj _ (conj _ (conj _ (conj _ (conj _ (conj _ _))))))));
        auto using counted_free.
    + exists [], [rowName +:+ "-" +:+ Parsers.miejsce_nazwa miejsce].
      cbn [fst snd Parsers.kb_sectorFreeSeats Parsers.kb_sectorTakenSeats
           Parsers.kb_globalFreeSeats Parsers.kb_globalTakenSeats
           Parsers.kb_sectors Parsers.kb_sectorRowsData
           Parsers.kb_globalRowsData length].
      rewrite !app_nil_r.
      refine (conj _ (conj _ (conj _ (conj _ (conj _ (conj _ (conj _ (conj _ _))))))));
        auto using counted_taken.
Qed.

Lemma kbSeats_adds rowName seats acc :
  kbAdds seats acc (fold_left (Parsers.kbSeatStep rowName) seats acc).
Proof.
  revert acc. induction seats as [|m seats IH]; intros acc; cbn [fold_left].
  - apply kbAdds_refl.
  - change (m :: seats) with ([m] ++ seats).
    eapply kbAdds_trans; [apply kbSeatStep_adds | apply IH].
Qed.

Lemma kbRowStep_adds acc rzad :
  kbAdds (Parsers.miejsca rzad) acc (Parsers.kbRowStep acc rzad).
Proof.
  unfold Parsers.kbRowStep. destruct acc as [sec st].
  match goal with
  | |- kbAdds _ _ (fold_left ?f ?l ?a) =>
      pose proof (kbSeats_adds
        (Parsers.orElse (Parsers.rzad_nazwa rzad)
           (String_of_number (Z.of_nat (S (Parsers.kb_globalRowIndex st)))))
        l a) as H
  end.
  destruct H as (df & dt & A1 & A2 & A3 & A4 & A5 & A6 & A7 & A8 & A9).
  exists df, dt.
  refine (conj _ (conj _ (conj _ (conj _ (conj _ (conj _ (conj _ (conj _ _))))))));
    auto.
Qed.

Lemma kbRows_adds rows acc :
  kbAdds (concat (Parsers.miejsca <$> rows)) acc
         (fold_left Parsers.kbRowStep rows acc).
Proof.
  revert acc. induction rows as [|r rows IH]; intros acc;
    cbn [fold_left fmap list_fmap concat].
  - apply kbAdds_refl.
  - eapply kbAdds_trans; [apply kbRowStep_adds | apply IH].
Qed.

Lemma filter_filter_andb {A} (p q : A -> bool) (l : list A) :
  List.filter p (List.filter q l) = List.filter (fun x => q x && p x) l.
Proof.
  induction l as [|x l IH]; cbn [List.filter]; [reflexivity|].
  destruct (q x); cbn [andb List.filter]; [destruct (p x)|]; congruence.
Qed.

Lemma filter_split_length {A} (p q : A -> bool) (l : list A) :
  length (List.filter p l)
  = (length (List.filter (fun x => p x && q x) l)
     + length (List.filter (fun x => p x && negb (q x)) l))%nat.
Proof.
  induction l as [|x l IH]; cbn [List.filter]; [reflexivity|].
  destruct (p x), (q x); cbn [andb negb length]; lia.
Qed.

Lemma totalSeatsInSector_length czesc :
  Parsers.totalSeatsInSector czesc
  = length (concat (Parsers.miejsca <$> Parsers.rzedy czesc)).
Proof.
  unfold Parsers.totalSeatsInSector.
  assert (G : forall rzedy n,
    fold_left (fun sum r => (sum + length (Parsers.miejsca r))%nat) rzedy n
    = (n + length (concat (Parsers.miejsca <$> rzedy)))%nat).
  { induction rzedy as [|r rzedy IH]; intros n; cbn [fold_left fmap list_fmap concat].
    - cbn. lia.
    - rewrite IH, length_app. lia. }
  rewrite G. lia.
Qed.

Lemma kbOuter_skip pre st czesc :
  listedPart czesc = false -> kbOuter pre st -> kbOuter (pre ++ [czesc]) st.
Proof.
  intros L (H1 & H2 & H3 & H4). unfold kbOuter.
  rewrite List.filter_app. cbn [List.filter]. rewrite L, app_nil_r.
  auto.
Qed.

Lemma lengthZ_nil_iff {A} (l : list A) : Backend.lengthZ l = 0%Z <-> l = [].
Proof.
  unfold Backend.lengthZ. destruct l; cbn; split; intros; try congruence; lia.
Qed.

Lemma kbSectorStep_outer pre st czesc :
  kbOuter pre st -> kbOuter (pre ++ [czesc]) (Parsers.kbSectorStep st czesc).
Proof.
  intros Hst. unfold Parsers.kbSectorStep.
  destruct (String.eqb (toUpperCase (Parsers.orElse (Parsers.czesc_nazwa czesc) ""))
                       "SCENA") eqn:Stage; cbn [orb].
  { apply kbOuter_skip; [|exact Hst]. unfold listedPart, isStage.
    rewrite Stage. reflexivity. }
  destruct (length (Parsers.rzedy czesc) =? 0)%nat eqn:NoRows.
  { apply kbOuter_skip; [|exact Hst]. unfold listedPart, namedSeatsOf.
    apply Nat.eqb_eq in NoRows. destruct (Parsers.rzedy czesc); [|discriminate].
    cbn. apply andb_false_r. }
  destruct (Parsers.totalSeatsInSector czesc =? 0)%nat eqn:NoSeats.
  { apply kbOuter_skip; [|exact Hst]. unfold listedPart, namedSeatsOf.
    apply Nat.eqb_eq in NoSeats. rewrite totalSeatsInSector_length in NoSeats.
    destruct (concat (Parsers.miejsca <$> Parsers.rzedy czesc)); [|discriminate].
    cbn. apply andb_false_r. }
  pose proof (kbRows_adds (Parsers.rzedy czesc)
    ({| Parsers.kb_sectorRowsData := ∅; Parsers.kb_sectorFreeSeats := [];
        Parsers.kb_sectorTakenSeats := [] |}, st)) as Adds.
  destruct (fold_left Parsers.kbRowStep (Parsers.rzedy czesc) _) as [sec st1].
  destruct Adds as (df & dt & A1 & A2 & A3 & A4 & A5 & A6 & A7 & A8 & A9).
  cbn [fst snd Parsers.kb_sectorFreeSeats Parsers.kb_sectorTakenSeats
       Parsers.kb_sectorRowsData app] in *.
  specialize (A8 counted_empty).
  destruct Hst as (H1 & H2 & H3 & H4). specialize (A9 H1).
  pose proof (counted_size _ _ _ A8) as Sz.
  assert (Named : length (namedSeatsOf czesc) = (length df + length dt)%nat).
  { unfold namedSeatsOf.
    rewrite (filter_split_length _ Parsers.miejsce_free). lia. }
  destruct (0 <? size (Parsers.kb_sectorRowsData sec))%nat eqn:Has.
  - apply Nat.ltb_lt in Has.
    assert (L : listedPart czesc = true).
    { unfold listedPart, isStage. rewrite Stage. cbn [negb andb].
      apply negb_true_iff, Nat.eqb_neq. rewrite Named. intros Z0.
      assert (df = [] /\ dt = []) as [-> ->].
      { destruct df, dt; cbn in Z0; try lia. split; reflexivity. }
      rewrite A1, A2 in Sz. destruct Sz as [_ Sz]. specialize (Sz (conj eq_refl eq_refl)).
      lia. }
    unfold kbOuter.
    cbn [Parsers.kb_globalRowsData Parsers.kb_globalFreeSeats
         Parsers.kb_globalTakenSeats Parsers.kb_sectors].
    rewrite !fmap_app, !concat_app. cbn [fmap list_fmap concat freeSeats takenSeats].
    rewrite !app_nil_r, A5, <- H2, <- H3, A1, A2.
    refine (conj A9 (conj A3 (conj A4 _))).
    rewrite List.filter_app. cbn [List.filter]. rewrite L.
    apply Forall2_app; [exact H4|]. constructor; [|constructor].
    unfold sectorOfPart.
    cbn [sectorName freeSeats takenSeats totals rows].
    rewrite <- A1, <- A2.
    refine (conj eq_refl (conj _ (conj _ (conj eq_refl A8)))).
    + unfold namedSeatsOf, Backend.lengthZ. rewrite filter_filter_andb, A1. lia.
    + unfold namedSeatsOf, Backend.lengthZ. rewrite filter_filter_andb, A2. lia.
  - apply Nat.ltb_ge in Has.
    assert (E : size (Parsers.kb_sectorRowsData sec) = 0%nat) by lia.
    apply Sz in E. destruct E as [E1 E2].
    assert (df = []) as -> by congruence.
    assert (dt = []) as -> by congruence.
    rewrite app_nil_r in A3, A4.
    apply kbOuter_skip.
    + unfold listedPart. rewrite Named. cbn. apply andb_false_r.
    + unfold kbOuter. rewrite A3, A4, A5. rewrite A3, A4 in A9. auto.
Qed.

Lemma kbLoop_outer czesci pre st :
  kbOuter pre st -> kbOuter (pre ++ czesci) (fold_left Parsers.kbSectorStep czesci st).
Proof.
  revert pre st. induction czesci as [|c czesci IH]; intros pre st H; cbn [fold_left].
  - rewrite app_nil_r. exact H.
  - replace (pre ++ c :: czesci) with ((pre ++ [c]) ++ czesci)
      by (rewrite <- app_assoc; reflexivity).
    apply IH, kbSectorStep_outer, H.
Qed.

Lemma kbInit_outer : kbOuter [] Parsers.kbInit.
Proof.
  unfold kbOuter. cbn. refine (conj counted_empty (conj eq_refl (conj eq_refl _))).
  constructor.
Qed.

Lemma listedPart_has_seat czesc sector :
  listedPart czesc = true -> sectorOfPart czesc sector ->
  freeSeats sector ++ takenSeats sector <> [].
Proof.
  unfold listedPart. intros L (_ & Hf & Ht & _).
  apply andb_prop in L as [_ L]. apply negb_true_iff, Nat.eqb_neq in L.
  unfold namedSeatsOf in *.
  rewrite (filter_split_length _ Parsers.miejsce_free) in L.
  rewrite !filter_filter_andb in Hf, Ht.
  unfold Backend.lengthZ in Hf, Ht. intros E.
  apply app_eq_nil in E as [E1 E2]. rewrite E1 in Hf. rewrite E2 in Ht.
  cbn [length] in Hf, Ht. lia.
Qed.

(** The sectors [processKupbilecikData] lists are the parts of the venue
    other than the stage that have a named seat, in their order and under
    their names, each with as many free and taken seats as the part has
    named seats flagged free and not free; the result is [null] exactly
    when there is no such part, and a result always carries [sectors],
    also for a single sector.  The names are ASCII, and no row is named
    "__proto__". *)
Theorem processKupbilecikData_sectors (obiektData : Parsers.KupBilecikObiektData) :
  plainVenue obiektData = true ->
  match Parsers.processKupbilecikData obiektData with
  | None => List.filter listedPart (Parsers.czesci obiektData) = []
  | Some stats =>
      exists secs,
        sectors stats = Some secs /\ secs <> []
        /\ Forall2 sectorOfPart
                   (List.filter listedPart (Parsers.czesci obiektData)) secs
  end.
Proof.
  intros _. unfold Parsers.processKupbilecikData.
  pose proof (kbLoop_outer (Parsers.czesci obiektData) [] _ kbInit_outer) as H.
  cbn [app] in H.
  set (st := fold_left Parsers.kbSectorStep (Parsers.czesci obiektData) Parsers.kbInit)
    in *.
  destruct H as (H1 & H2 & H3 & H4).
  destruct (size (Parsers.kb_globalRowsData st) =? 0)%nat eqn:Sz.
  - apply Nat.eqb_eq in Sz. apply (counted_size _ _ _ H1) in Sz as [E1 E2].
    destruct (List.filter listedPart (Parsers.czesci obiektData)) as [|c cs] eqn:F;
      [reflexivity|].
    exfalso.
    inversion H4 as [|c' sec cs' secs Hc Hrest Ec Esecs]. subst c' cs'.
    assert (L : listedPart c = true).
    { assert (I : In c (List.filter listedPart (Parsers.czesci obiektData))).
      { rewrite F. left. reflexivity. }
      apply List.filter_In in I. tauto. }
    apply (listedPart_has_seat c sec L Hc).
    rewrite <- Esecs in H2, H3. cbn [fmap list_fmap concat] in H2, H3.
    rewrite E1 in H2. rewrite E2 in H3.
    symmetry in H2, H3. apply app_eq_nil in H2 as [-> _].
    apply app_eq_nil in H3 as [-> _]. reflexivity.
  - apply Nat.eqb_neq in Sz.
    exists (Parsers.kb_sectors st). cbn [sectors].
    assert (Parsers.kb_sectors st <> []) as Hne.
    { intros E. rewrite E in H2, H3. cbn in H2, H3.
      apply Sz, (counted_size _ _ _ H1). split; assumption. }
    refine (conj _ (conj Hne H4)).
    destruct (Parsers.kb_sectors st); [congruence|]. reflexivity.
Qed.

Lemma processKupbilecikData_sectors_witness :
  exists secs,
    sectors ParserSamples.venueStats = Some secs /\ secs <> []
    /\ Forall2 sectorOfPart
               (List.filter listedPart (Parsers.czesci ParserSamples.venue)) secs.
Proof.
  exact (processKupbilecikData_sectors ParserSamples.venue eq_refl).
Defined.

(** The statistics of [processKupbilecikData] add up: the lists of free
    and taken seats are those of the sectors, one after the other; the
    totals count these lists; and the per-row counts sum to the same
    numbers, for the whole venue and within every sector.  The names are
    ASCII, and no row is named "__proto__". *)
Theorem processKupbilecikData_counts (obiektData : Parsers.KupBilecikObiektData)
    (stats : SourceStats) :
  plainVenue obiektData = true ->
  Parsers.processKupbilecikData obiektData = Some stats ->
  exists secs,
    sectors stats = Some secs
    /\ source_freeSeats stats = concat (freeSeats <$> secs)
    /\ source_takenSeats stats = concat (takenSeats <$> secs)
    /\ source_totals stats
       = Backend.totalsOf (source_freeSeats stats) (source_takenSeats stats)
    /\ counted (source_rows stats) (source_freeSeats stats) (source_takenSeats stats)
    /\ Forall (fun sector =>
                 totals sector
                 = Backend.totalsOf (freeSeats sector) (takenSeats sector)
                 /\ Backend.totalSeatsOf (rows sector) = total (totals sector)
                 /\ counted (rows sector) (freeSeats sector) (takenSeats sector))
              secs.
Proof.
  intros _ E. unfold Parsers.processKupbilecikData in E.
  pose proof (kbLoop_outer (Parsers.czesci obiektData) [] _ kbInit_outer) as H.
  cbn [app] in H.
  set (st := fold_left Parsers.kbSectorStep (Parsers.czesci obiektData) Parsers.kbInit)
    in *.
  destruct H as (H1 & H2 & H3 & H4).
  destruct (size (Parsers.kb_globalRowsData st) =? 0)%nat eqn:Sz; [discriminate|].
  apply Nat.eqb_neq in Sz.
  assert (Parsers.kb_sectors st <> []) as Hne.
  { intros N. rewrite N in H2, H3. cbn in H2, H3.
    apply Sz, (counted_size _ _ _ H1). split; assumption. }
  injection E as <-. cbn [sectors source_freeSeats source_takenSeats
                          source_totals source_rows] in *.
  exists (Parsers.kb_sectors st).
  refine (conj _ (conj H2 (conj H3 (conj eq_refl (conj H1 _))))).
  { destruct (Parsers.kb_sectors st); [congruence|]. reflexivity. }
  clear -H4. induction H4 as [|c sec cs secs Hc _ IH]; constructor; [|exact IH].
  destruct Hc as (_ & _ & _ & T & C). refine (conj T (conj _ C)).
  rewrite T. destruct C as (_ & _ & C & _). exact C.
Qed.

Lemma processKupbilecikData_counts_witness :
  exists secs,
    sectors ParserSamples.venueStats = Some secs
    /\ source_freeSeats ParserSamples.venueStats = concat (freeSeats <$> secs)
    /\ source_takenSeats ParserSamples.venueStats = concat (takenSeats <$> secs)
    /\ source_totals ParserSamples.venueStats
       = Backend.totalsOf (source_freeSeats ParserSamples.venueStats)
                          (source_takenSeats ParserSamples.venueStats)
    /\ counted (source_rows ParserSamples.venueStats)
               (source_freeSeats ParserSamples.venueStats)
               (source_takenSeats ParserSamples.venueStats)
    /\ Forall (fun sector =>
                 totals sector
                 = Backend.totalsOf (freeSeats sector) (takenSeats sector)
                 /\ Backend.totalSeatsOf (rows sector) = total (totals sector)
                 /\ counted (rows sector) (freeSeats sector) (takenSeats sector))
              secs.
Proof.
  apply (processKupbilecikData_counts ParserSamples.venue ParserSamples.venueStats).
  - vm_compute. reflexivity.
  - vm_compute. reflexivity.
Defined.

Example venue_statistics :
  source_freeSeats ParserSamples.venueStats = ["I-1"]
  /\ source_takenSeats ParserSamples.venueStats = ["I-2"; "2-1"]
  /\ (sectorName <$> default [] (sectors ParserSamples.venueStats)) = ["Parter"].
Proof. vm_compute. auto. Qed.

(** ** [parseBiletynaSectorSeats] *)






Example hall_parsed :
  Backend.biletyna_freeSeats ParserSamples.hallResult = ["1-1"; "2-2"]
  /\ Backend.biletyna_takenSeats ParserSamples.hallResult = ["1-2"; "2-1"].
Proof. vm_compute. auto. Qed.

(** ** [combineBiletynaSectors] on several sectors *)

Lemma tryMatch_name rowsMap kb m best m' :
  Backend.tryMatch rowsMap kb m = (Some best, m') ->
  exists kbs, kb = Some kbs /\ In best kbs.
Proof.
  unfold Backend.tryMatch. destruct kb as [kbs|]; [|discriminate].
  destruct (Backend.matchSectorByStructure rowsMap kbs (Some m)) as [r m0] eqn:M.
  intros [= -> <-].
  destruct (matchSectorByStructure_Some _ _ _ _ _ M) as (I & _).
  exists kbs. auto.
Qed.

Lemma addRowStats_lookup g row s row' :
  Backend.addRowStats g row s !! row'
  = if decide (row = row') then Some (addStats (rowIn g row) s) else g !! row'.
Proof.
  unfold Backend.addRowStats, rowIn, addStats.
  destruct (decide (row = row')) as [<-|N].
  - rewrite lookup_insert_eq. reflexivity.
  - rewrite lookup_insert_ne by exact N. reflexivity.
Qed.

Lemma addRows_lookup (l : list (string * RowStats)) g row :
  NoDup l.*1 ->
  fold_left (fun g kv => Backend.addRowStats g kv.1 kv.2) l g !! row
  = match (list_to_map l : gmap string RowStats) !! row with
    | Some s => Some (addStats (rowIn g row) s)
    | None => g !! row
    end.
Proof.
  revert g. induction l as [|[k s] l IH]; intros g ND; cbn [fold_left].
  - cbn. rewrite lookup_empty. reflexivity.
  - cbn [fmap list_fmap fst] in ND. apply NoDup_cons in ND as [Nk ND].
    rewrite (IH _ ND). cbn [list_to_map foldr fst snd uncurry].
    destruct (decide (k = row)) as [->|N].
    + rewrite lookup_insert_eq.
      rewrite (not_elem_of_list_to_map_1 l row Nk).
      rewrite addRowStats_lookup. rewrite decide_True by reflexivity. reflexivity.
    + rewrite lookup_insert_ne by exact N.
      unfold rowIn. rewrite !addRowStats_lookup. rewrite decide_False by exact N.
      reflexivity.
Qed.

Lemma addRows_rowIn (rows0 g : gmap string RowStats) row :
  rowIn (fold_left (fun g kv => Backend.addRowStats g kv.1 kv.2)
                   (map_to_list rows0) g) row
  = addStats (rowIn g row) (rowIn rows0 row).
Proof.
  unfold rowIn at 1. rewrite addRows_lookup by apply NoDup_fst_map_to_list.
  rewrite list_to_map_to_list. unfold rowIn at 3.
  destruct (rows0 !! row) as [s|]; cbn [default from_option id].
  - reflexivity.
  - unfold addStats. cbn [total free taken]. fold (rowIn g row).
    destruct (rowIn g row) as [a b c]. cbn. f_equal; lia.
Qed.

Lemma addRows_present (rows0 g : gmap string RowStats) row :
  is_Some (fold_left (fun g kv => Backend.addRowStats g kv.1 kv.2)
                     (map_to_list rows0) g !! row)
  <-> is_Some (g !! row) \/ is_Some (rows0 !! row).
Proof.
  rewrite addRows_lookup by apply NoDup_fst_map_to_list.
  rewrite list_to_map_to_list.
  destruct (rows0 !! row) as [s|].
  - split; intros _; [right|]; eexists; reflexivity.
  - split; [intros H; left; exact H|]. intros [H|[x H]]; [exact H|discriminate].
Qed.

Lemma addRows_sumBy (f : RowStats -> Z) :
  (forall a b, f (addStats a b) = (f a + f b)%Z) -> f (mkRowStats 0 0 0) = 0%Z ->
  forall (l : list (string * RowStats)) g,
    sumBy f (fold_left (fun g kv => Backend.addRowStats g kv.1 kv.2) l g)
    = (sumBy f g + fold_left (fun sum r => (sum + f r)%Z) l.*2 0)%Z.
Proof.
  intros Hadd Hzero l. induction l as [|[k s] l IH]; intros g; cbn [fold_left].
  - cbn. lia.
  - rewrite IH. cbn [fmap list_fmap fst snd fold_left].
    rewrite (fold_left_sum_shift f (l.*2) (0 + f s)).
    enough (sumBy f (Backend.addRowStats g k s) = (sumBy f g + f s)%Z) as -> by lia.
    unfold Backend.addRowStats.
    destruct (g !! k) as [old|] eqn:E; cbn [default from_option id].
    + rewrite (sumBy_insert_Some _ _ _ _ old E).
      change (f (addStats old s) + sumBy f g - f old = sumBy f g + f s)%Z.
      rewrite Hadd. lia.
    + rewrite (sumBy_insert_None _ _ _ _ E).
      change (f (addStats (mkRowStats 0 0 0) s) + sumBy f g = sumBy f g + f s)%Z.
      rewrite Hadd, Hzero. lia.
Qed.

Lemma addRows_balanced (l : list (string * RowStats)) g :
  Forall (fun kv => total kv.2 = (free kv.2 + taken kv.2)%Z
                    /\ (0 <= free kv.2)%Z /\ (0 <= taken kv.2)%Z
                    /\ (0 < total kv.2)%Z) l ->
  rowsBalanced g ->
  rowsBalanced (fold_left (fun g kv => Backend.addRowStats g kv.1 kv.2) l g).
Proof.
  revert g. induction l as [|[k s] l IH]; intros g Hl Hg; cbn [fold_left].
  - exact Hg.
  - apply Forall_cons in Hl as [Hs Hl]. apply IH; [exact Hl|].
    unfold Backend.addRowStats. apply map_Forall_insert_2; [|exact Hg].
    cbn [fst snd] in *. destruct Hs as (S1 & S2 & S3 & S4).
    destruct (g !! k) as [old|] eqn:E; cbn [default from_option id total free taken].
    + destruct (Hg _ _ E) as (H1 & H2 & H3 & H4). lia.
    + lia.
Qed.

Lemma addRows_counted rows0 freeL takenL g gf gt :
  counted rows0 freeL takenL -> counted g gf gt ->
  counted (fold_left (fun g kv => Backend.addRowStats g kv.1 kv.2)
                     (map_to_list rows0) g)
          (gf ++ freeL) (gt ++ takenL).
Proof.
  intros (A1 & A2 & A3 & A4) (B1 & B2 & B3 & B4). unfold counted.
  rewrite !addRows_sumBy by (intros; reflexivity).
  fold (sumBy free rows0) (sumBy taken rows0) (sumBy total rows0).
  unfold Backend.lengthZ in *. rewrite !length_app.
  refine (conj _ (conj _ (conj _ _))); try lia.
  apply addRows_balanced; [|exact B4].
  apply Forall_forall. intros [k s] I. apply A4 with k.
  apply elem_of_map_to_list. exact I.
Qed.

Lemma addStats_zero_r a : addStats a (mkRowStats 0 0 0) = a.
Proof. destruct a. unfold addStats. cbn. f_equal; lia. Qed.

Lemma addStats_zero_l a : addStats (mkRowStats 0 0 0) a = a.
Proof. destruct a. unfold addStats. cbn. f_equal; lia. Qed.

Lemma addStats_assoc a b c : addStats (addStats a b) c = addStats a (addStats b c).
Proof. unfold addStats. cbn. f_equal; lia. Qed.

Lemma fold_addStats l a : fold_left addStats l a = addStats a (sumStats l).
Proof.
  unfold sumStats. revert a. induction l as [|x l IH]; intros a; cbn [fold_left].
  - rewrite addStats_zero_r. reflexivity.
  - rewrite IH, (IH (addStats _ x)), addStats_zero_l, addStats_assoc. reflexivity.
Qed.

Lemma sumStats_cons x l : sumStats (x :: l) = addStats x (sumStats l).
Proof.
  unfold sumStats at 1. cbn [fold_left]. rewrite fold_addStats, addStats_zero_l.
  reflexivity.
Qed.

Lemma combineStep_adds kb i st r :
  combineAdds kb i [r] st (Backend.combineStep kb i st r).
Proof.
  unfold Backend.combineStep.
  destruct (Backend.tryMatch (Backend.biletyna_rows r.2) kb
              (Backend.cs_matchedKbSectors st)) as [matchedSector matched'] eqn:T.
  eexists. cbn [Backend.cs_sectors Backend.cs_globalFreeSeats
                Backend.cs_globalTakenSeats Backend.cs_globalRowsData].
  refine (conj eq_refl (conj eq_refl (conj _ (conj _ (conj _ (conj _ (conj _ _))))))).
  - intros [|j] r' sec; cbn; [|intros; discriminate].
    intros [= <-] [= <-]. unfold sectorOfResult.
    cbn [rows freeSeats takenSeats totals sectorName].
    refine (conj eq_refl (conj eq_refl (conj eq_refl (conj eq_refl _)))).
    rewrite Nat.add_0_r.
    destruct matchedSector as [m|].
    + right. destruct (tryMatch_name _ _ _ _ _ T) as (kbs & -> & I).
      exists kbs, m. auto.
    + left. rewrite Nat.add_1_r. reflexivity.
  - cbn. rewrite app_nil_r. reflexivity.
  - cbn. rewrite app_nil_r. reflexivity.
  - intros row. rewrite addRows_rowIn. cbn [fmap list_fmap].
    rewrite sumStats_cons. unfold sumStats. cbn [fold_left].
    rewrite addStats_zero_r. reflexivity.
  - intros row. rewrite addRows_present. rewrite Exists_cons, Exists_nil. tauto.
  - intros F C. apply Forall_cons in F as [F _]. apply addRows_counted; assumption.
Qed.

Lemma combineAdds_nil kb i st : combineAdds kb i [] st st.
Proof.
  exists []. cbn [fmap list_fmap concat length]. rewrite ?app_nil_r.
  refine (conj eq_refl (conj eq_refl (conj _ (conj eq_refl (conj eq_refl
            (conj _ (conj _ _))))))).
  - intros j r sec H. destruct j; discriminate.
  - intros row. unfold sumStats. cbn. rewrite addStats_zero_r. reflexivity.
  - intros row. rewrite Exists_nil. tauto.
  - auto.
Qed.

Lemma combineAdds_cons kb i r rs st st1 st2 :
  combineAdds kb i [r] st st1 -> combineAdds kb (S i) rs st1 st2 ->
  combineAdds kb i (r :: rs) st st2.
Proof.
  intros (s1 & A1 & A2 & A3 & A4 & A5 & A6 & A7 & A8)
         (s2 & B1 & B2 & B3 & B4 & B5 & B6 & B7 & B8).
  exists (s1 ++ s2).
  destruct s1 as [|sec [|? ?]]; try discriminate. clear A2.
  refine (conj _ (conj _ (conj _ (conj _ (conj _ (conj _ (conj _ _))))))).
  - rewrite B1, A1, <- app_assoc. reflexivity.
  - cbn. rewrite B2. reflexivity.
  - intros [|j] r' sec' H1 H2.
    + cbn in H1, H2. apply (A3 0%nat); [exact H1|exact H2].
    + cbn in H1, H2. replace (S (i + S j)) with (S (S i + j)) by lia.
      apply B3; assumption.
  - rewrite B4, A4. cbn [fmap list_fmap concat]. rewrite !app_nil_r, <- app_assoc.
    reflexivity.
  - rewrite B5, A5. cbn [fmap list_fmap concat]. rewrite !app_nil_r, <- app_assoc.
    reflexivity.
  - intros row. rewrite B6, A6. cbn [fmap list_fmap].
    rewrite !sumStats_cons. change (sumStats []) with (mkRowStats 0 0 0).
    rewrite addStats_zero_r, addStats_assoc. reflexivity.
  - intros row. rewrite B7, A7, Exists_cons, Exists_cons, Exists_nil. tauto.
  - intros F C. apply Forall_cons in F as [F1 F2]. apply B8; [exact F2|].
    apply A8; [|exact C]. constructor; [exact F1|constructor].
Qed.

Lemma combineLoop_adds kb rs i st :
  combineAdds kb i rs st (Backend.combineLoop kb i rs st).
Proof.
  revert i st. induction rs as [|r rs IH]; intros i st; cbn [Backend.combineLoop].
  - apply combineAdds_nil.
  - eapply combineAdds_cons; [apply combineStep_adds | apply IH].
Qed.

(** Given two sector results or more, [combineBiletynaSectors] always
    returns statistics with a per-sector breakdown: one sector per result,
    in the order of the results and with the data of the result, named
    after a Kupbilecik sector or "Sektor n" with n the position of the
    result; the seat lists of the whole are those of the results one after
    the other, and the totals count them. *)
Theorem combineBiletynaSectors_sectors
    (sectorResults : list (string * Backend.BiletynaSectorResult))
    (kupbilecikSectors : option (list SectorStats)) :
  (2 <= length sectorResults)%nat ->
  exists stats secs,
    Backend.combineBiletynaSectors sectorResults kupbilecikSectors = Some stats
    /\ sectors stats = Some secs
    /\ length secs = length sectorResults
    /\ (forall j r sec, sectorResults !! j = Some r -> secs !! j = Some sec ->
          sectorOfResult kupbilecikSectors (S j) r sec)
    /\ source_freeSeats stats
       = concat ((fun r => Backend.biletyna_freeSeats r.2) <$> sectorResults)
    /\ source_takenSeats stats
       = concat ((fun r => Backend.biletyna_takenSeats r.2) <$> sectorResults)
    /\ source_totals stats
       = Backend.totalsOf (source_freeSeats stats) (source_takenSeats stats).
Proof.
  intros Len.
  destruct sectorResults as [|r1 [|r2 rs]]; cbn [length] in Len; try lia.
  unfold Backend.combineBiletynaSectors.
  destruct (combineLoop_adds kupbilecikSectors (r1 :: r2 :: rs) 0 Backend.combineInit)
    as (secs & A1 & A2 & A3 & A4 & A5 & _).
  set (st := Backend.combineLoop kupbilecikSectors 0 (r1 :: r2 :: rs)
               Backend.combineInit) in *.
  cbn [Backend.combineInit Backend.cs_sectors Backend.cs_globalFreeSeats
       Backend.cs_globalTakenSeats app] in A1, A4, A5.
  eexists. exists secs. cbn [sectors source_freeSeats source_takenSeats source_totals].
  rewrite A1.
  refine (conj eq_refl (conj _ (conj A2 (conj A3 (conj A4 (conj A5 eq_refl)))))).
  rewrite A2. reflexivity.
Qed.

Lemma combineBiletynaSectors_sectors_witness :
  exists stats secs,
    Backend.combineBiletynaSectors ParserSamples.twoSectors None = Some stats
    /\ sectors stats = Some secs
    /\ length secs = length ParserSamples.twoSectors
    /\ (forall j r sec, ParserSamples.twoSectors !! j = Some r -> secs !! j = Some sec ->
          sectorOfResult None (S j) r sec)
    /\ source_freeSeats stats
       = concat ((fun r => Backend.biletyna_freeSeats r.2) <$> ParserSamples.twoSectors)
    /\ source_takenSeats stats
       = concat ((fun r => Backend.biletyna_takenSeats r.2) <$> ParserSamples.twoSectors)
    /\ source_totals stats
       = Backend.totalsOf (source_freeSeats stats) (source_takenSeats stats).
Proof.
  apply (combineBiletynaSectors_sectors ParserSamples.twoSectors None).
  cbn. lia.
Defined.

(** The row table of the combined Biletyna statistics adds up the rows of
    the same name of all the sectors: a row is in the table exactly when a
    sector has it, with the counts of that row summed over the sectors.  No
    sector has a row "__proto__". *)
Theorem combineBiletynaSectors_rows
    (sectorResults : list (string * Backend.BiletynaSectorResult))
    (kupbilecikSectors : option (list SectorStats)) (stats : SourceStats) :
  plainResults sectorResults = true ->
  Backend.combineBiletynaSectors sectorResults kupbilecikSectors = Some stats ->
  (forall row,
     rowIn (source_rows stats) row
     = sumStats ((fun r => rowIn (Backend.biletyna_rows r.2) row) <$> sectorResults))
  /\ (forall row,
        is_Some (source_rows stats !! row)
        <-> Exists (fun r => is_Some (Backend.biletyna_rows r.2 !! row)) sectorResults).
Proof.
  intros _. unfold Backend.combineBiletynaSectors.
  destruct sectorResults as [|r1 [|r2 rs]]; [discriminate| |].
  - intros [= <-]. cbn [source_rows fmap list_fmap]. split.
    + intros row. unfold sumStats. cbn [fold_left]. rewrite addStats_zero_l.
      reflexivity.
    + intros row. rewrite Exists_cons, Exists_nil. tauto.
  - destruct (combineLoop_adds kupbilecikSectors (r1 :: r2 :: rs) 0 Backend.combineInit)
      as (secs & _ & _ & _ & _ & _ & A6 & A7 & _).
    set (st := Backend.combineLoop kupbilecikSectors 0 (r1 :: r2 :: rs)
                 Backend.combineInit) in *.
    cbn [Backend.combineInit Backend.cs_globalRowsData] in A6, A7.
    intros [= <-]. cbn [source_rows]. split.
    + intros row. rewrite A6. unfold rowIn at 1. rewrite lookup_empty.
      cbn [default from_option id]. apply addStats_zero_l.
    + intros row. rewrite A7, lookup_empty. split; [|tauto].
      intros [[x H]|H]; [discriminate|exact H].
Qed.

Lemma combineBiletynaSectors_rows_witness :
  (forall row,
     rowIn (source_rows ParserSamples.twoSectorsStats) row
     = sumStats ((fun r => rowIn (Backend.biletyna_rows r.2) row)
                   <$> ParserSamples.twoSectors))
  /\ (forall row,
        is_Some (source_rows ParserSamples.twoSectorsStats !! row)
        <-> Exists (fun r => is_Some (Backend.biletyna_rows r.2 !! row))
                   ParserSamples.twoSectors).
Proof.
  apply (combineBiletynaSectors_rows ParserSamples.twoSectors None
           ParserSamples.twoSectorsStats).
  - vm_compute. reflexivity.
  - vm_compute. reflexivity.
Defined.

Example two_sectors_row_one :
  source_rows ParserSamples.twoSectorsStats !! "1" = Some (mkRowStats 4 3 1).
Proof. vm_compute. reflexivity. Qed.




(** ** [processEbiletAllSectors] *)

Lemma ebiletSeatStep_adds ids acc seat :
  ebAdds ids [seat] acc (Backend.ebiletSeatStep ids acc seat).
Proof.
  unfold Backend.ebiletSeatStep, ebAdds. destruct acc as [sec st].
  cbn [List.filter].
  destruct (bool_decide (Backend.seat_id seat ∈ ids)) eqn:F;
    cbn [Bool.eqb fmap list_fmap fst snd Backend.sectorFreeSeats
         Backend.sectorTakenSeats Backend.es_globalFreeSeats
         Backend.es_globalTakenSeats Backend.es_sectors Backend.sectorRowsData
         Backend.es_globalRowsData];
    rewrite ?app_nil_r;
    refine (conj eq_refl (conj eq_refl (conj eq_refl (conj eq_refl (conj eq_refl
              (conj _ _))))));
    auto using counted_free, counted_taken.
Qed.

Lemma ebAdds_trans ids l1 l2 a b c :
  ebAdds ids l1 a b -> ebAdds ids l2 b c -> ebAdds ids (l1 ++ l2) a c.
Proof.
  unfold ebAdds. cbn zeta.
  intros (A1 & A2 & A3 & A4 & A5 & A6 & A7) (B1 & B2 & B3 & B4 & B5 & B6 & B7).
  rewrite !List.filter_app, !fmap_app, !app_assoc.
  refine (conj _ (conj _ (conj _ (conj _ (conj _ (conj _ _)))))); auto; congruence.
Qed.

Lemma ebAdds_refl ids a : ebAdds ids [] a a.
Proof.
  unfold ebAdds. cbn. rewrite !app_nil_r.
  refine (conj eq_refl (conj eq_refl (conj eq_refl (conj eq_refl (conj eq_refl
            (conj _ _)))))); auto.
Qed.

Lemma ebiletSeats_adds ids seats acc :
  ebAdds ids seats acc (fold_left (Backend.ebiletSeatStep ids) seats acc).
Proof.
  revert acc. induction seats as [|seat seats IH]; intros acc; cbn [fold_left].
  - apply ebAdds_refl.
  - change (seat :: seats) with ([seat] ++ seats).
    eapply ebAdds_trans; [apply ebiletSeatStep_adds | apply IH].
Qed.

Lemma ebiletStep_outer fsd kb pre st entry :
  ebOuter fsd pre st -> ebOuter fsd (pre ++ [entry]) (Backend.ebiletStep fsd kb st entry).
Proof.
  intros (H1 & H2 & H3 & H4 & H5 & H6).
  unfold Backend.ebiletStep, Backend.ebiletScanSector. destruct entry as [sid0 seatsData].
  match goal with
  | |- context [fold_left (Backend.ebiletSeatStep ?ids) ?l ?a] =>
      pose proof (ebiletSeats_adds ids l a) as Adds;
      destruct (fold_left (Backend.ebiletSeatStep ids) l a) as [sec st1]
  end.
  unfold ebAdds in Adds. cbn zeta in Adds.
  cbn [fst snd Backend.sectorFreeSeats Backend.sectorTakenSeats
       Backend.es_globalFreeSeats Backend.es_globalTakenSeats Backend.es_sectors
       Backend.sectorRowsData Backend.es_globalRowsData app] in Adds.
  destruct Adds as (A1 & A2 & A3 & A4 & A5 & A6 & A7).
  specialize (A6 counted_empty). specialize (A7 H1).
  fold (ebiletFreeIds fsd sid0) in A1, A2, A3, A4.
  change (ebiletKey <$> List.filter
            (fun seat => Bool.eqb (bool_decide (Backend.seat_id seat
                                                ∈ ebiletFreeIds fsd sid0)) true)
            (Backend.seats_s seatsData))
    with (ebiletKeysOf true fsd (sid0, seatsData)) in A1, A3.
  change (ebiletKey <$> List.filter
            (fun seat => Bool.eqb (bool_decide (Backend.seat_id seat
                                                ∈ ebiletFreeIds fsd sid0)) false)
            (Backend.seats_s seatsData))
    with (ebiletKeysOf false fsd (sid0, seatsData)) in A2, A4.
  assert (G1 : Backend.es_globalFreeSeats st1
               = concat (ebiletKeysOf true fsd <$> pre ++ [(sid0, seatsData)])).
  { rewrite fmap_app, concat_app. cbn [fmap list_fmap concat].
    rewrite app_nil_r, <- H2. exact A3. }
  assert (G2 : Backend.es_globalTakenSeats st1
               = concat (ebiletKeysOf false fsd <$> pre ++ [(sid0, seatsData)])).
  { rewrite fmap_app, concat_app. cbn [fmap list_fmap concat].
    rewrite app_nil_r, <- H3. exact A4. }
  destruct (0 <? size (Backend.sectorRowsData sec))%nat eqn:Has.
  - destruct (Backend.tryMatch (Backend.sectorRowsData sec) kb
                (Backend.es_matchedKbSectors st1)) as [matchedSector matched'].
    unfold ebOuter.
    cbn [Backend.es_globalRowsData Backend.es_globalFreeSeats
         Backend.es_globalTakenSeats Backend.es_sectors].
    rewrite !fmap_app, !concat_app in *.
    cbn [fmap list_fmap concat freeSeats takenSeats] in *.
    rewrite !app_nil_r in *. rewrite A5, <- H4, <- H5.
    refine (conj A7 (conj G1 (conj G2 (conj _ (conj _ _))))).
    + rewrite A3, A1. reflexivity.
    + rewrite A4, A2. reflexivity.
    + apply Forall_app. split; [exact H6|]. constructor; [|constructor].
      cbn [totals rows freeSeats takenSeats].
      refine (conj eq_refl (conj _ A6)). destruct A6 as (_ & _ & A6 & _). exact A6.
  - apply Nat.ltb_ge in Has.
    assert (E : size (Backend.sectorRowsData sec) = 0%nat) by lia.
    apply (counted_size _ _ _ A6) in E as [E1 E2].
    rewrite E1 in A1. rewrite E2 in A2. rewrite <- A1 in A3. rewrite <- A2 in A4.
    rewrite app_nil_r in A3, A4.
    unfold ebOuter. rewrite A5.
    refine (conj A7 (conj G1 (conj G2 (conj _ (conj _ H6))))); congruence.
Qed.

Lemma ebiletLoop_outer fsd kb entries pre st :
  ebOuter fsd pre st ->
  ebOuter fsd (pre ++ entries) (fold_left (Backend.ebiletStep fsd kb) entries st).
Proof.
  revert pre st. induction entries as [|e entries IH]; intros pre st H; cbn [fold_left].
  - rewrite app_nil_r. exact H.
  - replace (pre ++ e :: entries) with ((pre ++ [e]) ++ entries)
      by (rewrite <- app_assoc; reflexivity).
    apply IH, ebiletStep_outer, H.
Qed.

Lemma ebiletInit_outer fsd : ebOuter fsd [] Backend.ebiletInit.
Proof.
  unfold ebOuter. cbn.
  refine (conj counted_empty (conj eq_refl (conj eq_refl (conj eq_refl (conj eq_refl _))))).
  constructor.
Qed.

(** [sort()] by insertion. *)
Lemma insertSorted_perm x l : Backend.insertSorted x l ≡ₚ x :: l.
Proof.
  induction l as [|y l IH]; cbn [Backend.insertSorted]; [reflexivity|].
  destruct (String.leb x y); [reflexivity|].
  rewrite IH. apply perm_swap.
Qed.

Lemma sortStrings_perm l : Backend.sortStrings l ≡ₚ l.
Proof.
  unfold Backend.sortStrings. induction l as [|x l IH]; cbn [fold_right]; [reflexivity|].
  rewrite insertSorted_perm, IH. reflexivity.
Qed.

Lemma insertSorted_ascending x l : ascending l -> ascending (Backend.insertSorted x l).
Proof.
  induction l as [|y l IH]; cbn [Backend.insertSorted ascending].
  - auto.
  - intros [Hd S]. destruct (String.leb x y) eqn:L.
    + cbn [ascending]. auto.
    + assert (L' : String.leb y x = true).
      { destruct (String.leb_total x y); congruence. }
      specialize (IH S). split; [|exact IH].
      destruct l as [|z l]; cbn [Backend.insertSorted]; [exact L'|].
      destruct (String.leb x z); assumption.
Qed.

Lemma sortStrings_ascending l : ascending (Backend.sortStrings l).
Proof.
  unfold Backend.sortStrings. induction l as [|x l IH]; cbn [fold_right].
  - exact I.
  - apply insertSorted_ascending, IH.
Qed.

Lemma lengthZ_perm {A} (l l' : list A) : l ≡ₚ l' -> Backend.lengthZ l = Backend.lengthZ l'.
Proof. intros P. unfold Backend.lengthZ. rewrite (Permutation_length P). reflexivity. Qed.

Lemma counted_perm m f t f' t' :
  f ≡ₚ f' -> t ≡ₚ t' -> counted m f t -> counted m f' t'.
Proof.
  intros Pf Pt (A & B & C & D). unfold counted.
  rewrite <- (lengthZ_perm _ _ Pf), <- (lengthZ_perm _ _ Pt). auto.
Qed.

Lemma filter_both_length {A} (p : A -> bool) (l : list A) :
  (length (List.filter (fun x => Bool.eqb (p x) true) l)
   + length (List.filter (fun x => Bool.eqb (p x) false) l))%nat = length l.
Proof.
  induction l as [|x l IH]; cbn [List.filter length]; [reflexivity|].
  destruct (p x); cbn [Bool.eqb length]; lia.
Qed.

Lemma ebiletKeys_length fsd entries :
  (length (concat (ebiletKeysOf true fsd <$> entries))
   + length (concat (ebiletKeysOf false fsd <$> entries)))%nat
  = length (concat ((fun e => Backend.seats_s e.2) <$> entries)).
Proof.
  induction entries as [|e entries IH]; cbn [fmap list_fmap concat]; [reflexivity|].
  rewrite !length_app. unfold ebiletKeysOf at 1 3. rewrite !length_fmap.
  pose proof (filter_both_length
    (fun seat => bool_decide (Backend.seat_id seat ∈ ebiletFreeIds fsd e.1))
    (Backend.seats_s e.2)). lia.
Qed.

(** The statistics [processEbiletAllSectors] returns count every seat of
    every response once: as free when [sfs] lists its id for the sector of
    the response, as taken otherwise.  The two seat lists hold the keys of
    these seats in ascending order, the totals count the lists, the
    per-row counts sum to the same numbers, and the sectors of the
    breakdown, when there is one, share out the same seats.  The rows
    and numbers of the seats are ASCII, no row is named "__proto__", and
    no sector id is the name of a member every object inherits. *)
Theorem processEbiletAllSectors_counts
    (seatsBySid : list (string * Backend.EbiletSeatsResponse))
    (freeSeatsData : Backend.EbiletFreeSeatsResponse)
    (kupbilecikSectors : option (list SectorStats)) (stats : SourceStats) :
  plainResponses seatsBySid = true ->
  Backend.processEbiletAllSectors seatsBySid freeSeatsData kupbilecikSectors
  = Some stats ->
  source_freeSeats stats ≡ₚ concat (ebiletKeysOf true freeSeatsData <$> seatsBySid)
  /\ source_takenSeats stats ≡ₚ concat (ebiletKeysOf false freeSeatsData <$> seatsBySid)
  /\ ascending (source_freeSeats stats) /\ ascending (source_takenSeats stats)
  /\ source_totals stats
     = Backend.totalsOf (source_freeSeats stats) (source_takenSeats stats)
  /\ total (source_totals stats)
     = Backend.lengthZ (concat ((fun e => Backend.seats_s e.2) <$> seatsBySid))
  /\ counted (source_rows stats) (source_freeSeats stats) (source_takenSeats stats)
  /\ (forall secs, sectors stats = Some secs ->
        concat (freeSeats <$> secs) ≡ₚ source_freeSeats stats
        /\ concat (takenSeats <$> secs) ≡ₚ source_takenSeats stats
        /\ Forall (fun sector =>
                     totals sector
                     = Backend.totalsOf (freeSeats sector) (takenSeats sector)
                     /\ Backend.totalSeatsOf (rows sector) = total (totals sector)
                     /\ counted (rows sector) (freeSeats sector) (takenSeats sector))
                  secs).
Proof.
  intros _. unfold Backend.processEbiletAllSectors.
  destruct (Backend.err freeSeatsData); [discriminate|].
  destruct seatsBySid as [|e0 es] eqn:Es; [discriminate|]. rewrite <- Es. clear Es e0 es.
  pose proof (ebiletLoop_outer freeSeatsData kupbilecikSectors seatsBySid [] _
                (ebiletInit_outer freeSeatsData)) as H.
  cbn [app] in H.
  set (st := fold_left (Backend.ebiletStep freeSeatsData kupbilecikSectors)
                       seatsBySid Backend.ebiletInit) in *.
  destruct H as (H1 & H2 & H3 & H4 & H5 & H6).
  destruct (size (Backend.es_globalRowsData st) =? 0)%nat; [discriminate|].
  intros [= <-].
  cbn [source_freeSeats source_takenSeats source_totals source_rows sectors].
  pose proof (sortStrings_perm (Backend.es_globalFreeSeats st)) as Pf.
  pose proof (sortStrings_perm (Backend.es_globalTakenSeats st)) as Pt.
  refine (conj _ (conj _ (conj (sortStrings_ascending _) (conj (sortStrings_ascending _)
            (conj eq_refl (conj _ (conj _ _))))))).
  - rewrite Pf, H2. reflexivity.
  - rewrite Pt, H3. reflexivity.
  - cbn [Backend.totalsOf total].
    rewrite (lengthZ_perm _ _ Pf), (lengthZ_perm _ _ Pt), H2, H3.
    unfold Backend.lengthZ. rewrite <- (ebiletKeys_length freeSeatsData). lia.
  - apply (counted_perm _ _ _ _ _ (symmetry Pf) (symmetry Pt)). exact H1.
  - intros secs E.
    assert (secs = Backend.es_sectors st) as ->.
    { destruct (1 <? length (Backend.es_sectors st))%nat; congruence. }
    rewrite Pf, Pt, <- H4, <- H5. auto.
Qed.

Lemma processEbiletAllSectors_counts_witness :
  source_freeSeats ParserSamples.ebiletTwoStats
  ≡ₚ concat (ebiletKeysOf true ParserSamples.ebiletTwoFree <$> ParserSamples.ebiletTwo)
  /\ source_takenSeats ParserSamples.ebiletTwoStats
     ≡ₚ concat (ebiletKeysOf false ParserSamples.ebiletTwoFree <$> ParserSamples.ebiletTwo)
  /\ ascending (source_freeSeats ParserSamples.ebiletTwoStats)
  /\ ascending (source_takenSeats ParserSamples.ebiletTwoStats)
  /\ source_totals ParserSamples.ebiletTwoStats
     = Backend.totalsOf (source_freeSeats ParserSamples.ebiletTwoStats)
                        (source_takenSeats ParserSamples.ebiletTwoStats)
  /\ total (source_totals ParserSamples.ebiletTwoStats)
     = Backend.lengthZ (concat ((fun e => Backend.seats_s e.2) <$> ParserSamples.ebiletTwo))
  /\ counted (source_rows ParserSamples.ebiletTwoStats)
             (source_freeSeats ParserSamples.ebiletTwoStats)
             (source_takenSeats ParserSamples.ebiletTwoStats)
  /\ (forall secs, sectors ParserSamples.ebiletTwoStats = Some secs ->
        concat (freeSeats <$> secs) ≡ₚ source_freeSeats ParserSamples.ebiletTwoStats
        /\ concat (takenSeats <$> secs) ≡ₚ source_takenSeats ParserSamples.ebiletTwoStats
        /\ Forall (fun sector =>
                     totals sector
                     = Backend.totalsOf (freeSeats sector) (takenSeats sector)
                     /\ Backend.totalSeatsOf (rows sector) = total (totals sector)
                     /\ counted (rows sector) (freeSeats sector) (takenSeats sector))
                  secs).
Proof.
  apply (processEbiletAllSectors_counts ParserSamples.ebiletTwo
           ParserSamples.ebiletTwoFree None ParserSamples.ebiletTwoStats).
  - vm_compute. reflexivity.
  - vm_compute. reflexivity.
Defined.

Example ebilet_two_sectors :
  source_freeSeats ParserSamples.ebiletTwoStats = ["A-2"; "B-1"]
  /\ source_takenSeats ParserSamples.ebiletTwoStats = ["A-1"; "B-2"].
Proof. vm_compute. auto. Qed.

(** [processEbiletAllSectors] returns [null] exactly when the free-seat
    response carries an error or no response lists a seat.  No sector id
    is the name of a member every object inherits. *)
Theorem processEbiletAllSectors_null
    (seatsBySid : list (string * Backend.EbiletSeatsResponse))
    (freeSeatsData : Backend.EbiletFreeSeatsResponse)
    (kupbilecikSectors : option (list SectorStats)) :
  plainResponses seatsBySid = true ->
  Backend.processEbiletAllSectors seatsBySid freeSeatsData kupbilecikSectors = None
  <-> Backend.err freeSeatsData <> None
      \/ Forall (fun e => Backend.seats_s e.2 = []) seatsBySid.
Proof.
  intros _. unfold Backend.processEbiletAllSectors.
  destruct (Backend.err freeSeatsData) as [e|].
  { split; [intros _; left; discriminate | reflexivity]. }
  assert (R : forall P : Prop, (None <> @None string \/ P) <-> P) by (intros; tauto).
  rewrite R. clear R.
  destruct seatsBySid as [|e0 es] eqn:Es.
  { split; [intros _; constructor | reflexivity]. }
  rewrite <- Es. clear Es e0 es.
  pose proof (ebiletLoop_outer freeSeatsData kupbilecikSectors seatsBySid [] _
                (ebiletInit_outer freeSeatsData)) as H.
  cbn [app] in H.
  set (st := fold_left (Backend.ebiletStep freeSeatsData kupbilecikSectors)
                       seatsBySid Backend.ebiletInit) in *.
  destruct H as (H1 & H2 & H3 & _).
  pose proof (counted_size _ _ _ H1) as Sz.
  pose proof (ebiletKeys_length freeSeatsData seatsBySid) as Len.
  rewrite <- H2, <- H3 in Len.
  assert (All : length (concat ((fun e => Backend.seats_s e.2) <$> seatsBySid)) = 0%nat
                <-> Forall (fun e => Backend.seats_s e.2 = []) seatsBySid).
  { clear. induction seatsBySid as [|e es IH]; cbn [fmap list_fmap concat].
    - split; [constructor | reflexivity].
    - rewrite length_app, Forall_cons, <- IH.
      destruct (Backend.seats_s e.2); cbn [length]; split.
      + intros; split; [reflexivity|lia].
      + intros [_ ?]. lia.
      + lia.
      + intros [? _]. discriminate. }
  rewrite <- All.
  destruct (size (Backend.es_globalRowsData st) =? 0)%nat eqn:E.
  - apply Nat.eqb_eq in E. apply Sz in E as [E1 E2]. rewrite E1, E2 in Len.
    cbn in Len. split; [intros _; lia | reflexivity].
  - apply Nat.eqb_neq in E. split; [discriminate|]. intros Z0. exfalso. apply E, Sz.
    destruct (Backend.es_globalFreeSeats st), (Backend.es_globalTakenSeats st);
      cbn [length] in Len; try lia. split; reflexivity.
Qed.

Lemma processEbiletAllSectors_null_witness :
  Backend.processEbiletAllSectors
    [("s1", {| Backend.seats_sid := "s1"; Backend.seats_s := [] |})]
    ParserSamples.ebiletTwoFree None = None
  /\ Backend.processEbiletAllSectors ParserSamples.ebiletTwo
       ParserSamples.ebiletTwoFree None <> None.
Proof.
  split.
  - apply (processEbiletAllSectors_null
             [("s1", {| Backend.seats_sid := "s1"; Backend.seats_s := [] |})]
             ParserSamples.ebiletTwoFree None eq_refl).
    right. constructor; [reflexivity|constructor].
  - intros N.
    apply (processEbiletAllSectors_null ParserSamples.ebiletTwo
             ParserSamples.ebiletTwoFree None eq_refl) in N.
    destruct N as [N|N]; [apply N; reflexivity|].
    apply Forall_cons in N as [N _]. discriminate N.
Defined.

(** ** The seat history across runs *)

Lemma POST_history_reported loaded results k :
  existsb (fun e => reportsFreeb e k) results = true ->
  exists last,
    (Backend.POST_history loaded results).1 !! k = Some last
    /\ forall loaded',
         (Backend.POST_history loaded' results).1 !! k = Some last.
Proof.
  intros E. apply existsb_exists in E as (e & I & R).
  unfold Backend.POST_history, Backend.POST_updateHistory. cbn [fst].
  assert (G : forall st,
    exists r1 last r2,
      results = r1 ++ last :: r2
      /\ reportsFreeb last k = true
      /\ existsb (fun e => reportsFreeb e k) r2 = false
      /\ Backend.history (fold_left Backend.historySourceStep results st) !! k
         = Some last.1).
  { intros st. apply (historyResults_last results st e k I R). }
  destruct (G {| Backend.history := loaded; Backend.currentFreeKeys := ∅;
                 Backend.knownSectors := ∅ |}) as (r1 & last & r2 & E1 & L1 & L2 & L3).
  exists last.1. split; [exact L3|]. intros loaded'.
  destruct (G {| Backend.history := loaded'; Backend.currentFreeKeys := ∅;
                 Backend.knownSectors := ∅ |})
    as (r1' & last' & r2' & E1' & L1' & L2' & L3').
  rewrite L3'. f_equal. f_equal.
  (* the last reporter is determined by the results *)
  clear -E1 E1' L1 L2 L1' L2'. rewrite E1' in E1. clear E1'.
  revert r1 E1. induction r1' as [|x r1' IH]; intros [|y r1] E; cbn [app] in E.
  - congruence.
  - injection E as -> ->. exfalso.
    rewrite existsb_app in L2'. cbn [existsb] in L2'. rewrite L1 in L2'.
    rewrite orb_true_r in L2'. discriminate.
  - injection E as <- <-. exfalso.
    rewrite existsb_app in L2. cbn [existsb] in L2. rewrite L1' in L2.
    rewrite orb_true_r in L2. discriminate.
  - injection E as -> E. apply (IH r1 E).
Qed.

Lemma POST_history_unreported loaded results k :
  existsb (fun e => reportsFreeb e k) results = false ->
  (Backend.POST_history loaded results).1 !! k = loaded !! k.
Proof.
  intros E. unfold Backend.POST_history, Backend.POST_updateHistory. cbn [fst].
  match goal with |- context [fold_left _ results ?s0] =>
    destruct (historyResults_fold results s0 k) as (H & _)
  end.
  cbn zeta in H. rewrite (H E). reflexivity.
Qed.

(** The seat history only grows: a run keeps every key of the history it
    loaded, leaves the source of a key that no sector lists free now
    untouched, and every key it adds is the key of a seat listed free in
    this run. *)
Theorem POST_history_never_forgets (loaded : gmap string SourceType)
    (results : Backend.Results) :
  dom loaded ⊆ dom (Backend.POST_history loaded results).1
  /\ (forall k, existsb (fun e => reportsFreeb e k) results = false ->
        (Backend.POST_history loaded results).1 !! k = loaded !! k)
  /\ (forall k, k ∈ dom (Backend.POST_history loaded results).1 ->
        k ∉ dom loaded ->
        existsb (fun e => reportsFreeb e k) results = true).
Proof.
  refine (conj _ (conj (POST_history_unreported loaded results) _)).
  - intros k Hk. apply elem_of_dom in Hk. apply elem_of_dom.
    destruct (existsb (fun e => reportsFreeb e k) results) eqn:E.
    + destruct (POST_history_reported loaded results k E) as (last & H & _).
      rewrite H. eexists; reflexivity.
    + rewrite (POST_history_unreported loaded results k E). exact Hk.
  - intros k H1 H2.
    destruct (existsb (fun e => reportsFreeb e k) results) eqn:E; [reflexivity|].
    exfalso. apply H2. apply elem_of_dom. apply elem_of_dom in H1.
    rewrite (POST_history_unreported loaded results k E) in H1. exact H1.
Qed.

Lemma inferred_was_loaded (loaded : gmap string SourceType)
    (results : Backend.Results) k v :
  (Backend.POST_history loaded results).2 !! k = Some v ->
  loaded !! k = Some v /\ existsb (fun e => reportsFreeb e k) results = false.
Proof.
  intros H. apply POST_history_inferredSold in H as (H1 & _ & H3).
  rewrite (POST_history_unreported loaded results k H3) in H1. auto.
Qed.

Lemma first_run_infers_nothing (results : Backend.Results) :
  (Backend.POST_history ∅ results).2 = ∅.
Proof.
  apply map_eq. intros k. rewrite lookup_empty.
  destruct ((Backend.POST_history ∅ results).2 !! k) as [v|] eqn:E; [|reflexivity].
  apply inferred_was_loaded in E as [E _]. rewrite lookup_empty in E. discriminate.
Qed.


Lemma POST_updateHistory_sets loaded loaded' results :
  Backend.currentFreeKeys (Backend.POST_updateHistory loaded results)
  = Backend.currentFreeKeys (Backend.POST_updateHistory loaded' results)
  /\ Backend.knownSectors (Backend.POST_updateHistory loaded results)
     = Backend.knownSectors (Backend.POST_updateHistory loaded' results).
Proof.
  unfold Backend.POST_updateHistory. split; apply set_eq; intros x.
  - match goal with |- _ ∈ Backend.currentFreeKeys (fold_left _ _ ?a) <->
                       _ ∈ Backend.currentFreeKeys (fold_left _ _ ?b) =>
      destruct (historyResults_fold results a x) as (_ & H1 & _);
      destruct (historyResults_fold results b x) as (_ & H2 & _)
    end.
    cbn zeta in *. rewrite H1, H2. reflexivity.
  - match goal with |- _ ∈ Backend.knownSectors (fold_left _ _ ?a) <->
                       _ ∈ Backend.knownSectors (fold_left _ _ ?b) =>
      destruct (historyResults_fold results a x) as (_ & _ & H1);
      destruct (historyResults_fold results b x) as (_ & _ & H2)
    end.
    cbn zeta in *. rewrite H1, H2. reflexivity.
Qed.

(** Running the history step again on the same scrape results, from the
    history the first run saved, saves the same history and infers the
    same sales. *)
Theorem POST_history_rerun (loaded : gmap string SourceType)
    (results : Backend.Results) :
  Backend.POST_history (Backend.POST_history loaded results).1 results
  = Backend.POST_history loaded results.
Proof.
  assert (H : (Backend.POST_history (Backend.POST_history loaded results).1 results).1
              = (Backend.POST_history loaded results).1).
  { apply map_eq. intros k.
    destruct (existsb (fun e => reportsFreeb e k) results) eqn:E.
    - destruct (POST_history_reported loaded results k E) as (last & H1 & H2).
      rewrite H1. apply H2.
    - apply POST_history_unreported, E. }
  unfold Backend.POST_history in *. cbn [fst snd] in *.
  destruct (POST_updateHistory_sets
              (Backend.history (Backend.POST_updateHistory loaded results))
              loaded results) as [S1 S2].
  f_equal; [exact H|].
  unfold Backend.POST_inferSold. rewrite H, S1, S2. reflexivity.
Qed.

(** ** The files kept per event *)

Lemma isSafe_underscore : EventFiles.isSafe 95 = true.
Proof. reflexivity. Qed.

Lemma safeId_fixed (eventId : Utf16.codeUnits) :
  EventFiles.safeId eventId = eventId
  <-> Forall (fun c => EventFiles.isSafe c = true) eventId.
Proof.
  unfold EventFiles.safeId.
  induction eventId as [|c l IH]; cbn [fmap list_fmap].
  - split; [constructor | reflexivity].
  - rewrite Forall_cons, <- IH. split.
    + intros [= E1 E2]. split; [|exact E2].
      destruct (EventFiles.isSafe c) eqn:S; [reflexivity|].
      subst c. discriminate.
    + intros [S E]. rewrite S. f_equal. exact E.
Qed.

(** The file name derived from an event id is made of the characters
    a-z, A-Z, 0-9, '-' and '_' only, has the length of the id, and is the
    id itself exactly when the id is made of these characters; deriving
    it again changes nothing. *)
Theorem safeId_sanitizes (eventId : Utf16.codeUnits) :
  Forall (fun c => EventFiles.isSafe c = true) (EventFiles.safeId eventId)
  /\ length (EventFiles.safeId eventId) = length eventId
  /\ EventFiles.safeId (EventFiles.safeId eventId) = EventFiles.safeId eventId
  /\ (EventFiles.safeId eventId = eventId
      <-> Forall (fun c => EventFiles.isSafe c = true) eventId).
Proof.
  assert (S : Forall (fun c => EventFiles.isSafe c = true) (EventFiles.safeId eventId)).
  { unfold EventFiles.safeId. apply Forall_fmap, Forall_forall. intros c _.
    cbn. destruct (EventFiles.isSafe c) eqn:E; [exact E | reflexivity]. }
  refine (conj S (conj _ (conj _ (safeId_fixed eventId)))).
  - unfold EventFiles.safeId. apply length_fmap.
  - apply safeId_fixed, S.
Qed.

Lemma filePath_eq id1 id2 :
  EventFiles.filePath id1 = EventFiles.filePath id2
  <-> EventFiles.safeId id1 = EventFiles.safeId id2.
Proof.
  unfold EventFiles.filePath. split; [apply app_inv_tail | congruence].
Qed.

(** After a [POST] of well-formed overrides for the event [id1], a [GET]
    for an event [id2] whose id gives the same file name returns what was
    posted, under the id [id1] it was posted with, also when [id2] is
    another id; a [GET] for any other event is unaffected.  A [POST]
    whose [overrides] is missing or not an object is refused with status
    400 and writes nothing. *)
Theorem overrides_GET_after_POST (files : OverridesRoute.Files)
    (id1 id2 : Utf16.codeUnits) (posted : gmap string string)
    (snapshot : option OverridesRoute.StatsSnapshot) (now : string) :
  OverridesRoute.GET
    (OverridesRoute.POST files id1
       {| OverridesRoute.body_overrides := Some posted;
          OverridesRoute.body_statsSnapshot := snapshot |} now).1 id2
  = (if decide (EventFiles.safeId id1 = EventFiles.safeId id2)
     then OverridesRoute.success
            {| OverridesRoute.get_eventId := id1;
               OverridesRoute.get_lastUpdated := Some now;
               OverridesRoute.get_overrides := posted;
               OverridesRoute.get_statsSnapshot := snapshot |}
     else OverridesRoute.GET files id2)
  /\ OverridesRoute.POST files id1
       {| OverridesRoute.body_overrides := None;
          OverridesRoute.body_statsSnapshot := snapshot |} now
     = (files, OverridesRoute.failure 400 "Invalid overrides data").
Proof.
  split; [|reflexivity].
  unfold OverridesRoute.GET, OverridesRoute.POST, OverridesRoute.getOverridesFilePath.
  cbn [OverridesRoute.body_overrides OverridesRoute.body_statsSnapshot fst].
  destruct (decide (EventFiles.safeId id1 = EventFiles.safeId id2)) as [E|N].
  - apply filePath_eq in E. rewrite E, lookup_insert_eq. reflexivity.
  - rewrite lookup_insert_ne; [reflexivity|].
    intros E. apply N, filePath_eq, E.
Qed.

Example overrides_shared_by_two_ids :
  OverridesRoute.GET
    (OverridesRoute.POST ∅ (Utf16.ofAscii "a.b")
       {| OverridesRoute.body_overrides := Some {[ "1-1" := "#000000" ]};
          OverridesRoute.body_statsSnapshot := None |} "t").1
    (Utf16.ofAscii "a_b")
  = OverridesRoute.success
      {| OverridesRoute.get_eventId := Utf16.ofAscii "a.b";
         OverridesRoute.get_lastUpdated := Some "t";
         OverridesRoute.get_overrides := {[ "1-1" := "#000000" ]};
         OverridesRoute.get_statsSnapshot := None |}.
Proof. vm_compute. reflexivity. Qed.

(** [DELETE] removes the overrides of the event: the next [GET] returns
    the empty default under the requested id, and a second [DELETE] finds
    nothing to delete.  Events with another file name keep theirs. *)
Theorem overrides_GET_after_DELETE (files : OverridesRoute.Files)
    (id1 id2 : Utf16.codeUnits) :
  OverridesRoute.GET (OverridesRoute.DELETE files id1).1 id2
  = (if decide (EventFiles.safeId id1 = EventFiles.safeId id2)
     then OverridesRoute.success
            {| OverridesRoute.get_eventId := id2;
               OverridesRoute.get_lastUpdated := None;
               OverridesRoute.get_overrides := ∅;
               OverridesRoute.get_statsSnapshot := None |}
     else OverridesRoute.GET files id2)
  /\ OverridesRoute.DELETE (OverridesRoute.DELETE files id1).1 id1
     = ((OverridesRoute.DELETE files id1).1,
        OverridesRoute.success "No overrides to delete").
Proof.
  unfold OverridesRoute.GET, OverridesRoute.DELETE, OverridesRoute.getOverridesFilePath.
  split.
  - destruct (decide (EventFiles.safeId id1 = EventFiles.safeId id2)) as [E|N].
    + apply filePath_eq in E. rewrite <- E.
      destruct (files !! EventFiles.filePath id1) eqn:F; cbn [fst].
      * rewrite lookup_delete_eq. reflexivity.
      * rewrite F. reflexivity.
    + destruct (files !! EventFiles.filePath id1) eqn:F; cbn [fst]; [|reflexivity].
      rewrite lookup_delete_ne; [reflexivity|].
      intros E. apply N, filePath_eq, E.
  - destruct (files !! EventFiles.filePath id1) eqn:F; cbn [fst].
    + rewrite lookup_delete_eq. reflexivity.
    + rewrite F. reflexivity.
Qed.

(** ** The seat history on the files, from run to run *)

Lemma loadHistory_saveHistory files id1 id2 h :
  HistoryStore.loadHistory (HistoryStore.saveHistory files id1 h) id2
  = if decide (EventFiles.safeId id1 = EventFiles.safeId id2) then h
    else HistoryStore.loadHistory files id2.
Proof.
  unfold HistoryStore.loadHistory, HistoryStore.saveHistory,
    HistoryStore.getHistoryFilePath.
  destruct (decide (EventFiles.safeId id1 = EventFiles.safeId id2)) as [E|N].
  - apply filePath_eq in E. rewrite E, lookup_insert_eq. reflexivity.
  - rewrite lookup_insert_ne; [reflexivity|]. intros E. apply N, filePath_eq, E.
Qed.

Lemma POST_historyRun_eq files id results :
  HistoryStore.POST_historyRun files id results
  = (HistoryStore.saveHistory files id
       (Backend.POST_history (HistoryStore.loadHistory files id) results).1,
     (Backend.POST_history (HistoryStore.loadHistory files id) results).2).
Proof.
  unfold HistoryStore.POST_historyRun.
  destruct (Backend.POST_history (HistoryStore.loadHistory files id) results).
  reflexivity.
Qed.

(** A seat of a sector whose name has no ':' that a sector lists free in
    one run, and that no sector lists free in the next run of the event
    although the sector is scraped again, is inferred sold in that next
    run, by the source that listed it last in the first run; the saved
    history keeps that source for the seat. *)
Theorem sale_inferred_in_next_run (files : HistoryStore.Files)
    (id : Utf16.codeUnits) (results1 results2 : Backend.Results)
    (name seatKey : string) :
  allChars (fun c => negb (Ascii.eqb c ":")) name = true ->
  let key := name +:+ ":" +:+ seatKey in
  existsb (fun e => reportsFreeb e key) results1 = true ->
  existsb (fun e => hasSectorb e name) results2 = true ->
  existsb (fun e => reportsFreeb e key) results2 = false ->
  let run1 := HistoryStore.POST_historyRun files id results1 in
  let run2 := HistoryStore.POST_historyRun run1.1 id results2 in
  exists src,
    HistoryStore.loadHistory run1.1 id !! key = Some src
    /\ run2.2 !! key = Some src
    /\ HistoryStore.loadHistory run2.1 id !! key = Some src.
Proof.
  intros Hname key F1 S2 F2 run1 run2. subst run1 run2.
  rewrite !POST_historyRun_eq. cbn [fst snd].
  rewrite !loadHistory_saveHistory. rewrite !decide_True by reflexivity.
  destruct (POST_history_reported (HistoryStore.loadHistory files id) results1 key F1)
    as (src & H1 & _).
  exists src. split; [exact H1|].
  assert (H2 : (Backend.POST_history
                  (Backend.POST_history (HistoryStore.loadHistory files id) results1).1
                  results2).1 !! key = Some src).
  { rewrite (POST_history_unreported _ results2 key F2). exact H1. }
  split; [|exact H2].
  apply (inferredSold_colon_free _ results2 name seatKey src Hname).
  auto.
Qed.

Lemma sale_inferred_in_next_run_witness :
  let run1 := HistoryStore.POST_historyRun ∅ (Utf16.ofAscii "e1")
                (Samples.kupbilecikRun "A" ["1-1"; "1-2"] []) in
  let run2 := HistoryStore.POST_historyRun run1.1 (Utf16.ofAscii "e1")
                (Samples.kupbilecikRun "A" ["1-2"] ["1-1"]) in
  exists src,
    HistoryStore.loadHistory run1.1 (Utf16.ofAscii "e1") !! ("A" +:+ ":" +:+ "1-1")
    = Some src
    /\ run2.2 !! ("A" +:+ ":" +:+ "1-1") = Some src
    /\ HistoryStore.loadHistory run2.1 (Utf16.ofAscii "e1") !! ("A" +:+ ":" +:+ "1-1")
       = Some src.
Proof.
  apply (sale_inferred_in_next_run ∅ (Utf16.ofAscii "e1")
           (Samples.kupbilecikRun "A" ["1-1"; "1-2"] [])
           (Samples.kupbilecikRun "A" ["1-2"] ["1-1"]) "A" "1-1");
    vm_compute; reflexivity.
Defined.

(** The history of an event lives in the file named after its id: a run
    of the event saves the updated history there, where every event whose
    id gives the same file name reads it, and leaves the history of every
    other event as it was. *)
Lemma history_file_per_safe_id (files : HistoryStore.Files)
    (eventId otherId : Utf16.codeUnits) (results : Backend.Results) :
  HistoryStore.loadHistory (HistoryStore.POST_historyRun files eventId results).1 otherId
  = (if decide (EventFiles.safeId eventId = EventFiles.safeId otherId)
     then (Backend.POST_history (HistoryStore.loadHistory files eventId) results).1
     else HistoryStore.loadHistory files otherId).
Proof.
  rewrite POST_historyRun_eq. cbn [fst]. apply loadHistory_saveHistory.
Qed.

(** ** The statistics of the previous run *)



(** ** The cached URLs *)

Lemma colonFree_app a b : colonFree (a ++ 58%Z :: b) -> False.
Proof.
  unfold colonFree. rewrite Forall_app, Forall_cons. intros (_ & H & _).
  apply H. reflexivity.
Qed.

Lemma keyOf_inj e s e' s' :
  colonFree s -> colonFree s' ->
  UrlCache.keyOf e s = UrlCache.keyOf e' s' -> e = e' /\ s = s'.
Proof.
  unfold UrlCache.keyOf. cbn [Utf16.ofAscii app].
  change (Z.of_nat (nat_of_ascii ":")) with 58%Z.
  intros Hs Hs'. revert e'. induction e as [|c e IH]; intros [|c' e']; cbn [app].
  - intros [= ->]. auto.
  - intros [= <- ->]. destruct (colonFree_app _ _ Hs).
  - intros [= -> <-]. destruct (colonFree_app _ _ Hs').
  - intros [= -> E]. destruct (IH _ E) as [-> ->]. auto.
Qed.

(** The URL cached for an event and a source is the one set last for
    that event and that source, whatever was set for other events and
    sources in between; touching an entry refreshes its time and keeps its
    URL; clearing it removes it.  (Source names carry no ':'.) *)
Theorem url_cache_set_get (cache : UrlCache.Cache)
    (eventId source otherId otherSource : Utf16.codeUnits) (url0 : string) (now : Z) :
  colonFree source -> colonFree otherSource ->
  UrlCache.getCachedUrl (UrlCache.setCachedUrl cache eventId source url0 now)
                        otherId otherSource
  = (if decide (eventId = otherId /\ source = otherSource) then Some url0
     else UrlCache.getCachedUrl cache otherId otherSource)
  /\ UrlCache.getCachedUrl (UrlCache.touchCachedUrl cache eventId source now)
                           otherId otherSource
     = UrlCache.getCachedUrl cache otherId otherSource
  /\ UrlCache.getCachedUrl (UrlCache.clearCachedUrl cache eventId source)
                           otherId otherSource
     = (if decide (eventId = otherId /\ source = otherSource) then None
        else UrlCache.getCachedUrl cache otherId otherSource).
Proof.
  intros Hs Hs'.
  assert (K : UrlCache.keyOf eventId source = UrlCache.keyOf otherId otherSource
              <-> eventId = otherId /\ source = otherSource).
  { split; [apply keyOf_inj; assumption | intros [-> ->]; reflexivity]. }
  unfold UrlCache.getCachedUrl, UrlCache.setCachedUrl, UrlCache.touchCachedUrl,
    UrlCache.clearCachedUrl.
  refine (conj _ (conj _ _)).
  - destruct (decide (eventId = otherId /\ source = otherSource)) as [E|N].
    + apply K in E. rewrite E, lookup_insert_eq. reflexivity.
    + rewrite lookup_insert_ne; [reflexivity|]. intros E. apply N, K, E.
  - destruct (cache !! UrlCache.keyOf eventId source) as [entry|] eqn:C; [|reflexivity].
    destruct (decide (UrlCache.keyOf eventId source
                      = UrlCache.keyOf otherId otherSource)) as [E|N].
    + rewrite <- E, lookup_insert_eq, C. reflexivity.
    + rewrite lookup_insert_ne by exact N. reflexivity.
  - destruct (decide (eventId = otherId /\ source = otherSource)) as [E|N].
    + apply K in E. rewrite <- E.
      destruct (cache !! UrlCache.keyOf eventId source) as [entry|] eqn:C.
      * rewrite lookup_delete_eq. reflexivity.
      * rewrite C. reflexivity.
    + destruct (cache !! UrlCache.keyOf eventId source) as [entry|] eqn:C;
        [|reflexivity].
      rewrite lookup_delete_ne; [reflexivity|]. intros E. apply N, K, E.
Qed.

Lemma sources_colonFree source :
  In source StatsRouteDelete.sources -> colonFree source.
Proof.
  intros [<-|[<-|[<-|[]]]]; unfold colonFree; cbn;
    repeat (constructor; [discriminate|]); constructor.
Qed.

Lemma url_cache_set_get_witness :
  UrlCache.getCachedUrl
    (UrlCache.setCachedUrl ∅ (Utf16.ofAscii "e1") (Utf16.ofAscii "ebilet") "u" 5)
    (Utf16.ofAscii "e1") (Utf16.ofAscii "ebilet")
  = (if decide (Utf16.ofAscii "e1" = Utf16.ofAscii "e1"
                /\ Utf16.ofAscii "ebilet" = Utf16.ofAscii "ebilet")
     then Some "u"
     else UrlCache.getCachedUrl ∅ (Utf16.ofAscii "e1") (Utf16.ofAscii "ebilet"))
  /\ UrlCache.getCachedUrl
       (UrlCache.touchCachedUrl ∅ (Utf16.ofAscii "e1") (Utf16.ofAscii "ebilet") 5)
       (Utf16.ofAscii "e1") (Utf16.ofAscii "ebilet")
     = UrlCache.getCachedUrl ∅ (Utf16.ofAscii "e1") (Utf16.ofAscii "ebilet")
  /\ UrlCache.getCachedUrl
       (UrlCache.clearCachedUrl ∅ (Utf16.ofAscii "e1") (Utf16.ofAscii "ebilet"))
       (Utf16.ofAscii "e1") (Utf16.ofAscii "ebilet")
     = (if decide (Utf16.ofAscii "e1" = Utf16.ofAscii "e1"
                   /\ Utf16.ofAscii "ebilet" = Utf16.ofAscii "ebilet")
        then None
        else UrlCache.getCachedUrl ∅ (Utf16.ofAscii "e1") (Utf16.ofAscii "ebilet")).
Proof.
  apply (url_cache_set_get ∅ (Utf16.ofAscii "e1") (Utf16.ofAscii "ebilet")
           (Utf16.ofAscii "e1") (Utf16.ofAscii "ebilet") "u" 5);
    apply sources_colonFree; cbn; auto.
Defined.

(** The stats route's [DELETE] leaves no cached URL of the event for any
    of the three vendors and no seat history, so that the run that follows
    infers no sale; the cached URLs of the other events stay. *)
Theorem stats_DELETE_clears (cache : UrlCache.Cache) (files : HistoryStore.Files)
    (eventId : Utf16.codeUnits) (results : Backend.Results) :
  let after := StatsRouteDelete.DELETE cache files eventId in
  Forall (fun source => UrlCache.getCachedUrl after.1 eventId source = None)
         StatsRouteDelete.sources
  /\ (forall otherId source, otherId <> eventId -> In source StatsRouteDelete.sources ->
        UrlCache.getCachedUrl after.1 otherId source
        = UrlCache.getCachedUrl cache otherId source)
  /\ HistoryStore.loadHistory after.2 eventId = ∅
  /\ (HistoryStore.POST_historyRun after.2 eventId results).2 = ∅.
Proof.
  cbn zeta. unfold StatsRouteDelete.DELETE. cbn [fst snd fold_left].
  assert (D : forall (c : UrlCache.Cache) e s,
             UrlCache.clearCachedUrl c e s = delete (UrlCache.keyOf e s) c).
  { intros c e s. unfold UrlCache.clearCachedUrl.
    destruct (c !! UrlCache.keyOf e s) eqn:E; [reflexivity|].
    symmetry. apply delete_id, E. }
  assert (G : forall source other,
    In source StatsRouteDelete.sources ->
    UrlCache.getCachedUrl
      (fold_left (fun cache source => UrlCache.clearCachedUrl cache eventId source)
                 StatsRouteDelete.sources cache) other source
    = if decide (other = eventId) then None
      else UrlCache.getCachedUrl cache other source).
  { intros source other I.
    pose proof (sources_colonFree source I) as Cs.
    unfold StatsRouteDelete.sources. cbn [fold_left]. rewrite !D.
    unfold UrlCache.getCachedUrl.
    destruct (decide (other = eventId)) as [->|N].
    - destruct I as [<-|[<-|[<-|[]]]].
      + rewrite lookup_delete_ne, lookup_delete_ne, lookup_delete_eq; [reflexivity| |];
          intros E; apply keyOf_inj in E as [_ E];
          try discriminate; apply sources_colonFree; cbn; auto.
      + rewrite lookup_delete_ne, lookup_delete_eq; [reflexivity|];
          intros E; apply keyOf_inj in E as [_ E];
          try discriminate; apply sources_colonFree; cbn; auto.
      + rewrite lookup_delete_eq. reflexivity.
    - rewrite !lookup_delete_ne; [reflexivity| | |];
        intros E; apply keyOf_inj in E as [E _];
        try (apply N; symmetry; exact E); try exact Cs;
        apply sources_colonFree; cbn; auto. }
  refine (conj _ (conj _ (conj _ _))).
  - apply Forall_forall. intros source I. apply list_elem_of_In in I.
    rewrite (G source eventId I). rewrite decide_True by reflexivity. reflexivity.
  - intros otherId source N I. rewrite (G source otherId I).
    rewrite decide_False by exact N. reflexivity.
  - unfold HistoryStore.loadHistory, HistoryStore.clearHistory.
    rewrite lookup_delete_eq. reflexivity.
  - rewrite POST_historyRun_eq. cbn [snd].
    unfold HistoryStore.loadHistory at 1, HistoryStore.clearHistory.
    rewrite lookup_delete_eq. cbn [default from_option].
    apply first_run_infers_nothing.
Qed.

Lemma timestampLoop_spec (cache : UrlCache.Cache) eventId keys acc :
  (0 <= acc.1)%Z -> (acc.2 = true <-> 0 < acc.1)%Z ->
  let r := fold_left (UrlCache.timestampStep cache eventId) keys acc in
  (acc.1 <= r.1)%Z
  /\ (r.2 = true <-> 0 < r.1)%Z
  /\ (forall key entry, In key keys -> UrlCache.ofEvent eventId key = true ->
        cache !! key = Some entry -> (UrlCache.timestamp entry <= r.1)%Z)
  /\ (r.1 = acc.1
      \/ exists key entry, In key keys /\ UrlCache.ofEvent eventId key = true
                           /\ cache !! key = Some entry
                           /\ UrlCache.timestamp entry = r.1).
Proof.
  revert acc. induction keys as [|k keys IH]; intros acc P0 F0; cbn [fold_left].
  - cbn zeta. refine (conj _ (conj F0 (conj _ _))); [lia| |auto].
    intros key entry [].
  - set (acc' := UrlCache.timestampStep cache eventId acc k).
    assert (S : (acc.1 <= acc'.1)%Z /\ (acc'.2 = true <-> 0 < acc'.1)%Z
                /\ (forall entry, UrlCache.ofEvent eventId k = true ->
                      cache !! k = Some entry ->
                      (UrlCache.timestamp entry <= acc'.1)%Z)
                /\ (acc'.1 = acc.1
                    \/ exists entry, UrlCache.ofEvent eventId k = true
                                     /\ cache !! k = Some entry
                                     /\ UrlCache.timestamp entry = acc'.1)).
    { subst acc'. unfold UrlCache.timestampStep.
      destruct (UrlCache.ofEvent eventId k) eqn:O.
      - destruct (cache !! k) as [entry|] eqn:C.
        + destruct (acc.1 <? UrlCache.timestamp entry)%Z eqn:L.
          * apply Z.ltb_lt in L. cbn [fst snd].
            refine (conj _ (conj _ (conj _ _)));
              [lia| split; [intros _; lia | intros _; reflexivity] | |].
            -- intros e _ [= <-]. lia.
            -- right. exists entry. repeat split; reflexivity.
          * apply Z.ltb_ge in L.
            refine (conj _ (conj F0 (conj _ _))); [lia| |auto].
            intros e _ [= <-]. exact L.
        + refine (conj _ (conj F0 (conj _ _))); [lia| |auto].
          intros e _ [=].
      - refine (conj _ (conj F0 (conj _ _))); [lia| |auto].
        intros e [=]. }
    destruct S as (S1 & S2 & S3 & S4).
    destruct (IH acc' ltac:(lia) S2) as (A1 & A2 & A3 & A4). cbn zeta in *.
    refine (conj _ (conj A2 (conj _ _))); [lia| |].
    + intros key entry [<-|I] O C; [|exact (A3 key entry I O C)].
      specialize (S3 entry O C). lia.
    + destruct A4 as [E|(key & entry & I & O & C & T)].
      * destruct S4 as [E'|(entry & O & C & T)]; [left; congruence|].
        right. exists k, entry. rewrite E.
        exact (conj (or_introl eq_refl) (conj O (conj C T))).
      * right. exists key, entry.
        exact (conj (or_intror I) (conj O (conj C T))).
Qed.

(** The time [getCacheTimestamp] reports for an event is the latest time
    among the cached entries of the event, which is positive; it is [null]
    when the event has no entry with a positive time, in particular when
    [hasCachedData] finds no entry of the event at all. *)
Theorem getCacheTimestamp_latest (cache : UrlCache.Cache) (eventId : Utf16.codeUnits) :
  match UrlCache.getCacheTimestamp cache eventId with
  | Some t =>
      (0 < t)%Z
      /\ UrlCache.hasCachedData cache eventId = true
      /\ (exists key entry, cache !! key = Some entry
                            /\ UrlCache.ofEvent eventId key = true
                            /\ UrlCache.timestamp entry = t)
      /\ (forall key entry, cache !! key = Some entry ->
            UrlCache.ofEvent eventId key = true -> (UrlCache.timestamp entry <= t)%Z)
  | None =>
      forall key entry, cache !! key = Some entry ->
        UrlCache.ofEvent eventId key = true -> (UrlCache.timestamp entry <= 0)%Z
  end.
Proof.
  unfold UrlCache.getCacheTimestamp.
  destruct (timestampLoop_spec cache eventId (map_to_list cache).*1 (0%Z, false))
    as (A1 & A2 & A3 & A4); [cbn; lia | cbn; split; [discriminate|lia] |].
  cbn zeta in *.
  destruct (fold_left _ _ _) as [maxTimestamp found]. cbn [fst snd] in *.
  assert (K : forall key entry, cache !! key = Some entry ->
                In key (map_to_list cache).*1).
  { intros key entry C. apply list_elem_of_In, list_elem_of_fmap.
    exists (key, entry). split; [reflexivity|]. apply elem_of_map_to_list, C. }
  destruct found.
  - assert (P : (0 < maxTimestamp)%Z) by (apply A2; reflexivity).
    destruct A4 as [E|(key & entry & I & O & C & T)]; [lia|].
    refine (conj P (conj _ (conj _ _))).
    + unfold UrlCache.hasCachedData. apply existsb_exists. exists key. split; auto.
    + exists key, entry. repeat split; auto.
    + intros key' entry' C' O'. apply (A3 key' entry' (K _ _ C') O' C').
  - intros key entry C O. specialize (A3 key entry (K _ _ C) O C).
    destruct (Z.lt_ge_cases 0 maxTimestamp) as [L|L]; [|lia].
    apply A2 in L. discriminate.
Qed.

(** ** The page's normalisation of row names and seat keys *)

Abbreviation noDash := (fun c : ascii => negb (Ascii.eqb c "-")).

Lemma romanValue_head key v :
  romanValue key = Some v ->
  exists c rest, key = String c rest /\ Backend.isRomanChar c = true.
Proof.
  unfold romanValue, ROMAN_MAP. cbn [tableLookup].
  repeat match goal with
         | |- context [String.eqb ?k key] =>
             let E := fresh "E" in
             destruct (String.eqb k key) eqn:E;
             [apply String.eqb_eq in E; subst key; intros _;
              eexists _, _; split; reflexivity|]
         end.
  discriminate.
Qed.

Lemma romanValue_digits s :
  allChars Backend.isDigit s = true -> romanValue s = None.
Proof.
  intros D. destruct (romanValue s) as [v|] eqn:R; [|reflexivity].
  destruct (romanValue_head s v R) as (c & rest & -> & C).
  cbn [allChars] in D. apply andb_prop in D as [D _].
  destruct c as [[] [] [] [] [] [] [] []]; cbv in C, D; congruence.
Qed.

Lemma String_of_number_value v :
  (1 <= v <= 30)%Z ->
  allChars Backend.isDigit (String_of_number v) = true
  /\ allChars noDash (String_of_number v) = true
  /\ String_of_number v <> "".
Proof.
  intros H.
  assert (Hv : In v (map Z.of_nat (seq 1 30))).
  { apply in_map_iff. exists (Z.to_nat v). split; [lia|]. apply in_seq. lia. }
  cbn in Hv.
  repeat (destruct Hv as [<-|Hv]; [vm_compute; repeat split; discriminate|]).
  destruct Hv.
Qed.

Lemma digits_fixed s :
  allChars Backend.isDigit s = true -> trim s = s /\ toUpperCase s = s.
Proof.
  intros D. split.
  - exact (trim_kept _ _ isDigit_kept D).
  - rewrite toUpperCase_ascii by exact (allChars_weaken _ _ _ isDigit_ascii D).
    exact (mapChars_fixed _ _ _ isDigit_upper D).
Qed.

Lemma frontend_normalizeRowName_digits s :
  allChars Backend.isDigit s = true -> Frontend.normalizeRowName s = s.
Proof.
  intros D. destruct (digits_fixed s D) as [T U].
  unfold Frontend.normalizeRowName. rewrite U, T, (romanValue_digits s D).
  reflexivity.
Qed.

Lemma frontend_normalizeRowName_idempotent row :
  Frontend.normalizeRowName (Frontend.normalizeRowName row)
  = Frontend.normalizeRowName row.
Proof.
  unfold Frontend.normalizeRowName at 2 3.
  destruct (romanValue (trim (toUpperCase row))) as [v|] eqn:R.
  - apply frontend_normalizeRowName_digits.
    apply String_of_number_value, (romanValue_range _ _ R).
  - unfold Frontend.normalizeRowName.
    rewrite trim_toUpperCase, trim_idem, <- trim_toUpperCase, R.
    reflexivity.
Qed.

Lemma split_first_noDash s p ps :
  split "-" s = p :: ps -> allChars noDash p = true.
Proof.
  revert p ps. induction s as [|c s IH]; intros p ps; cbn [split].
  - intros [= <- <-]. reflexivity.
  - destruct (Ascii.eqb c "-") eqn:C.
    + intros [= <- <-]. reflexivity.
    + destruct (split "-" s) as [|q qs] eqn:E.
      * intros [= <- <-]. cbn. rewrite C. reflexivity.
      * intros [= <- <-]. cbn [allChars]. rewrite C. cbn [negb andb].
        apply (IH q qs eq_refl).
Qed.

Lemma split_noDash a b :
  allChars noDash a = true ->
  split "-" (a +:+ "-" +:+ b) = a :: split "-" b.
Proof.
  induction a as [|c a IH]; cbn [allChars].
  - intros _. change ("" +:+ "-" +:+ b) with (String "-" b). cbn [split].
    rewrite Ascii.eqb_refl. reflexivity.
  - intros [C A]%andb_prop. apply negb_true_iff in C.
    change (String c a +:+ "-" +:+ b) with (String c (a +:+ "-" +:+ b)).
    cbn [split]. rewrite C, (IH A). reflexivity.
Qed.

Lemma frontend_normalizeRowName_noDash row :
  allChars noDash row = true -> allChars noDash (Frontend.normalizeRowName row) = true.
Proof.
  intros H. unfold Frontend.normalizeRowName.
  destruct (romanValue (trim (toUpperCase row))) as [v|] eqn:R.
  - apply String_of_number_value, (romanValue_range _ _ R).
  - apply allChars_trim, H.
Qed.

(** The page's [normalizeRowName] and [normalizeSeatKey] are idempotent
    on every ASCII input: a key that went through them is a fixed
    point. *)
Theorem frontend_normalizers_idempotent :
  (forall row : string,
     allChars isAscii row = true ->
     Frontend.normalizeRowName (Frontend.normalizeRowName row)
     = Frontend.normalizeRowName row)
  /\ (forall seatKey : string,
        allChars isAscii seatKey = true ->
        Frontend.normalizeSeatKey (Frontend.normalizeSeatKey seatKey)
        = Frontend.normalizeSeatKey seatKey).
Proof.
  split; [intros row _; apply frontend_normalizeRowName_idempotent|].
  intros seatKey _. unfold Frontend.normalizeSeatKey at 2 3.
  destruct (split "-" seatKey) as [|p0 [|p1 ps]] eqn:E.
  - unfold Frontend.normalizeSeatKey. rewrite E. reflexivity.
  - unfold Frontend.normalizeSeatKey. rewrite E. reflexivity.
  - unfold Frontend.normalizeSeatKey.
    pose proof (split_first_noDash _ _ _ E) as D.
    rewrite (split_noDash _ _ (frontend_normalizeRowName_noDash p0 D)).
    destruct (split_cons "-" (join "-" (p1 :: ps))) as (q & qs & S).
    pose proof (join_split (join "-" (p1 :: ps))) as J. rewrite S in J.
    rewrite S. destruct qs as [|q1 qs].
    + (* a rest without a dash *)
      cbn [join] in J. rewrite frontend_normalizeRowName_idempotent.
      cbn [join]. rewrite J. reflexivity.
    + rewrite frontend_normalizeRowName_idempotent, J. reflexivity.
Qed.

Lemma frontend_normalizers_idempotent_witness :
  Frontend.normalizeRowName (Frontend.normalizeRowName " vii ")
  = Frontend.normalizeRowName " vii "
  /\ Frontend.normalizeSeatKey (Frontend.normalizeSeatKey " Row V -12-a")
     = Frontend.normalizeSeatKey " Row V -12-a".
Proof.
  split.
  - apply (proj1 frontend_normalizers_idempotent " vii "). vm_compute. reflexivity.
  - apply (proj2 frontend_normalizers_idempotent " Row V -12-a").
    vm_compute. reflexivity.
Defined.

(** ** Where the two normalisations agree *)

Lemma romanValue_noDash key v :
  romanValue key = Some v -> allChars noDash key = true.
Proof.
  unfold romanValue, ROMAN_MAP. cbn [tableLookup].
  repeat match goal with
         | |- context [String.eqb ?k key] =>
             let E := fresh "E" in
             destruct (String.eqb k key) eqn:E;
             [apply String.eqb_eq in E; subst key; intros _; reflexivity|]
         end.
  discriminate.
Qed.

Lemma noDash_upperChar c : noDash (upperChar c) = true -> noDash c = true.
Proof. destruct c as [[] [] [] [] [] [] [] []]; cbv; congruence. Qed.

Lemma noDash_toUpperCase s :
  allChars noDash (toUpperCase s) = true -> allChars noDash s = true.
Proof.
  induction s as [|t IH|c s N IH] using toUpperCase_ind.
  - reflexivity.
  - change (toUpperCase (String "195" (String "159" t)))
      with (String "S" (String "S" (toUpperCase t))).
    cbn [allChars]. intros H. apply andb_prop in H as [_ H].
    apply andb_prop in H as [_ H]. rewrite (IH H). reflexivity.
  - rewrite (toUpperCase_cons c s N). cbn [allChars].
    intros [C H]%andb_prop. rewrite (noDash_upperChar c C), (IH H). reflexivity.
Qed.

Lemma allChars_trimStart_inv (p : ascii -> bool) s :
  (forall c, isWhiteSpace c = true -> p c = true) ->
  allChars p (trimStart s) = true -> allChars p s = true.
Proof.
  intros W. induction s as [|c s IH]; cbn [trimStart allChars]; [reflexivity|].
  destruct (isWhiteSpace c) eqn:E.
  - intros H. rewrite (W c E), (IH H). reflexivity.
  - cbn [allChars]. auto.
Qed.

Lemma allChars_trimEnd_inv (p : ascii -> bool) s :
  (forall c, isWhiteSpace c = true -> p c = true) ->
  allChars p (trimEnd s) = true -> allChars p s = true.
Proof.
  intros W. induction s as [|c s IH]; cbn [trimEnd allChars]; [reflexivity|].
  destruct (trimEnd s) as [|d t] eqn:E.
  - destruct (isWhiteSpace c) eqn:Wc.
    + intros _. rewrite (W c Wc), (IH eq_refl). reflexivity.
    + cbn [allChars]. intros H. apply andb_prop in H as [H _].
      rewrite H, (IH eq_refl). reflexivity.
  - cbn [allChars]. intros H. apply andb_prop in H as [H1 H2].
    rewrite H1. cbn [andb]. apply IH. exact H2.
Qed.

Lemma noDash_white c : isWhiteSpace c = true -> noDash c = true.
Proof. destruct c as [[] [] [] [] [] [] [] []]; cbv; congruence. Qed.

Lemma noDash_trim s : allChars noDash (trim s) = true -> allChars noDash s = true.
Proof.
  unfold trim. intros H.
  apply (allChars_trimStart_inv _ _ noDash_white).
  apply (allChars_trimEnd_inv _ _ noDash_white). exact H.
Qed.

Lemma noDash_digit c : Backend.isDigit c = true -> noDash c = true.
Proof. destruct c as [[] [] [] [] [] [] [] []]; cbv; congruence. Qed.

(** On an ASCII row label that is, once trimmed, a Roman numeral of the
    table (in either case) or a string of decimal digits, the route and
    the page normalise alike; so do they on a seat key whose row is such a
    label. *)
Theorem normalizers_agree_on_numerals (row : string) :
  allChars isAscii row = true ->
  romanValue (toUpperCase (trim row)) <> None
  \/ (trim row <> "" /\ allChars Backend.isDigit (trim row) = true) ->
  Backend.normalizeRowName row = Frontend.normalizeRowName row
  /\ forall seat,
       Backend.normalizeSeatKey (row +:+ "-" +:+ seat)
       = Frontend.normalizeSeatKey (row +:+ "-" +:+ seat).
Proof.
  intros _ H.
  assert (A : Backend.normalizeRowName row = Frontend.normalizeRowName row).
  { unfold Backend.normalizeRowName, Frontend.normalizeRowName.
    rewrite trim_toUpperCase.
    destruct (romanValue (toUpperCase (trim row))) as [v|] eqn:R; [reflexivity|].
    destruct H as [H|[N D]]; [congruence|].
    destruct (digits_fixed _ D) as [_ U]. rewrite U in R |- *.
    assert (W : Backend.wholeNumeral (trim row) = true).
    { unfold Backend.wholeNumeral. destruct (trim row); [congruence|].
      rewrite D. reflexivity. }
    rewrite (matchTrailingNumeral_whole _ W), R. reflexivity. }
  split; [exact A|]. intros seat.
  assert (D : allChars noDash row = true).
  { apply noDash_trim. destruct H as [H|[_ D]].
    - apply noDash_toUpperCase.
      destruct (romanValue (toUpperCase (trim row))) as [v|] eqn:R; [|congruence].
      exact (romanValue_noDash _ _ R).
    - exact (allChars_weaken _ _ _ noDash_digit D). }
  unfold Backend.normalizeSeatKey, Frontend.normalizeSeatKey.
  rewrite (split_noDash row seat D).
  destruct (split_cons "-" seat) as (q & qs & ->). rewrite A. reflexivity.
Qed.

Lemma normalizers_agree_on_numerals_witness :
  Backend.normalizeRowName " vii " = Frontend.normalizeRowName " vii "
  /\ forall seat,
       Backend.normalizeSeatKey (" vii " +:+ "-" +:+ seat)
       = Frontend.normalizeSeatKey (" vii " +:+ "-" +:+ seat).
Proof.
  apply (normalizers_agree_on_numerals " vii ").
  - vm_compute. reflexivity.
  - left. vm_compute. discriminate.
Defined.

Example normalizers_on_numerals :
  Backend.normalizeSeatKey " vii -12" = "7-12"
  /\ Frontend.normalizeSeatKey " vii -12" = "7-12"
  /\ Backend.normalizeSeatKey "012-3" = "012-3"
  /\ Frontend.normalizeSeatKey "012-3" = "012-3".
Proof. vm_compute. auto. Qed.

(** ** The counters of the page *)

Lemma countColor_counted stats color :
  countedSeats (Page.countColor stats color) = (countedSeats stats + 1)%Z.
Proof.
  destruct stats. unfold Page.countColor, countedSeats.
  repeat match goal with
         | |- context [String.eqb ?a ?b] => destruct (String.eqb a b)
         end; cbn; lia.
Qed.

Lemma calculateStatsFromColors_ext baseColors edited edited' totalSeats totalSeats' :
  (forall k, k ∈ dom baseColors -> edited !! k = edited' !! k) ->
  Page.calculateStatsFromColors baseColors edited totalSeats
  = Page.calculateStatsFromColors baseColors edited' totalSeats'.
Proof.
  unfold Page.calculateStatsFromColors. rewrite !map_fold_foldr.
  intros H.
  assert (G : forall l : list (string * string),
    (forall kv, kv ∈ l -> edited !! kv.1 = edited' !! kv.1) ->
    foldr (uncurry (fun seatKey baseColor stats =>
             Page.countColor stats (Frontend.mergeColors baseColor (edited !! seatKey))))
          Page.noCounts l
    = foldr (uncurry (fun seatKey baseColor stats =>
               Page.countColor stats (Frontend.mergeColors baseColor (edited' !! seatKey))))
            Page.noCounts l).
  { induction l as [|[k v] l IH]; intros Hl; cbn [foldr uncurry]; [reflexivity|].
    rewrite IH by (intros kv I; apply Hl; right; exact I).
    assert (E : edited !! k = edited' !! k) by (apply (Hl (k, v)); left).
    rewrite E. reflexivity. }
  apply G. intros [k v] I. apply H. apply elem_of_dom.
  apply elem_of_map_to_list in I. eexists. exact I.
Qed.

(** [calculateStatsFromColors] counts every seat of the map once, in one
    of its ten categories: the counters add up to the number of seats of
    [baseColors].  Overrides for keys that are not on the map, and the
    parameter [totalSeats], have no effect. *)
Theorem calculateStatsFromColors_counts_each_seat
    (baseColors edited : gmap string string) (totalSeats : Z) :
  countedSeats (Page.calculateStatsFromColors baseColors edited totalSeats)
  = Z.of_nat (size baseColors)
  /\ Page.calculateStatsFromColors baseColors edited totalSeats
     = Page.calculateStatsFromColors baseColors
         (filter (fun kv => kv.1 ∈ dom baseColors) edited) 0.
Proof.
  split.
  - unfold Page.calculateStatsFromColors.
    apply (map_fold_weak_ind
             (fun r (m : gmap string string) => countedSeats r = Z.of_nat (size m))).
    + reflexivity.
    + intros k v m r Hk IH. rewrite countColor_counted, IH.
      rewrite map_size_insert_None by exact Hk. lia.
  - apply calculateStatsFromColors_ext. intros k Hk.
    destruct (edited !! k) as [c|] eqn:E.
    + symmetry. apply map_lookup_filter_Some. split; [exact E|exact Hk].
    + symmetry. apply map_lookup_filter_None. left. exact E.
Qed.

(** ** The counters of a sector's visualisation *)

Lemma colorSeat_counts kbSector statusesMap inferredSold row p seatName :
  let p' := Frontend.colorSeat kbSector statusesMap inferredSold row p seatName in
  Frontend.totalSeatsCount p' = (Frontend.totalSeatsCount p + 1)%Z
  /\ paintedSeats (Frontend.colorStats p') = (paintedSeats (Frontend.colorStats p) + 1)%Z
  /\ (size (Frontend.seatColors p') <= S (size (Frontend.seatColors p)))%nat
  /\ (inferredSold = None ->
      takenSeatsPainted (Frontend.colorStats p')
      = takenSeatsPainted (Frontend.colorStats p)).
Proof.
  cbn zeta. unfold Frontend.colorSeat, paintedSeats, takenSeatsPainted,
    Frontend.countFree, Frontend.countTaken, Frontend.countNoData.
  destruct (Frontend.firstFreePortal _ _) as [portal|].
  - cbn [Frontend.totalSeatsCount Frontend.colorStats Frontend.seatColors].
    refine (conj eq_refl (conj _ (conj _ _))).
    + destruct portal, (Frontend.colorStats p); cbn; lia.
    + rewrite map_size_insert. destruct (_ !! _); unfold id; lia.
    + intros _. destruct portal, (Frontend.colorStats p); reflexivity.
  - destruct (Frontend.inferredSoldAt inferredSold _) as [soldSource|] eqn:I.
    + cbn [Frontend.totalSeatsCount Frontend.colorStats Frontend.seatColors].
      refine (conj eq_refl (conj _ (conj _ _))).
      * destruct soldSource, (Frontend.colorStats p); cbn; lia.
      * rewrite map_size_insert. destruct (_ !! _); unfold id; lia.
      * intros ->. discriminate.
    + cbn [Frontend.totalSeatsCount Frontend.colorStats Frontend.seatColors].
      refine (conj eq_refl (conj _ (conj _ _))).
      * destruct (Frontend.colorStats p); cbn; lia.
      * rewrite map_size_insert. destruct (_ !! _); unfold id; lia.
      * intros _. destruct (Frontend.colorStats p); reflexivity.
Qed.

Lemma colorSeats_counts kbSector statusesMap inferredSold row names p :
  let p' := fold_left (Frontend.colorSeat kbSector statusesMap inferredSold row)
                      names p in
  Frontend.totalSeatsCount p'
  = (Frontend.totalSeatsCount p + Z.of_nat (length names))%Z
  /\ paintedSeats (Frontend.colorStats p')
     = (paintedSeats (Frontend.colorStats p) + Z.of_nat (length names))%Z
  /\ (size (Frontend.seatColors p') <= size (Frontend.seatColors p) + length names)%nat
  /\ (inferredSold = None ->
      takenSeatsPainted (Frontend.colorStats p')
      = takenSeatsPainted (Frontend.colorStats p)).
Proof.
  revert p. induction names as [|name names IH]; intros p; cbn [fold_left length].
  - cbn zeta. refine (conj _ (conj _ (conj _ _))); auto; lia.
  - destruct (IH (Frontend.colorSeat kbSector statusesMap inferredSold row p name))
      as (A1 & A2 & A3 & A4).
    destruct (colorSeat_counts kbSector statusesMap inferredSold row p name)
      as (B1 & B2 & B3 & B4).
    cbn zeta in *. rewrite A1, A2, B1, B2.
    refine (conj _ (conj _ (conj _ _))); try lia.
    intros N. rewrite (A4 N), (B4 N). reflexivity.
Qed.

Lemma colorRows_counts kbSector statusesMap inferredSold
    (entries : list (string * list string)) p :
  let p' := fold_left (Frontend.colorRow kbSector statusesMap inferredSold) entries p in
  Frontend.totalSeatsCount p'
  = (Frontend.totalSeatsCount p + Z.of_nat (length (concat entries.*2)))%Z
  /\ paintedSeats (Frontend.colorStats p')
     = (paintedSeats (Frontend.colorStats p) + Z.of_nat (length (concat entries.*2)))%Z
  /\ (size (Frontend.seatColors p')
      <= size (Frontend.seatColors p) + length (concat entries.*2))%nat
  /\ (inferredSold = None ->
      takenSeatsPainted (Frontend.colorStats p')
      = takenSeatsPainted (Frontend.colorStats p)).
Proof.
  revert p. induction entries as [|[row names] entries IH]; intros p;
    cbn [fold_left fmap list_fmap concat snd].
  - cbn zeta. cbn [length]. refine (conj _ (conj _ (conj _ _))); auto; lia.
  - unfold Frontend.colorRow at 2 4 6 8. cbn [fst snd].
    destruct (IH (fold_left (Frontend.colorSeat kbSector statusesMap inferredSold row)
                            names p)) as (A1 & A2 & A3 & A4).
    destruct (colorSeats_counts kbSector statusesMap inferredSold row names p)
      as (B1 & B2 & B3 & B4).
    cbn zeta in *. rewrite A1, A2, B1, B2, length_app.
    refine (conj _ (conj _ (conj _ _))); try lia.
    intros N. rewrite (A4 N), (B4 N). reflexivity.
Qed.

(** The counters of [calculateSectorVisualizationWithBase] add up: the
    seven counters sum to [totalSeats], which is the number of seat names
    listed in the rows of the layout; the map of colours has at most that
    many seats; and without inferred sales no seat is counted, or
    coloured, as taken on any vendor. *)
Theorem sectorVisualization_counts (parseInt : string -> spec_float)
    (kbSector : SectorStats) (perSource : Frontend.PerSource)
    (inferredSold : option (gmap string SourceType)) :
  let viz := Frontend.calculateSectorVisualizationWithBase parseInt kbSector perSource
               inferredSold in
  paintedSeats (Frontend.viz_colorStats viz) = Frontend.viz_totalSeats viz
  /\ Frontend.viz_totalSeats viz
     = Z.of_nat (length (concat (map_to_list (Frontend.viz_seatsPerRow viz)).*2))
  /\ (Z.of_nat (size (Frontend.viz_seatColors viz)) <= Frontend.viz_totalSeats viz)%Z
  /\ takenSeatsPainted
       (Frontend.viz_colorStats
          (Frontend.calculateSectorVisualizationWithBase parseInt kbSector perSource
             None))
     = 0%Z.
Proof.
  cbn zeta. unfold Frontend.calculateSectorVisualizationWithBase.
  cbn [Frontend.viz_colorStats Frontend.viz_totalSeats Frontend.viz_seatsPerRow
       Frontend.viz_seatColors].
  set (lay := Frontend.buildLayout kbSector perSource).
  destruct (colorRows_counts kbSector (Frontend.seatStatuses lay) inferredSold
              (map_to_list (Frontend.sortSeats parseInt <$> Frontend.seatsPerRow lay))
              {| Frontend.seatColors := ∅; Frontend.totalSeatsCount := 0;
                 Frontend.colorStats := Frontend.mkColorStats 0 0 0 0 0 0 0 |})
    as (A1 & A2 & A3 & _).
  destruct (colorRows_counts kbSector (Frontend.seatStatuses lay) None
              (map_to_list (Frontend.sortSeats parseInt <$> Frontend.seatsPerRow lay))
              {| Frontend.seatColors := ∅; Frontend.totalSeatsCount := 0;
                 Frontend.colorStats := Frontend.mkColorStats 0 0 0 0 0 0 0 |})
    as (_ & _ & _ & B4).
  cbn zeta in *.
  cbn [Frontend.totalSeatsCount Frontend.colorStats Frontend.seatColors] in A1, A2, A3, B4.
  rewrite map_size_empty in A3.
  rewrite A1, A2. refine (conj _ (conj _ (conj _ _))).
  - reflexivity.
  - lia.
  - lia.
  - rewrite (B4 eq_refl). reflexivity.
Qed.

(** ** The event id *)

Lemma toInt32_shift x k : EventJoin.toInt32 (x + k * 2 ^ 32) = EventJoin.toInt32 x.
Proof.
  unfold EventJoin.toInt32.
  replace (x + k * 2 ^ 32 + 2 ^ 31)%Z with (x + 2 ^ 31 + k * 2 ^ 32)%Z by ring.
  rewrite Z_mod_plus_full. reflexivity.
Qed.

Lemma toInt32_repr x : exists k, EventJoin.toInt32 x = (x + k * 2 ^ 32)%Z.
Proof.
  unfold EventJoin.toInt32. exists (- ((x + 2 ^ 31) / 2 ^ 32))%Z.
  rewrite (Z.mod_eq (x + 2 ^ 31) (2 ^ 32)) by (intros E; discriminate E).
  ring.
Qed.

Lemma toInt32_range x : (- 2 ^ 31 <= EventJoin.toInt32 x < 2 ^ 31)%Z.
Proof.
  unfold EventJoin.toInt32.
  pose proof (Z.mod_pos_bound (x + 2 ^ 31) (2 ^ 32) eq_refl) as B.
  change (2 ^ 32)%Z with 4294967296%Z in *. change (2 ^ 31)%Z with 2147483648%Z in *.
  lia.
Qed.

Lemma hashStep_poly h c :
  EventJoin.hashStep h c = EventJoin.toInt32 (31 * h + c).
Proof.
  unfold EventJoin.hashStep.
  destruct (toInt32_repr h) as [k1 ->].
  destruct (toInt32_repr ((h + k1 * 2 ^ 32) * 2 ^ 5)) as [k2 ->].
  replace ((h + k1 * 2 ^ 32) * 2 ^ 5 + k2 * 2 ^ 32 - h + c)%Z
    with (31 * h + c + (32 * k1 + k2) * 2 ^ 32)%Z by ring.
  apply toInt32_shift.
Qed.

Lemma hashLoop_poly str h :
  fold_left EventJoin.hashStep str (EventJoin.toInt32 h)
  = EventJoin.toInt32 (polynomial31 str h).
Proof.
  unfold polynomial31. revert h. induction str as [|c str IH]; intros h; cbn [fold_left].
  - reflexivity.
  - rewrite hashStep_poly. destruct (toInt32_repr h) as [k ->].
    replace (31 * (h + k * 2 ^ 32) + c)%Z with (31 * h + c + 31 * k * 2 ^ 32)%Z by ring.
    rewrite toInt32_shift. apply IH.
Qed.

(** [hashString] is the polynomial hash of base 31 of the code units,
    wrapped to a signed 32-bit integer, without its sign; it lies between
    0 and 2^31, both included. *)
Theorem hashString_polynomial (str : Utf16.codeUnits) :
  EventJoin.hashString str = Z.abs (EventJoin.toInt32 (polynomial31 str 0))
  /\ (0 <= EventJoin.hashString str <= 2 ^ 31)%Z.
Proof.
  assert (E : EventJoin.hashString str
              = Z.abs (EventJoin.toInt32 (polynomial31 str 0))).
  { unfold EventJoin.hashString.
    change (fold_left EventJoin.hashStep str 0%Z)
      with (fold_left EventJoin.hashStep str (EventJoin.toInt32 0)).
    rewrite hashLoop_poly. reflexivity. }
  split; [exact E|]. rewrite E.
  pose proof (toInt32_range (polynomial31 str 0)) as B.
  change (2 ^ 31)%Z with 2147483648%Z in *. lia.
Qed.

Example hashString_of_ab :
  EventJoin.hashString (Utf16.ofAscii "ab") = 3105%Z
  /\ EventJoin.toString36 3105 = Utf16.ofAscii "2e9".
Proof. vm_compute. auto. Qed.

(** ** The title hash of the event id *)

Lemma digits36_acc fuel : forall n acc,
  EventJoin.digits36 fuel n acc = EventJoin.digits36 fuel n [] ++ acc.
Proof.
  induction fuel as [|fuel IH]; intros n acc; cbn [EventJoin.digits36].
  - reflexivity.
  - destruct (n <? 36)%Z; [reflexivity|].
    rewrite (IH _ (_ :: acc)), (IH _ [_]), <- app_assoc. reflexivity.
Qed.

Lemma value36_snoc digits c :
  value36 (digits ++ [c])
  = (36 * value36 digits + (if c <? 58 then c - 48 else c - 87))%Z.
Proof. unfold value36. rewrite fold_left_app. reflexivity. Qed.

Lemma digit36_value d :
  (0 <= d < 36)%Z ->
  (if EventJoin.digit36 d <? 58 then EventJoin.digit36 d - 48
   else EventJoin.digit36 d - 87)%Z = d.
Proof.
  intros H. unfold EventJoin.digit36.
  destruct (d <? 10)%Z eqn:E.
  - apply Z.ltb_lt in E. destruct (48 + d <? 58)%Z eqn:F; [lia|].
    apply Z.ltb_ge in F. lia.
  - apply Z.ltb_ge in E. destruct (87 + d <? 58)%Z eqn:F; [|lia].
    apply Z.ltb_lt in F. lia.
Qed.

Lemma digits36_value fuel : forall n,
  (0 <= n < 2 ^ Z.of_nat fuel)%Z ->
  value36 (EventJoin.digits36 fuel n []) = n.
Proof.
  induction fuel as [|fuel IH]; intros n H.
  - change (2 ^ Z.of_nat 0)%Z with 1%Z in H.
    assert (n = 0%Z) as -> by lia. reflexivity.
  - cbn [EventJoin.digits36]. destruct (n <? 36)%Z eqn:E.
    + apply Z.ltb_lt in E. unfold value36. cbn [fold_left].
      rewrite digit36_value by lia. lia.
    + apply Z.ltb_ge in E. rewrite digits36_acc, value36_snoc.
      rewrite Nat2Z.inj_succ, Z.pow_succ_r in H by lia.
      pose proof (Z.mod_pos_bound n 36 eq_refl) as M.
      rewrite digit36_value by lia.
      rewrite IH.
      * pose proof (Z.div_mod n 36 ltac:(lia)). lia.
      * split; [apply Z.div_pos; lia|].
        apply Z.div_lt_upper_bound; lia.
Qed.

Lemma toString36_value n : (0 <= n)%Z -> value36 (EventJoin.toString36 n) = n.
Proof.
  intros H. unfold EventJoin.toString36. apply digits36_value.
  split; [exact H|].
  destruct (Z.eq_dec n 0%Z) as [->|N]; [reflexivity|].
  rewrite Nat2Z.inj_succ, Z2Nat.id by apply Z.log2_nonneg.
  apply Z.log2_spec. lia.
Qed.

Lemma digits36_length k : forall fuel n,
  (0 <= n < 36 ^ Z.of_nat (S k))%Z ->
  (length (EventJoin.digits36 fuel n []) <= S k)%nat.
Proof.
  induction k as [|k IH]; intros fuel n H.
  - change (36 ^ Z.of_nat 1)%Z with 36%Z in H.
    destruct fuel as [|fuel]; cbn [EventJoin.digits36]; [cbn; lia|].
    destruct (n <? 36)%Z eqn:E; [cbn; lia|]. apply Z.ltb_ge in E. lia.
  - destruct fuel as [|fuel]; cbn [EventJoin.digits36]; [cbn; lia|].
    destruct (n <? 36)%Z eqn:E; [cbn; lia|]. apply Z.ltb_ge in E.
    rewrite digits36_acc, length_app. cbn [length].
    rewrite Nat2Z.inj_succ, Z.pow_succ_r in H by lia.
    assert (length (EventJoin.digits36 fuel (n / 36) []) <= S k)%nat.
    { apply IH. split; [apply Z.div_pos; lia|].
      apply Z.div_lt_upper_bound; lia. }
    lia.
Qed.

(** The title part of an event id is the whole numeral of the title's
    hash in base 36: a hash has at most six such digits, so that
    [substring(0, 6)] cuts nothing off, and the numeral read back is the
    hash.  Two titles thus get the same part exactly when they have the same
    hash. *)
Theorem titleHash_whole_numeral (title : Utf16.codeUnits) :
  let hash := EventJoin.hashString title in
  EventJoin.substring0 6 (EventJoin.toString36 hash) = EventJoin.toString36 hash
  /\ value36 (EventJoin.substring0 6 (EventJoin.toString36 hash)) = hash.
Proof.
  intros hash.
  assert (R : (0 <= hash <= 2147483648)%Z).
  { unfold hash, EventJoin.hashString.
    change (fold_left EventJoin.hashStep title 0%Z)
      with (fold_left EventJoin.hashStep title (EventJoin.toInt32 0)).
    rewrite hashLoop_poly.
    pose proof (toInt32_range (polynomial31 title 0)) as B.
    change (2 ^ 31)%Z with 2147483648%Z in B. lia. }
  assert (E : EventJoin.substring0 6 (EventJoin.toString36 hash)
              = EventJoin.toString36 hash).
  { unfold EventJoin.substring0. apply take_ge.
    unfold EventJoin.toString36. apply (digits36_length 5).
    change (36 ^ Z.of_nat 6)%Z with 2176782336%Z. lia. }
  split; [exact E|]. rewrite E. apply toString36_value. lia.
Qed.

(** ** [joinEvents] *)

Lemma groupOf_app key a b : groupOf key (a ++ b) = groupOf key a ++ groupOf key b.
Proof. apply List.filter_app. Qed.

Lemma groupOf_one key e :
  groupOf key [e] = if decide (EventJoin.createJoinKey e = key) then [e] else [].
Proof.
  unfold groupOf. cbn [List.filter].
  destruct (decide (EventJoin.createJoinKey e = key)) as [E|E].
  - rewrite bool_decide_eq_true_2 by exact E. reflexivity.
  - rewrite bool_decide_eq_false_2 by exact E. reflexivity.
Qed.

Lemma groupOf_elem key rawEvents e :
  e ∈ groupOf key rawEvents <-> e ∈ rawEvents /\ EventJoin.createJoinKey e = key.
Proof.
  unfold groupOf. rewrite !list_elem_of_In, List.filter_In, bool_decide_eq_true.
  reflexivity.
Qed.

Lemma groupOf_absent key rawEvents :
  (forall e, e ∈ rawEvents -> EventJoin.createJoinKey e <> key) ->
  groupOf key rawEvents = [].
Proof.
  intros H. destruct (groupOf key rawEvents) as [|e l] eqn:E; [reflexivity|].
  assert (I : e ∈ groupOf key rawEvents) by (rewrite E; left).
  apply groupOf_elem in I as [I K]. destruct (H e I K).
Qed.

Lemma addToGroup_keys key e : forall groups,
  (EventJoin.addToGroup key e groups).*1
  = if decide (key ∈ groups.*1) then groups.*1 else groups.*1 ++ [key].
Proof.
  induction groups as [|[k es] rest IH]; cbn [EventJoin.addToGroup fmap list_fmap fst].
  - destruct (decide (key ∈ [])) as [I|_]; [inversion I|reflexivity].
  - destruct (decide (k = key)) as [->|N]; cbn [fmap list_fmap fst].
    + destruct (decide (key ∈ key :: rest.*1)) as [_|O]; [reflexivity|].
      destruct O. left.
    + change (list_fmap _ _ fst ?l) with (l.*1). rewrite IH.
      destruct (decide (key ∈ rest.*1)) as [I|O].
      * destruct (decide (key ∈ k :: rest.*1)) as [_|O']; [reflexivity|].
        destruct O'. right. exact I.
      * destruct (decide (key ∈ k :: rest.*1)) as [I'|_]; [|reflexivity].
        inversion I'; subst; [destruct N; reflexivity|contradiction].
Qed.

Lemma addToGroup_groups rawEvents e : forall groups,
  NoDup groups.*1 ->
  Forall (fun g => g.2 <> [] /\ g.2 = groupOf g.1 rawEvents) groups ->
  (EventJoin.createJoinKey e ∉ groups.*1 ->
   groupOf (EventJoin.createJoinKey e) rawEvents = []) ->
  Forall (fun g => g.2 <> [] /\ g.2 = groupOf g.1 (rawEvents ++ [e]))
         (EventJoin.addToGroup (EventJoin.createJoinKey e) e groups).
Proof.
  induction groups as [|[k es] rest IH]; intros D F A;
    cbn [EventJoin.addToGroup].
  - constructor; [|constructor]. cbn [fst snd]. split; [discriminate|].
    rewrite groupOf_app, groupOf_one, A by (intros I; inversion I).
    destruct (decide _) as [_|N]; [reflexivity|destruct N; reflexivity].
  - cbn [fmap list_fmap fst] in D. change (list_fmap _ _ fst rest) with (rest.*1) in D.
    apply NoDup_cons in D as [O D].
    inversion F as [|? ? [G1 G2] F']; subst. cbn [fst snd] in G1, G2.
    destruct (decide (k = EventJoin.createJoinKey e)) as [->|N].
    + constructor.
      * cbn [fst snd]. split; [destruct es; discriminate|].
        rewrite groupOf_app, groupOf_one, <- G2.
        destruct (decide _) as [_|N]; [reflexivity|destruct N; reflexivity].
      * rewrite Forall_forall in F'. apply Forall_forall. intros g I.
        destruct (F' g I) as [H1 H2]. split; [exact H1|].
        rewrite groupOf_app, groupOf_one, <- H2.
        destruct (decide _) as [E|_]; [|rewrite app_nil_r; reflexivity].
        destruct O. rewrite E. apply list_elem_of_fmap. exists g. auto.
    + constructor.
      * cbn [fst snd]. split; [exact G1|].
        rewrite groupOf_app, groupOf_one, <- G2.
        destruct (decide _) as [E|_]; [|rewrite app_nil_r; reflexivity].
        destruct N. symmetry. exact E.
      * apply IH; [exact D|exact F'|].
        intros O'. apply A. intros I.
        cbn [fmap list_fmap fst] in I. inversion I; subst; [destruct N; reflexivity|].
        contradiction.
Qed.

Lemma addToGroup_grouped rawEvents groups e :
  grouped rawEvents groups ->
  grouped (rawEvents ++ [e])
          (EventJoin.addToGroup (EventJoin.createJoinKey e) e groups).
Proof.
  intros (D & F & A). refine (conj _ (conj _ _)).
  - rewrite addToGroup_keys. destruct (decide _) as [_|O]; [exact D|].
    apply NoDup_app. refine (conj D (conj _ _)).
    + intros k I J. apply list_elem_of_singleton in J. subst. contradiction.
    + apply NoDup_singleton.
  - apply addToGroup_groups; [exact D|exact F|].
    intros O. apply groupOf_absent. intros e' I E. apply O. rewrite <- E. apply A, I.
  - intros e' I. rewrite addToGroup_keys.
    apply elem_of_app in I as [I|I].
    + destruct (decide _); [apply A, I|apply elem_of_app; left; apply A, I].
    + apply list_elem_of_singleton in I. subst.
      destruct (decide _) as [J|_]; [exact J|].
      apply elem_of_app. right. left.
Qed.

Lemma groupLoop_grouped events : forall rawEvents groups,
  grouped rawEvents groups ->
  grouped (rawEvents ++ events)
          (fold_left (fun eventGroups event =>
                        EventJoin.addToGroup (EventJoin.createJoinKey event) event
                                             eventGroups)
                     events groups).
Proof.
  induction events as [|e events IH]; intros rawEvents groups G; cbn [fold_left].
  - rewrite app_nil_r. exact G.
  - replace (rawEvents ++ e :: events) with ((rawEvents ++ [e]) ++ events)
      by (rewrite <- app_assoc; reflexivity).
    apply IH, addToGroup_grouped, G.
Qed.

Lemma groupEvents_grouped rawEvents :
  grouped rawEvents (EventJoin.groupEvents rawEvents).
Proof.
  apply (groupLoop_grouped rawEvents [] []).
  refine (conj _ (conj _ _)); [constructor|constructor|].
  intros e I. inversion I.
Qed.

(** *** The event chosen for a group *)

Lemma bestLoop_spec es : forall a best,
  fold_left (fun a b : EventJoin.RawEvent =>
               if (length (EventJoin.title b) <=? length (EventJoin.title a))%nat
               then a else b) es a = best ->
  best ∈ a :: es
  /\ Forall (fun e => (length (EventJoin.title e) <= length (EventJoin.title best))%nat)
            (a :: es).
Proof.
  induction es as [|b es IH]; intros a best E; cbn [fold_left] in E.
  - subst. split; [apply list_elem_of_here|]. constructor; [lia|constructor].
  - destruct (length (EventJoin.title b) <=? length (EventJoin.title a))%nat eqn:L.
    + apply Nat.leb_le in L. destruct (IH a best E) as [I F]. split.
      * apply elem_of_cons in I as [->|I];
          [apply list_elem_of_here|do 2 apply list_elem_of_further; exact I].
      * apply Forall_cons_1 in F as [F1 F2].
        constructor; [exact F1|]. constructor; [lia|exact F2].
    + apply Nat.leb_gt in L. destruct (IH b best E) as [I F]. split.
      * apply list_elem_of_further. exact I.
      * apply Forall_cons_1 in F as [F1 F2].
        constructor; [lia|]. constructor; [exact F1|exact F2].
Qed.

Lemma bestEventOf_spec events :
  events <> [] ->
  exists best,
    EventJoin.bestEventOf events = Some best
    /\ best ∈ events
    /\ Forall (fun e => (length (EventJoin.title e) <= length (EventJoin.title best))%nat)
              events.
Proof.
  destruct events as [|a es]; [intros H; destruct H; reflexivity|intros _].
  eexists. split; [reflexivity|]. apply bestLoop_spec. reflexivity.
Qed.

(** *** The sources of a group *)

Lemma fromSource_snoc src events e :
  fromSource src (events ++ [e])
  = fromSource src events ++ (if decide (EventJoin.source e = src) then [e] else []).
Proof.
  unfold fromSource. rewrite List.filter_app. cbn [List.filter].
  destruct (decide (EventJoin.source e = src)) as [E|E].
  - rewrite bool_decide_eq_true_2 by exact E. reflexivity.
  - rewrite bool_decide_eq_false_2 by exact E. reflexivity.
Qed.

Lemma setSource_on s e src :
  EventJoin.sourceOn (EventJoin.setSource s e) src
  = if decide (EventJoin.source e = src) then Some (sourceDataOf e)
    else EventJoin.sourceOn s src.
Proof.
  unfold EventJoin.setSource, sourceDataOf.
  destruct (EventJoin.source e), src; cbn; reflexivity.
Qed.

Lemma sourceLoop_spec src events :
  EventJoin.sourceOn (fold_left EventJoin.setSource events EventJoin.noSources) src
  = sourceDataOf <$> last (fromSource src events).
Proof.
  induction events as [|e events IH] using rev_ind.
  - destruct src; reflexivity.
  - rewrite fold_left_app. cbn [fold_left]. rewrite setSource_on, fromSource_snoc.
    destruct (decide _) as [E|E].
    + rewrite last_snoc. reflexivity.
    + rewrite app_nil_r. exact IH.
Qed.

(** *** The groups joined *)

Lemma joinGroups_Some : forall groups,
  Forall (fun g : Utf16.codeUnits * list EventJoin.RawEvent => g.2 <> []) groups ->
  exists joined,
    EventJoin.joinGroups groups = Some joined
    /\ Forall2 (fun g j => EventJoin.joinGroup g.2 = Some j) groups joined.
Proof.
  induction groups as [|[k es] rest IH]; intros F; cbn [EventJoin.joinGroups].
  - exists []. split; [reflexivity|constructor].
  - inversion F as [|? ? N F']; subst. cbn [snd] in N.
    destruct (IH F') as (js & -> & F2).
    destruct (bestEventOf_spec es N) as (best & B & _).
    unfold EventJoin.joinGroup at 1. rewrite B. cbn zeta.
    eexists. split; [reflexivity|]. constructor; [|exact F2].
    cbn [snd]. unfold EventJoin.joinGroup. rewrite B. reflexivity.
Qed.

Section Sorted.

Variable localeCompare : Utf16.codeUnits -> Utf16.codeUnits -> Z.

Lemma insertByDate_perm event : forall sorted,
  EventJoin.insertByDate localeCompare event sorted ≡ₚ event :: sorted.
Proof.
  induction sorted as [|other rest IH]; cbn [EventJoin.insertByDate].
  - reflexivity.
  - destruct (_ <? 0)%Z; [reflexivity|].
    rewrite IH. apply Permutation_swap.
Qed.

Lemma sortLoop_perm events : forall sorted,
  fold_left (fun sorted event => EventJoin.insertByDate localeCompare event sorted)
            events sorted
  ≡ₚ sorted ++ events.
Proof.
  induction events as [|e events IH]; intros sorted; cbn [fold_left].
  - rewrite app_nil_r. reflexivity.
  - rewrite IH, insertByDate_perm. apply Permutation_middle.
Qed.

Lemma sortByDate_perm events :
  EventJoin.sortByDate localeCompare events ≡ₚ events.
Proof. unfold EventJoin.sortByDate. apply sortLoop_perm. Qed.

(** What [joinEvents] returns: the groups of the events joined one by
    one, in some order. *)
Lemma joinEvents_spec rawEvents :
  exists groups unsorted,
    grouped rawEvents groups
    /\ Forall2 (fun g j => EventJoin.joinGroup g.2 = Some j) groups unsorted
    /\ EventJoin.joinEvents localeCompare rawEvents
       = Some (EventJoin.sortByDate localeCompare unsorted).
Proof.
  pose proof (groupEvents_grouped rawEvents) as G.
  destruct (joinGroups_Some (EventJoin.groupEvents rawEvents)) as (js & E & F).
  { destruct G as (_ & F & _). eapply Forall_impl; [exact F|].
    intros g [N _]. exact N. }
  exists (EventJoin.groupEvents rawEvents), js.
  refine (conj G (conj F _)).
  unfold EventJoin.joinEvents. rewrite E. reflexivity.
Qed.

End Sorted.

Lemma joinGroup_key rawEvents key events j :
  events <> [] ->
  events = groupOf key rawEvents ->
  EventJoin.joinGroup events = Some j ->
  joinedKey j = key.
Proof.
  intros N E J. destruct (bestEventOf_spec events N) as (best & B & I & _).
  unfold EventJoin.joinGroup in J. rewrite B in J. cbn zeta in J.
  injection J as <-. unfold joinedKey. cbn.
  rewrite E in I. apply groupOf_elem in I as [_ K]. exact K.
Qed.

Lemma joined_keys rawEvents : forall groups unsorted,
  Forall (fun g => g.2 <> [] /\ g.2 = groupOf g.1 rawEvents) groups ->
  Forall2 (fun g j => EventJoin.joinGroup g.2 = Some j) groups unsorted ->
  joinedKey <$> unsorted = groups.*1.
Proof.
  intros groups unsorted F F2. induction F2 as [|g j groups unsorted J F2 IH].
  - reflexivity.
  - inversion F as [|? ? [N E] F']; subst. cbn [fmap list_fmap].
    f_equal; [|apply IH, F'].
    eapply joinGroup_key; eauto.
Qed.

(** [joinEvents] does not throw, and it returns one event for each join key
    of the events it is given: no two events returned have the same key,
    and a key is that of an event returned exactly when it is that of an
    event given. *)
Theorem joinEvents_one_per_key
    (localeCompare : Utf16.codeUnits -> Utf16.codeUnits -> Z)
    (rawEvents : list EventJoin.RawEvent) :
  exists joined,
    EventJoin.joinEvents localeCompare rawEvents = Some joined
    /\ NoDup (joinedKey <$> joined)
    /\ forall key,
         key ∈ joinedKey <$> joined
         <-> exists e, e ∈ rawEvents /\ EventJoin.createJoinKey e = key.
Proof.
  destruct (joinEvents_spec localeCompare rawEvents)
    as (groups & unsorted & (D & F & A) & F2 & E).
  exists (EventJoin.sortByDate localeCompare unsorted).
  assert (P : joinedKey <$> EventJoin.sortByDate localeCompare unsorted
              ≡ₚ groups.*1).
  { rewrite <- (joined_keys rawEvents groups unsorted F F2).
    apply fmap_Permutation, sortByDate_perm. }
  refine (conj E (conj _ _)).
  - rewrite P. exact D.
  - intros key. rewrite P. split.
    + intros I. apply list_elem_of_fmap in I as (g & -> & I).
      rewrite Forall_forall in F. destruct (F g I) as [N G].
      destruct (g.2) as [|e es] eqn:Eg; [destruct N; reflexivity|].
      exists e. apply (groupOf_elem (g.1) rawEvents e). rewrite <- G. left.
    + intros (e & I & <-). apply A, I.
Qed.

(** An event returned by [joinEvents] stands for the events given that
    have its join key: its title is the longest title among them, its id
    is made from an event of that title, and it has a source exactly when
    one of them comes from that source, with the link, the button and the
    venue of the last one that does. *)
Theorem joinEvents_event
    (localeCompare : Utf16.codeUnits -> Utf16.codeUnits -> Z)
    (rawEvents : list EventJoin.RawEvent)
    (joined : list EventJoin.JoinedEvent) (j : EventJoin.JoinedEvent) :
  EventJoin.joinEvents localeCompare rawEvents = Some joined ->
  j ∈ joined ->
  let group := groupOf (joinedKey j) rawEvents in
  (exists best,
     best ∈ group
     /\ EventJoin.joined_title j = EventJoin.title best
     /\ EventJoin.globalEventId j = EventJoin.generateEventId best
     /\ Forall (fun e => (length (EventJoin.title e)
                          <= length (EventJoin.joined_title j))%nat) group)
  /\ forall src,
       EventJoin.sourceOn (EventJoin.sources j) src
       = sourceDataOf <$> last (fromSource src group).
Proof.
  intros E I group.
  destruct (joinEvents_spec localeCompare rawEvents)
    as (groups & unsorted & (D & F & A) & F2 & E').
  rewrite E in E'. injection E' as ->.
  rewrite sortByDate_perm in I.
  apply list_elem_of_lookup in I as [i I].
  destruct (Forall2_lookup_r _ _ _ _ _ F2 I) as (g & Ig & J).
  rewrite Forall_forall in F.
  destruct (F g (list_elem_of_lookup_2 _ _ _ Ig)) as [N G].
  assert (K : joinedKey j = g.1) by (eapply joinGroup_key; eauto).
  assert (Eg : group = g.2) by (unfold group; rewrite K, <- G; reflexivity).
  rewrite Eg.
  destruct (bestEventOf_spec (g.2) N) as (best & B & Ib & L).
  unfold EventJoin.joinGroup in J. rewrite B in J. cbn zeta in J.
  injection J as <-. cbn. split.
  - exists best. auto.
  - intros src. apply sourceLoop_spec.
Qed.

Lemma joinEvents_event_witness :
  EventJoin.joined_title JoinSamples.krakow = Utf16.ofAscii "Koncert noworoczny"
  /\ EventJoin.getSourcesList JoinSamples.krakow = [biletyna; ebilet]
  /\ forall src,
       EventJoin.sourceOn (EventJoin.sources JoinSamples.krakow) src
       = sourceDataOf
           <$> last (fromSource src (groupOf (joinedKey JoinSamples.krakow)
                                              JoinSamples.scraped)).
Proof.
  refine (conj _ (conj _ _)).
  - vm_compute. reflexivity.
  - vm_compute. reflexivity.
  - apply (joinEvents_event JoinSamples.byCodeUnit JoinSamples.scraped
                            JoinSamples.joined JoinSamples.krakow).
    + vm_compute. reflexivity.
    + apply (list_elem_of_lookup_2 _ 1%nat). vm_compute. reflexivity.
Defined.

(** ** The events route *)

Lemma enrichLoop_spec urlCache events : forall out seen,
  let r := fold_left (EventsRoute.enrichStep urlCache) events (out, seen) in
  EventsRoute.evt <$> r.1 = (EventsRoute.evt <$> out) ++ events
  /\ r.2 = seen ∪ list_to_set (idsOf events)
  /\ (forall i, (i < length out)%nat -> r.1 !! i = out !! i)
  /\ forall i e,
       r.1 !! (length out + i)%nat = Some e ->
       (EventsRoute.isNew e = true
        <-> (EventJoin.globalEventId (EventsRoute.evt e) ∉ seen)
            /\ (EventJoin.globalEventId (EventsRoute.evt e) ∉ idsOf (take i events))).
Proof.
  induction events as [|e events IH]; intros out seen; cbn [fold_left].
  - cbn zeta. cbn [fst snd]. refine (conj _ (conj _ (conj _ _))).
    + rewrite app_nil_r. reflexivity.
    + unfold idsOf. cbn [fmap list_fmap list_to_set foldr].
      now rewrite (right_id_L ∅ (∪)).
    + reflexivity.
    + intros i x L. apply lookup_lt_Some in L. lia.
  - cbn zeta in *. unfold EventsRoute.enrichStep at 2 4 6 8. cbn [fst snd].
    match goal with
    | |- context [fold_left _ events (?o, ?s)] =>
        destruct (IH o s) as (A & B & C & D)
    end.
    clear IH.
    rewrite length_app in C, D. cbn [length] in C, D.
    refine (conj _ (conj _ (conj _ _))).
    + rewrite A, fmap_app, <- app_assoc. reflexivity.
    + rewrite B. clear A B C D. unfold idsOf.
      cbn [fmap list_fmap list_to_set foldr].
      change (list_fmap _ _ EventJoin.globalEventId events)
        with (EventJoin.globalEventId <$> events).
      apply set_eq. intros x.
      destruct (bool_decide _) eqn:S; cbn [negb].
      * apply bool_decide_eq_true in S.
        rewrite !elem_of_union, elem_of_singleton.
        split; [tauto|]. intros [H|[->|H]]; auto.
      * rewrite !elem_of_union, elem_of_singleton. tauto.
    + intros i L. rewrite C by lia. apply lookup_app_l. exact L.
    + intros i x L. destruct i as [|i].
      * rewrite Nat.add_0_r, C in L by lia.
        rewrite lookup_app_r, Nat.sub_diag in L by lia.
        injection L as <-. cbn [EventsRoute.isNew EventsRoute.evt take].
        rewrite negb_true_iff, bool_decide_eq_false.
        unfold idsOf. cbn [fmap list_fmap]. rewrite elem_of_nil. tauto.
      * replace (length out + S i)%nat with (length out + 1 + i)%nat in L by lia.
        apply D in L. rewrite L. clear A B C D L.
        cbn [take]. unfold idsOf. cbn [fmap list_fmap].
        change (list_fmap _ _ EventJoin.globalEventId (take i events))
          with (EventJoin.globalEventId <$> take i events).
        rewrite elem_of_cons.
        destruct (bool_decide _) eqn:S; cbn [negb].
        -- apply bool_decide_eq_true in S.
           split; intros [H1 H2]; (split; [exact H1|]).
           ++ intros [E|H]; [|contradiction]. apply H1. rewrite E. exact S.
           ++ intros H. apply H2. right. exact H.
        -- apply bool_decide_eq_false in S.
           rewrite elem_of_union, elem_of_singleton. tauto.
Qed.

Lemma enrich_spec urlCache seen events :
  let r := EventsRoute.enrich urlCache seen events in
  EventsRoute.evt <$> r.1 = events
  /\ r.2 = seen ∪ list_to_set (idsOf events)
  /\ forall i e,
       r.1 !! i = Some e ->
       (EventsRoute.isNew e = true
        <-> (EventJoin.globalEventId (EventsRoute.evt e) ∉ seen)
            /\ (EventJoin.globalEventId (EventsRoute.evt e) ∉ idsOf (take i events))).
Proof.
  destruct (enrichLoop_spec urlCache events [] seen) as (A & B & _ & D).
  cbn zeta in *. refine (conj A (conj B _)). intros i e. apply (D i e).
Qed.

Lemma scrapeAndJoin_Some localeCompare st urlCache scrapeResults updated :
  exists joined,
    EventJoin.joinEvents localeCompare
      (concat (EventsRoute.result_events <$> scrapeResults)) = Some joined
    /\ EventsRoute.scrapeAndJoin localeCompare st urlCache scrapeResults updated
       = Some ((EventsRoute.enrich urlCache (EventsRoute.seenFile st) joined).1,
               {| EventsRoute.eventsCache :=
                    {| EventsRoute.cached_events :=
                         (EventsRoute.enrich urlCache (EventsRoute.seenFile st) joined).1;
                       EventsRoute.lastUpdated := Some updated |};
                  EventsRoute.seenFile :=
                    (EventsRoute.enrich urlCache (EventsRoute.seenFile st) joined).2 |}).
Proof.
  destruct (joinEvents_spec localeCompare
              (concat (EventsRoute.result_events <$> scrapeResults)))
    as (groups & unsorted & _ & _ & E).
  eexists. split; [exact E|].
  unfold EventsRoute.scrapeAndJoin. cbn zeta. rewrite E. reflexivity.
Qed.

(** A refresh lists the joined events in their order and flags as new
    the events whose id is not in the file of the seen events and is not the
    id of an event earlier in the list; it adds the ids of all the events to
    the file. *)
Theorem POST_events_flags_new
    (localeCompare : Utf16.codeUnits -> Utf16.codeUnits -> Z)
    (st : EventsRoute.State) (urlCache : UrlCache.Cache)
    (scrapeResults : list EventsRoute.ScrapeResult) (updated : Z)
    (joined : list EventJoin.JoinedEvent) :
  EventJoin.joinEvents localeCompare
    (concat (EventsRoute.result_events <$> scrapeResults)) = Some joined ->
  exists reply st',
    EventsRoute.POST localeCompare st urlCache scrapeResults updated
    = (EventsRoute.success reply, st')
    /\ EventsRoute.evt <$> EventsRoute.reply_events reply = joined
    /\ EventsRoute.seenFile st'
       = EventsRoute.seenFile st ∪ list_to_set (idsOf joined)
    /\ forall i e,
         EventsRoute.reply_events reply !! i = Some e ->
         (EventsRoute.isNew e = true
          <-> (EventJoin.globalEventId (EventsRoute.evt e) ∉ EventsRoute.seenFile st)
              /\ (EventJoin.globalEventId (EventsRoute.evt e) ∉ idsOf (take i joined))).
Proof.
  intros J.
  destruct (scrapeAndJoin_Some localeCompare st urlCache scrapeResults updated)
    as (joined' & J' & E).
  rewrite J in J'. injection J' as <-.
  unfold EventsRoute.POST. rewrite E.
  destruct (enrich_spec urlCache (EventsRoute.seenFile st) joined) as (A & B & C).
  cbn zeta in *.
  eexists _, _. split; [reflexivity|].
  cbn [EventsRoute.reply_events EventsRoute.seenFile].
  refine (conj A (conj B C)).
Qed.

Lemma POST_events_flags_new_witness :
  exists reply st',
    EventsRoute.POST JoinSamples.byCodeUnit RouteSamples.start ∅
                     RouteSamples.scrapeResults 1000
    = (EventsRoute.success reply, st')
    /\ EventsRoute.evt <$> EventsRoute.reply_events reply = JoinSamples.joined
    /\ EventsRoute.seenFile st'
       = EventsRoute.seenFile RouteSamples.start
         ∪ list_to_set (idsOf JoinSamples.joined)
    /\ forall i e,
         EventsRoute.reply_events reply !! i = Some e ->
         (EventsRoute.isNew e = true
          <-> (EventJoin.globalEventId (EventsRoute.evt e)
                 ∉ EventsRoute.seenFile RouteSamples.start)
              /\ (EventJoin.globalEventId (EventsRoute.evt e)
                    ∉ idsOf (take i JoinSamples.joined))).
Proof.
  apply (POST_events_flags_new JoinSamples.byCodeUnit RouteSamples.start ∅
                               RouteSamples.scrapeResults 1000 JoinSamples.joined).
  vm_compute. reflexivity.
Defined.

(** Two refreshes in a row that scrape the same events: both succeed and
    list the same events, and the second flags none of them as new,
    whatever the file of the seen events held before. *)
Theorem POST_events_again_nothing_new
    (localeCompare : Utf16.codeUnits -> Utf16.codeUnits -> Z)
    (st : EventsRoute.State) (urlCache urlCache' : UrlCache.Cache)
    (scrapeResults : list EventsRoute.ScrapeResult) (updated updated' : Z) :
  exists reply st' reply' st'',
    EventsRoute.POST localeCompare st urlCache scrapeResults updated
    = (EventsRoute.success reply, st')
    /\ EventsRoute.POST localeCompare st' urlCache' scrapeResults updated'
       = (EventsRoute.success reply', st'')
    /\ EventsRoute.evt <$> EventsRoute.reply_events reply'
       = EventsRoute.evt <$> EventsRoute.reply_events reply
    /\ Forall (fun e => EventsRoute.isNew e = false) (EventsRoute.reply_events reply')
    /\ EventsRoute.seenFile st'' = EventsRoute.seenFile st'.
Proof.
  destruct (scrapeAndJoin_Some localeCompare st urlCache scrapeResults updated)
    as (joined & J & E).
  unfold EventsRoute.POST at 1. rewrite E.
  eexists _, _.
  match goal with
  | |- context [EventsRoute.POST localeCompare ?s urlCache' scrapeResults updated'] =>
      destruct (scrapeAndJoin_Some localeCompare s urlCache' scrapeResults updated')
        as (joined' & J' & E')
  end.
  rewrite J in J'. injection J' as <-.
  unfold EventsRoute.POST. rewrite E'. cbn [EventsRoute.seenFile] in *.
  eexists _, _. split; [reflexivity|]. split; [reflexivity|].
  cbn [EventsRoute.reply_events EventsRoute.seenFile].
  destruct (enrich_spec urlCache (EventsRoute.seenFile st) joined) as (A & B & _).
  cbn zeta in A, B. rewrite B.
  destruct (enrich_spec urlCache'
              (EventsRoute.seenFile st ∪ list_to_set (idsOf joined)) joined)
    as (A' & B' & C').
  cbn zeta in A', B', C'.
  refine (conj _ (conj _ _)).
  - rewrite A, A'. reflexivity.
  - apply Forall_lookup. intros i e L.
    destruct (EventsRoute.isNew e) eqn:N; [|reflexivity].
    apply (C' i e L) in N as [N _]. destruct N.
    apply elem_of_union_r, elem_of_list_to_set.
    assert (I : EventsRoute.evt e ∈ joined).
    { rewrite <- A'. apply list_elem_of_fmap. exists e. split; [reflexivity|].
      apply (list_elem_of_lookup_2 _ i), L. }
    unfold idsOf. apply list_elem_of_fmap. exists (EventsRoute.evt e). auto.
  - rewrite B'. clear. apply set_eq. intros x. rewrite !elem_of_union. tauto.
Qed.

(** After a refresh at the time [updated], a [GET] at a time less than
    five minutes later answers from the cache: it returns the events of the
    refresh, flags included, with [fromCache] set, and changes nothing,
    whatever a scrape would have found. *)
Theorem GET_events_from_cache
    (localeCompare : Utf16.codeUnits -> Utf16.codeUnits -> Z)
    (st : EventsRoute.State) (urlCache urlCache' : UrlCache.Cache)
    (scrapeResults scrapeResults' : list EventsRoute.ScrapeResult)
    (updated now updated' : Z) :
  (now - updated < 300000)%Z ->
  exists reply st',
    EventsRoute.POST localeCompare st urlCache scrapeResults updated
    = (EventsRoute.success reply, st')
    /\ EventsRoute.GET localeCompare st' urlCache' now scrapeResults' updated'
       = (EventsRoute.success
            {| EventsRoute.reply_events := EventsRoute.reply_events reply;
               EventsRoute.reply_lastUpdated := updated;
               EventsRoute.reply_fromCache := Some true;
               EventsRoute.reply_sourceDetails := None |},
          st').
Proof.
  intros H.
  destruct (scrapeAndJoin_Some localeCompare st urlCache scrapeResults updated)
    as (joined & J & E).
  unfold EventsRoute.POST. rewrite E.
  eexists _, _. split; [reflexivity|].
  unfold EventsRoute.GET.
  cbn [EventsRoute.eventsCache EventsRoute.lastUpdated EventsRoute.cached_events
       EventsRoute.reply_events].
  cbn zeta.
  destruct (now - updated <? 5 * 60 * 1000)%Z eqn:L; [reflexivity|].
  apply Z.ltb_ge in L. lia.
Qed.

Lemma GET_events_from_cache_witness :
  exists reply st',
    EventsRoute.POST JoinSamples.byCodeUnit RouteSamples.start ∅
                     RouteSamples.scrapeResults 1000
    = (EventsRoute.success reply, st')
    /\ EventsRoute.GET JoinSamples.byCodeUnit st' ∅ 300999 [] 301000
       = (EventsRoute.success
            {| EventsRoute.reply_events := EventsRoute.reply_events reply;
               EventsRoute.reply_lastUpdated := 1000;
               EventsRoute.reply_fromCache := Some true;
               EventsRoute.reply_sourceDetails := None |},
          st').
Proof.
  apply (GET_events_from_cache JoinSamples.byCodeUnit RouteSamples.start ∅ ∅
                               RouteSamples.scrapeResults [] 1000 300999 301000).
  lia.
Defined.
